(* ===== verification/_CoqProject ===== *)
-Q . S2P
Prelude.v
Paging.v
Bytes.v
Sqlite.v
Async.v
Termination.v
Pki.v
DeviceStore.v
DeviceStoreSpec.v
DeviceStoreSqlite.v
Grpc.v
DmsEffects.v
Enrollment.v
Provisioning.v
Heartbeat.v
DmsTelemetry.v
DmsServer.v
RustStr.v
RustNet.v
DmsMain.v
Startup.v
ToyPki.v
Admission.v
OtaStore.v
OtaDispatcher.v
OtaServer.v
OtaJobs.v
OtaClaims.v
OtaTypes.v
OtaPages.v
OtaStreams.v
OtaExamples.v
ArtifactStore.v
ArtifactServer.v
ArtifactClaims.v
ArtifactExamples.v
AgentTelemetry.v
TelemetryClaims.v
TelemetryExamples.v
AgentBoot.v
AgentOta.v
F64.v
F64Bounds.v
AgentHeartbeat.v
AgentLoops.v
AgentWorld.v
Progress.v
Lockout.v
Lineage.v
StoreClaims.v
DmsClaims.v
Suspension.v
ManifestClaims.v
StartupClaims.v
DmsExamples.v
AgentLife.v
AgentClaims.v
FirstBoot.v
Impersonation.v
LoopClaims.v
AgentOtaClaims.v
OtaCycle.v
CycleExamples.v
AgentOnline.v
OnlineClaims.v
AgentSelect.v
AgentExamples.v
Testing.v
StoreTests.v
DmsTests.v
GrpcTests.v
OnlineExamples.v
OtaTests.v
ArtifactTests.v
AgentTests.v
TelemetryTests.v
PkiTests.v
TestExamples.v
