(* ===== verification/Prelude.v ===== *)
(** * robot-fleet: a verification library

    The development models the Rust services of the robot-fleet repository
    and the agent that runs on each robot, and proves what makes them correct.
    File names below are under [src/].

    ** The program

    A robot leaves the factory with a serial, a manufacturing token and the
    Fleet CA's certificate.  The device-management service knows the token from
    its factory manifest.  The robot's agent exchanges the token for a device
    certificate (phase 1, [ProvisionDevice]), the device certificate for an
    operational certificate and a device id (phase 2, [BootstrapEnroll]), and
    then keeps three streams open (phase 3): heartbeats, telemetry, and the
    updates that the OTA service dispatches.  The artifact store holds what
    there is to install.  The services keep their state in SQLite behind a
    mutex and handle requests as asynchronous tasks.

    ** The model

    Code that cannot wait is a function with an [outcome]: a value, an error of
    the Rust type the code has, or a panic ([Prelude]).  Code on a shared object
    is [ST], state passing.  An [async fn] is a tree of its effects ([Async]):
    [run] runs it alone, [reachable] interleaves it with other requests, client
    disconnections and restarts of the process, [crash_after] stops it after
    some effects, and [awp] is a postcondition with a crash condition.  What a
    handler cannot choose (the clock, new UUIDs and keys, failures of the
    engine, the disk and the network) is an environment per effect.

    Shared parts:
    - [Prelude]: outcomes, state passing, machine integers, list lemmas.
      [Paging]: keyset pagination and when it is complete.
      [Bytes]: big-endian integers, slices, [read_exact].
      [RustStr]: [split], [splitn], [trim], [parse] on UTF-8 text.
      [RustNet]: [from_utf8] and the parser of socket addresses.
      [F64]: doubles, by the executable IEEE specification.  [F64Bounds]: each
      operation gives the nearest double to the real result, hence relative
      errors and order; percentages of counters.
    - [Sqlite]: a connection with its open transaction, statements and faults;
      the mutex and its poisoning; [ORDER BY] up to ties, which every
      execution of a statement breaks anew ([SqlOrder]).
    - [Async]: handlers, the task pool, and the lemmas on rights that are
      granted once ([won_at_most_once], [never_won]), on runs of the pool in
      which some requests do not arrive ([limited_step]), on invariants and on
      what a task knows ([informed]); loops that need not end ([loop_for]).
      [Termination]: the height of a handler, that a fair schedule lets a task
      of bounded height end, and runs of loops.
    - [Grpc]: statuses and the messages of [proto/fleet.proto] and
      [proto/artifacts.proto].

    Components and the code they model:
    - [Pki]: [pki/src/csr.rs], [mtls.rs], [error.rs].
    - [DeviceStore]: [device-management-service/src/store/mod.rs], the trait as
      a class and the SQLite implementation; [DeviceStoreSpec] is its contract,
      an atomic step per call, and [DeviceStoreSqlite] proves that the
      implementation meets it.  The handlers are proved against the contract.
    - [DmsEffects], [Enrollment], [Provisioning], [Heartbeat], [DmsServer],
      [DmsTelemetry], [DmsMain]: the handlers of
      [device-management-service/src/], its ports (telemetry is served on the
      fleet port only) and its factory manifest.  The tasks of the two client
      streams are given as loops over an inbound side that need not close
      ([heartbeat_task], [telemetry_task]) and as recursions over the items of
      one that does ([Heartbeat.handle], [stream_telemetry]); [Progress] proves
      that they agree.
    - [Startup]: the three [main.rs] of the services: configuration, database,
      seeding, and the listeners with their trust roots.
    - [OtaStore], [OtaDispatcher], [OtaServer]: [ota-service/src/].
    - [ArtifactStore], [ArtifactServer]: [artifact-store/src/].
    - [AgentBoot], [AgentOta], [AgentHeartbeat], [AgentTelemetry], [AgentLoops]:
      [robot-agent/src/]: the boot, updates, the readings of a heartbeat, the
      simulator's wire format, and the loops of the agent online with the
      [select!] that ends it.  [AgentWorld] puts the boot on the agent's disk
      and in front of the service's own handlers, [AgentOnline] the loops.

    ** The theorems

    - [Admission]: under any interleaving, restart and fault a serial enrolls
      at most once and a token buys at most one device certificate.
      [Lineage]: every stored device was provisioned from the manifest.
      [Lockout]: a right that is spent is never given back, so that a failed
      signing locks a device out.  [Suspension]: in the running service a
      suspension holds until the next change of status, so that no renewal that
      begins after it succeeds; what expiry is reported.  [Impersonation]: the
      token of one serial enrolls another.
    - [StoreClaims]: the SQLite store refines its specification, also in the
      presence of faults; a crash leaves the tables of before or after a call; a
      failed COMMIT leaves a connection that persists nothing more.
    - [DmsClaims], [ManifestClaims]: renewal on every branch, complete device
      listings, heartbeats, the factory manifest and its seeding.
    - [StartupClaims]: no port opens before everything it needs is in place, and
      the ports trust the CAs that the other theorems assume of them; the store
      of a start is the restart that the invariants are proved for.
    - [Progress]: the task of a client stream ends exactly when its client
      closes, fails or stops taking answers; every other request and every boot
      ends after a bounded number of its own steps.
    - [OtaJobs], [OtaClaims], [OtaTypes], [OtaPages], [OtaStreams], [OtaCycle]:
      one active job per device, the type and the life of a stored job,
      creation, dispatch and acknowledgement on every branch, what an
      undelivered job blocks, when listings are complete, what an update stream
      delivers, and the whole cycle of an update through the service and the
      agent.
    - [ArtifactClaims]: artifacts never change, what is published is what is
      got (but for the metadata, which is dropped), listings are sorted and the
      latest artifact is one that no other is newer than, upload keys.
    - [FirstBoot], [AgentLife], [AgentClaims]: a factory-fresh device comes
      online when nothing fails, enrolled boots change nothing, and the losses
      that leave a device that can never come online.
    - [AgentOtaClaims], [LoopClaims], [TelemetryClaims]: nothing is installed
      unverified unless no digest was sent, every command is answered once,
      backoff, readings as the doubles that are sent, acknowledgements, the
      wire format and its reader.
    - [OnlineClaims]: sessions of the agent with the service, from the
      simulator's bytes to the acknowledgements and from the host's readings to
      the stored device, how they end, and how long a disconnected agent
      waits.  [AgentSelect]: the three tasks of phase 3 interleaved on one host,
      until [select!] or Ctrl-C ends them: the agent speaks for its own device
      only, and outlives an outage of the services.
    - [Testing] is a language for the repository's tests, whose effects are
      those of the code they test, with rules to run them on symbolic stores.
      [StoreTests], [DmsTests], [GrpcTests], [OtaTests], [ArtifactTests],
      [AgentTests], [TelemetryTests], [PkiTests] translate the tests of the Rust files and of
      [device-management-service/tests/grpc_integration.rs] and prove that they
      pass whatever the ids, the time, the order of equal rows, the interleaving
      of concurrent requests, and, where the code is generic, the store or the
      channels; the tests of the device store pass on the SQLite store itself.
      The certificates that the tests make with rcgen are hypotheses.
    - [ToyPki] and the [*Examples] files evaluate the theorems at concrete
      stores, schedules, devices and hosts.

    ** Bounds and fuel

    Integers of a machine width wrap or panic as the build profile says
    ([BuildProfile]).  Recursion is structural on requests, streams and lists,
    but for: [strip_all] and [split_ws], whose fuel is the length of the text,
    of which each step consumes at least one byte; [walk], which follows
    cursors with the number of pages as fuel, and whose theorems say that the
    number of rows plus one is enough; [reader], which is defined by
    well-founded recursion on the bytes that are left; and the endless loops
    ([reconnecting], [health_ticks], [loop_for]), whose fuel is the number of
    turns that are looked at; the theorems on them hold for every fuel.  The
    count of manifest entries, a [u32] that is only logged, is unbounded.

    ** Not modelled

    The cryptographic crates, tokio's broadcast channel, the S3 client, SHA-256
    and the transport that serves a listener are parameters with their
    documented behaviour as class laws, where a theorem needs any; a concrete
    instance satisfies each.  A handshake succeeds if the certificate verifies
    against the port's root.  [sin] and [cos] are parameters, since Rust gives
    them no precision.  A task that feeds a stream is cut off after the sends
    that its channel takes.  Counting the receivers of an update and sending it
    are one step, so that a receiver that is dropped between the two is not
    represented.  A suspension is not followed through a COMMIT or ROLLBACK that
    fails and leaves its transaction open ([StoreClaims] shows what that does).
    Logging and
    the counters that only feed it, the choice of the cryptographic provider,
    and the channel sizes of the response streams are left out.  What is not
    covered of the Rust files is module declarations, imports, the parts of
    tests that make certificates and set up sockets, and the integration tests
    that need TLS sockets or a MinIO server ([pki/tests],
    [artifact-store/tests], [robot-agent/tests]).  The Python simulator, the demo scene and the generated protocol code are
    outside the model. *)

From stdpp Require Export prelude strings gmap list sorting.
From Stdlib Require Export ZArith Lia.

#[global] Set Default Proof Using "Type".

(** ** Results of Rust code

    A Rust computation ends with a value, with an error that the caller sees
    ([Result::Err]), or with a panic, which unwinds the task. *)

Inductive outcome (E A : Type) : Type :=
| Ok (a : A)
| Err (e : E)
| Panic.

Arguments Ok {E A} a.
Arguments Err {E A} e.
Arguments Panic {E A}.

(** [outcome] as a monad: its bind is the [?] operator. *)
#[export] Instance outcome_ret E : MRet (outcome E) := fun A a => Ok a.
#[export] Instance outcome_bind E : MBind (outcome E) := fun A B f m =>
  match m with Ok a => f a | Err e => Err e | Panic => Panic end.

(** [Result::map_err]. *)
Definition map_err {E E' A} (f : E -> E') (m : outcome E A) : outcome E' A :=
  match m with Ok a => Ok a | Err e => Err (f e) | Panic => Panic end.

(** [Result::ok]. *)
Definition ok_opt {E A} (m : outcome E A) : option A :=
  match m with Ok a => Some a | _ => None end.

(** [Option::ok_or]. *)
Definition ok_or {E A} (o : option A) (e : E) : outcome E A :=
  match o with Some a => Ok a | None => Err e end.

Definition is_ok {E A} (m : outcome E A) : bool :=
  match m with Ok _ => true | _ => false end.

#[export] Instance outcome_eq_dec E A `{EqDecision E, EqDecision A} :
  EqDecision (outcome E A).
Proof. solve_decision. Defined.

(** [.collect::<Result<Vec<_>, _>>()]: the first error, or every element. *)
Fixpoint collect {E A} (l : list (outcome E A)) : outcome E (list A) :=
  match l with
  | [] => Ok []
  | r :: l => x ← r; xs ← collect l; mret (x :: xs)
  end.

(** ** State passing

    Code that works on a shared object is a function from the object's state
    to an outcome and the next state; an error or a panic keeps the changes
    made before it. *)

Definition ST (S E A : Type) : Type := S -> outcome E A * S.

#[export] Instance ST_ret S E : MRet (ST S E) := fun A a s => (Ok a, s).
#[export] Instance ST_bind S E : MBind (ST S E) := fun A B f m s =>
  match m s with
  | (Ok a, s') => f a s'
  | (Err e, s') => (Err e, s')
  | (Panic, s') => (Panic, s')
  end.

Definition st_err {S E A} (e : E) : ST S E A := fun s => (Err e, s).
Definition st_lift {S E A} (r : outcome E A) : ST S E A := fun s => (r, s).
Definition st_map_err {S E E' A} (f : E -> E') (m : ST S E A) : ST S E' A :=
  fun s => let '(r, s') := m s in (map_err f r, s').

(** [r] is computed by [m] and its result, success or error, is inspected by
    [k] (a Rust [match] on a [Result]); a panic is not caught. *)
Definition st_inspect {S E A E' B}
    (m : ST S E A) (k : outcome E A -> ST S E' B) : ST S E' B :=
  fun s =>
    match m s with
    | (Panic, s') => (Panic, s')
    | (r, s') => k r s'
    end.

(** ** Postconditions of stateful code *)

Definition post {S E A} (m : ST S E A) (Q : outcome E A -> S -> Prop) (s : S) : Prop :=
  Q (fst (m s)) (snd (m s)).

(** ** Machine integers *)

(** Builds differ in what an arithmetic overflow does: with overflow checks
    (the debug profile) it panics, without (release) it wraps. *)
Class BuildProfile := overflow_checks : bool.

Definition i64_min : Z := - 2 ^ 63.
Definition i64_max : Z := 2 ^ 63 - 1.
Definition u64_max : Z := 2 ^ 64 - 1.
Definition u32_max : Z := 2 ^ 32 - 1.
(** [as i64] and [as u64] (and [as usize], on a 64-bit target). *)
Definition wrap_i64 (z : Z) : Z := ((z + 2 ^ 63) mod 2 ^ 64 - 2 ^ 63)%Z.
Definition wrap_u64 (z : Z) : Z := (z mod 2 ^ 64)%Z.
Definition in_i64 (z : Z) : bool := ((i64_min <=? z) && (z <=? i64_max))%Z.
Definition in_u64 (z : Z) : bool := ((0 <=? z) && (z <=? u64_max))%Z.

(** The result [z] of an operation on [i64], or on [u64] and [usize]. *)
Definition i64_arith `{BuildProfile} {E} (z : Z) : outcome E Z :=
  if in_i64 z then Ok z else if overflow_checks then Panic else Ok (wrap_i64 z).
Definition u64_arith `{BuildProfile} {E} (z : Z) : outcome E Z :=
  if in_u64 z then Ok z else if overflow_checks then Panic else Ok (wrap_u64 z).
Definition i64_add `{BuildProfile} {E} (a b : Z) : outcome E Z := i64_arith (a + b).

(** [Vec::get] and [Iterator::take] at a [usize]. *)
Definition get_at {A} (l : list A) (n : Z) : option A :=
  if (n <? Z.of_nat (length l))%Z then l !! Z.to_nat n else None.
Definition take_at {A} (n : Z) (l : list A) : list A :=
  if (n <? Z.of_nat (length l))%Z then take (Z.to_nat n) l else l.

(** ** Decidable propositions as booleans *)

Notation "'dec' P" := (bool_decide P) (at level 10, P at level 9, only parsing).

(** ** Generic lemmas *)

Section outcome_lemmas.
Context {E A B : Type}.

Lemma map_err_Ok {E'} (f : E -> E') (m : outcome E A) a :
  map_err f m = Ok a <-> m = Ok a.
Proof. destruct m; cbn; split; congruence. Qed.

Lemma outcome_bind_Ok (m : outcome E A) (f : A -> outcome E B) b :
  (m ≫= f) = Ok b <-> exists a, m = Ok a /\ f a = Ok b.
Proof.
  destruct m as [a|e|]; cbn; split.
  2: by intros (? & [= <-] & ?).
  all: try by intros (? & ? & ?).
  all: try done. by exists a.
Qed.

Lemma is_ok_true (m : outcome E A) : is_ok m = true <-> exists a, m = Ok a.
Proof. destruct m; cbn; split; try done; [eauto|by intros []..]. Qed.
End outcome_lemmas.

Section post_lemmas.
Context {S E : Type}.

Lemma post_run {A} (m : ST S E A) Q s r s' :
  m s = (r, s') -> post m Q s -> Q r s'.
Proof. unfold post. by intros ->. Qed.

Lemma post_eq {A} (m : ST S E A) x s : post m (fun r s' => (r, s') = x) s -> m s = x.
Proof. unfold post. by rewrite <- surjective_pairing. Qed.

Lemma post_mono {A} (m : ST S E A) (Q Q' : outcome E A -> S -> Prop) s :
  post m Q s -> (forall r s', Q r s' -> Q' r s') -> post m Q' s.
Proof. unfold post. auto. Qed.

Lemma post_bind {A B} (m : ST S E A) (f : A -> ST S E B) Q s :
  post m (fun r s' =>
            match r with
            | Ok a => post (f a) Q s'
            | Err e => Q (Err e) s'
            | Panic => Q Panic s'
            end) s ->
  post (m ≫= f) Q s.
Proof. unfold post, mbind, ST_bind. destruct (m s) as [[a|e|] s'] eqn:?; cbn; auto. Qed.

Lemma post_ret {A} (a : A) Q s : Q (Ok a) s -> post (mret a : ST S E A) Q s.
Proof. done. Qed.

Lemma post_err {A} (e : E) (Q : outcome E A -> S -> Prop) s :
  Q (Err e) s -> post (st_err e : ST S E A) Q s.
Proof. done. Qed.

Lemma post_lift {A} (r : outcome E A) Q s : Q r s -> post (st_lift r : ST S E A) Q s.
Proof. done. Qed.

Lemma post_map_err {E' A} (f : E -> E') (m : ST S E A) Q s :
  post m (fun r s' => Q (map_err f r) s') s -> post (st_map_err f m) Q s.
Proof. unfold post, st_map_err. by destruct (m s). Qed.

Lemma post_inspect {A E' B} (m : ST S E A) (k : outcome E A -> ST S E' B) Q s :
  post m (fun r s' => match r with
                      | Panic => Q Panic s'
                      | _ => post (k r) Q s'
                      end) s ->
  post (st_inspect m k) Q s.
Proof. unfold post, st_inspect. destruct (m s) as [[a|e|] s'] eqn:?; cbn; auto. Qed.
End post_lemmas.

(** [wp] collects the postcondition rules; components add their own. *)
Create HintDb wp.
#[export] Hint Resolve post_ret post_err post_lift post_map_err post_bind post_inspect : wp.

(** One step of a postcondition proof. *)
Ltac wp_step :=
  first
    [ apply post_bind | apply post_map_err | apply post_inspect
    | apply post_ret | apply post_err | apply post_lift ].

(** Collecting gives every element or the error. *)
Lemma collect_Ok {E A} (l : list A) : collect (Ok <$> l) = Ok l :> outcome E (list A).
Proof. induction l as [|x l IH]; cbn; [done|]. by rewrite IH. Qed.

Lemma collect_Err {E A} (l : list A) (e : E) : collect ((Ok <$> l) ++ [Err e]) = Err e.
Proof. induction l as [|x l IH]; cbn; [done|]. by rewrite IH. Qed.

(** *** Integers *)

Lemma i64_arith_in `{BuildProfile} {E} z : in_i64 z = true -> i64_arith z = Ok z :> outcome E Z.
Proof. unfold i64_arith. by intros ->. Qed.

Lemma u64_arith_in `{BuildProfile} {E} z : in_u64 z = true -> u64_arith z = Ok z :> outcome E Z.
Proof. unfold u64_arith. by intros ->. Qed.

Lemma in_i64_spec z : in_i64 z = true <-> (- 2 ^ 63 <= z < 2 ^ 63)%Z.
Proof. unfold in_i64, i64_min, i64_max. lia. Qed.

Lemma in_u64_spec z : in_u64 z = true <-> (0 <= z < 2 ^ 64)%Z.
Proof. unfold in_u64, u64_max. lia. Qed.

Lemma wrap_u64_small z : (0 <= z < 2 ^ 64)%Z -> wrap_u64 z = z.
Proof. intros. unfold wrap_u64. by apply Z.mod_small. Qed.

Lemma wrap_i64_small z : (- 2 ^ 63 <= z < 2 ^ 63)%Z -> wrap_i64 z = z.
Proof. intros. unfold wrap_i64. rewrite Z.mod_small; lia. Qed.

(** [x as i64 as u64] gives the [u64] back. *)
Lemma wrap_u64_i64 z : (0 <= z < 2 ^ 64)%Z -> wrap_u64 (wrap_i64 z) = z.
Proof.
  intros Hz. unfold wrap_u64, wrap_i64.
  rewrite Zminus_mod_idemp_l, Z.add_simpl_r. by apply Z.mod_small.
Qed.

Lemma get_at_small {A} (l : list A) n : (0 <= n)%Z -> get_at l n = l !! Z.to_nat n.
Proof.
  intros Hn. unfold get_at. case_match eqn:Hl; [done|].
  symmetry. apply lookup_ge_None. lia.
Qed.

Lemma take_at_take {A} n (l : list A) : (0 <= n)%Z -> take_at n l = take (Z.to_nat n) l.
Proof. intros Hn. unfold take_at. case_match; [done|]. by rewrite take_ge by lia. Qed.

Section list_lemmas.
Context {A : Type}.

Lemma list_fmap_snd_map_to_list_elem {K} `{Countable K} (m : gmap K A) (x : A) :
  x ∈ (map_to_list m).*2 <-> exists k, m !! k = Some x.
Proof.
  rewrite list_elem_of_fmap. split.
  - intros ([k y] & -> & Hin%elem_of_map_to_list). by exists k.
  - intros [k Hk]. exists (k, x). split; [done|]. by apply elem_of_map_to_list.
Qed.

Lemma StronglySorted_filter (R : A -> A -> Prop) (P : A -> Prop)
    `{forall x, Decision (P x)} (l : list A) :
  StronglySorted R l -> StronglySorted R (filter P l).
Proof.
  induction 1 as [|x l Hs IH Hall]; [constructor|].
  rewrite filter_cons. case_decide; [|done].
  constructor; [done|].
  apply Forall_forall. intros y [_ Hy]%list_elem_of_filter.
  by eapply Forall_forall in Hall.
Qed.

Lemma StronglySorted_app_inv (R : A -> A -> Prop) (l1 l2 : list A) :
  StronglySorted R (l1 ++ l2) ->
  StronglySorted R l1 /\ StronglySorted R l2 /\
  (forall x y, x ∈ l1 -> y ∈ l2 -> R x y).
Proof.
  induction l1 as [|z l1 IH]; cbn; intros Hs.
  - repeat split; [constructor|done|]. intros x y Hx. by apply not_elem_of_nil in Hx.
  - inversion Hs as [|? ? Hs' Hall]; subst. destruct (IH Hs') as (H1 & H2 & H3).
    rewrite Forall_forall in Hall. repeat split; [constructor; [done|]|done|].
    + apply Forall_forall. intros y Hy. apply Hall. set_solver.
    + intros x y [->|Hx]%elem_of_cons Hy; [apply Hall; set_solver|auto].
Qed.

Lemma filter_all (P : A -> Prop) `{forall x, Decision (P x)} (l : list A) :
  (forall x, x ∈ l -> P x) -> filter P l = l.
Proof.
  induction l as [|x l IH]; intros Hl; [done|].
  rewrite filter_cons_True by (apply Hl; set_solver). f_equal. apply IH. set_solver.
Qed.

Lemma filter_none (P : A -> Prop) `{forall x, Decision (P x)} (l : list A) :
  (forall x, x ∈ l -> ~ P x) -> filter P l = [].
Proof.
  induction l as [|x l IH]; intros Hl; [done|].
  rewrite filter_cons_False by (apply Hl; set_solver). apply IH. set_solver.
Qed.

Lemma StronglySorted_impl (R R' : relation A) (l : list A) :
  (forall x y, R x y -> R' x y) -> StronglySorted R l -> StronglySorted R' l.
Proof.
  intros HR. induction 1 as [|x l Hs IH Hall]; constructor; [done|].
  eapply Forall_impl; [exact Hall|]. auto.
Qed.

(** A sublist as long as the list is the list. *)
Lemma sublist_full (l1 l2 : list A) : sublist l1 l2 -> length l2 <= length l1 -> l1 = l2.
Proof.
  induction 1 as [|x l1 l2 Hs IH|x l1 l2 Hs IH]; cbn; intros Hl; [done|..].
  - by rewrite IH by lia.
  - pose proof (sublist_length _ _ Hs). lia.
Qed.
End list_lemmas.

(** What every step keeps holds after any number of steps. *)
Lemma rtc_keeps {A} (R : relation A) (P : A -> Prop) x y :
  (forall x y, R x y -> P x -> P y) -> rtc R x y -> P x -> P y.
Proof. intros HR. induction 1 as [|x y z Hxy _ IH]; eauto. Qed.
