(* ===== verification/Paging.v ===== *)
(** * Keyset pagination

    Both list methods of the fleet page through a sorted result: a page is the
    first rows after a cursor, and its own cursor is the key of its last row.
    When keys are distinct, following the cursors gives every row once. *)

From S2P Require Import Prelude.

Section paging.
Context {A K : Type} (key : A -> K) (before : relation K) `{RelDecision K K before}.

(** The rows after a cursor. *)
Definition after (c : option K) (l : list A) : list A :=
  match c with None => l | Some k => filter (fun x => before k (key x)) l end.

(** One page of at most [n] rows, and the cursor if more follow. *)
Definition page (n : nat) (l : list A) : list A * option K :=
  (take n l, if decide (n < length l) then key <$> last (take n l) else None).

(** Follow the cursors of [fetch]; [None] when [fuel] pages do not reach the end. *)
Fixpoint walk (fetch : option K -> list A * option K) (fuel : nat) (c : option K) :
  option (list A) :=
  match fuel with
  | 0 => None
  | S fuel =>
      match fetch c with
      | (rows, None) => Some rows
      | (rows, Some k) => rest ← walk fetch fuel (Some k); Some (rows ++ rest)
      end
  end.

Context `{!Transitive before, !Irreflexive before}.

Definition ordered (l : list A) : Prop := StronglySorted (fun x y => before (key x) (key y)) l.

Lemma ordered_app (l1 l2 : list A) :
  ordered (l1 ++ l2) ->
  ordered l2 /\ forall x y, x ∈ l1 -> y ∈ l2 -> before (key x) (key y).
Proof. intros Ho. by apply StronglySorted_app_inv in Ho as (_ & ? & ?). Qed.

(** After the key of the last row of a prefix come exactly the other rows. *)
Lemma after_prefix l1 x l2 :
  ordered ((l1 ++ [x]) ++ l2) -> after (Some (key x)) ((l1 ++ [x]) ++ l2) = l2.
Proof using All.
  intros Ho. cbn. rewrite filter_app.
  destruct (ordered_app _ _ Ho) as [_ Hlt].
  rewrite <- app_assoc in Ho. destruct (ordered_app _ _ Ho) as [_ Hlt'].
  rewrite filter_none, filter_all; [done| |].
  - intros y Hy. apply Hlt; set_solver.
  - intros y [Hy|<-%list_elem_of_singleton]%elem_of_app Hb; [|by eapply irreflexivity].
    assert (before (key y) (key x)) as Hyx by (apply Hlt'; set_solver).
    eapply irreflexivity; [done|]. by etrans.
Qed.

(** The cursors that a walk over [l] meets. *)
Definition cursor_of (l : list A) (c : option K) : Prop :=
  match c with None => True | Some k => exists x, x ∈ l /\ k = key x end.

Lemma walk_from fetch n l1 l2 c :
  0 < n -> ordered (l1 ++ l2) ->
  (forall c, cursor_of (l1 ++ l2) c -> fetch c = page n (after c (l1 ++ l2))) ->
  cursor_of (l1 ++ l2) c ->
  after c (l1 ++ l2) = l2 ->
  forall fuel, length l2 < fuel -> walk fetch fuel c = Some l2.
Proof using All.
  intros Hn. remember (length l2) as len eqn:Hlen. revert l1 l2 c Hlen.
  induction len as [len IH] using lt_wf_ind. intros l1 l2 c Hlen Ho Hf Hc Ha fuel Hfuel.
  destruct fuel as [|fuel]; [lia|]. cbn. rewrite Hf, Ha by done. unfold page.
  case_decide as Hlt; [|by rewrite take_ge by lia].
  destruct (last (take n l2)) as [x|] eqn:Hx.
  2: { apply last_None in Hx. apply (f_equal length) in Hx. rewrite length_take in Hx. cbn in Hx. lia. }
  cbn. apply last_Some in Hx as [p Hp].
  assert (l1 ++ l2 = ((l1 ++ p) ++ [x]) ++ drop n l2) as E.
  { rewrite <- (take_drop n l2) at 1. rewrite Hp. by rewrite !app_assoc. }
  rewrite (IH (length (drop n l2)) ltac:(rewrite length_drop; lia)
             ((l1 ++ p) ++ [x]) (drop n l2) (Some (key x))); cbn.
  - by rewrite take_drop.
  - done.
  - by rewrite <- E.
  - intros c'. rewrite <- E. apply Hf.
  - exists x. split; [|done]. rewrite !elem_of_app, list_elem_of_singleton. auto.
  - rewrite E in Ho. by apply after_prefix.
  - rewrite length_drop. lia.
Qed.

(** The walk ends after at most one page per row, with every row once and in
    order. *)
Lemma walk_all fetch n l :
  0 < n -> ordered l -> (forall c, cursor_of l c -> fetch c = page n (after c l)) ->
  walk fetch (S (length l)) None = Some l.
Proof using All. intros Hn Ho Hf. apply (walk_from fetch n [] l None); done || lia. Qed.
End paging.

(** A client that sees other values for the rows, with the same cursors. *)
Lemma walk_fmap {A B K} (g : A -> B) (fetch : option K -> list A * option K) fuel c :
  walk (fun c => (map g (fetch c).1, (fetch c).2)) fuel c = option_map (map g) (walk fetch fuel c).
Proof.
  revert c. induction fuel as [|fuel IH]; intros c; cbn; [done|].
  destruct (fetch c) as [rows [k|]]; cbn; [|done]. rewrite IH.
  destruct (walk fetch fuel (Some k)); cbn; [|done]. by rewrite map_app.
Qed.

(** Fetches that agree on the cursors a walk meets give the same walk. *)
Lemma walk_ext {A K} (f g : option K -> list A * option K) (ok : option K -> Prop) fuel c :
  (forall c, ok c -> f c = g c) ->
  (forall c k, ok c -> (g c).2 = Some k -> ok (Some k)) ->
  ok c -> walk f fuel c = walk g fuel c.
Proof.
  intros Hfg Hok. revert c. induction fuel as [|fuel IH]; intros c Hc; cbn; [done|].
  rewrite Hfg by done. specialize (Hok c).
  destruct (g c) as [rows [k|]]; [|done]. by rewrite IH by auto.
Qed.

(** Keys in the bytewise order of strings. *)
Definition str_lt (s1 s2 : string) : Prop := String.le s1 s2 /\ s1 <> s2.
Definition str_gt (s1 s2 : string) : Prop := str_lt s2 s1.

#[export] Instance str_lt_dec : RelDecision str_lt.
Proof. intros s1 s2. unfold str_lt. apply _. Defined.
#[export] Instance str_gt_dec : RelDecision str_gt.
Proof. intros s1 s2. unfold str_gt. apply _. Defined.
#[export] Instance str_lt_irrefl : Irreflexive str_lt.
Proof. by intros s [_ ?]. Qed.
#[export] Instance str_gt_irrefl : Irreflexive str_gt.
Proof. by intros s [_ ?]. Qed.
#[export] Instance str_lt_trans : Transitive str_lt.
Proof.
  intros s1 s2 s3 [H12 N12] [H23 N23]. split; [by etrans|]. intros ->.
  apply N12. by apply (anti_symm String.le).
Qed.
#[export] Instance str_gt_trans : Transitive str_gt.
Proof. intros s1 s2 s3 H1 H2. by apply (str_lt_trans s3 s2 s1). Qed.

(** A list sorted by a key is strictly sorted when the keys are distinct. *)
Lemma sorted_strict {A} (key : A -> string) (R : relation A) (before : relation string) l :
  (forall x y, R x y -> key x <> key y -> before (key x) (key y)) ->
  StronglySorted R l -> NoDup (key <$> l) -> ordered key before l.
Proof.
  intros HR. induction 1 as [|x l Hs IH Hall]; [constructor|].
  rewrite fmap_cons. intros [Hx Hnd]%NoDup_cons. constructor; [by apply IH|].
  rewrite Forall_forall in *. intros y Hy. apply HR; [by apply Hall|].
  intros E. apply Hx. rewrite E. by apply list_elem_of_fmap_2.
Qed.
