(* ===== verification/Bytes.v ===== *)
(** * Bytes and big-endian integers

    Rust's [from_be_bytes] and [to_be_bytes] on lists of bytes, slices, and
    reading exactly so many bytes from a stream. *)

From Stdlib Require Import Init.Byte Strings.Byte.
From S2P Require Import Prelude.

Definition byte_val (b : byte) : Z := Z.of_N (Byte.to_N b).
(** [z as u8]. *)
Definition byte_of (z : Z) : byte := default x00 (Byte.of_N (Z.to_N (z mod 256))).

(** The unsigned integer of a big-endian byte string, and its [n] bytes. *)
Definition from_be (bs : list byte) : Z := fold_left (fun acc b => acc * 256 + byte_val b)%Z bs 0%Z.
Fixpoint to_be (n : nat) (z : Z) : list byte :=
  match n with
  | 0 => []
  | S n => byte_of (z / 256 ^ Z.of_nat n) :: to_be n z
  end.

(** [&bs[a..b]]: a panic unless [a <= b <= bs.len()]. *)
Definition slice {E} (bs : list byte) (a b : Z) : outcome E (list byte) :=
  if ((0 <=? a) && (a <=? b) && (b <=? Z.of_nat (length bs)))%Z
  then Ok (take (Z.to_nat (b - a)) (drop (Z.to_nat a) bs))
  else Panic.

(** [read_exact] into a buffer of [n] bytes: what was read and what follows,
    or nothing when the stream ends first. *)
Definition read_exact (n : Z) (bs : list byte) : option (list byte * list byte) :=
  if (Z.of_nat (length bs) <? n)%Z then None
  else Some (take (Z.to_nat n) bs, drop (Z.to_nat n) bs).

(** ** Lemmas *)

Lemma byte_val_bounds b : (0 <= byte_val b < 256)%Z.
Proof. unfold byte_val. pose proof (Byte.to_N_bounded b). lia. Qed.

Lemma byte_of_val z : byte_val (byte_of z) = (z mod 256)%Z.
Proof.
  unfold byte_val, byte_of. pose proof (Z.mod_pos_bound z 256 eq_refl).
  destruct (Byte.of_N (Z.to_N (z mod 256))) as [b|] eqn:Hb; cbn.
  - apply Byte.to_of_N in Hb. rewrite Hb. lia.
  - apply Byte.of_N_None_iff in Hb. lia.
Qed.

Lemma byte_val_of b : byte_of (byte_val b) = b.
Proof.
  unfold byte_of. rewrite Z.mod_small by apply byte_val_bounds.
  unfold byte_val. rewrite N2Z.id. by rewrite Byte.of_to_N.
Qed.

Lemma to_be_length n z : length (to_be n z) = n.
Proof. induction n; cbn; congruence. Qed.

Lemma from_be_snoc_acc bs acc :
  fold_left (fun acc b => acc * 256 + byte_val b)%Z bs acc =
  (acc * 256 ^ Z.of_nat (length bs) + from_be bs)%Z.
Proof.
  revert acc. unfold from_be. induction bs as [|b bs IH]; intros acc; cbn [fold_left length].
  - cbn. lia.
  - rewrite IH, (IH (0 * 256 + byte_val b)%Z). rewrite Nat2Z.inj_succ, Z.pow_succ_r by lia. lia.
Qed.

Lemma from_be_cons b bs :
  from_be (b :: bs) = (byte_val b * 256 ^ Z.of_nat (length bs) + from_be bs)%Z.
Proof. unfold from_be at 1. cbn [fold_left]. by rewrite from_be_snoc_acc. Qed.

Lemma from_be_bounds bs : (0 <= from_be bs < 256 ^ Z.of_nat (length bs))%Z.
Proof.
  induction bs as [|b bs IH]; [cbn; lia|]. rewrite from_be_cons. cbn [length].
  rewrite Nat2Z.inj_succ, Z.pow_succ_r by lia. pose proof (byte_val_bounds b). nia.
Qed.

(** Big-endian decoding inverts encoding, modulo the width. *)
Lemma from_to_be n z : from_be (to_be n z) = (z mod 256 ^ Z.of_nat n)%Z.
Proof.
  induction n as [|n IH]; cbn [to_be]; [cbn; by rewrite Z.mod_1_r|].
  rewrite from_be_cons, to_be_length, byte_of_val, IH.
  rewrite Nat2Z.inj_succ, Z.pow_succ_r by lia.
  assert (0 < 256 ^ Z.of_nat n)%Z as Hp by (apply Z.pow_pos_nonneg; lia).
  rewrite (Z.mul_comm 256). rewrite Z.rem_mul_r by lia. lia.
Qed.

Lemma slice_ok {E} bs a b :
  (0 <= a <= b)%Z -> (b <= Z.of_nat (length bs))%Z ->
  slice bs a b = Ok (take (Z.to_nat (b - a)) (drop (Z.to_nat a) bs)) :> outcome E _.
Proof. intros. unfold slice. case_match; [done|lia]. Qed.

Lemma read_exact_app n bs rest :
  Z.of_nat (length bs) = n -> read_exact n (bs ++ rest) = Some (bs, rest).
Proof.
  intros Hn. unfold read_exact. rewrite length_app.
  destruct (Z.ltb_spec (Z.of_nat (length bs + length rest)) n); [lia|].
  replace (Z.to_nat n) with (length bs) by lia. by rewrite take_app_length, drop_app_length.
Qed.

Lemma read_exact_length n bs got rest :
  (0 <= n)%Z -> read_exact n bs = Some (got, rest) ->
  Z.of_nat (length got) = n /\ Z.of_nat (length rest) = (Z.of_nat (length bs) - n)%Z /\ bs = got ++ rest.
Proof.
  unfold read_exact. intros Hn. destruct (Z.ltb_spec (Z.of_nat (length bs)) n); [done|].
  intros [= <- <-]. rewrite length_take, length_drop, take_drop. repeat split; lia || done.
Qed.
