(* ===== verification/Sqlite.v ===== *)
(** * SQLite connections and the SQL the stores contain

    Every store of the fleet keeps its rows in SQLite behind a [Mutex].  The
    SQL statements are part of the source; this file gives the few statement
    forms they use their documented meaning: a statement is atomic, it runs in
    its own transaction unless one is open, [BEGIN IMMEDIATE] fails when one is
    open, and [ROLLBACK] restores the tables as they were at [BEGIN].  The
    engine can fail at any call; which call fails and how is chosen by the
    environment ([sql_fault]).  Tables are a type parameter. *)

From S2P Require Import Prelude.

(** ** rusqlite errors *)

(** [rusqlite::ErrorCode], of which the source distinguishes one. *)
Inductive ErrorCode := ConstraintViolation | OtherCode.

(** [rusqlite::Error], with the variants the source distinguishes. *)
Inductive RusqliteError :=
| SqliteFailure (code : ErrorCode)
| QueryReturnedNoRows
| InvalidQuery.

#[export] Instance ErrorCode_eq_dec : EqDecision ErrorCode.
Proof. solve_decision. Defined.
#[export] Instance RusqliteError_eq_dec : EqDecision RusqliteError.
Proof. solve_decision. Defined.

(** ** The environment of one store call *)

(** How a call into the engine fails: the statement has no effect and an open
    transaction stays open (as with [SQLITE_BUSY]), or the engine also rolls
    the open transaction back (as with [SQLITE_FULL] or [SQLITE_IOERR]). *)
Inductive fault := NoFault | StmtFault | AbortFault.

(** The engine calls of one store operation: its [BEGIN IMMEDIATE], its n-th
    statement, its [COMMIT] and its [ROLLBACK]. *)
Inductive site := AtBegin | AtStmt (n : nat) | AtCommit | AtRollback.

Record Env := mkEnv {
  clock : Z;            (** [now_utc()], in nanoseconds since the epoch *)
  fresh_uuid : string;  (** [Uuid::new_v4().to_string()] *)
  sql_now : string;     (** SQL [datetime('now')], as text *)
  sql_fault : site -> fault;
  peer_alive : bool     (** the receiving half of a response channel is still held *)
}.

(** [OffsetDateTime::unix_timestamp]: whole seconds. *)
Definition unix_timestamp (t : Z) : Z := t / 1000000000.

Definition no_faults : site -> fault := fun _ => NoFault.

(** The engine never leaves a transaction open when its end fails. *)
Definition ends_cleanly (env : Env) : Prop :=
  sql_fault env AtCommit <> StmtFault /\ sql_fault env AtRollback <> StmtFault.

(** ** A connection *)

Record Conn (T : Type) := mkConn {
  live : T;            (** the tables as this connection sees them *)
  saved : option T     (** the tables at [BEGIN], while a transaction is open *)
}.
Arguments mkConn {T} _ _.
Arguments live {T} _.
Arguments saved {T} _.

(** What survives a crash of the process. *)
Definition durable {T} (c : Conn T) : T := default (live c) (saved c).

Definition roll_back {T} (c : Conn T) : Conn T := mkConn (durable c) None.

Abbreviation sql T := (ST (Conn T) RusqliteError).

Section statements.
Context {T : Type} (env : Env).

Definition engine_failure {A} (f : fault) : sql T A := fun c =>
  (Err (SqliteFailure OtherCode),
   match f with AbortFault => roll_back c | _ => c end).

(** [conn.execute] / [conn.query_row]: the statement's meaning [f] gives its
    result and the new tables, or its error. *)
Definition statement {A} (n : nat) (f : T -> outcome RusqliteError (A * T)) : sql T A :=
  fun c =>
    match sql_fault env (AtStmt n) with
    | NoFault =>
        match f (live c) with
        | Ok (a, t) => (Ok a, mkConn t (saved c))
        | Err e => (Err e, c)
        | Panic => (Panic, c)
        end
    | flt => engine_failure flt c
    end.

(** A statement that only reads. *)
Definition query {A} (n : nat) (f : T -> outcome RusqliteError A) : sql T A :=
  statement n (fun t => a ← f t; mret (a, t)).

(** [conn.query_row]: the first row, or [QueryReturnedNoRows]. *)
Definition query_row {A} (n : nat) (f : T -> option A) : sql T A :=
  query n (fun t => ok_or (f t) QueryReturnedNoRows).

(** [conn.execute_batch("BEGIN IMMEDIATE")]. *)
Definition begin_immediate : sql T unit := fun c =>
  match sql_fault env AtBegin, saved c with
  | NoFault, None => (Ok tt, mkConn (live c) (Some (live c)))
  | NoFault, Some _ => (Err (SqliteFailure OtherCode), c)
  | flt, _ => engine_failure flt c
  end.

(** [conn.execute_batch("COMMIT")]. *)
Definition commit : sql T unit := fun c =>
  match sql_fault env AtCommit, saved c with
  | NoFault, Some _ => (Ok tt, mkConn (live c) None)
  | NoFault, None => (Err (SqliteFailure OtherCode), c)
  | flt, _ => engine_failure flt c
  end.

(** [conn.execute_batch("ROLLBACK")]. *)
Definition rollback : sql T unit := fun c =>
  match sql_fault env AtRollback, saved c with
  | NoFault, Some _ => (Ok tt, roll_back c)
  | NoFault, None => (Err (SqliteFailure OtherCode), c)
  | flt, _ => engine_failure flt c
  end.

(** [conn.prepare]. *)
Definition prepare (n : nat) : sql T unit := query n (fun _ => Ok tt).

(** The rows of a statement, one engine call per row and one for the end; a
    call that fails ends the iteration with an error item. *)
Fixpoint step_rows {A} (n : nat) (rows : list A) (c : Conn T) :
  list (outcome RusqliteError A) * Conn T :=
  match sql_fault env (AtStmt n) with
  | NoFault =>
      match rows with
      | [] => ([], c)
      | x :: rest => let '(l, c') := step_rows (S n) rest c in (Ok x :: l, c')
      end
  | AbortFault => ([Err (SqliteFailure OtherCode)], roll_back c)
  | StmtFault => ([Err (SqliteFailure OtherCode)], c)
  end.

(** [stmt.query_map], with every item asked for; it does not fail itself. *)
Definition query_map {E A} (n : nat) (f : T -> list A) :
  ST (Conn T) E (list (outcome RusqliteError A)) :=
  fun c => let '(l, c') := step_rows n (f (live c)) c in (Ok l, c').
End statements.

(** ** [Mutex<Connection>] *)

Record Mutex (T : Type) := mkMutex { guarded : Conn T; poisoned : bool }.
Arguments mkMutex {T} _ _.
Arguments guarded {T} _.
Arguments poisoned {T} _.

(** [body] runs with the lock held.  A panic while it is held poisons the
    mutex; [on_poison] is what the caller makes of a poisoned one. *)
Definition with_lock {T E A} (on_poison : outcome E A) (body : ST (Conn T) E A) :
  ST (Mutex T) E A := fun m =>
  if poisoned m then (on_poison, m)
  else
    let '(r, c) := body (guarded m) in
    (r, mkMutex c (match r with Panic => true | _ => false end)).

(** Opening a database file: the tables on disk, nothing pending. *)
Definition open_conn {T} (t : T) : Conn T := mkConn t None.
Definition new_mutex {T} (t : T) : Mutex T := mkMutex (open_conn t) false.

(** Some engine call of the operation fails. *)
Definition faulty (env : Env) : Prop := exists x, sql_fault env x <> NoFault.

(** A connection between calls: no transaction is open and the lock is sound. *)
Definition idle {T} (m : Mutex T) : Prop := saved (guarded m) = None /\ poisoned m = false.

(** ** ORDER BY and LIMIT *)

(** [LIMIT n]: a negative limit is no limit. *)
Definition limit_rows {A} (n : Z) (l : list A) : list A :=
  if (n <? 0)%Z then l else take (Z.to_nat n) l.

(** [ORDER BY]: the engine sorts; which of the orders that agree with the
    sort key it produces is its choice, made anew by every execution: the order
    of equal keys in one statement (the [n]-th of the call with environment
    [env]) says nothing about their order in another. *)
Class SqlOrder := {
  order_by (env : Env) (n : nat) {A} (R : relation A) `{RelDecision A A R} : list A -> list A;
  order_by_perm env n {A} (R : relation A) `{RelDecision A A R} l : order_by env n R l ≡ₚ l;
  order_by_sorted env n {A} (R : relation A) `{RelDecision A A R, !Transitive R, !Total R} l :
    StronglySorted R (order_by env n R l)
}.

(** ** Lemmas *)

Section statement_lemmas.
Context {T : Type} (env : Env).
Implicit Types c : Conn T.

Lemma durable_roll_back c : durable (roll_back c) = durable c.
Proof. done. Qed.

Lemma durable_idle c : saved c = None -> durable c = live c.
Proof. unfold durable. by intros ->. Qed.

(** Postconditions of one statement: it fails without effect, it fails and
    rolls back, or it runs. *)
Lemma post_statement {A} n (f : T -> outcome RusqliteError (A * T)) Q c :
  (faulty env -> Q (Err (SqliteFailure OtherCode)) c) ->
  (faulty env -> Q (Err (SqliteFailure OtherCode)) (roll_back c)) ->
  match f (live c) with
  | Ok (a, t) => Q (Ok a) (mkConn t (saved c))
  | Err e => Q (Err e) c
  | Panic => Q Panic c
  end ->
  post (statement env n f) Q c.
Proof.
  intros H1 H2 H3. unfold post, statement, engine_failure.
  destruct (sql_fault _ _) eqn:Hf; cbn; [|apply H1|apply H2].
  2, 3: eexists; by rewrite Hf.
  destruct (f (live c)) as [[a t]|e|]; done.
Qed.

Lemma post_query {A} n (f : T -> outcome RusqliteError A) Q c :
  (faulty env -> Q (Err (SqliteFailure OtherCode)) c) ->
  (faulty env -> Q (Err (SqliteFailure OtherCode)) (roll_back c)) ->
  Q (f (live c)) c ->
  post (query env n f) Q c.
Proof.
  intros H1 H2 H3. apply post_statement; try done.
  destruct c as [l s]. cbn in *. by destruct (f l).
Qed.

Lemma post_query_row {A} n (f : T -> option A) Q c :
  (faulty env -> Q (Err (SqliteFailure OtherCode)) c) ->
  (faulty env -> Q (Err (SqliteFailure OtherCode)) (roll_back c)) ->
  match f (live c) with
  | Some a => Q (Ok a) c
  | None => Q (Err QueryReturnedNoRows) c
  end ->
  post (query_row env n f) Q c.
Proof. intros H1 H2 H3. apply post_query; try done. by destruct (f (live c)). Qed.

Lemma post_prepare n Q c :
  (faulty env -> Q (Err (SqliteFailure OtherCode)) c) ->
  (faulty env -> Q (Err (SqliteFailure OtherCode)) (roll_back c)) ->
  Q (Ok tt) c ->
  post (prepare env n) Q c.
Proof. intros H1 H2 H3. by apply post_query. Qed.

(** Without a fault every row arrives; with one, the rows before it and an
    error item. *)
Lemma step_rows_spec {A} n (rows : list A) c :
  ((step_rows env n rows c).1 = (Ok <$> rows) /\ (step_rows env n rows c).2 = c) \/
  (faulty env /\
   exists k, (step_rows env n rows c).1 = (Ok <$> take k rows) ++ [Err (SqliteFailure OtherCode)] /\
     ((step_rows env n rows c).2 = c \/ (step_rows env n rows c).2 = roll_back c)).
Proof.
  revert n. induction rows as [|x rows IH]; intros n; cbn.
  - destruct (sql_fault _ _) eqn:Hf; [by left|..]; right; (split; [eexists; by rewrite Hf|]);
      exists 0; auto.
  - destruct (sql_fault _ _) eqn:Hf.
    + specialize (IH (S n)). destruct (step_rows env (S n) rows c) as [l c']. cbn in *.
      destruct IH as [[-> ->]|(Hfa & k & -> & Hc)]; [by left|]. right. split; [done|].
      exists (S k). auto.
    + right. split; [eexists; by rewrite Hf|]. exists 0. auto.
    + right. split; [eexists; by rewrite Hf|]. exists 0. auto.
Qed.

Lemma post_query_map {E A} n (f : T -> list A)
    (Q : outcome E (list (outcome RusqliteError A)) -> Conn T -> Prop) c :
  Q (Ok (Ok <$> f (live c))) c ->
  (faulty env -> forall k c', c' = c \/ c' = roll_back c ->
     Q (Ok ((Ok <$> take k (f (live c))) ++ [Err (SqliteFailure OtherCode)])) c') ->
  post (query_map env n f) Q c.
Proof.
  intros H1 H2. unfold post, query_map.
  destruct (step_rows_spec n (f (live c)) c) as [[E1 E2]|(Hf & k & E1 & E2)];
    destruct (step_rows env n (f (live c)) c) as [l c']; cbn in *; subst; auto.
Qed.

Lemma post_begin Q c :
  (faulty env -> Q (Err (SqliteFailure OtherCode)) c) ->
  (faulty env -> Q (Err (SqliteFailure OtherCode)) (roll_back c)) ->
  (saved c <> None -> Q (Err (SqliteFailure OtherCode)) c) ->
  (saved c = None -> Q (Ok tt) (mkConn (live c) (Some (live c)))) ->
  post (begin_immediate env) Q c.
Proof.
  intros H1 H2 H3 H4. unfold post, begin_immediate, engine_failure.
  destruct (sql_fault _ _) eqn:Hf; cbn; [|apply H1|apply H2].
  2, 3: eexists; by rewrite Hf.
  destruct (saved c) eqn:Hs; cbn; auto.
Qed.

(** [COMMIT] makes the visible tables durable, or it fails: the transaction
    stays open only for a [StmtFault]. *)
Lemma post_commit Q c :
  (saved c <> None -> Q (Ok tt) (mkConn (live c) None)) ->
  (saved c = None -> Q (Err (SqliteFailure OtherCode)) c) ->
  (sql_fault env AtCommit = StmtFault -> Q (Err (SqliteFailure OtherCode)) c) ->
  (faulty env -> Q (Err (SqliteFailure OtherCode)) (roll_back c)) ->
  post (commit env) Q c.
Proof.
  intros H1 H2 H3 H4. unfold post, commit, engine_failure.
  destruct (sql_fault _ _) eqn:Hf; cbn; [|by apply H3|apply H4; eexists; by rewrite Hf].
  destruct (saved c) eqn:Hs; cbn; auto.
Qed.

Lemma post_rollback Q c :
  Q (Ok tt) (roll_back c) ->
  (saved c = None -> Q (Err (SqliteFailure OtherCode)) c) ->
  (sql_fault env AtRollback = StmtFault -> Q (Err (SqliteFailure OtherCode)) c) ->
  Q (Err (SqliteFailure OtherCode)) (roll_back c) ->
  post (rollback env) Q c.
Proof.
  intros H1 H2 H3 H4. unfold post, rollback, engine_failure.
  destruct (sql_fault _ _), (saved c) eqn:Hs; cbn; auto.
Qed.
End statement_lemmas.

Lemma post_with_lock {T E A} (on_poison : outcome E A) (body : ST (Conn T) E A) Q m :
  (poisoned m = true -> Q on_poison m) ->
  (poisoned m = false ->
   post body (fun r c => Q r (mkMutex c (match r with Panic => true | _ => false end)))
     (guarded m)) ->
  post (with_lock on_poison body) Q m.
Proof.
  unfold post, with_lock. intros H1 H2.
  destruct (poisoned m); [by apply H1|].
  specialize (H2 eq_refl). by destruct (body (guarded m)).
Qed.

#[export] Hint Resolve post_statement post_query post_query_row post_with_lock
  post_prepare post_query_map : wp.

Lemma limit_rows_elem {A} n (l : list A) x : x ∈ limit_rows n l -> x ∈ l.
Proof.
  unfold limit_rows. destruct (n <? 0)%Z; [done|].
  intros Hx. rewrite <- (take_drop (Z.to_nat n) l). set_solver.
Qed.

(** *** Code that only reads

    With no transaction open it leaves the connection as it found it. *)

Definition reads {T E A} (m : ST (Conn T) E A) : Prop :=
  forall c, saved c = None -> post m (fun _ c' => c' = c) c.

Lemma roll_back_idle {T} (c : Conn T) : saved c = None -> roll_back c = c.
Proof. destruct c. cbn. by intros ->. Qed.

Section reads.
Context {T E : Type}.

Lemma reads_bind {A B} (m : ST (Conn T) E A) (f : A -> ST (Conn T) E B) :
  reads m -> (forall a, reads (f a)) -> reads (m ≫= f).
Proof.
  intros Hm Hf c Hc. apply post_bind. eapply post_mono; [by apply Hm|].
  intros [a|e|] c' ->; [by apply Hf|done..].
Qed.

Lemma reads_ret {A} (a : A) : reads (mret a : ST (Conn T) E A).
Proof. done. Qed.

Lemma reads_err {A} (e : E) : reads (st_err e : ST (Conn T) E A).
Proof. done. Qed.

Lemma reads_lift {A} (r : outcome E A) : reads (st_lift r : ST (Conn T) E A).
Proof. done. Qed.

Lemma reads_map_err {E' A} (f : E' -> E) (m : ST (Conn T) E' A) :
  reads m -> reads (st_map_err f m).
Proof. intros Hm c Hc. by apply post_map_err, Hm. Qed.

Lemma reads_query_map {A} env n (f : T -> list A) :
  reads (query_map env n f : ST (Conn T) E _).
Proof.
  intros c Hc. apply post_query_map; [done|].
  intros _ k c' [-> | ->]; [done|by apply roll_back_idle].
Qed.
End reads.

Lemma reads_query {T A} env n (f : T -> outcome RusqliteError A) : reads (query env n f).
Proof. intros c Hc. apply post_query; rewrite ?roll_back_idle; done. Qed.

Lemma reads_query_row {T A} env n (f : T -> option A) : reads (query_row env n f).
Proof. apply reads_query. Qed.

#[export] Hint Resolve reads_ret reads_err reads_lift reads_map_err reads_query_map
  reads_query reads_query_row : reads.

(** Goals [reads m] by the shape of [m]. *)
Ltac reads_tac :=
  repeat match goal with
    | |- reads (mbind _ _) => apply reads_bind; [|intros ?]
    | |- reads (if ?b then _ else _) => destruct b
    | |- reads (let '(_, _) := ?p in _) => destruct p
    end; auto with reads.

(** Under the lock it leaves the mutex unless it panics. *)
Lemma post_locked_reads {T E A} (on_poison : outcome E A) (body : ST (Conn T) E A) m :
  reads body -> saved (guarded m) = None ->
  post (with_lock on_poison body)
    (fun r m' => guarded m' = guarded m /\ (r <> Panic -> m' = m)) m.
Proof.
  intros Hb Hm. apply post_with_lock; [done|]. intros Hp.
  eapply post_mono; [by apply Hb|]. cbn. intros r c' ->. split; [done|].
  destruct m as [g p]. cbn in *. subst. by destruct r.
Qed.

(** Dropping the error items keeps the rows. *)
Lemma omap_ok_opt_Ok {E A} (l : list A) : omap ok_opt (Ok (E := E) <$> l) = l.
Proof. induction l as [|x l IH]; cbn; [done|]. by rewrite IH. Qed.

Lemma omap_ok_opt_Err {E A} (l : list A) (e : E) : omap ok_opt ((Ok <$> l) ++ [Err e]) = l.
Proof. rewrite omap_app, omap_ok_opt_Ok. cbn. apply app_nil_r. Qed.

(** A sort that keeps the order of equal keys is one choice of the engine. *)
Program Definition stable_order : SqlOrder := {| order_by _ _ A R _ := merge_sort R |}.
Next Obligation. intros. apply merge_sort_Permutation. Qed.
Next Obligation. intros. by apply StronglySorted_merge_sort. Qed.
