(* ===== verification/Async.v ===== *)
(** * Asynchronous handlers and the task pool

    An [async fn] is a computation that stops at its [.await] points.  A
    handler is a tree of effects of a signature [F]: at each effect the task
    is suspended, and it resumes with the answer.  The same tree is run alone
    ([run]) and interleaved with other requests ([pool_step]), where a client
    can also disconnect, which drops its task at an [.await], and the process
    can restart, which drops every task. *)

From S2P Require Import Prelude Sqlite.

(** ** Handlers *)

Inductive async (F : Type -> Type) (A : Type) : Type :=
| Done (a : A)
| Await {X : Type} (e : F X) (k : X -> async F A).
Arguments Done {F A} a.
Arguments Await {F A X} e k.

Fixpoint async_bind {F A B} (t : async F A) (f : A -> async F B) : async F B :=
  match t with
  | Done a => f a
  | Await e k => Await e (fun x => async_bind (k x) f)
  end.

(** A handler that can fail. *)
Definition Task (F : Type -> Type) (E A : Type) : Type := async F (outcome E A).

#[export] Instance Task_ret F E : MRet (Task F E) := fun A a => Done (Ok a).
#[export] Instance Task_bind F E : MBind (Task F E) := fun A B f t =>
  async_bind t (fun r =>
    match r with Ok a => f a | Err e => Done (Err e) | Panic => Done Panic end).

(** One effect, awaited. *)
Definition trigger {F X} (e : F X) : async F X := Await e Done.
(** An effect that answers a [Result], for use with [?]. *)
Definition call {F E A} (e : F (outcome E A)) : Task F E A := trigger e.
(** An effect that cannot fail. *)
Definition get {F X} E (e : F X) : Task F E X := Await e (fun x => Done (Ok x)).
(** Code without an [.await]. *)
Definition pure_code {F E A} (r : outcome E A) : Task F E A := Done r.
Definition fail_with {F E A} (e : E) : Task F E A := Done (Err e).
Definition task_map_err {F E E' A} (f : E -> E') (t : Task F E A) : Task F E' A :=
  async_bind t (fun r => Done (map_err f r)).

Notation "'let!' r ':=' t 'in' k" := (async_bind t (fun r => k))
  (at level 10, r name, t at level 100, k at level 200, only parsing).

(** A handler whose effects are effects of another signature. *)
Fixpoint embed {F G A} (inj : forall X, F X -> G X) (t : async F A) : async G A :=
  match t with
  | Done a => Done a
  | Await e k => Await (inj _ e) (fun x => embed inj (k x))
  end.

(** [n] turns of a loop whose [body] goes on with a new state or ends with a
    result; [None] if it is still running then.  A loop that never ends is
    still running after any number of turns. *)
Fixpoint loop_for {F A R} (body : A -> async F (A + R)) (n : nat) (a : A) : async F (option R) :=
  match n with
  | 0 => Done None
  | S n =>
      let! r := body a in
      match r with inl a => loop_for body n a | inr r => Done (Some r) end
  end.

(** ** Running a handler alone *)

(** What an effect does to the state, in the environment it meets. *)
Class HandlerIn (En : Type) (F : Type -> Type) (S : Type) :=
  handle : forall X, En -> F X -> S -> X * S.
Arguments handle {En F S _ X} env e s.

Abbreviation Handler := (HandlerIn Env).

Section run.
Context {En : Type} {F : Type -> Type} {S : Type} `{!HandlerIn En F S}.

(** The n-th effect meets the n-th environment. *)
Fixpoint run {A} (t : async F A) (envs : nat -> En) (s : S) : A * S :=
  match t with
  | Done a => (a, s)
  | Await e k =>
      let '(x, s') := handle (envs 0) e s in
      run (k x) (fun n => envs (Datatypes.S n)) s'
  end.

(** The state when the process dies after [n] effects. *)
Fixpoint crash_after (n : nat) {A} (t : async F A) (envs : nat -> En) (s : S) : S :=
  match n, t with
  | 0, _ | _, Done _ => s
  | Datatypes.S n, Await e k =>
      let '(x, s') := handle (envs 0) e s in
      crash_after n (k x) (fun n => envs (Datatypes.S n)) s'
  end.

(** *** Postconditions with a crash condition

    [awp t I Q s]: in whatever good environments [t] runs from [s], the state
    satisfies [I] at every effect, and [Q] holds of its result. *)
Context (good : En -> Prop).

Fixpoint awp {A} (t : async F A) (I : S -> Prop) (Q : A -> S -> Prop) (s : S) : Prop :=
  I s /\
  match t with
  | Done a => Q a s
  | Await e k =>
      forall env x s', good env -> handle env e s = (x, s') -> awp (k x) I Q s'
  end.

Lemma awp_run {A} (t : async F A) I Q envs s :
  (forall n, good (envs n)) -> awp t I Q s -> Q (run t envs s).1 (run t envs s).2.
Proof using Type.
  revert envs s. induction t as [a|X e k IH]; intros envs s Hg; cbn; intros [_ Ht]; [done|].
  destruct (handle (envs 0) e s) as [x s'] eqn:Hh. eapply IH, Ht, Hh; auto.
Qed.

Lemma awp_crash {A} (t : async F A) I Q envs s n :
  (forall n, good (envs n)) -> awp t I Q s -> I (crash_after n t envs s).
Proof using Type.
  revert t envs s. induction n as [|n IH]; intros t envs s Hg; [by destruct t; intros [? _]|].
  destruct t as [a|X e k]; cbn; intros [HI Ht]; [done|].
  destruct (handle (envs 0) e s) as [x s'] eqn:Hh. eapply IH, Ht, Hh; auto.
Qed.

Lemma awp_mono {A} (t : async F A) I (Q Q' : A -> S -> Prop) s :
  (forall a s, I s -> Q a s -> Q' a s) -> awp t I Q s -> awp t I Q' s.
Proof using Type.
  intros HQ. revert s. induction t as [a|X e k IH]; intros s; cbn; intros [HI Ht];
    (split; [done|]); [auto|]. eauto.
Qed.

Lemma awp_weaken_inv {A} (t : async F A) (I I' : S -> Prop) (Q : A -> S -> Prop) s :
  (forall s, I s -> I' s) -> awp t I Q s -> awp t I' Q s.
Proof using Type.
  intros HI. revert s. induction t as [a|X e k IH]; intros s; cbn; intros [Hs Ht]; eauto.
Qed.

Lemma awp_bind {A B} (t : async F A) (f : A -> async F B) I Q s :
  awp t I (fun a s => awp (f a) I Q s) s -> awp (async_bind t f) I Q s.
Proof using Type.
  revert s. induction t as [a|X e k IH]; intros s; cbn; intros [HI Ht]; [done|].
  split; [done|]. eauto.
Qed.

(** The same for tasks, whose errors skip the rest. *)
Lemma awp_task_bind {E A B} (t : Task F E A) (f : A -> Task F E B) I Q s :
  awp t I (fun r s => match r with
                      | Ok a => awp (f a) I Q s
                      | Err e => Q (Err e) s
                      | Panic => Q Panic s
                      end) s ->
  awp (t ≫= f) I Q s.
Proof using Type.
  intros Ht. apply awp_bind. eapply awp_mono; [|exact Ht].
  intros [a|e|] s'; cbn; auto.
Qed.

Lemma awp_map_err {E E' A} (g : E -> E') (t : Task F E A) I (Q : outcome E' A -> S -> Prop) s :
  awp t I (fun r s => Q (map_err g r) s) s -> awp (task_map_err g t) I Q s.
Proof using Type.
  intros Ht. apply awp_bind. eapply awp_mono; [|exact Ht]. by intros r s' HI HQ.
Qed.

Lemma awp_done {A} (a : A) I (Q : A -> S -> Prop) s : I s -> Q a s -> awp (Done a) I Q s.
Proof using Type. by split. Qed.

Lemma awp_trigger {X} (e : F X) I (Q : X -> S -> Prop) s :
  I s ->
  (forall env x s', good env -> handle env e s = (x, s') -> I s' /\ Q x s') ->
  awp (trigger e) I Q s.
Proof using Type. intros HI He. split; [done|]. intros env x s' Hg Hh. by apply (He env). Qed.

Lemma awp_get {E X} (e : F X) I (Q : outcome E X -> S -> Prop) s :
  I s ->
  (forall env x s', good env -> handle env e s = (x, s') -> I s' /\ Q (Ok x) s') ->
  awp (get E e) I Q s.
Proof using Type. intros HI He. split; [done|]. intros env x s' Hg Hh. by apply (He env). Qed.
End run.

(** Every effect of [t], on every path, satisfies [ok]. *)
Fixpoint only {F A} (ok : forall X, F X -> Prop) (t : async F A) : Prop :=
  match t with
  | Done _ => True
  | Await e k => ok _ e /\ forall x, only ok (k x)
  end.

Lemma only_bind {F A B} ok (t : async F A) (f : A -> async F B) :
  only ok t -> (forall a, only ok (f a)) -> only ok (async_bind t f).
Proof.
  intros Ht Hf. induction t as [a|X e k IH]; cbn; [apply Hf|].
  destruct Ht as [He Hk]. split; [done|]. intros x. apply IH, Hk.
Qed.

Lemma only_embed {F G A} ok (inj : forall X, F X -> G X) (t : async F A) :
  (forall X e, ok X (inj X e)) -> only ok (embed inj t).
Proof. intros Hok. induction t as [a|X e k IH]; cbn; auto. Qed.

Lemma only_mono {F A} (ok ok' : forall X, F X -> Prop) (t : async F A) :
  (forall X e, ok X e -> ok' X e) -> only ok t -> only ok' t.
Proof. intros Hok. induction t as [a|X e k IH]; cbn; [done|]. intros [? ?]. auto. Qed.

(** The tasks of a handler that only uses [bind], [mret] and errors. *)
Lemma only_task_bind {F E A B} ok (t : Task F E A) (f : A -> Task F E B) :
  only ok t -> (forall a, only ok (f a)) -> only ok (t ≫= f).
Proof. intros Ht Hf. apply only_bind; [done|]. by intros [a|e|]. Qed.

Lemma only_map_err {F E E' A} ok (g : E -> E') (t : Task F E A) :
  only ok t -> only ok (task_map_err g t).
Proof. intros Ht. by apply only_bind. Qed.

(** Goes through a handler written with these combinators; what is left are its
    effects. *)
Ltac only_tac :=
  repeat match goal with
    | |- only _ (mbind _ _) => apply only_task_bind; [|intros ?]
    | |- only _ (task_map_err _ _) => apply only_map_err
    | |- only _ (async_bind _ _) => apply only_bind; [|intros ?]
    | |- only _ (if ?b then _ else _) => destruct b
    | |- only _ (let '(_, _) := ?p in _) => destruct p
    | |- only _ (mret _) => exact I
    | |- only _ (pure_code _) => exact I
    | |- only _ (fail_with _) => exact I
    | |- only _ (Done _) => exact I
    end.

Lemma run_bind {En F S A B} `{!HandlerIn En F S} (t : async F A) (f : A -> async F B) envs s :
  exists n, run (async_bind t f) envs s =
    (let '(a, s') := run t envs s in run (f a) (fun i => envs (n + i)) s').
Proof.
  revert envs s. induction t as [a|X e k IH]; intros envs s; cbn.
  - by exists 0.
  - destruct (handle (envs 0) e s) as [x s'].
    destruct (IH x (fun n => envs (Datatypes.S n)) s') as [n Hn].
    exists (Datatypes.S n). by rewrite Hn.
Qed.

(** The same for tasks. *)
Lemma run_task_bind {En F S E A B} `{!HandlerIn En F S} (t : Task F E A) (f : A -> Task F E B) envs s :
  exists n, run (t ≫= f) envs s =
    (let '(r, s') := run t envs s in
     match r with
     | Ok a => run (f a) (fun i => envs (n + i)) s'
     | Err e => (Err e, s')
     | Panic => (Panic, s')
     end).
Proof.
  destruct (run_bind t (fun r => match r with Ok a => f a | Err e => Done (Err e) | Panic => Done Panic end)
    envs s) as [n Hn].
  exists n. unfold mbind, Task_bind. rewrite Hn. destruct (run t envs s) as [[a|e|] s']; done.
Qed.

(** An invariant that every allowed effect preserves holds after a run. *)
Lemma run_invariant {En F S A} `{!HandlerIn En F S} (ok : forall X, F X -> Prop) (I : S -> Prop)
    (t : async F A) envs s :
  (forall X env (e : F X) s x s', ok X e -> handle env e s = (x, s') -> I s -> I s') ->
  only ok t -> I s -> I (run t envs s).2.
Proof.
  intros HI. revert envs s. induction t as [a|X e k IH]; intros envs s; cbn; [done|].
  intros [He Hk] Hs. destruct (handle (envs 0) e s) as [x s'] eqn:Hh.
  apply IH; [done|]. by eapply HI.
Qed.

(** The same in environments that are good. *)
Lemma run_invariant_good {F S A} `{!Handler F S} (good : Env -> Prop)
    (ok : forall X, F X -> Prop) (I : S -> Prop) (t : async F A) envs s :
  (forall X env (e : F X) s x s',
     good env -> ok X e -> handle env e s = (x, s') -> I s -> I s') ->
  (forall n, good (envs n)) -> only ok t -> I s -> I (run t envs s).2.
Proof.
  intros HI. revert envs s. induction t as [a|X e k IH]; intros envs s Hg; cbn; [done|].
  intros [He Hk] Hs. destruct (handle (envs 0) e s) as [x s'] eqn:Hh.
  apply IH; [|done|by eapply HI]. intros n. apply Hg.
Qed.

(** ** The task pool *)

Section pool.
Context {F : Type -> Type} {S : Type} `{!Handler F S}.
(** Requests, replies, the handler of a request, and what a restart of the
    process can make of the shared state. *)
Context {Job Res : Type} (serve : Job -> async F Res) (restart : S -> S -> Prop).

Record Pool := mkPool {
  shared : S;
  tasks : gmap nat (Job * async F Res);
  replies : list (nat * Job * Res);
  next_task : nat
}.

Definition start (s : S) : Pool := mkPool s ∅ [] 0.

Inductive pool_step : Pool -> Pool -> Prop :=
| step_request p j :
    pool_step p
      (mkPool (shared p) (<[next_task p := (j, serve j)]> (tasks p)) (replies p)
         (Datatypes.S (next_task p)))
| step_resume p i j X (e : F X) k env x s' :
    tasks p !! i = Some (j, Await e k) ->
    handle env e (shared p) = (x, s') ->
    pool_step p (mkPool s' (<[i := (j, k x)]> (tasks p)) (replies p) (next_task p))
| step_reply p i j r :
    tasks p !! i = Some (j, Done r) ->
    pool_step p
      (mkPool (shared p) (delete i (tasks p)) ((i, j, r) :: replies p) (next_task p))
| step_disconnect p i :
    pool_step p (mkPool (shared p) (delete i (tasks p)) (replies p) (next_task p))
| step_restart p s' :
    restart (shared p) s' -> pool_step p (mkPool s' ∅ (replies p) (next_task p)).

Definition reachable (s : S) (p : Pool) : Prop := rtc pool_step (start s) p.

(** *** Executing a schedule *)

Inductive action :=
| Request (j : Job)
| Resume (i : nat) (env : Env)
| Answer (i : nat)
| Disconnect (i : nat).

(** One action; an action that is not enabled changes nothing. *)
Definition act (p : Pool) (a : action) : Pool :=
  match a with
  | Request j =>
      mkPool (shared p) (<[next_task p := (j, serve j)]> (tasks p)) (replies p)
        (Datatypes.S (next_task p))
  | Resume i env =>
      match tasks p !! i with
      | Some (j, Await e k) =>
          let '(x, s') := handle env e (shared p) in
          mkPool s' (<[i := (j, k x)]> (tasks p)) (replies p) (next_task p)
      | _ => p
      end
  | Answer i =>
      match tasks p !! i with
      | Some (j, Done r) =>
          mkPool (shared p) (delete i (tasks p)) ((i, j, r) :: replies p) (next_task p)
      | _ => p
      end
  | Disconnect i => mkPool (shared p) (delete i (tasks p)) (replies p) (next_task p)
  end.

Definition exec (s : S) (acts : list action) : Pool := fold_left act acts (start s).

Lemma act_steps p a : rtc pool_step p (act p a).
Proof.
  destruct a as [j|i env|i|i]; cbn.
  - apply rtc_once. by constructor.
  - destruct (tasks p !! i) as [[j [r|X e k]]|] eqn:Hi; [done| |done].
    destruct (handle env e (shared p)) as [x s'] eqn:Hh. apply rtc_once. by eapply step_resume.
  - destruct (tasks p !! i) as [[j [r|X e k]]|] eqn:Hi; [|done..].
    apply rtc_once. by constructor.
  - apply rtc_once. by constructor.
Qed.

Lemma exec_reachable s acts : reachable s (exec s acts).
Proof.
  unfold reachable, exec. generalize (start s). induction acts as [|a acts IH]; intros p; cbn.
  - done.
  - etrans; [apply act_steps|apply IH].
Qed.

(** *** An invariant of the shared state holds in every reachable pool *)

Section invariant.
Context (ok : forall X, F X -> Prop) (I : S -> Prop).
Hypothesis jobs_ok : forall j, only ok (serve j).
Hypothesis I_handle : forall X env (e : F X) s x s',
  ok X e -> handle env e s = (x, s') -> I s -> I s'.
Hypothesis I_restart : forall s s', restart s s' -> I s -> I s'.

Definition pool_inv (p : Pool) : Prop :=
  I (shared p) /\ forall i j t, tasks p !! i = Some (j, t) -> only ok t.

Lemma pool_inv_step p q : pool_step p q -> pool_inv p -> pool_inv q.
Proof using All.
  destruct 1 as [p j|p i j X e k env x s' Hi Hh|p i j r Hi|p i|p s' Hre]; intros [HI Ht].
  - split; [done|]. cbn. intros i j' t. rewrite lookup_insert.
    case_decide; [intros [= <- <-]; apply jobs_ok|apply Ht].
  - destruct (Ht _ _ _ Hi) as [Hok Hk'].
    split; cbn; [by eapply I_handle|]. intros i' j' t. rewrite lookup_insert.
    case_decide; [intros [= <- <-]; apply Hk'|apply Ht].
  - split; [done|]. cbn. intros i' j' t Hi'. apply (Ht i' j').
    by apply lookup_delete_Some in Hi' as [? ?].
  - split; [done|]. cbn. intros i' j' t Hi'. apply (Ht i' j').
    by apply lookup_delete_Some in Hi' as [? ?].
  - split; [by eapply I_restart|]. cbn. intros i j t. by rewrite lookup_empty.
Qed.

Lemma reachable_invariant s p : I s -> reachable s p -> I (shared p).
Proof using All.
  intros Hs Hr. enough (pool_inv p) as [? _] by done.
  assert (pool_inv (start s)) as H0.
  { split; [done|]. cbn. intros i j t. by rewrite lookup_empty. }
  induction Hr as [|p q r Hstep _ IH]; [done|]. apply IH. by eapply pool_inv_step.
Qed.
End invariant.

(** *** What tasks know

    A task learns stable facts about the shared state from the answers it
    gets, and later effects rely on them, although other tasks run between. *)

Section facts.
Context {Fact : Type} (holds : Fact -> S -> Prop).
Context (learn : forall X, F X -> X -> list Fact) (ok : list Fact -> forall X, F X -> Prop).
Context (I : S -> Prop).

(** [t] only uses effects that what it knows allows. *)
Fixpoint informed {A} (known : list Fact) (t : async F A) : Prop :=
  match t with
  | Done _ => True
  | Await e k => ok known _ e /\ forall x, informed (learn _ e x ++ known) (k x)
  end.

Definition all_hold (known : list Fact) (s : S) : Prop := Forall (fun f => holds f s) known.

Hypothesis jobs_informed : forall j, informed [] (serve j).
Hypothesis handle_inv : forall K X env (e : F X) s x s',
  ok K X e -> handle env e s = (x, s') -> all_hold K s -> I s -> I s'.
Hypothesis handle_learn : forall X env (e : F X) s x s',
  handle env e s = (x, s') -> all_hold (learn X e x) s'.
Hypothesis handle_stable : forall K X env (e : F X) s x s' f,
  ok K X e -> handle env e s = (x, s') -> holds f s -> holds f s'.
Hypothesis restart_inv : forall s s', restart s s' -> I s -> I s'.

Definition informed_inv (p : Pool) : Prop :=
  I (shared p) /\
  forall i j t, tasks p !! i = Some (j, t) ->
    exists known, all_hold known (shared p) /\ informed known t.

Lemma informed_step p q : pool_step p q -> informed_inv p -> informed_inv q.
Proof using All.
  intros Hstep [HI Ht].
  destruct Hstep as [p j|p i j X e k env x s' Hi Hh|p i j r Hi|p i|p s' Hre]; cbn in *.
  - split; [done|]. cbn. intros i j' t. rewrite lookup_insert. case_decide; [|apply Ht].
    intros [= <- <-]. exists []. split; [by constructor|apply jobs_informed].
  - destruct (Ht _ _ _ Hi) as (K & HK & Hok & Hk). split; [by eapply handle_inv|].
    intros i' j' t. cbn. rewrite lookup_insert. case_decide.
    + intros [= <- <-]. exists (learn X e x ++ K). split; [|apply Hk].
      apply Forall_app. split; [by eapply handle_learn|].
      eapply Forall_impl; [exact HK|]. intros f. by eapply handle_stable.
    + intros (K' & HK' & Hinf)%Ht. exists K'. split; [|done].
      eapply Forall_impl; [exact HK'|]. intros f. by eapply handle_stable.
  - split; [done|]. cbn. intros i' j' t [_ ?]%lookup_delete_Some. eauto.
  - split; [done|]. cbn. intros i' j' t [_ ?]%lookup_delete_Some. eauto.
  - split; [by eapply restart_inv|]. cbn. intros i j t. by rewrite lookup_empty.
Qed.

Lemma reachable_informed s p : I s -> reachable s p -> I (shared p).
Proof using All.
  intros Hs Hr. enough (informed_inv p) as [? _] by done.
  assert (informed_inv (start s)) as Hinit.
  { split; [done|]. cbn. intros i j t. by rewrite lookup_empty. }
  induction Hr as [|p q r Hstep _ IH]; [done|]. apply IH. by eapply informed_step.
Qed.
End facts.

(** *** A capability granted at most once

    Some answers ([grant]) give the task that receives them a right that a
    success ([won]) needs, and spend it in the shared state for good. *)

Section once.
Context (calm : forall X, F X -> Prop) (grant : forall X, F X -> X -> bool).
Context (spent : S -> Prop) (won : Job -> Res -> Prop).

(** [t] cannot succeed before it is granted the right. *)
Fixpoint gated (j : Job) (t : async F Res) : Prop :=
  match t with
  | Done r => ~ won j r
  | Await e k =>
      calm _ e /\
      forall x, if grant _ e x then only calm (k x) else gated j (k x)
  end.

Hypothesis jobs_gated : forall j, gated j (serve j).
Hypothesis spent_handle : forall X env (e : F X) s x s',
  calm X e -> handle env e s = (x, s') -> spent s -> spent s'.
Hypothesis grant_spends : forall X env (e : F X) s x s',
  calm X e -> handle env e s = (x, s') -> grant X e x = true ->
  ~ spent s /\ spent s'.
Hypothesis spent_restart : forall s s', restart s s' -> spent s -> spent s'.

(** [holder] is the task that was granted the right, if any was. *)
Record once_inv (holder : option nat) (p : Pool) : Prop := {
  once_spent : holder <> None -> spent (shared p);
  once_tasks : forall i j t, tasks p !! i = Some (j, t) ->
    i < next_task p /\ only calm t /\ (holder = Some i \/ gated j t);
  once_replies : forall i j r, (i, j, r) ∈ replies p ->
    i < next_task p /\ tasks p !! i = None /\ (won j r -> holder = Some i);
  once_ids : NoDup ((fun x => fst (fst x)) <$> replies p)
}.

Lemma gated_only j t : gated j t -> only calm t.
Proof.
  induction t as [r|X e k IH]; cbn; [done|]. intros [He Hk]. split; [done|].
  intros x. specialize (Hk x). destruct (grant X e x); auto.
Qed.

Lemma once_request h p j :
  once_inv h p ->
  once_inv h (mkPool (shared p) (<[next_task p := (j, serve j)]> (tasks p)) (replies p)
       (Datatypes.S (next_task p))).
Proof using jobs_gated.
  intros [Hs Ht Hr Hn]. split; cbn; [done| | |done].
  - intros i j' t. rewrite lookup_insert. case_decide as Hi.
    + intros [= <- <-]. specialize (jobs_gated j). split; [lia|].
      split; [by eapply gated_only|by right].
    + intros (Hlt & Ho & Hg)%Ht. split; [lia|done].
  - intros i j' r Hin. destruct (Hr _ _ _ Hin) as (Hlt & Hnone & Hw).
    split; [lia|]. split; [|done]. rewrite lookup_insert_ne by lia. done.
Qed.

Lemma once_resume h p i j X (e : F X) k env x s' :
  once_inv h p -> tasks p !! i = Some (j, Await e k) ->
  handle env e (shared p) = (x, s') ->
  exists h', once_inv h'
    (mkPool s' (<[i := (j, k x)]> (tasks p)) (replies p) (next_task p)).
Proof using spent_handle grant_spends.
  intros [Hs Ht Hr Hn] Hi Hh.
  destruct (Ht _ _ _ Hi) as (Hlt & [Hc Ho] & Hg).
  assert (forall i' j' r, (i', j', r) ∈ replies p ->
    <[i := (j, k x)]> (tasks p) !! i' = None) as Hfresh.
  { intros i' j' r Hin. destruct (Hr _ _ _ Hin) as (_ & Hnone & _).
    rewrite lookup_insert_ne; [done|]. intros ->. congruence. }
  destruct (grant X e x) eqn:Hgr.
  - destruct (grant_spends _ _ _ _ _ _ Hc Hh Hgr) as [Hns Hsp].
    assert (h = None) as -> by (destruct h; [by destruct Hns; apply Hs|done]).
    exists (Some i). split; cbn; [done| | |done].
    + intros i' j' t. rewrite lookup_insert. case_decide as Hii.
      * intros [= <- <-]. subst. auto.
      * intros (? & ? & [?|?])%Ht; [done|auto].
    + intros i' j' r Hin. destruct (Hr _ _ _ Hin) as (? & _ & Hw).
      split; [done|]. split; [by eapply Hfresh|]. intros Hwon. by apply Hw in Hwon.
  - exists h. split; cbn; [|  | |done].
    + intros Hne. eapply spent_handle; eauto.
    + intros i' j' t. rewrite lookup_insert. case_decide as Hii; [|apply Ht].
      intros [= <- <-]. subst. split; [done|]. split; [apply Ho|].
      destruct Hg as [?|[_ Hg]]; [auto|]. right. specialize (Hg x). by rewrite Hgr in Hg.
    + intros i' j' r Hin. destruct (Hr _ _ _ Hin) as (? & _ & Hw). eauto.
Qed.

Lemma once_reply h p i j r :
  once_inv h p -> tasks p !! i = Some (j, Done r) ->
  once_inv h (mkPool (shared p) (delete i (tasks p)) ((i, j, r) :: replies p) (next_task p)).
Proof.
  intros [Hs Ht Hr Hn] Hi. destruct (Ht _ _ _ Hi) as (Hlt & _ & Hg).
  split; cbn; [done| | |].
  - intros i' j' t [_ ?]%lookup_delete_Some. eauto.
  - intros i' j' r' [[= -> -> ->]|Hin]%elem_of_cons.
    + split; [done|]. split; [by rewrite lookup_delete_eq|].
      intros Hw. destruct Hg as [?|Hg]; [done|by destruct Hg].
    + destruct (Hr _ _ _ Hin) as (? & Hnone & ?). split; [done|]. split; [|done].
      apply lookup_delete_None. auto.
  - apply NoDup_cons. split; [|done]. intros ([[i' j'] r'] & -> & Hin)%list_elem_of_fmap.
    destruct (Hr _ _ _ Hin) as (_ & Hnone & _). cbn in *. congruence.
Qed.

Lemma once_drop h p p' :
  once_inv h p -> (h <> None -> spent (shared p')) ->
  tasks p' ⊆ tasks p -> replies p' = replies p -> next_task p' = next_task p ->
  once_inv h p'.
Proof.
  intros [Hs Ht Hr Hn] Hsp Hsub Hrep Hnext. split; rewrite ?Hrep, ?Hnext; [done| | |done].
  - intros i j t Hi. apply Ht. by eapply lookup_weaken.
  - intros i j r Hin. destruct (Hr _ _ _ Hin) as (? & Hnone & ?).
    split; [done|]. split; [|done]. by eapply lookup_weaken_None.
Qed.

Lemma once_inv_step h p q : pool_step p q -> once_inv h p -> exists h', once_inv h' q.
Proof using All.
  destruct 1 as [p j|p i j X e k env x s' Hi Hh|p i j r Hi|p i|p s' Hre]; intros Hinv.
  - exists h. by apply once_request.
  - by eapply once_resume.
  - exists h. by apply once_reply.
  - exists h. eapply once_drop; [done|apply Hinv|apply delete_subseteq|done..].
  - exists h. eapply once_drop; [done| |apply map_empty_subseteq|done..].
    intros Hne. by eapply spent_restart, Hinv.
Qed.

(** Whatever the interleaving, the disconnections, the restarts and the
    environments, at most one request ever succeeds. *)
Lemma won_at_most_once s p :
  reachable s p ->
  forall i1 j1 r1 i2 j2 r2,
    (i1, j1, r1) ∈ replies p -> won j1 r1 ->
    (i2, j2, r2) ∈ replies p -> won j2 r2 ->
    (i1, j1, r1) = (i2, j2, r2).
Proof using All.
  intros Hr. assert (exists h, once_inv h p) as [h [_ _ Hrep Hnd]].
  { assert (once_inv None (start s)) as H0.
    { split; cbn; [done| | |constructor].
      - intros i j t. by rewrite lookup_empty.
      - intros i j r Hin. by apply not_elem_of_nil in Hin. }
    revert H0. generalize (None : option nat) as h0.
    induction Hr as [p|p q r Hstep _ IH]; intros h0 H0; [by exists h0|].
    destruct (once_inv_step _ _ _ Hstep H0) as [h1 H1]. eauto. }
  intros i1 j1 r1 i2 j2 r2 H1 W1 H2 W2.
  destruct (Hrep _ _ _ H1) as (_ & _ & E1). destruct (Hrep _ _ _ H2) as (_ & _ & E2).
  specialize (E1 W1). specialize (E2 W2). simplify_eq.
  apply list_elem_of_lookup in H1 as [n1 H1]. apply list_elem_of_lookup in H2 as [n2 H2].
  enough (n1 = n2) as -> by congruence.
  eapply NoDup_lookup; [exact Hnd|..]; rewrite list_lookup_fmap; [by rewrite H1|by rewrite H2].
Qed.

(** A task that runs alone does not succeed while an invariant rules the
    right out. *)
Lemma run_not_won (I : S -> Prop) j t envs s :
  (forall X env (e : F X) s x s',
     calm X e -> handle env e s = (x, s') -> I s -> I s' /\ grant X e x = false) ->
  gated j t -> I s -> ~ won j (run t envs s).1 /\ I (run t envs s).2.
Proof using Type.
  intros HI. revert envs s. induction t as [r|X e k IH]; intros envs s; cbn; [done|].
  intros [Hc Hk] Hs. destruct (handle (envs 0) e s) as [x s'] eqn:Hh.
  destruct (HI _ _ _ _ _ _ Hc Hh Hs) as [HI' Hg]. apply IH; [|done].
  specialize (Hk x). by rewrite Hg in Hk.
Qed.

(** While an invariant rules the right out, no request succeeds. *)
Lemma never_won (I : S -> Prop) s p :
  (forall X env (e : F X) s x s',
     calm X e -> handle env e s = (x, s') -> I s -> I s' /\ grant X e x = false) ->
  (forall s s', restart s s' -> I s -> I s') ->
  I s -> reachable s p -> forall i j r, (i, j, r) ∈ replies p -> ~ won j r.
Proof using jobs_gated.
  intros HI Hre Hs Hr.
  enough (I (shared p) /\ (forall i j t, tasks p !! i = Some (j, t) -> gated j t) /\
    forall i j r, (i, j, r) ∈ replies p -> ~ won j r) as (_ & _ & ?) by done.
  assert (I (shared (start s)) /\
    (forall i j t, tasks (start s) !! i = Some (j, t) -> gated j t) /\
    forall i j r, (i, j, r) ∈ replies (start s) -> ~ won j r) as H0.
  { cbn. split; [done|]. split; [intros i j t; by rewrite lookup_empty|].
    intros i j r Hin. by apply not_elem_of_nil in Hin. }
  induction Hr as [|p q r Hstep _ IH]; [done|]. apply IH. clear IH Hs.
  destruct H0 as (HIp & Ht & Hw).
  destruct Hstep as [p j|p i j X e k env x s' Hi Hh|p i j r' Hi|p i|p s' Hres]; cbn.
  - split; [done|]. split; [|done]. intros i j' t. rewrite lookup_insert.
    case_decide; [intros [= <- <-]; apply jobs_gated|apply Ht].
  - destruct (Ht _ _ _ Hi) as [Hc Hk]. destruct (HI _ _ _ _ _ _ Hc Hh HIp) as [HI' Hg].
    split; [done|]. split; [|done]. intros i' j' t. rewrite lookup_insert.
    case_decide; [|apply Ht]. intros [= <- <-]. specialize (Hk x). by rewrite Hg in Hk.
  - split; [done|]. split.
    + intros i' j' t [_ ?]%lookup_delete_Some. eauto.
    + intros i' j' r'' [[= -> -> ->]|Hin]%elem_of_cons; [exact (Ht _ _ _ Hi)|eauto].
  - split; [done|]. split; [|done]. intros i' j' t [_ ?]%lookup_delete_Some. eauto.
  - split; [by eapply Hre|]. split; [|done]. intros i j t. by rewrite lookup_empty.
Qed.

(** *** Runs under conditions

    The steps of the pool when only some requests arrive and every effect
    meets a good environment. *)
Context (good : Env -> Prop) (arrives : Job -> Prop).

Inductive limited_step : Pool -> Pool -> Prop :=
| limited_request p j :
    arrives j ->
    limited_step p
      (mkPool (shared p) (<[next_task p := (j, serve j)]> (tasks p)) (replies p)
         (Datatypes.S (next_task p)))
| limited_resume p i j X (e : F X) k env x s' :
    good env -> tasks p !! i = Some (j, Await e k) -> handle env e (shared p) = (x, s') ->
    limited_step p (mkPool s' (<[i := (j, k x)]> (tasks p)) (replies p) (next_task p))
| limited_reply p i j r :
    tasks p !! i = Some (j, Done r) ->
    limited_step p
      (mkPool (shared p) (delete i (tasks p)) ((i, j, r) :: replies p) (next_task p))
| limited_disconnect p i :
    limited_step p (mkPool (shared p) (delete i (tasks p)) (replies p) (next_task p))
| limited_restart p s' :
    restart (shared p) s' -> limited_step p (mkPool s' ∅ (replies p) (next_task p)).

(** While an invariant rules the right out, a task that does not have it yet
    never succeeds. *)
Lemma limited_never_won (I : S -> Prop) p q :
  (forall X env (e : F X) s x s',
     good env -> calm X e -> handle env e s = (x, s') -> I s -> I s' /\ grant X e x = false) ->
  (forall s s', restart s s' -> I s -> I s') ->
  (forall j, arrives j -> gated j (serve j)) ->
  I (shared p) -> (forall i j t, tasks p !! i = Some (j, t) -> only calm t) ->
  rtc limited_step p q ->
  I (shared q) /\
  forall i j r, (i, j, r) ∈ replies q -> (i, j, r) ∈ replies p \/
    ((forall j' t, tasks p !! i = Some (j', t) -> gated j' t) -> ~ won j r).
Proof using Type.
  intros HI Hre Harr HIp Hcalm Hr. set (fresh i := forall j' t, tasks p !! i = Some (j', t) -> gated j' t).
  enough (I (shared q) /\
    (forall i j t, tasks q !! i = Some (j, t) -> only calm t /\ (fresh i -> gated j t)) /\
    forall i j r, (i, j, r) ∈ replies q -> (i, j, r) ∈ replies p \/ (fresh i -> ~ won j r))
    as (? & _ & ?) by done.
  revert q Hr. refine (rtc_ind_r _ p _ _); [|intros p1 q Hr Hstep IH].
  { split; [done|]. split; [|by left]. intros i j t Hi. split; [by eapply Hcalm|].
    intros Hf. by apply Hf. }
  destruct IH as (HI1 & Ht & Hw).
  destruct Hstep as [p1 j Hj|p1 i j X e k env x s' Hg Hi Hh|p1 i j r' Hi|p1 i|p1 s' Hres]; cbn in *.
  - split; [done|]. split; [|done]. intros i' j' t. rewrite lookup_insert.
    case_decide; [intros [= <- <-]|apply Ht]. specialize (Harr j Hj).
    split; [by apply (gated_only j)|done].
  - destruct (Ht _ _ _ Hi) as [[Hc Ho] Hk]. destruct (HI _ _ _ _ _ _ Hg Hc Hh HI1) as [HI' Hgr].
    split; [done|]. split; [|done]. intros i' j' t. rewrite lookup_insert.
    case_decide; [|apply Ht]. subst. intros [= <- <-]. split; [apply Ho|]. intros Hf.
    destruct (Hk Hf) as [_ Hk']. specialize (Hk' x). by rewrite Hgr in Hk'.
  - split; [done|]. split.
    + intros i' j' t [_ ?]%lookup_delete_Some. eauto.
    + intros i' j' r'' [[= -> -> ->]|Hin]%elem_of_cons; [|eauto].
      right. exact (proj2 (Ht _ _ _ Hi)).
  - split; [done|]. split; [|done]. intros i' j' t [_ ?]%lookup_delete_Some. eauto.
  - split; [by eapply Hre|]. split; [|done]. intros i j t. by rewrite lookup_empty.
Qed.
End once.

(** The tasks of a reachable pool only have effects of their requests. *)
Lemma reachable_tasks s p :
  reachable s p -> forall i j t, tasks p !! i = Some (j, t) ->
  forall ok, only ok (serve j) -> only ok t.
Proof.
  revert p. refine (rtc_ind_r _ (start s) _ _); [|intros p q Hr Hstep IH].
  { intros i j t. cbn. by rewrite lookup_empty. }
  destruct Hstep as [p j|p i j X e k env x s' Hi Hh|p i j r' Hi|p i|p s' Hres]; cbn; intros i' j' t.
  - rewrite lookup_insert. case_decide; [by intros [= <- <-]|apply IH].
  - rewrite lookup_insert. case_decide; [|apply IH]. intros [= <- <-] ok Hok.
    exact (proj2 (IH _ _ _ Hi ok Hok) x).
  - intros [_ ?]%lookup_delete_Some. by eapply IH.
  - intros [_ ?]%lookup_delete_Some. by eapply IH.
  - by rewrite lookup_empty.
Qed.
End pool.
Arguments Pool F S Job Res : clear implicits.
Arguments Request {Job} j.
Arguments Resume {Job} i env.
Arguments Answer {Job} i.
Arguments Disconnect {Job} i.

Lemma informed_mono {F A Fact} learn ok (known known' : list Fact) (t : async F A) :
  (forall K K' X e, K ⊆ K' -> ok K X e -> ok K' X e) ->
  known ⊆ known' -> informed learn ok known t -> informed learn ok known' t.
Proof.
  intros Hmono. revert known known'. induction t as [a|X e k IH]; intros K K' HK; cbn; [done|].
  intros [He Hk]. split; [by eapply Hmono|]. intros x. eapply IH; [|apply Hk]. set_solver.
Qed.

(** Effects that need no knowledge. *)
Lemma informed_only {F A Fact} learn (ok : list Fact -> forall X, F X -> Prop)
    (free : forall X, F X -> Prop) known (t : async F A) :
  (forall K X e, free X e -> ok K X e) -> only free t -> informed learn ok known t.
Proof.
  intros Hfree. revert known. induction t as [a|X e k IH]; intros K; cbn; [done|].
  intros [He Hk]. split; [by apply Hfree|]. intros x. by apply IH.
Qed.
