(* ===== verification/Termination.v ===== *)
(** * Handlers end, and fair schedules let them end

    The height of a tree of effects bounds how long a handler can take on any
    path; in a pool only a task's own steps change what it has left, so that a
    task that is resumed often enough has replied, whatever runs in between. *)

From S2P Require Import Prelude Sqlite Async.

(** ** The height of a handler *)

(** On every path [t] ends after at most [n] effects. *)
Fixpoint within {F A} (n : nat) (t : async F A) {struct t} : Prop :=
  match t, n with
  | Done _, _ => True
  | Await _ _, 0 => False
  | Await _ k, S n => forall x, within n (k x)
  end.

Lemma within_le {F A} n m (t : async F A) : n <= m -> within n t -> within m t.
Proof.
  revert n m. induction t as [a|X e k IH]; intros [|n] [|m] Hle; cbn; try done; [lia|].
  intros Hk x. eapply IH, Hk. lia.
Qed.

Lemma within_bind {F A B} n m (t : async F A) (f : A -> async F B) :
  within n t -> (forall a, within m (f a)) -> within (n + m) (async_bind t f).
Proof.
  intros Ht Hf. revert n Ht. induction t as [a|X e k IH]; intros n Ht; cbn.
  - eapply within_le, Hf. lia.
  - destruct n as [|n]; [done|]. intros x. apply IH, Ht.
Qed.

Lemma within_task_bind {F E A B} n m (t : Task F E A) (f : A -> Task F E B) :
  within n t -> (forall a, within m (f a)) -> within (n + m) (t ≫= f).
Proof. intros Ht Hf. apply within_bind; [done|]. intros [a|e|]; [apply Hf|done..]. Qed.

Lemma within_map_err {F E E' A} n (g : E -> E') (t : Task F E A) :
  within n t -> within n (task_map_err g t).
Proof.
  intros Ht. apply (within_le (n + 0)); [lia|]. by apply (within_bind n 0).
Qed.

(** A run that is cut off after the bound is the whole run. *)
Lemma within_crash {En F S A} `{!HandlerIn En F S} n (t : async F A) envs s :
  within n t -> crash_after n t envs s = (run t envs s).2.
Proof.
  revert n envs s. induction t as [a|X e k IH]; intros [|n] envs s; cbn; try done.
  intros Hk. destruct (handle (envs 0) e s) as [x s']. by apply IH.
Qed.

Lemma within_done {F A} (a : A) : within (F := F) 0 (Done a).
Proof. done. Qed.
Lemma within_trigger {F X} (e : F X) : within 1 (trigger e).
Proof. by intros x. Qed.
Lemma within_get {F X} E (e : F X) : within 1 (get E e).
Proof. by intros x. Qed.
Lemma within_if {F A} (b : bool) n m (t u : async F A) :
  within n t -> within m u -> within (n `max` m) (if b then t else u).
Proof. destruct b; intros Ht Hu; [eapply within_le, Ht|eapply within_le, Hu]; lia. Qed.

(** [height] has the lemmas that compute the height of a handler: one for each
    combinator, and one for each handler that others call. *)
Create HintDb height.
#[export] Hint Resolve within_done within_trigger within_get within_if within_map_err : height.

(** Computes the height of a handler into an existential variable. *)
Ltac height_tac :=
  match goal with
  | |- within _ (mbind _ _) => eapply within_task_bind; [height_tac|intros ?; height_tac]
  | |- within _ (task_map_err _ _) => eapply within_map_err; height_tac
  | |- within _ (if _ then _ else _) => eapply within_if; height_tac
  | |- within _ (let '(_, _) := ?p in _) => destruct p; height_tac
  | |- within _ (match ?x with Ok _ => _ | _ => _ end) => destruct x; height_tac
  | |- _ => solve [eauto with height nocore | apply within_get | apply within_trigger | apply within_done]
  end.

Lemma within_embed {F G A} n (inj : forall X, F X -> G X) (t : async F A) :
  within n t -> within n (embed inj t).
Proof. revert n. induction t as [a|X e k IH]; intros [|n]; cbn; auto. Qed.

(** A handler is within a given bound. *)
Ltac within_tac := cbv zeta; eapply within_le; [|height_tac]; cbn; lia.

(** ** Loops *)

(** What runs after a handler starts from where it stopped, whatever that is. *)
Lemma run_then {En F S A} `{!HandlerIn En F S} (t : async F A) envs s :
  exists n, forall B (f : A -> async F B), run (async_bind t f) envs s =
    run (f (run t envs s).1) (fun i => envs (n + i)) (run t envs s).2.
Proof.
  revert envs s. induction t as [a|X e k IH]; intros envs s; cbn.
  - by exists 0.
  - destruct (handle (envs 0) e s) as [x s'].
    destruct (IH x (fun n => envs (Datatypes.S n)) s') as [n Hn].
    exists (Datatypes.S n). intros B f. apply Hn.
Qed.

Lemma run_assoc {En F S A B C} `{!HandlerIn En F S} (t : async F A) (f : A -> async F B)
    (g : B -> async F C) envs s :
  run (async_bind (async_bind t f) g) envs s = run (async_bind t (fun a => async_bind (f a) g)) envs s.
Proof.
  revert envs s. induction t as [a|X e k IH]; intros envs s; cbn; [done|].
  destruct (handle (envs 0) e s) as [x s']. apply IH.
Qed.

Section loop_for.
Context {En F W A R} `{!HandlerIn En F W} (body : A -> async F (A + R)).

(** A loop that has ended is not changed by more turns. *)
Lemma loop_for_more n m a envs w r w' :
  n <= m -> run (loop_for body n a) envs w = (Some r, w') ->
  run (loop_for body m a) envs w = (Some r, w').
Proof using Type.
  revert m a envs w. induction n as [|n IH]; intros [|m] a envs w Hle; cbn; try done; [lia|].
  destruct (run_then (body a) envs w) as [k Hk]. rewrite !Hk.
  destruct (run (body a) envs w).1; [apply IH; lia|done].
Qed.
End loop_for.

(** ** A fair schedule lets a task end *)

Section fair.
Context {F : Type -> Type} {S : Type} `{!Handler F S}.
Context {Job Res : Type} (serve : Job -> async F Res).

Abbreviation P := (Pool F S Job Res).

(** The client of task [i] stays. *)
Definition stays (i : nat) (a : action (Job := Job)) : bool :=
  match a with Disconnect i' => negb (dec (i' = i)) | _ => true end.
(** How often the scheduler resumes task [i]. *)
Fixpoint turns (i : nat) (acts : list (action (Job := Job))) : nat :=
  match acts with
  | [] => 0
  | Resume i' _ :: acts => (if decide (i' = i) then 1 else 0) + turns i acts
  | _ :: acts => turns i acts
  end.

(** Task [i] has replied to [j], or has at most [n] effects left. *)
Definition ends_within (i : nat) (j : Job) (n : nat) (p : P) : Prop :=
  i < next_task p /\
  ((exists r, (i, j, r) ∈ replies p) \/
   exists t, tasks p !! i = Some (j, t) /\ within n t).

Lemma ends_within_act i j n (p : P) a :
  stays i a = true -> ends_within i j n p ->
  ends_within i j (n - turns i [a]) (act serve p a).
Proof using Type.
  intros Hs [Hlt Hp]. unfold ends_within, stays in *.
  destruct a as [j'|i' env|i'|i']; cbn.
  - split; [lia|]. destruct Hp as [?|(t & Ht & Hw)]; [by left|right]. exists t.
    rewrite lookup_insert_ne by lia. split; [done|]. by rewrite Nat.sub_0_r.
  - destruct Hp as [Hr|(t & Ht & Hw)].
    { destruct (tasks p !! i') as [[j2 [r|X e k]]|]; [by eauto| |by eauto].
      destruct (handle env e (shared p)); cbn; eauto. }
    destruct (decide (i' = i)) as [->|Hne]; cbn.
    + rewrite Ht. destruct t as [r|X e k]; [by eauto 10|].
      destruct n as [|n]; [done|]. destruct (handle env e (shared p)) as [x s']. cbn.
      split; [done|]. right. exists (k x). rewrite lookup_insert_eq. split; [done|].
      rewrite Nat.sub_0_r. apply Hw.
    + rewrite Nat.sub_0_r. destruct (tasks p !! i') as [[j2 [r|X e k]]|]; [by eauto| |by eauto].
      destruct (handle env e (shared p)); cbn. split; [done|]. right. exists t.
      by rewrite lookup_insert_ne.
  - rewrite Nat.sub_0_r. destruct (tasks p !! i') as [[j2 [r|X e k]]|] eqn:Hi; [|by eauto..].
    cbn. split; [done|]. destruct Hp as [[r' ?]|(t & Ht & Hw)]; [left; eexists; by right|].
    destruct (decide (i' = i)) as [->|Hne].
    + left. assert (j2 = j) as -> by congruence. exists r. by left.
    + right. exists t. by rewrite lookup_delete_ne.
  - rewrite Nat.sub_0_r. split; [done|]. destruct Hp as [?|(t & Ht & Hw)]; [by left|right].
    exists t. rewrite lookup_delete_ne; [done|].
    by apply negb_true_iff, bool_decide_eq_false in Hs.
Qed.

Lemma turns_cons i a acts : turns i (a :: acts) = turns i [a] + turns i acts.
Proof using Type. destruct a as [|i' env| |]; cbn; [done|by rewrite Nat.add_0_r|done..]. Qed.

Lemma ends_within_acts i j n (p : P) acts :
  Forall (fun a => stays i a = true) acts -> ends_within i j n p ->
  ends_within i j (n - turns i acts) (fold_left (act serve) acts p).
Proof using Type.
  intros Hs. revert n p. induction Hs as [|a acts Ha _ IH]; intros n p Hp.
  - cbn. by rewrite Nat.sub_0_r.
  - rewrite turns_cons, Nat.sub_add_distr. by apply IH, ends_within_act.
Qed.

(** The task that a request becomes. *)
Definition task_of (s : S) (before : list (action (Job := Job))) : nat :=
  next_task (exec serve s before).

Lemma ended i j (p : P) :
  ends_within i j 0 p -> exists r, (i, j, r) ∈ replies (act serve p (Answer i)).
Proof using Type.
  intros [_ [[r Hr]|(t & Ht & Hw)]]; cbn.
  - destruct (tasks p !! i) as [[j2 [r2|]]|]; eauto. exists r. by right.
  - destruct t as [r|]; [|done]. rewrite Ht. exists r. by left.
Qed.

(** A task that is resumed as often as its handler is high has ended. *)
Lemma fair_end n s before j acts :
  within n (serve j) ->
  Forall (fun a => stays (task_of s before) a = true) acts ->
  n <= turns (task_of s before) acts ->
  exists r, (task_of s before, j, r) ∈
    replies (exec serve s (before ++ Request j :: acts ++ [Answer (task_of s before)])).
Proof using Type.
  intros Hw Hs Hn. unfold exec. rewrite !fold_left_app. cbn [fold_left].
  rewrite fold_left_app. cbn [fold_left]. fold (exec serve s before).
  set (i := task_of s before) in *. apply ended.
  replace 0 with (n - turns i acts) by lia. apply ends_within_acts; [done|].
  split; cbn; [unfold i, task_of; lia|]. right. exists (serve j). unfold i, task_of.
  by rewrite lookup_insert_eq.
Qed.
End fair.
