(* ===== verification/Pki.v ===== *)
(** * The [pki] crate: CSR generation and signing, peer certificates

    [src/pki/src/csr.rs], [src/pki/src/mtls.rs] and [src/pki/src/error.rs].
    The cryptographic crates ([rcgen], [x509-parser], [rustls],
    [rustls-pemfile]) and the date arithmetic of [time] are parameters
    ([PkiLib], [RustlsLib]); an error of such a crate is its display text, which
    is all the source keeps of it. *)

From S2P Require Import Prelude Sqlite Async.

(** ** Errors *)

Module PkiErr.
Inductive Error :=
| Tls (e : string)
| Pem (e : string)
| NoPeerCert
| CertVerification (e : string)
| SerialMismatch (cert request : string)
| Io (e : string).

(** The [#[error(...)]] texts. *)
Definition to_string (e : Error) : string :=
  match e with
  | Tls e => "TLS error: " +:+ e
  | Pem e => "PEM parse error: " +:+ e
  | NoPeerCert => "no peer certificate in TLS state"
  | CertVerification e => "device cert verification failed: " +:+ e
  | SerialMismatch c r => "serial mismatch: cert=" +:+ c +:+ " request=" +:+ r
  | Io e => "IO error: " +:+ e
  end.

#[global] Instance Error_eq_dec : EqDecision Error.
Proof. solve_decision. Defined.
End PkiErr.

(** ** Third-party code *)

Class PkiLib := {
  (* rcgen *)
  KeyPair : Type;
  CaParams : Type;
  CsrParams : Type;
  Certificate : Type;
  Csr : Type;
  key_pair_from_pem : string -> outcome string KeyPair;
  key_serialize_pem : KeyPair -> string;
  ca_params_from_pem : string -> outcome string CaParams;
  self_signed : CaParams -> KeyPair -> outcome string Certificate;
  csr_params_from_pem : string -> outcome string CsrParams;
  (* [signed_by], with the validity bounds the caller sets on the request *)
  signed_by : CsrParams -> forall not_before not_after : Z,
    Certificate -> KeyPair -> outcome string Certificate;
  cert_pem : Certificate -> string;
  (* a request for a subject whose only attribute is the common name *)
  serialize_request : string -> KeyPair -> outcome string Csr;
  csr_pem_of : Csr -> outcome string string;
  (* time: [OffsetDateTime + Duration::days], which panics out of range *)
  date_add_days : Z -> Z -> option Z;
  (* rustls-pemfile, x509-parser *)
  CertificateDer : Type;
  X509 : Type;
  PublicKey : Type;
  pemfile_certs : string -> list (outcome string CertificateDer);
  x509_from_der : CertificateDer -> outcome string X509;
  common_names : X509 -> list (outcome string string);
  public_key : X509 -> PublicKey;
  verify_signature : X509 -> PublicKey -> outcome string unit
}.

(** Documented behaviour of the date arithmetic. *)
Class PkiLibSpec `{PkiLib} : Prop := {
  date_add_days_exact t d t' :
    date_add_days t d = Some t' -> t' = (t + d * 86400 * 1000000000)%Z
}.

Class RustlsLib `{PkiLib} := {
  PrivateKey : Type;
  RootStore : Type;
  Verifier : Type;
  ServerConfig : Type;
  ClientConfig : Type;
  pemfile_private_key : string -> outcome string (option PrivateKey);
  root_empty : RootStore;
  root_add : RootStore -> CertificateDer -> outcome string RootStore;
  client_verifier : RootStore -> outcome string Verifier;
  (* the builders, restricted to the one protocol version given *)
  server_config : string -> Verifier -> list CertificateDer -> PrivateKey ->
    outcome string ServerConfig;
  client_config : string -> RootStore -> list CertificateDer -> PrivateKey ->
    outcome string ClientConfig
}.

(** ** [csr.rs] *)

Module Csr.
Section csr.
Context `{PkiLib}.

(** The effects of [generate_csr] on the host. *)
Inductive HostE : Type -> Type :=
| KeyGen : HostE (outcome string KeyPair)
| OpenCreateTruncate (path : string) (mode : Z) : HostE (outcome string unit)
| WriteAll (path contents : string) : HostE (outcome string unit).

Definition owner_only : Z := 384. (* 0o600 *)

(** The key pair is generated, its private key is written to [key_path],
    and the CSR for [cn] is returned; the key itself is not. *)
Definition generate_csr {F} (host : forall X, HostE X -> F X) (cn key_path : string) :
  Task F PkiErr.Error string :=
  key_pair ← task_map_err PkiErr.Pem (call (host _ KeyGen));
  _ ← task_map_err PkiErr.Io (call (host _ (OpenCreateTruncate key_path owner_only)));
  _ ← task_map_err PkiErr.Io
        (call (host _ (WriteAll key_path (key_serialize_pem key_pair))));
  csr ← pure_code (map_err PkiErr.Pem (serialize_request cn key_pair));
  pure_code (map_err PkiErr.Pem (csr_pem_of csr)).

(** [now] is the clock reading of the call. *)
Definition sign_csr (now : Z) (csr_pem ca_cert_pem ca_key_pem : string)
    (validity_days : Z) : outcome PkiErr.Error string :=
  ca_key ← map_err PkiErr.Pem (key_pair_from_pem ca_key_pem);
  ca_params ← map_err PkiErr.Pem (ca_params_from_pem ca_cert_pem);
  ca_cert ← map_err PkiErr.Pem (self_signed ca_params ca_key);
  csr_params ← map_err PkiErr.Pem (csr_params_from_pem csr_pem);
  not_after ← match date_add_days now validity_days with
              | Some t => Ok t
              | None => Panic
              end;
  cert ← map_err PkiErr.Pem (signed_by csr_params now not_after ca_cert ca_key);
  Ok (cert_pem cert).
End csr.
End Csr.

(** ** [mtls.rs] *)

Module Mtls.
Section mtls.
Context `{PkiLib}.

Definition certs_from_pem (pem : string) : outcome PkiErr.Error (list CertificateDer) :=
  map_err PkiErr.Pem (collect (pemfile_certs pem)).

(** The common name of the subject of the first certificate. *)
Definition extract_serial (peer_certs : list CertificateDer) :
  outcome PkiErr.Error string :=
  cert ← ok_or (head peer_certs) PkiErr.NoPeerCert;
  x509 ← map_err PkiErr.Pem (x509_from_der cert);
  cn ← ok_or (head (common_names x509)) (PkiErr.Pem "no CN in subject");
  map_err PkiErr.Pem cn.

(** The first certificate carries a signature by the first certificate of
    [ca_pem]. *)
Definition verify_signed_by (peer_certs : list CertificateDer) (ca_pem : string) :
  outcome PkiErr.Error unit :=
  leaf ← ok_or (head peer_certs) PkiErr.NoPeerCert;
  ca_certs ← certs_from_pem ca_pem;
  ca_der ← ok_or (head ca_certs) (PkiErr.Pem "no certificate in CA PEM");
  ca_x509 ← map_err PkiErr.CertVerification (x509_from_der ca_der);
  leaf_x509 ← map_err PkiErr.CertVerification (x509_from_der leaf);
  map_err PkiErr.CertVerification (verify_signature leaf_x509 (public_key ca_x509)).
End mtls.

Section tls.
Context `{RustlsLib}.

Definition private_key_from_pem (pem : string) : outcome PkiErr.Error PrivateKey :=
  key ← map_err PkiErr.Pem (pemfile_private_key pem);
  ok_or key (PkiErr.Pem "no private key found in PEM").

Fixpoint add_all (store : RootStore) (certs : list CertificateDer) :
  outcome PkiErr.Error RootStore :=
  match certs with
  | [] => Ok store
  | cert :: certs =>
      store ← map_err PkiErr.CertVerification (root_add store cert);
      add_all store certs
  end.

Definition root_store_from_pem (pem : string) : outcome PkiErr.Error RootStore :=
  certs ← certs_from_pem pem;
  add_all root_empty certs.

Definition TLS13 : string := "TLS13".

Definition server_tls_config (cert_pem key_pem client_ca_pem : string) :
  outcome PkiErr.Error ServerConfig :=
  certs ← certs_from_pem cert_pem;
  key ← private_key_from_pem key_pem;
  roots ← root_store_from_pem client_ca_pem;
  verifier ← map_err PkiErr.CertVerification (client_verifier roots);
  map_err PkiErr.Tls (server_config TLS13 verifier certs key).

Definition client_tls_config (cert_pem key_pem server_ca_pem : string) :
  outcome PkiErr.Error ClientConfig :=
  certs ← certs_from_pem cert_pem;
  key ← private_key_from_pem key_pem;
  roots ← root_store_from_pem server_ca_pem;
  map_err PkiErr.Tls (client_config TLS13 roots certs key).
End tls.
End Mtls.
