(* ===== verification/DeviceStore.v ===== *)
(** * The device store of the device-management service

    [src/device-management-service/src/store/mod.rs] and [src/error.rs]: the
    domain types, the [DeviceStore] trait (the class [DeviceStore]) and its
    SQLite implementation ([Sqlite.*], the instance [sqlite_device_store]). *)

From S2P Require Import Prelude Sqlite Pki.

(** ** [error.rs] *)

Module DmsErr.
Inductive Error :=
| NotFound (id : string)
| AlreadyEnrolled (serial : string)
| NotPreEnrolled (serial : string)
| SerialAlreadyClaimed (serial : string)
| DeviceNotActive (status : string)
| SerialMismatch (cert request : string)
| CertVerification (e : string)
| NotInManifest (serial : string)
| InvalidProvisionToken (serial : string)
| AlreadyProvisioned (serial : string)
| Db (e : RusqliteError)
| Pki (e : PkiErr.Error).

(** The [#[error(...)]] texts; [rusqlite_text] is the display text of a
    rusqlite error. *)
Definition to_string (rusqlite_text : RusqliteError -> string) (e : Error) : string :=
  match e with
  | NotFound i => "device not found: " +:+ i
  | AlreadyEnrolled s => "serial already enrolled: " +:+ s
  | NotPreEnrolled s => "serial not in pre-enrollment registry: " +:+ s
  | SerialAlreadyClaimed s => "serial already claimed: " +:+ s
  | DeviceNotActive st => "device is " +:+ st +:+ ", cannot renew cert"
  | SerialMismatch c r => "serial mismatch: cert=" +:+ c +:+ " request=" +:+ r
  | CertVerification e => "cert verification failed: " +:+ e
  | NotInManifest s => "serial not in factory manifest: " +:+ s
  | InvalidProvisionToken s => "invalid provision token for serial: " +:+ s
  | AlreadyProvisioned s => "device already provisioned: " +:+ s
  | Db e => "database error: " +:+ rusqlite_text e
  | Pki e => "PKI error: " +:+ PkiErr.to_string e
  end.

#[global] Instance Error_eq_dec : EqDecision Error.
Proof. solve_decision. Defined.
End DmsErr.
Export DmsErr (Error).

(** ** Domain types *)

Record NewDevice := mkNewDevice {
  nd_serial : string;
  nd_model : string;
  nd_firmware : string;
  nd_operational_cert_pem : string
}.

Record DeviceRecord := mkDevice {
  id : string;
  serial : string;
  model : string;
  firmware : string;
  status : string;
  operational_cert_pem : string;
  enrolled_at : Z;
  last_seen_at : Z
}.

Record PreEnrollmentRecord := mkPre { pre_serial : string; pre_model : string }.

#[export] Instance DeviceRecord_eq_dec : EqDecision DeviceRecord.
Proof. solve_decision. Defined.
#[export] Instance PreEnrollmentRecord_eq_dec : EqDecision PreEnrollmentRecord.
Proof. solve_decision. Defined.

(** ** The trait *)

Definition Page : Type := list DeviceRecord * option string.

Class DeviceStore (S : Type) := {
  create_device : Env -> NewDevice -> ST S Error DeviceRecord;
  get_device : Env -> string -> ST S Error DeviceRecord;
  get_by_serial : Env -> string -> ST S Error DeviceRecord;
  update_status : Env -> forall id status reason : string, ST S Error unit;
  touch_last_seen : Env -> string -> ST S Error unit;
  list_devices : Env -> forall (model status : option string) (limit : Z)
    (cursor : option string), ST S Error Page;
  register_serial : Env -> forall serial model : string, ST S Error unit;
  lookup_and_claim : Env -> string -> ST S Error PreEnrollmentRecord;
  count_devices : Env -> ST S Error Z;
  seed_manifest : Env -> forall serial model token : string, ST S Error unit;
  claim_manifest_entry : Env -> forall serial token : string, ST S Error string
}.

(** ** The tables *)

Record ManifestRow := mkManifest {
  m_model : string;
  m_token : string;
  provisioned_at : option Z
}.
Record PreRow := mkPreRow { p_model : string; claimed : Z }.

(** The rows by primary key. *)
Record Tables := mkTables {
  factory_manifest : gmap string ManifestRow;
  devices : gmap string DeviceRecord;
  pre_enrollment : gmap string PreRow
}.

(** A fresh database after the migration. *)
Definition empty_tables : Tables := mkTables ∅ ∅ ∅.

Definition set_manifest (m : gmap string ManifestRow) (t : Tables) : Tables :=
  mkTables m (devices t) (pre_enrollment t).
Definition set_devices (d : gmap string DeviceRecord) (t : Tables) : Tables :=
  mkTables (factory_manifest t) d (pre_enrollment t).
Definition set_pre (p : gmap string PreRow) (t : Tables) : Tables :=
  mkTables (factory_manifest t) (devices t) p.

(** The rows of [devices], in no particular order. *)
Definition device_rows (t : Tables) : list DeviceRecord := (map_to_list (devices t)).*2.

Definition device_with_serial (s : string) (t : Tables) : option DeviceRecord :=
  head (filter (fun d => serial d = s) (device_rows t)).

(** ** The SQL statements *)

Module Sql.
(** [INSERT INTO devices ...]: the primary key and the UNIQUE serial. *)
Definition insert_device (d : DeviceRecord) (t : Tables) :
  outcome RusqliteError (unit * Tables) :=
  if decide (is_Some (devices t !! id d)) then Err (SqliteFailure ConstraintViolation)
  else
    match device_with_serial (serial d) t with
    | Some _ => Err (SqliteFailure ConstraintViolation)
    | None => Ok (tt, set_devices (<[id d := d]> (devices t)) t)
    end.

(** [UPDATE devices SET ... WHERE id = ?]: how many rows changed. *)
Definition update_device (i : string) (f : DeviceRecord -> DeviceRecord) (t : Tables) :
  outcome RusqliteError (nat * Tables) :=
  match devices t !! i with
  | Some d => Ok (1, set_devices (<[i := f d]> (devices t)) t)
  | None => Ok (0, t)
  end.

(** [INSERT INTO pre_enrollment ... ON CONFLICT(serial) DO UPDATE SET claimed
    = 0 WHERE NOT EXISTS (SELECT 1 FROM devices WHERE serial = excluded.serial)]. *)
Definition upsert_pre (s m : string) (t : Tables) : outcome RusqliteError (unit * Tables) :=
  match pre_enrollment t !! s, device_with_serial s t with
  | None, _ => Ok (tt, set_pre (<[s := mkPreRow m 0]> (pre_enrollment t)) t)
  | Some row, None =>
      Ok (tt, set_pre (<[s := mkPreRow (p_model row) 0]> (pre_enrollment t)) t)
  | Some _, Some _ => Ok (tt, t)
  end.

(** [INSERT OR IGNORE INTO pre_enrollment]. *)
Definition insert_pre_or_ignore (s m : string) (t : Tables) :
  outcome RusqliteError (unit * Tables) :=
  match pre_enrollment t !! s with
  | None => Ok (tt, set_pre (<[s := mkPreRow m 0]> (pre_enrollment t)) t)
  | Some _ => Ok (tt, t)
  end.

(** [UPDATE pre_enrollment SET claimed = 1 WHERE serial = ?]. *)
Definition set_claimed (s : string) (t : Tables) : outcome RusqliteError (unit * Tables) :=
  Ok (tt, set_pre (alter (fun r => mkPreRow (p_model r) 1) s (pre_enrollment t)) t).

(** [INSERT OR IGNORE INTO factory_manifest]. *)
Definition insert_manifest_or_ignore (s m tok : string) (t : Tables) :
  outcome RusqliteError (unit * Tables) :=
  match factory_manifest t !! s with
  | None => Ok (tt, set_manifest (<[s := mkManifest m tok None]> (factory_manifest t)) t)
  | Some _ => Ok (tt, t)
  end.

(** [UPDATE factory_manifest SET provisioned_at = ? WHERE serial = ?]. *)
Definition set_provisioned (s : string) (now : Z) (t : Tables) :
  outcome RusqliteError (unit * Tables) :=
  Ok (tt, set_manifest
            (alter (fun r => mkManifest (m_model r) (m_token r) (Some now)) s
               (factory_manifest t)) t).

(** The query that [list_devices] assembles: numbered placeholders in the
    text, and the parameter list. *)
Inductive Param := PText (s : string) | PInt (z : Z).
Inductive Clause := ModelEq (n : nat) | StatusEq (n : nat) | IdGt (n : nat).
Record Query := mkQuery { clauses : list Clause; params : list Param }.

Definition add_clause (f : nat -> Clause) (v : option string) (q : Query) : Query :=
  match v with
  | Some s =>
      mkQuery (clauses q ++ [f (length (params q) + 1)]) (params q ++ [PText s])
  | None => q
  end.

Definition build_query (model status cursor : option string) : Query :=
  add_clause IdGt cursor (add_clause StatusEq status (add_clause ModelEq model
    (mkQuery [] []))).

(** The value bound to [?n]. *)
Definition bound_text (ps : list Param) (n : nat) : option string :=
  match ps !! (n - 1) with Some (PText s) => Some s | _ => None end.

Definition clause_holds (ps : list Param) (d : DeviceRecord) (c : Clause) : bool :=
  match c with
  | ModelEq n => match bound_text ps n with Some s => dec (model d = s) | None => false end
  | StatusEq n => match bound_text ps n with Some s => dec (status d = s) | None => false end
  | IdGt n => match bound_text ps n with
              | Some s => dec (String.le s (id d) /\ s <> id d) | None => false end
  end.

Definition by_id (d1 d2 : DeviceRecord) : Prop := String.le (id d1) (id d2).
#[global] Instance by_id_dec : RelDecision by_id.
Proof. intros d1 d2. unfold by_id. apply _. Defined.

(** [SELECT ... WHERE 1=1 AND ... ORDER BY id LIMIT ?]. *)
Definition select_devices (q : Query) (limit_param : nat) (t : Tables) : list DeviceRecord :=
  let rows := filter (fun d => forallb (clause_holds (params q) d) (clauses q))
                (merge_sort by_id (device_rows t)) in
  match params q !! (limit_param - 1) with
  | Some (PInt n) => limit_rows n rows
  | _ => []
  end.
End Sql.

(** ** The SQLite implementation *)

Module Sqlite_.
Abbreviation Db := (Mutex Tables).
Abbreviation op := (ST (Conn Tables) Error).

Section ops.
Context `{BuildProfile} (env : Env).

(** [self.conn.lock().map_err(|_| Error::Db(InvalidQuery))?]. *)
Definition locked {A} (body : op A) : ST Db Error A :=
  with_lock (Err (DmsErr.Db InvalidQuery)) body.

(** [?] on a rusqlite result. *)
Definition db {A} (m : sql Tables A) : op A := st_map_err DmsErr.Db m.

(** [Err(QueryReturnedNoRows)] becomes [none], any other error [Error::Db]. *)
Definition or_none (none : Error) (e : RusqliteError) : Error :=
  match e with QueryReturnedNoRows => none | other => DmsErr.Db other end.

(** The body of a transaction: [COMMIT] on success, [ROLLBACK] on error. *)
Definition transaction {A} (body : op A) : op A :=
  _ ← db (begin_immediate env);
  st_inspect body (fun result =>
    match result with
    | Ok a => _ ← db (commit env); mret a
    | Err e => st_inspect (rollback env) (fun _ => st_err e)
    | Panic => st_lift Panic
    end).

Definition create_device (d : NewDevice) : ST Db Error DeviceRecord :=
  let id := fresh_uuid env in
  let now := unix_timestamp (clock env) in
  let row := mkDevice id (nd_serial d) (nd_model d) (nd_firmware d) "active"
               (nd_operational_cert_pem d) now now in
  _ ← locked (st_map_err
                (fun e => match e with
                          | SqliteFailure ConstraintViolation =>
                              DmsErr.AlreadyEnrolled (nd_serial d)
                          | other => DmsErr.Db other
                          end)
                (statement env 0 (Sql.insert_device row)));
  mret row.

Definition get_device (i : string) : ST Db Error DeviceRecord :=
  locked (st_map_err (or_none (DmsErr.NotFound i))
    (query_row env 0 (fun t => devices t !! i))).

Definition get_by_serial (s : string) : ST Db Error DeviceRecord :=
  locked (st_map_err (or_none (DmsErr.NotFound s))
    (query_row env 0 (device_with_serial s))).

(** An [UPDATE] of one device: no row changed is [NotFound]. *)
Definition update_one (i : string) (f : DeviceRecord -> DeviceRecord) : ST Db Error unit :=
  locked (
    rows ← db (statement env 0 (Sql.update_device i f));
    if decide (rows = 0) then st_err (DmsErr.NotFound i) else mret tt).

Definition with_status (s : string) (d : DeviceRecord) : DeviceRecord :=
  mkDevice (id d) (serial d) (model d) (firmware d) s (operational_cert_pem d)
    (enrolled_at d) (last_seen_at d).
Definition with_last_seen (now : Z) (d : DeviceRecord) : DeviceRecord :=
  mkDevice (id d) (serial d) (model d) (firmware d) (status d) (operational_cert_pem d)
    (enrolled_at d) now.

Definition update_status (i s reason : string) : ST Db Error unit :=
  update_one i (with_status s).

Definition touch_last_seen (i : string) : ST Db Error unit :=
  update_one i (with_last_seen (unix_timestamp (clock env))).

Definition list_devices (model status : option string) (limit : Z)
    (cursor : option string) : ST Db Error Page :=
  locked (
    let q := Sql.build_query model status cursor in
    let limit_param := length (Sql.params q) + 1 in
    fetch ← st_lift (i64_add limit 1);
    let q := Sql.mkQuery (Sql.clauses q) (Sql.params q ++ [Sql.PInt fetch]) in
    rows ← db (query env 0 (fun t => Ok (Sql.select_devices q limit_param t)));
    if (limit <? Z.of_nat (length rows))%Z
    then let rows := removelast rows in mret (rows, id <$> last rows)
    else mret (rows, None)).

Definition register_serial (s m : string) : ST Db Error unit :=
  locked (db (statement env 0 (Sql.upsert_pre s m))).

Definition lookup_and_claim (s : string) : ST Db Error PreEnrollmentRecord :=
  locked (transaction (
    row ← st_map_err (or_none (DmsErr.NotPreEnrolled s))
            (query_row env 0 (fun t => pre_enrollment t !! s));
    if decide (claimed row <> 0)%Z then st_err (DmsErr.SerialAlreadyClaimed s)
    else
      _ ← db (statement env 1 (Sql.set_claimed s));
      mret (mkPre s (p_model row)))).

Definition count_devices : ST Db Error Z :=
  locked (
    n ← db (query env 0 (fun t => Ok (Z.of_nat (size (devices t)))));
    mret (wrap_u64 n)).

Definition seed_manifest (s m tok : string) : ST Db Error unit :=
  locked (db (statement env 0 (Sql.insert_manifest_or_ignore s m tok))).

Definition claim_manifest_entry (s tok : string) : ST Db Error string :=
  locked (transaction (
    row ← st_map_err (or_none (DmsErr.NotInManifest s))
            (query_row env 0 (fun t => factory_manifest t !! s));
    if decide (m_token row <> tok) then st_err (DmsErr.InvalidProvisionToken s)
    else if decide (is_Some (provisioned_at row)) then st_err (DmsErr.AlreadyProvisioned s)
    else
      _ ← db (statement env 1 (Sql.set_provisioned s (unix_timestamp (clock env))));
      _ ← db (statement env 2 (Sql.insert_pre_or_ignore s (m_model row)));
      mret (m_model row))).
End ops.

(** [SqliteDeviceStore::new] on a file that holds the tables [t]. *)
Definition new (t : Tables) : Db := new_mutex t.

(** What a restart of the process makes of the store. *)
Definition reopen (s : Db) : Db := new (durable (guarded s)).

(** *** Rows are well formed *)

(** A device is stored under its own id, and serials are unique. *)
Record wf (t : Tables) : Prop := {
  wf_id : forall i d, devices t !! i = Some d -> id d = i;
  wf_serial : forall i1 i2 d1 d2,
    devices t !! i1 = Some d1 -> devices t !! i2 = Some d2 ->
    serial d1 = serial d2 -> i1 = i2
}.

(** Both the visible tables and those a crash would leave are. *)
Definition wf_db (s : Db) : Prop := wf (live (guarded s)) /\ wf (durable (guarded s)).
End Sqlite_.

#[export] Instance sqlite_device_store `{BuildProfile} : DeviceStore (Mutex Tables) := {
  create_device := Sqlite_.create_device;
  get_device := Sqlite_.get_device;
  get_by_serial := Sqlite_.get_by_serial;
  update_status := Sqlite_.update_status;
  touch_last_seen := Sqlite_.touch_last_seen;
  list_devices := Sqlite_.list_devices;
  register_serial := Sqlite_.register_serial;
  lookup_and_claim := Sqlite_.lookup_and_claim;
  count_devices := Sqlite_.count_devices;
  seed_manifest := Sqlite_.seed_manifest;
  claim_manifest_entry := Sqlite_.claim_manifest_entry
}.
