(* ===== verification/DeviceStoreSpec.v ===== *)
(** * What the device store promises

    [StoreCall] reifies the methods of the trait, [spec] says what each does
    to the tables as one atomic step, and the class [DeviceStoreSpec] is the
    contract of an implementation: it behaves as [spec] while it is healthy,
    and whatever fails, the tables a crash would leave change by one atomic
    step or not at all.  The handlers of the service are proved against this
    class; [DeviceStoreSqlite] proves it of the SQLite store. *)

From S2P Require Import Prelude Sqlite Pki DeviceStore.

(** ** Calls *)

Inductive StoreCall : Type -> Type :=
| CreateDevice (d : NewDevice) : StoreCall DeviceRecord
| GetDevice (i : string) : StoreCall DeviceRecord
| GetBySerial (s : string) : StoreCall DeviceRecord
| UpdateStatus (i status reason : string) : StoreCall unit
| TouchLastSeen (i : string) : StoreCall unit
| ListDevices (model status : option string) (limit : Z) (cursor : option string) :
    StoreCall Page
| RegisterSerial (s model : string) : StoreCall unit
| LookupAndClaim (s : string) : StoreCall PreEnrollmentRecord
| CountDevices : StoreCall Z
| SeedManifest (s model token : string) : StoreCall unit
| ClaimManifestEntry (s token : string) : StoreCall string.

Definition store_call {S} `{DeviceStore S} (env : Env) {A} (c : StoreCall A) : ST S Error A :=
  match c with
  | CreateDevice d => create_device env d
  | GetDevice i => get_device env i
  | GetBySerial s => get_by_serial env s
  | UpdateStatus i st r => update_status env i st r
  | TouchLastSeen i => touch_last_seen env i
  | ListDevices m st l c => list_devices env m st l c
  | RegisterSerial s m => register_serial env s m
  | LookupAndClaim s => lookup_and_claim env s
  | CountDevices => count_devices env
  | SeedManifest s m tok => seed_manifest env s m tok
  | ClaimManifestEntry s tok => claim_manifest_entry env s tok
  end.

(** ** The atomic meaning of a call *)

(** The devices that [list_devices] selects, before the limit. *)
Definition matches (m st cursor : option string) (d : DeviceRecord) : Prop :=
  (forall x, m = Some x -> model d = x) /\
  (forall x, st = Some x -> status d = x) /\
  (forall x, cursor = Some x -> String.le x (id d) /\ x <> id d).

Definition matches_b (m st cursor : option string) (d : DeviceRecord) : bool :=
  match m with Some x => dec (model d = x) | None => true end &&
  (match st with Some x => dec (status d = x) | None => true end &&
   match cursor with Some x => dec (String.le x (id d) /\ x <> id d) | None => true end).

Lemma matches_b_spec m st cursor d : matches_b m st cursor d = true <-> matches m st cursor d.
Proof.
  unfold matches, matches_b.
  destruct m, st, cursor; rewrite ?andb_true_iff, ?bool_decide_eq_true; naive_solver.
Qed.

#[export] Instance matches_dec m st cursor d : Decision (matches m st cursor d).
Proof.
  destruct (matches_b m st cursor d) eqn:Hb.
  - left. by apply matches_b_spec.
  - right. intros Hm%matches_b_spec. congruence.
Defined.

Definition matching (m st cursor : option string) (t : Tables) : list DeviceRecord :=
  filter (matches m st cursor) (merge_sort Sql.by_id (device_rows t)).

(** The first [n] of the rows, and where the next page starts if there is one. *)
Definition page_of (n : nat) (rows : list DeviceRecord) : Page :=
  (take n rows, if decide (n < length rows) then id <$> last (take n rows) else None).

Definition spec (env : Env) {A} (c : StoreCall A) (t : Tables) : outcome Error A * Tables :=
  match c with
  | CreateDevice d =>
      let now := unix_timestamp (clock env) in
      let row := mkDevice (fresh_uuid env) (nd_serial d) (nd_model d) (nd_firmware d) "active"
                   (nd_operational_cert_pem d) now now in
      if decide (is_Some (devices t !! fresh_uuid env) \/
                 is_Some (device_with_serial (nd_serial d) t))
      then (Err (DmsErr.AlreadyEnrolled (nd_serial d)), t)
      else (Ok row, set_devices (<[fresh_uuid env := row]> (devices t)) t)
  | GetDevice i => (ok_or (devices t !! i) (DmsErr.NotFound i), t)
  | GetBySerial s => (ok_or (device_with_serial s t) (DmsErr.NotFound s), t)
  | UpdateStatus i st _ =>
      match devices t !! i with
      | Some d => (Ok tt, set_devices (<[i := Sqlite_.with_status st d]> (devices t)) t)
      | None => (Err (DmsErr.NotFound i), t)
      end
  | TouchLastSeen i =>
      match devices t !! i with
      | Some d =>
          let d' := Sqlite_.with_last_seen (unix_timestamp (clock env)) d in
          (Ok tt, set_devices (<[i := d']> (devices t)) t)
      | None => (Err (DmsErr.NotFound i), t)
      end
  | ListDevices m st limit cursor =>
      (Ok (page_of (Z.to_nat limit) (matching m st cursor t)), t)
  | RegisterSerial s m =>
      match pre_enrollment t !! s with
      | None => (Ok tt, set_pre (<[s := mkPreRow m 0]> (pre_enrollment t)) t)
      | Some row =>
          if decide (is_Some (device_with_serial s t)) then (Ok tt, t)
          else (Ok tt, set_pre (<[s := mkPreRow (p_model row) 0]> (pre_enrollment t)) t)
      end
  | LookupAndClaim s =>
      match pre_enrollment t !! s with
      | None => (Err (DmsErr.NotPreEnrolled s), t)
      | Some row =>
          if decide (claimed row = 0)%Z
          then (Ok (mkPre s (p_model row)),
                set_pre (<[s := mkPreRow (p_model row) 1]> (pre_enrollment t)) t)
          else (Err (DmsErr.SerialAlreadyClaimed s), t)
      end
  | CountDevices => (Ok (wrap_u64 (Z.of_nat (size (devices t)))), t)
  | SeedManifest s m tok =>
      match factory_manifest t !! s with
      | None => (Ok tt, set_manifest (<[s := mkManifest m tok None]> (factory_manifest t)) t)
      | Some _ => (Ok tt, t)
      end
  | ClaimManifestEntry s tok =>
      match factory_manifest t !! s with
      | None => (Err (DmsErr.NotInManifest s), t)
      | Some row =>
          if decide (m_token row <> tok) then (Err (DmsErr.InvalidProvisionToken s), t)
          else if decide (is_Some (provisioned_at row))
          then (Err (DmsErr.AlreadyProvisioned s), t)
          else
            let now := unix_timestamp (clock env) in
            let t1 := set_manifest
                        (<[s := mkManifest (m_model row) (m_token row) (Some now)]>
                           (factory_manifest t)) t in
            (Ok (m_model row),
             match pre_enrollment t !! s with
             | None => set_pre (<[s := mkPreRow (m_model row) 0]> (pre_enrollment t)) t1
             | Some _ => t1
             end)
      end
  end.

(** Limits for which [list_devices] pages as specified. *)
Definition call_ok {A} (c : StoreCall A) : Prop :=
  match c with ListDevices _ _ limit _ => (0 <= limit < i64_max)%Z | _ => True end.

(** The calls that run in an explicit transaction. *)
Definition transactional {A} (c : StoreCall A) : bool :=
  match c with LookupAndClaim _ | ClaimManifestEntry _ _ => true | _ => false end.

(** ** The contract *)

Class DeviceStoreSpec (S : Type) `{DeviceStore S} := {
  visible : S -> Tables;    (** what the calls see *)
  on_disk : S -> Tables;    (** what a crash would leave *)
  healthy : S -> Prop;
  reopen : S -> S;          (** the store after a restart of the process *)

  healthy_on_disk s : healthy s -> on_disk s = visible s;
  on_disk_reopen s : on_disk (reopen s) = on_disk s;
  healthy_reopen s : healthy (reopen s);

  (** While the ends of transactions are clean, a healthy store stays healthy
      and a call either fails with a database error and changes nothing or
      is the atomic step. *)
  call_refines A (c : StoreCall A) env s r s' :
    healthy s -> ends_cleanly env -> call_ok c -> store_call env c s = (r, s') ->
    healthy s' /\
    ((exists e, r = Err (DmsErr.Db e) /\ visible s' = visible s) \/
     spec env c (visible s) = (r, visible s'));

  (** Without faults it is the atomic step. *)
  call_faultless A (c : StoreCall A) env s :
    healthy s -> (forall x, sql_fault env x = NoFault) -> call_ok c ->
    exists r s', store_call env c s = (r, s') /\ healthy s' /\
      spec env c (visible s) = (r, visible s');

  (** In every state and under every fault, the disk changes atomically. *)
  disk_atomic A (c : StoreCall A) env s r s' :
    store_call env c s = (r, s') ->
    on_disk s' = on_disk s \/ exists a, spec env c (on_disk s) = (Ok a, on_disk s');

  (** A claim that is reported is on disk. *)
  claim_durable A (c : StoreCall A) env s a s' :
    transactional c = true -> store_call env c s = (Ok a, s') ->
    spec env c (on_disk s) = (Ok a, on_disk s')
}.

(** ** Lemmas on the atomic steps *)

Lemma device_with_serial_Some s t d :
  device_with_serial s t = Some d ->
  serial d = s /\ exists i, devices t !! i = Some d.
Proof.
  unfold device_with_serial. intros Hh%head_Some_elem_of.
  apply list_elem_of_filter in Hh as [? Hd]. split; [done|].
  by apply list_fmap_snd_map_to_list_elem in Hd.
Qed.

Lemma device_with_serial_None s t :
  device_with_serial s t = None <->
  forall i d, devices t !! i = Some d -> serial d <> s.
Proof.
  unfold device_with_serial. split.
  - intros Hn i d Hd Hs. assert (d ∈ filter (fun d => serial d = s) (device_rows t)) as Hin.
    { apply list_elem_of_filter. split; [done|].
      apply list_fmap_snd_map_to_list_elem. eauto. }
    destruct (filter _ _); [by apply not_elem_of_nil in Hin|done].
  - intros Hall. destruct (filter _ _) as [|d l] eqn:Hf; [done|].
    assert (d ∈ filter (fun d => serial d = s) (device_rows t)) as Hin
      by (rewrite Hf; set_solver).
    apply list_elem_of_filter in Hin as [Hs Hd].
    apply list_fmap_snd_map_to_list_elem in Hd as [i Hi]. by destruct (Hall i d).
Qed.
