(* ===== verification/DeviceStoreSqlite.v ===== *)
(** * The SQLite device store meets its contract

    The instance of [DeviceStoreSpec] for [SqliteDeviceStore]: transactions,
    faults and the lock refine the atomic steps of [DeviceStoreSpec.spec]. *)

From S2P Require Import Prelude Sqlite Pki DeviceStore DeviceStoreSpec.

Section sqlite.
Context `{BuildProfile}.
Implicit Types (s : Mutex Tables) (c : Conn Tables) (t : Tables).

(** The disk after a call is the disk before it, or one atomic step of it. *)
Definition disk_step {A} (env : Env) (k : StoreCall A) (c0 c : Conn Tables) : Prop :=
  durable c = durable c0 \/ exists a, spec env k (durable c0) = (Ok a, durable c).

Lemma durable_write c t :
  durable (mkConn t (saved c)) = durable c \/
  (saved c = None /\ durable c = live c /\ durable (mkConn t (saved c)) = t).
Proof. unfold durable. destruct c as [l [x|]]; cbn; auto. Qed.

(** A single statement that performs the atomic step. *)
Lemma disk_statement {A B} env (k : StoreCall A) n
    (f : Tables -> outcome RusqliteError (B * Tables)) (Q : outcome RusqliteError B -> Conn Tables -> Prop) c :
  (forall b t, f (live c) = Ok (b, t) ->
     t = live c \/ exists a, spec env k (live c) = (Ok a, t)) ->
  (forall r c', disk_step env k c c' -> Q r c') ->
  post (statement env n f) Q c.
Proof using Type.
  intros Hf HQ. apply post_statement.
  - intros _. apply HQ. by left.
  - intros _. apply HQ. by left.
  - destruct (f (live c)) as [[b t]|e|] eqn:Hfc; [|apply HQ; by left..].
    apply HQ. destruct (durable_write c t) as [Hd|(Hs & Hl & Ht)]; [by left|].
    destruct (Hf b t eq_refl) as [->|[a Ha]].
    + left. congruence.
    + right. exists a. by rewrite Hl, Ht.
Qed.

Lemma disk_query {B} env n (f : Tables -> outcome RusqliteError B)
    (Q : outcome RusqliteError B -> Conn Tables -> Prop) c :
  (forall r c', durable c' = durable c -> Q r c') -> post (query env n f) Q c.
Proof using Type. intros HQ. apply post_query; intros; by apply HQ. Qed.

Lemma disk_query_row {B} env n (f : Tables -> option B)
    (Q : outcome RusqliteError B -> Conn Tables -> Prop) c :
  (forall r c', durable c' = durable c -> Q r c') -> post (query_row env n f) Q c.
Proof using Type. intros HQ. apply post_query_row; [intros; by apply HQ..|]. by destruct (f _); apply HQ. Qed.

(** *** Transactions *)

(** What the body of a claim leaves: its transaction is still open, or the
    engine has rolled it back; its result is that of the atomic step, or a
    fault. *)
Definition claim_body {A} env (k : StoreCall A) (t0 : Tables)
    (r : outcome Error A) (c : Conn Tables) : Prop :=
  match r with
  | Ok a => saved c = Some t0 /\ spec env k t0 = (Ok a, live c)
  | Err e =>
      durable c = t0 /\
      ((faulty env /\ exists x, e = DmsErr.Db x) \/ spec env k t0 = (Err e, t0))
  | Panic => False
  end.

#[local] Arguments claim_body : simpl never.

(** The transaction ends: [COMMIT] succeeds, or the disk keeps what it had.
    With clean ends no transaction stays open. *)
Lemma post_transaction {A} env (k : StoreCall A) (body : ST (Conn Tables) Error A)
    (Q : outcome Error A -> Conn Tables -> Prop) c :
  (forall t, post body (claim_body env k t) (mkConn t (Some t))) ->
  (forall a t, saved c = None -> spec env k (live c) = (Ok a, t) -> Q (Ok a) (mkConn t None)) ->
  (forall e c', durable c' = durable c ->
     (ends_cleanly env -> saved c = None -> saved c' = None) ->
     (saved c = None ->
       (faulty env /\ exists x, e = DmsErr.Db x) \/ spec env k (live c) = (Err e, live c)) ->
     Q (Err e) c') ->
  post (Sqlite_.transaction env body) Q c.
Proof using Type.
  intros Hbody Hok Herr. unfold Sqlite_.transaction, Sqlite_.db.
  apply post_bind, post_map_err, post_begin; cbn.
  1: intros; apply Herr; eauto.
  1: intros; apply Herr; eauto.
  1: intros; apply Herr; [done|by intros|by intros].
  intros Hs. apply post_inspect. eapply post_mono; [apply Hbody|].
  pose proof (durable_idle c Hs) as Hd. intros [a|e|] c'; unfold claim_body; [| |done].
  - intros [Hs' Hspec]. apply post_bind, post_map_err.
    assert (durable c' = durable c) as Hd' by (unfold durable at 1; by rewrite Hs').
    apply post_commit; cbn.
    + intros _. by apply Hok.
    + by rewrite Hs'.
    + intros Hf. apply Herr; [done|by intros [? ?]|]. intros _. left. split; [|eauto].
      eexists. by rewrite Hf.
    + intros Hf. apply Herr; eauto.
  - intros [Hd' He]. apply post_inspect, post_rollback; cbn; intros; apply Herr.
    all: rewrite ?durable_roll_back, ?Hd, ?Hd'; try done.
    by intros [? ?].
Qed.

(** *** The disk, whatever fails *)

Definition on_disk_post {A} env (k : StoreCall A) (s : Mutex Tables)
    (r : outcome Error A) (s' : Mutex Tables) : Prop :=
  disk_step env k (guarded s) (guarded s') /\
  (transactional k = true -> forall a, r = Ok a ->
     spec env k (durable (guarded s)) = (Ok a, durable (guarded s'))).

(** An operation under the lock that performs no transaction. *)
Lemma disk_locked {A} env (k : StoreCall A) (body : ST (Conn Tables) Error A) s :
  transactional k = false ->
  post body (fun _ c' => disk_step env k (guarded s) c') (guarded s) ->
  post (Sqlite_.locked body) (on_disk_post env k s) s.
Proof using Type.
  intros Hk Hb. apply post_with_lock; [by split; [left|congruence]|].
  intros _. eapply post_mono; [exact Hb|]. cbn. intros r c' Hc.
  split; [done|congruence].
Qed.

Lemma insert_device_spec d t b t' :
  Sql.insert_device d t = Ok (b, t') ->
  ~ (is_Some (devices t !! id d) \/ is_Some (device_with_serial (serial d) t)) /\
  t' = set_devices (<[id d := d]> (devices t)) t.
Proof using Type.
  unfold Sql.insert_device. intros Hi. case_decide; [done|].
  destruct (device_with_serial _ _) eqn:Hs; [done|]. simplify_eq.
  split; [|done]. intros [?|[? ?]]; done.
Qed.

Lemma disk_create_device env d s :
  post (Sqlite_.create_device env d) (on_disk_post env (CreateDevice d) s) s.
Proof using Type.
  unfold Sqlite_.create_device. apply post_bind. eapply post_mono.
  - apply post_with_lock; [intros _|intros _; apply post_map_err].
    + instantiate (1 := fun _ s' => disk_step env (CreateDevice d) (guarded s) (guarded s')).
      by left.
    + apply (disk_statement env (CreateDevice d)); [|done].
      intros b t Hi. apply insert_device_spec in Hi as [Hn ->]. right.
      eexists. cbn in *. rewrite decide_False by done. done.
  - cbn. intros [a|e|] s' Hd; [apply post_ret|..]; by split.
Qed.

Lemma disk_update_one env (k : StoreCall unit) i f s :
  transactional k = false ->
  (forall t d, devices t !! i = Some d ->
     spec env k t = (Ok tt, set_devices (<[i := f d]> (devices t)) t)) ->
  post (Sqlite_.update_one env i f) (on_disk_post env k s) s.
Proof using Type.
  intros Hk Hspec. apply disk_locked; [done|]. apply post_bind, post_map_err.
  apply (disk_statement env k).
  - intros b t. unfold Sql.update_device.
    destruct (devices (live (guarded s)) !! i) as [d|] eqn:Hd; intros [= <- <-]; [|by left].
    right. exists tt. by apply Hspec.
  - intros [rows|e|] c' Hc; cbn; [|done..]. by case_decide.
Qed.

Lemma disk_read {A B} env (k : StoreCall A) n (f : Tables -> outcome RusqliteError B)
    (g : RusqliteError -> Error) (kont : B -> ST (Conn Tables) Error A) s :
  transactional k = false ->
  (forall b c', post (kont b) (fun _ c'' => c'' = c') c') ->
  post (Sqlite_.locked (st_map_err g (query env n f) ≫= kont)) (on_disk_post env k s) s.
Proof using Type.
  intros Hk Hkont. apply disk_locked; [done|]. apply post_bind, post_map_err, disk_query.
  intros [b|e|] c' Hc; cbn; [|by left..].
  eapply post_mono; [apply Hkont|]. cbn. intros r c'' ->. by left.
Qed.

Lemma disk_get {B} env (k : StoreCall B) (f : Tables -> option B) (g : RusqliteError -> Error) s :
  transactional k = false ->
  post (Sqlite_.locked (st_map_err g (query_row env 0 f))) (on_disk_post env k s) s.
Proof using Type.
  intros Hk. apply disk_locked; [done|]. apply post_map_err, disk_query_row.
  intros r c' Hc. by left.
Qed.

Lemma disk_transaction {A} env (k : StoreCall A) (body : ST (Conn Tables) Error A) s :
  (forall t, post body (claim_body env k t) (mkConn t (Some t))) ->
  post (Sqlite_.locked (Sqlite_.transaction env body)) (on_disk_post env k s) s.
Proof using Type.
  intros Hbody. apply post_with_lock; [split; [by left|congruence]|]. intros _.
  apply post_transaction with k; [done|..].
  - intros a t Hs HP. unfold on_disk_post, disk_step. cbn.
    rewrite (durable_idle _ Hs). split; [right; by exists a|].
    intros _ a' [= <-]. done.
  - intros e c' Hc _ _. split; [by left|congruence].
Qed.

(** A statement of a claim's body that fails. *)
Lemma claim_body_fault {A} env (k : StoreCall A) t0 x c :
  saved c = Some t0 -> faulty env ->
  claim_body env k t0 (Err (DmsErr.Db x)) c /\
  claim_body env k t0 (Err (DmsErr.Db x)) (roll_back c).
Proof using Type.
  intros Hs Hf. unfold claim_body. rewrite durable_roll_back. unfold durable. rewrite Hs.
  cbn. eauto 10.
Qed.

Lemma lookup_and_claim_body env sno t :
  post (row ← st_map_err (Sqlite_.or_none (DmsErr.NotPreEnrolled sno))
                (query_row env 0 (fun t => pre_enrollment t !! sno));
        if decide (claimed row <> 0)%Z then st_err (DmsErr.SerialAlreadyClaimed sno)
        else _ ← Sqlite_.db (statement env 1 (Sql.set_claimed sno));
             mret (mkPre sno (p_model row)))
    (claim_body env (LookupAndClaim sno) t) (mkConn t (Some t)).
Proof using Type.
  apply post_bind, post_map_err, post_query_row; cbn.
  1,2: intros Hf; by eapply claim_body_fault.
  destruct (pre_enrollment t !! sno) as [row|] eqn:Hrow; cbn.
  2: { split; [done|right]. cbn. by rewrite Hrow. }
  case_decide as Hc.
  { apply post_err. split; [done|right]. cbn. by rewrite Hrow, decide_False. }
  apply post_bind, post_map_err, post_statement; cbn.
  1,2: intros Hf; by eapply claim_body_fault.
  apply post_ret. split; cbn; [done|]. rewrite Hrow.
  rewrite decide_True by lia. repeat f_equal.
  apply map_eq. intros i. rewrite lookup_insert, lookup_alter.
  case_decide; [by subst; rewrite Hrow|done].
Qed.

Lemma claim_manifest_body env sno tok t :
  post (row ← st_map_err (Sqlite_.or_none (DmsErr.NotInManifest sno))
              (query_row env 0 (fun t => factory_manifest t !! sno));
        if decide (m_token row <> tok) then st_err (DmsErr.InvalidProvisionToken sno)
        else if decide (is_Some (provisioned_at row)) then st_err (DmsErr.AlreadyProvisioned sno)
        else
          _ ← Sqlite_.db (statement env 1 (Sql.set_provisioned sno (unix_timestamp (clock env))));
          _ ← Sqlite_.db (statement env 2 (Sql.insert_pre_or_ignore sno (m_model row)));
          mret (m_model row))
    (claim_body env (ClaimManifestEntry sno tok) t) (mkConn t (Some t)).
Proof using Type.
  apply post_bind, post_map_err, post_query_row; cbn.
  1,2: intros Hf; by eapply claim_body_fault.
  destruct (factory_manifest t !! sno) as [row|] eqn:Hrow; cbn.
  2: { split; [done|right]. cbn. by rewrite Hrow. }
  case_decide as Ht.
  { apply post_err. split; [done|right]. cbn. by rewrite Hrow, decide_True. }
  case_decide as Hp.
  { apply post_err. split; [done|right]. cbn.
    by rewrite Hrow, decide_False, decide_True by congruence. }
  apply post_bind, post_map_err, post_statement; cbn.
  1,2: intros Hf; by eapply claim_body_fault.
  apply post_bind, post_map_err, post_statement; cbn.
  1,2: intros Hf; by eapply claim_body_fault.
  set (t1 := set_manifest (alter _ _ _) t).
  assert (t1 = set_manifest (<[sno := mkManifest (m_model row) (m_token row)
            (Some (unix_timestamp (clock env)))]> (factory_manifest t)) t) as E1.
  { unfold t1. f_equal. apply map_eq. intros i. rewrite lookup_insert, lookup_alter.
    case_decide; [by subst; rewrite Hrow|done]. }
  unfold Sql.insert_pre_or_ignore.
  destruct (pre_enrollment t1 !! sno) as [pr|] eqn:Hpr; apply post_ret.
  all: split; cbn; [done|].
  all: rewrite Hrow, decide_False by congruence; rewrite decide_False by done.
  all: unfold t1 in Hpr; cbn in Hpr; rewrite Hpr.
  all: by rewrite E1.
Qed.

Lemma sqlite_disk {A} env (k : StoreCall A) s :
  post (store_call env k) (on_disk_post env k s) s.
Proof using Type.
  destruct k as [d|i|sno|i st re|i|m st l cu|sno m| sno | |sno m tok|sno tok]; cbn [store_call].
  - apply disk_create_device.
  - by apply disk_get.
  - by apply disk_get.
  - apply disk_update_one; [done|]. intros t d Hd. cbn. by rewrite Hd.
  - apply disk_update_one; [done|]. intros t d Hd. cbn. by rewrite Hd.
  - apply disk_locked; [done|]. apply post_bind, post_lift.
    destruct (i64_add l 1); cbn; [|by left..].
    apply post_bind, post_map_err, disk_query.
    intros [rows|e|] c' Hc; cbn; [|by left..]. case_match; apply post_ret; by left.
  - apply disk_locked; [done|].
    apply post_map_err, (disk_statement env (RegisterSerial sno m)); [|done].
    intros b t. unfold Sql.upsert_pre. cbn.
    destruct (pre_enrollment _ !! sno); [destruct (device_with_serial _ _) eqn:Hs|].
    + intros [= <- <-]. by left.
    + intros [= <- <-]. right. eexists. rewrite decide_False; [done|]. by intros [? ?].
    + intros [= <- <-]. right. by eexists.
  - apply disk_transaction. intros t. apply lookup_and_claim_body.
  - apply disk_read; [done|]. intros b c'. by apply post_ret.
  - apply disk_locked; [done|].
    apply post_map_err, (disk_statement env (SeedManifest sno m tok)); [|done].
    intros b t. unfold Sql.insert_manifest_or_ignore. cbn.
    destruct (factory_manifest _ !! sno); intros [= <- <-]; [by left|right; by eexists].
  - apply disk_transaction. intros t. apply claim_manifest_body.
Qed.

(** *** The assembled query *)

Lemma build_query_clauses m st cu extra d :
  forallb (Sql.clause_holds (Sql.params (Sql.build_query m st cu) ++ extra) d)
    (Sql.clauses (Sql.build_query m st cu)) = matches_b m st cu d.
Proof using Type.
  unfold matches_b. destruct m, st, cu; cbn; by rewrite ?andb_true_r.
Qed.

Lemma select_matching m st cu n t :
  (0 <= n)%Z ->
  Sql.select_devices
    (Sql.mkQuery (Sql.clauses (Sql.build_query m st cu))
       (Sql.params (Sql.build_query m st cu) ++ [Sql.PInt n]))
    (length (Sql.params (Sql.build_query m st cu)) + 1) t
  = take (Z.to_nat n) (matching m st cu t).
Proof using Type.
  intros Hn. unfold Sql.select_devices, matching. cbn [Sql.params Sql.clauses].
  rewrite Nat.add_sub, lookup_app_r by lia. rewrite Nat.sub_diag. cbn [lookup list_lookup].
  unfold limit_rows. rewrite (proj2 (Z.ltb_ge n 0)) by done. f_equal.
  apply list_filter_iff. intros d. rewrite build_query_clauses.
  by rewrite Is_true_true, matches_b_spec.
Qed.

Lemma i64_add_small {E} a b : in_i64 (a + b) = true -> i64_add a b = Ok (a + b)%Z :> outcome E Z.
Proof using Type. apply i64_arith_in. Qed.

Lemma lookahead_page (rows : list DeviceRecord) n :
  (if (Z.of_nat n <? Z.of_nat (length (take (S n) rows)))%Z
   then (removelast (take (S n) rows), id <$> last (removelast (take (S n) rows)))
   else (take (S n) rows, None))
  = page_of n rows.
Proof using Type.
  unfold page_of. rewrite length_take.
  destruct (Z.ltb_spec (Z.of_nat n) (Z.of_nat (S n `min` length rows))).
  - rewrite decide_True by lia. by rewrite removelast_firstn by lia.
  - rewrite decide_False by lia. by rewrite !take_ge by lia.
Qed.

(** *** Refinement while the store is healthy *)

Definition refine_post {A} env (k : StoreCall A) (s : Mutex Tables)
    (r : outcome Error A) (s' : Mutex Tables) : Prop :=
  idle s' /\
  ((faulty env /\ (exists e, r = Err (DmsErr.Db e)) /\ live (guarded s') = live (guarded s)) \/
   spec env k (live (guarded s)) = (r, live (guarded s'))).

Definition refine_body {A} env (k : StoreCall A) (t0 : Tables)
    (r : outcome Error A) (c : Conn Tables) : Prop :=
  saved c = None /\ r <> Panic /\
  ((faulty env /\ (exists e, r = Err (DmsErr.Db e)) /\ live c = t0) \/
   spec env k t0 = (r, live c)).

Lemma refine_locked {A} env (k : StoreCall A) (body : ST (Conn Tables) Error A) s :
  idle s ->
  (forall t, post body (refine_body env k t) (mkConn t None)) ->
  post (Sqlite_.locked body) (refine_post env k s) s.
Proof using Type.
  intros [Hs Hp] Hb. apply post_with_lock; [congruence|]. intros _.
  assert (guarded s = mkConn (live (guarded s)) None) as Hg.
  { destruct (guarded s). cbn in *. by subst. }
  rewrite Hg. eapply post_mono; [apply Hb|].
  intros r c' (Hc & Hr & Href). split; [split; [done|]; by destruct r|]. done.
Qed.

Lemma refine_fault {A} env (k : StoreCall A) t x :
  faulty env ->
  refine_body env k t (Err (DmsErr.Db x)) (mkConn t None) /\
  refine_body env k t (Err (DmsErr.Db x)) (roll_back (mkConn t None)).
Proof using Type. intros Hf. unfold refine_body. cbn. split; eauto 10. Qed.

#[local] Arguments refine_body : simpl never.

(** The step of a call whose body is a single statement. *)
Lemma refine_ok {A} env (k : StoreCall A) t r t' :
  r <> Panic -> spec env k t = (r, t') -> refine_body env k t r (mkConn t' None).
Proof using Type. intros Hr Hs. split; [done|]. split; [done|]. by right. Qed.

Lemma refine_get {B} env (k : StoreCall B) (f : Tables -> option B) e s :
  idle s ->
  (forall t, spec env k t = (ok_or (f t) e, t)) ->
  post (Sqlite_.locked (st_map_err (Sqlite_.or_none e) (query_row env 0 f)))
    (refine_post env k s) s.
Proof using Type.
  intros Hs Hspec. apply refine_locked; [done|]. intros t.
  apply post_map_err, post_query_row; cbn.
  1,2: intros Hf; by eapply refine_fault.
  specialize (Hspec t). by destruct (f t); apply refine_ok.
Qed.

Lemma refine_update_one env (k : StoreCall unit) i f s :
  idle s ->
  (forall t, spec env k t =
     match devices t !! i with
     | Some d => (Ok tt, set_devices (<[i := f d]> (devices t)) t)
     | None => (Err (DmsErr.NotFound i), t)
     end) ->
  post (Sqlite_.update_one env i f) (refine_post env k s) s.
Proof using Type.
  intros Hs Hspec. apply refine_locked; [done|]. intros t.
  apply post_bind, post_map_err, post_statement; cbn.
  1,2: intros Hf; by eapply refine_fault.
  specialize (Hspec t). unfold Sql.update_device.
  destruct (devices t !! i); cbn; by apply refine_ok.
Qed.

Lemma refine_transaction {A} env (k : StoreCall A) (body : ST (Conn Tables) Error A) s :
  idle s -> ends_cleanly env ->
  (forall t, post body (claim_body env k t) (mkConn t (Some t))) ->
  post (Sqlite_.locked (Sqlite_.transaction env body)) (refine_post env k s) s.
Proof using Type.
  intros Hs He Hb. apply refine_locked; [done|]. intros t.
  apply post_transaction with k; [done|..]; cbn.
  - intros a t' _ Hspec. by apply refine_ok.
  - intros e c' Hd Hc Hr. specialize (Hc He eq_refl). specialize (Hr eq_refl).
    rewrite durable_idle in Hd by done. cbn in Hd.
    split; [done|]. split; [done|]. rewrite Hd.
    destruct Hr as [[Hf [x ->]]|Hr]; [left; eauto|by right].
Qed.

Lemma refine_create_device env d s :
  idle s ->
  post (Sqlite_.create_device env d) (refine_post env (CreateDevice d) s) s.
Proof using Type.
  intros Hs. unfold Sqlite_.create_device. apply post_bind.
  set (row := mkDevice _ _ _ _ _ _ _ _).
  eapply post_mono with (Q := fun r s' =>
    refine_post env (CreateDevice d) s (r ≫= fun _ : unit => Ok row) s' /\ r <> Panic).
  - apply post_with_lock; [destruct Hs; congruence|]. intros _.
    destruct s as [[l sv] po]. destruct Hs as [Hsv Hpo]. cbn in Hsv, Hpo. subst. cbn.
    apply post_map_err, post_statement; cbn.
    1,2: intros Hf; (split; [split; [done|]|done]); left; eauto.
    unfold Sql.insert_device. cbn. case_decide as Hi.
    { (split; [split; [done|]|done]). right. cbn. rewrite decide_True by auto. done. }
    destruct (device_with_serial _ _) as [d'|] eqn:Hd; cbn.
    + (split; [split; [done|]|done]). right. cbn. rewrite decide_True; [done|].
      rewrite Hd. eauto.
    + (split; [split; [done|]|done]). right. cbn. rewrite decide_False; [done|].
      rewrite Hd. intros [?|[? ?]]; done.
  - intros [[]|e|] s' [Hr Hp]; cbn in *; [apply post_ret|..]; done.
Qed.

(** Every method refines its atomic step. *)
Lemma sqlite_refines {A} env (k : StoreCall A) s :
  idle s -> ends_cleanly env -> call_ok k ->
  post (store_call env k) (refine_post env k s) s.
Proof using Type.
  intros Hs He Hk.
  destruct k as [d|i|sno|i st re|i|m st l cu|sno m|sno| |sno m tok|sno tok]; cbn [store_call].
  - by apply refine_create_device.
  - by apply refine_get.
  - by apply refine_get.
  - by apply refine_update_one.
  - by apply refine_update_one.
  - apply refine_locked; [done|]. intros t. destruct Hk as [Hl0 Hl]. apply post_bind, post_lift.
    rewrite i64_add_small by (unfold in_i64, i64_min, i64_max in *; lia). cbn.
    apply post_bind, post_map_err, post_query; cbn -[Sql.build_query].
    1,2: intros Hf; by eapply refine_fault.
    rewrite select_matching by lia.
    replace (Z.to_nat (l + 1)) with (Datatypes.S (Z.to_nat l)) by lia.
    replace l with (Z.of_nat (Z.to_nat l)) at 1 by lia.
    pose proof (lookahead_page (matching m st cu t) (Z.to_nat l)) as Hpage.
    case_match; apply post_ret, refine_ok; try done; cbn; by rewrite <- Hpage.
  - apply refine_locked; [done|]. intros t. apply post_map_err, post_statement; cbn.
    1,2: intros Hf; by eapply refine_fault.
    unfold Sql.upsert_pre. destruct (pre_enrollment t !! sno) eqn:Hp.
    + destruct (device_with_serial sno t) eqn:Hd; apply refine_ok; cbn; try done; rewrite Hp.
      * rewrite decide_True; [done|]. rewrite Hd. eauto.
      * rewrite decide_False; [done|]. rewrite Hd. by intros [? ?].
    + apply refine_ok; cbn; [done|]. by rewrite Hp.
  - apply refine_transaction; [done..|]. intros t. apply lookup_and_claim_body.
  - apply refine_locked; [done|]. intros t. apply post_bind, post_map_err, post_query; cbn.
    1,2: intros Hf; by eapply refine_fault.
    apply post_ret. by apply refine_ok.
  - apply refine_locked; [done|]. intros t. apply post_map_err, post_statement; cbn.
    1,2: intros Hf; by eapply refine_fault.
    unfold Sql.insert_manifest_or_ignore.
    destruct (factory_manifest t !! sno) eqn:Hm; apply refine_ok; cbn; try done; by rewrite Hm.
  - apply refine_transaction; [done..|]. intros t. apply claim_manifest_body.
Qed.
End sqlite.

(** ** The contract *)

Lemma post_run_call {S E A} (m : ST S E A) Q s : post m Q s -> exists r s', m s = (r, s') /\ Q r s'.
Proof. unfold post. destruct (m s) as [r s']. eauto. Qed.

#[export] Program Instance sqlite_device_store_spec `{BuildProfile} :
  DeviceStoreSpec (Mutex Tables) := {
  visible s := live (guarded s);
  on_disk s := durable (guarded s);
  healthy := idle;
  reopen := Sqlite_.reopen
}.
Next Obligation. intros ? s [Hs _]. by apply durable_idle. Qed.
Next Obligation. done. Qed.
Next Obligation. done. Qed.
Next Obligation.
  intros ? A c env s r s' Hs He Hc Hrun.
  destruct (post_run _ _ _ _ _ Hrun (sqlite_refines env c s Hs He Hc)) as [Hi Hr].
  split; [done|]. destruct Hr as [(_ & [x ->] & Ht)|Ht]; [left; eauto|by right].
Qed.
Next Obligation.
  intros ? A c env s Hs Hf Hc.
  assert (ends_cleanly env) as He by (split; by rewrite Hf).
  destruct (post_run_call _ _ _ (sqlite_refines env c s Hs He Hc)) as (r & s' & Hrun & Hi & Hr).
  exists r, s'. split; [done|]. split; [done|].
  destruct Hr as [([x Hx] & _)|Hr]; [by rewrite Hf in Hx|done].
Qed.
Next Obligation.
  intros ? A c env s r s' Hrun. by apply (post_run _ _ _ _ _ Hrun (sqlite_disk env c s)).
Qed.
Next Obligation.
  intros ? A c env s a s' Ht Hrun.
  by apply (post_run _ _ _ _ _ Hrun (sqlite_disk env c s)).
Qed.
