(* ===== verification/Grpc.v ===== *)
(** * gRPC statuses and the messages of [proto/fleet.proto]

    The [tonic] status codes the services return and the protobuf messages
    their handlers read and build, field by field. *)

From S2P Require Import Prelude.

Inductive Code :=
| InvalidArgument | NotFound | AlreadyExists | PermissionDenied
| FailedPrecondition | Internal | Unavailable | Unauthenticated | Unimplemented.

Record Status := mkStatus { code : Code; message : string }.

#[export] Instance Code_eq_dec : EqDecision Code.
Proof. solve_decision. Defined.
#[export] Instance Status_eq_dec : EqDecision Status.
Proof. solve_decision. Defined.

(** [prost_types::Timestamp]. *)
Record Timestamp := mkTimestamp { seconds : Z; nanos : Z }.

#[export] Instance Timestamp_eq_dec : EqDecision Timestamp.
Proof. solve_decision. Defined.

(** A proto string field used as an optional value: empty means absent. *)
Definition non_empty (s : string) : option string :=
  if decide (s = "") then None else Some s.

(** [Option::unwrap_or_default] on a string. *)
Definition unwrap_or_default (o : option string) : string := default "" o.

(** ** Messages of [fleet.v1] *)

Record DeviceInfo := mkDeviceInfo {
  di_device_id : string;
  di_serial : string;
  di_model : string;
  di_firmware : string;
  di_status : string;
  di_enrolled_at : option Timestamp;
  di_last_seen_at : option Timestamp;
  di_labels : gmap string string
}.

Record ProvisionDeviceRequest := mkProvisionReq {
  pd_serial : string; pd_csr_pem : string; pd_provision_token : string }.
Record ProvisionDeviceResponse := mkProvisionResp { device_cert_pem : string }.

Record BootstrapEnrollRequest := mkBootstrapReq {
  be_csr_pem : string;
  be_model : string;
  be_firmware : string;
  be_labels : gmap string string;
  be_serial : string }.
Record BootstrapEnrollResponse := mkBootstrapResp {
  br_device_id : string;
  br_operational_cert_pem : string;
  br_fleet_ca_chain_pem : string;
  br_cert_expires_at : option Timestamp }.

Record RenewCertRequest := mkRenewReq { rc_device_id : string; rc_csr_pem : string }.
Record RenewCertResponse := mkRenewResp {
  rr_operational_cert_pem : string; rr_cert_expires_at : option Timestamp }.

Record GetDeviceRequest := mkGetReq { gd_device_id : string }.
Record ListDevicesRequest := mkListReq {
  ld_model : string; ld_status : string; ld_limit : Z; ld_cursor : string }.
Record ListDevicesResponse := mkListResp {
  lr_devices : list DeviceInfo; lr_next_cursor : string }.

Record UpdateDeviceStatusRequest := mkUpdateReq {
  us_device_id : string; us_status : string; us_reason : string }.
Record UpdateDeviceStatusResponse := mkUpdateResp { ur_device : option DeviceInfo }.

(** The three measurements of a heartbeat are IEEE doubles; the server only
    logs them, so they are kept as their bits. *)
Record HeartbeatRequest := mkHeartbeatReq {
  hb_device_id : string;
  hb_recorded_at : option Timestamp;
  hb_cpu_percent : Z;
  hb_memory_percent : Z;
  hb_battery_percent : Z;
  hb_operational_status : string;
  hb_extra : gmap string string }.
Record HeartbeatResponse := mkHeartbeatResp { throttle : bool; directive : string }.

#[export] Instance HeartbeatResponse_eq_dec : EqDecision HeartbeatResponse.
Proof. solve_decision. Defined.

(** An [int32] field holds a 32-bit value. *)
Definition in_i32 (z : Z) : Prop := (- 2 ^ 31 <= z < 2 ^ 31)%Z.

(** ** Messages of the OTA service *)

Record CheckUpdateRequest := mkCheckReq { cu_device_id : string; cu_current_version : string }.
Record CheckUpdateResponse := mkCheckResp {
  update_available : bool;
  cr_target_version : string;
  cr_artifact_url : string;
  cr_sha256 : string;
  cr_size_bytes : Z;
  cr_update_job_id : string }.
Record WatchUpdatesRequest := mkWatchReq { wu_device_id : string }.
Record UpdateCommand := mkCommand {
  uc_update_job_id : string;
  uc_target_version : string;
  uc_artifact_url : string;
  uc_sha256 : string;
  uc_size_bytes : Z;
  uc_apply_by : option Timestamp }.
Record AckUpdateRequest := mkAckReq {
  au_device_id : string;
  au_update_job_id : string;
  au_version : string;
  au_success : bool;
  au_error_message : string }.
Record AckUpdateResponse := mkAckResp { accepted : bool }.
Record DispatchUpdateRequest := mkDispatchReq {
  du_device_id : string;
  du_target_version : string;
  du_artifact_id : string;
  du_apply_by : option Timestamp }.
Record UpdateJob := mkUpdateJob {
  uj_update_job_id : string;
  uj_device_id : string;
  uj_target_version : string;
  uj_status : string;
  uj_artifact_url : string;
  uj_created_at : option Timestamp;
  uj_completed_at : option Timestamp;
  uj_error_message : string }.
Record DispatchUpdateResponse := mkDispatchResp { dr_job : option UpdateJob }.
Record ListUpdateJobsRequest := mkListJobsReq {
  lj_device_id : string; lj_limit : Z; lj_cursor : string }.
Record ListUpdateJobsResponse := mkListJobsResp {
  lj_jobs : list UpdateJob; lj_next_cursor : string }.

#[export] Instance UpdateCommand_eq_dec : EqDecision UpdateCommand.
Proof. solve_decision. Defined.

(** ** Messages of [proto/artifacts.proto] *)

Record ArtifactMeta := mkMeta {
  am_artifact_id : string;
  am_model : string;
  am_version : string;
  am_download_url : string;
  am_sha256 : string;
  am_size_bytes : Z;
  am_channel : string;
  am_created_at : option Timestamp;
  am_metadata : gmap string string }.
Record PublishRequest := mkPublishReq {
  pr_model : string;
  pr_version : string;
  pr_sha256 : string;
  pr_size_bytes : Z;
  pr_channel : string;
  pr_object_key : string;
  pr_metadata : gmap string string }.
Record PublishResponse := mkPublishResp { pr_artifact : option ArtifactMeta }.
Record GetArtifactRequest := mkGetArtifactReq { ga_artifact_id : string }.
Record GetLatestRequest := mkGetLatestReq { gl_model : string; gl_channel : string }.
Record ListArtifactsRequest := mkListArtifactsReq {
  la_model : string; la_channel : string; la_limit : Z }.
Record ListArtifactsResponse := mkListArtifactsResp { la_artifacts : list ArtifactMeta }.
Record UploadUrlRequest := mkUploadReq {
  ur_model : string; ur_version : string; ur_content_type : string }.
Record UploadUrlResponse := mkUploadResp { upload_url : string; object_key : string }.

(** ** Messages of the telemetry service; doubles are kept as their bits *)

Record JointStatus := mkJoint {
  js_name : string; js_position_rad : Z; js_torque_nm : Z; js_temperature_c : Z }.
Record SensorReading := mkSensor { sr_sensor_id : string; sr_type : string; sr_payload : list Z }.
Record TelemetryFrame := mkFrame {
  tf_device_id : string;
  tf_recorded_at : option Timestamp;
  tf_joints : list JointStatus;
  tf_sensors : list SensorReading;
  tf_metrics : gmap string Z }.
Record TelemetryAck := mkTelemetryAck { frames_received : Z; ta_throttle : bool }.

#[export] Instance JointStatus_eq_dec : EqDecision JointStatus.
Proof. solve_decision. Defined.
