(* ===== verification/DmsEffects.v ===== *)
(** * The effects of the device-management handlers

    The handlers of the service await three things: a call of the device
    store, the clock, and room in a response channel, of heartbeats or of
    telemetry.  Any implementation of the store interprets them. *)

From S2P Require Import Prelude Sqlite Async DeviceStore DeviceStoreSpec Grpc.

Inductive DmsE : Type -> Type :=
| Store {A} (c : StoreCall A) : DmsE (outcome Error A)
| NowUtc : DmsE Z
| Send (m : outcome Status HeartbeatResponse) : DmsE bool
| Ack (m : outcome Status TelemetryAck) : DmsE bool.

(** [self.store.m(...).await]. *)
Definition store {A} (c : StoreCall A) : Task DmsE Error A := call (Store c).

(** [tx.send(m).await.is_ok()]. *)
Definition send (m : outcome Status HeartbeatResponse) : async DmsE bool := trigger (Send m).

(** [OffsetDateTime::now_utc()]. *)
Definition now_utc {E} : Task DmsE E Z := get E NowUtc.

(** A panic inside a store call unwinds the handler; in the tree it is the
    answer [Panic], which no handler inspects. *)
#[export] Instance dms_handler {S} `{DeviceStore S} : Handler DmsE S :=
  fun X env e s =>
    match e in DmsE X return X * S with
    | Store c => store_call env c s
    | NowUtc => (clock env, s)
    | Send m => (peer_alive env, s)
    | Ack m => (peer_alive env, s)
    end.

(** The same, keeping what a heartbeat stream was sent. *)
Definition logged_handler {S} `{DeviceStore S} :
  Handler DmsE (S * list (outcome Status HeartbeatResponse)) :=
  fun X env e s =>
    match e in DmsE X return X * (S * list (outcome Status HeartbeatResponse)) with
    | Store c => let '(r, s') := store_call env c s.1 in (r, (s', s.2))
    | NowUtc => (clock env, s)
    | Send m => (peer_alive env, (s.1, if peer_alive env then s.2 ++ [m] else s.2))
    | Ack m => (peer_alive env, s)
    end.
