(* ===== verification/Enrollment.v ===== *)
(** * Enrollment and certificate renewal

    [src/device-management-service/src/enrollment/mod.rs]. *)

From S2P Require Import Prelude Sqlite Async Pki DeviceStore DeviceStoreSpec Grpc DmsEffects.

Record EnrollResult := mkEnrollResult {
  device_id : string;
  er_operational_cert_pem : string;
  fleet_ca_chain_pem : string;
  expires_at : Z
}.

(** [EnrollmentService], without the store it shares. *)
Record EnrollmentService := mkEnrollmentService {
  fleet_ca_cert_pem : string;
  fleet_ca_key_pem : string;
  cert_validity_days : Z   (** a [u32] *)
}.

Section enrollment.
Context `{PkiLib} (self : EnrollmentService).

(** When a certificate issued at [now] is reported to expire. *)
Definition expiry (now : Z) : Z :=
  (unix_timestamp now + cert_validity_days self * 86400)%Z.

Definition sign (now : Z) (csr_pem : string) : outcome Error string :=
  map_err DmsErr.Pki
    (Csr.sign_csr now csr_pem (fleet_ca_cert_pem self) (fleet_ca_key_pem self)
       (cert_validity_days self)).

Definition bootstrap_enroll (serial_from_req csr_pem firmware : string)
    (peer_certs : list CertificateDer) (device_ca_pem : string) :
    Task DmsE Error EnrollResult :=
  (* 1. Extract serial from peer cert CN *)
  cert_serial ← pure_code (map_err DmsErr.Pki (Mtls.extract_serial peer_certs));
  (* 2. Cross-validate serial if provided in request *)
  if dec (serial_from_req <> "" /\ serial_from_req <> cert_serial)
  then fail_with (DmsErr.SerialMismatch cert_serial serial_from_req)
  else
  (* 3. Verify cert is signed by Device CA *)
  _ ← pure_code (map_err (fun e => DmsErr.CertVerification (PkiErr.to_string e))
                   (Mtls.verify_signed_by peer_certs device_ca_pem));
  (* 4. Atomic claim *)
  pre ← store (LookupAndClaim cert_serial);
  (* 5. Sign the CSR with Fleet CA *)
  now ← now_utc;
  signed ← pure_code (sign now csr_pem);
  now ← now_utc;
  let expires_at := expiry now in
  (* 6. Persist device record *)
  record ← store (CreateDevice
                    (mkNewDevice cert_serial (pre_model pre) firmware signed));
  mret (mkEnrollResult (id record) signed (fleet_ca_cert_pem self) expires_at).

Definition renew_cert (device_id csr_pem : string) : Task DmsE Error (string * Z) :=
  device ← store (GetDevice device_id);
  if dec (status device <> "active")
  then fail_with (DmsErr.DeviceNotActive (status device))
  else
  now ← now_utc;
  signed ← pure_code (sign now csr_pem);
  now ← now_utc;
  mret (signed, expiry now).
End enrollment.
