(* ===== verification/Provisioning.v ===== *)
(** * Factory provisioning

    [src/device-management-service/src/provisioning/mod.rs]. *)

From S2P Require Import Prelude Sqlite Async Pki DeviceStore DeviceStoreSpec Grpc DmsEffects.

Record ProvisioningServer := mkProvisioningServer {
  device_ca_cert_pem : string;
  device_ca_key_pem : string
}.

Section provisioning.
Context `{PkiLib} (rusqlite_text : RusqliteError -> string) (self : ProvisioningServer).

Definition map_err (e : Error) : Status :=
  match e with
  | DmsErr.NotInManifest m => mkStatus FailedPrecondition m
  | DmsErr.InvalidProvisionToken m => mkStatus PermissionDenied m
  | DmsErr.AlreadyProvisioned m => mkStatus AlreadyExists m
  | e => mkStatus Internal (DmsErr.to_string rusqlite_text e)
  end.

Definition provision_device (req : ProvisionDeviceRequest) :
  Task DmsE Status ProvisionDeviceResponse :=
  if dec (pd_serial req = "" \/ pd_csr_pem req = "" \/ pd_provision_token req = "")
  then fail_with (mkStatus InvalidArgument "serial, csr_pem, and provision_token are required")
  else
  model ← task_map_err map_err
            (store (ClaimManifestEntry (pd_serial req) (pd_provision_token req)));
  now ← now_utc;
  device_cert_pem ←
    pure_code (Prelude.map_err
      (fun e => mkStatus Internal ("CSR signing failed: " +:+ PkiErr.to_string e))
      (Csr.sign_csr now (pd_csr_pem req) (device_ca_cert_pem self) (device_ca_key_pem self) 365));
  mret (mkProvisionResp device_cert_pem).
End provisioning.
