(* ===== verification/Heartbeat.v ===== *)
(** * The heartbeat stream, server side

    [src/device-management-service/src/heartbeat/mod.rs]: the task of a stream,
    as a recursion over the items of a stream that closes, and as a loop over
    any inbound stream. *)

From S2P Require Import Prelude Sqlite Async DeviceStore DeviceStoreSpec Grpc DmsEffects.

Abbreviation Item := (HeartbeatRequest + Status)%type.

Section heartbeat.
(** [e.to_string()] of a status. *)
Context (status_text : Status -> string).

(** One turn of the loop, for a message: whether the loop goes on.  A panic in
    the store unwinds the task. *)
Definition heartbeat_answer (device_id : string) : async DmsE bool :=
  let! touched := store (TouchLastSeen device_id) in
  match touched with
  | Err (DmsErr.NotFound _) =>
      let! _ := send (Err (mkStatus NotFound
                  ("device " +:+ device_id +:+ " not found"))) in
      Done false
  | Panic => Done false
  | _ => send (Ok (mkHeartbeatResp false ""))
  end.

(** The loop over the stream, after the first message gave the device id. *)
Fixpoint handle_loop (device_id : string) (stream : list Item) : async DmsE unit :=
  match stream with
  | [] => Done tt
  | inl req :: rest =>
      let! go := heartbeat_answer device_id in
      if go then handle_loop device_id rest else Done tt
  | inr e :: _ => Done tt
  end.

Definition handle (stream : list Item) : async DmsE unit :=
  match stream with
  | [] => Done tt
  | inl first :: _ => handle_loop (hb_device_id first) stream
  | inr e :: _ =>
      let! _ := send (Err (mkStatus Internal (status_text e))) in Done tt
  end.

(** *** The task as a loop

    The same task against a client that need not close: [inbox k] is what the
    [k]-th poll of the stream answers.  [handle] is the task for the clients
    that do close. *)

Definition heartbeat_turn (device_id : string) (inbox : nat -> option Item) (k : nat) :
  async DmsE (nat + unit) :=
  match inbox k with
  | Some (inl req) =>
      let! go := heartbeat_answer device_id in
      Done (if go then inl (S k) else inr tt)
  | _ => Done (inr tt)
  end.

Definition heartbeat_task (inbox : nat -> option Item) (turns : nat) : async DmsE (option unit) :=
  match inbox 0 with
  | Some (inl first) => loop_for (heartbeat_turn (hb_device_id first) inbox) turns 0
  | Some (inr e) =>
      let! _ := send (Err (mkStatus Internal (status_text e))) in Done (Some tt)
  | None => Done (Some tt)
  end.
End heartbeat.
