(* ===== verification/DmsTelemetry.v ===== *)
(** * The telemetry stream, server side

    [src/device-management-service/src/telemetry.rs]: the task that
    acknowledges frames, as a loop over any inbound stream and as a recursion
    over the items of one that closes.  The window counters and the clock only
    feed a log line and are left out. *)

From S2P Require Import Prelude Sqlite Async Grpc.

Inductive TelemetryE : Type -> Type :=
| SendAck (m : outcome Status TelemetryAck) : TelemetryE bool.

Section telemetry.
Context `{BuildProfile} (status_text : Status -> string).

(** One turn of the loop, for a frame: the frames received, if the loop goes
    on; an overflow of the counter ends the task. *)
Definition acknowledge (received : Z) : async TelemetryE (option Z) :=
  match u64_arith (E := unit) (received + 1) with
  | Ok received =>
      let! sent := trigger (SendAck (Ok (mkTelemetryAck received false))) in
      Done (if sent : bool then Some received else None)
  | _ => Done None
  end.

(** The loop, with the frames received so far. *)
Fixpoint stream_telemetry (received : Z) (stream : list (TelemetryFrame + Status)) :
  async TelemetryE unit :=
  match stream with
  | [] => Done tt
  | inl frame :: rest =>
      let! next := acknowledge received in
      match next with Some received => stream_telemetry received rest | None => Done tt end
  | inr e :: _ =>
      let! _ := trigger (SendAck (Err (mkStatus Internal (status_text e)))) in Done tt
  end.

(** The same task as a loop, against a client that need not close: [inbox k] is
    what the [k]-th poll of the stream answers. *)
Definition telemetry_turn (inbox : nat -> option (TelemetryFrame + Status)) (st : nat * Z) :
  async TelemetryE (nat * Z + unit) :=
  match inbox st.1 with
  | Some (inl frame) =>
      let! next := acknowledge st.2 in
      Done (match next with Some received => inl (S st.1, received) | None => inr tt end)
  | Some (inr e) =>
      let! _ := trigger (SendAck (Err (mkStatus Internal (status_text e)))) in Done (inr tt)
  | None => Done (inr tt)
  end.

Definition telemetry_task (inbox : nat -> option (TelemetryFrame + Status)) (turns : nat) :
  async TelemetryE (option unit) := loop_for (telemetry_turn inbox) turns (0, 0%Z).

(** What the response stream is sent, given how many messages its receiver
    takes. *)
Definition ack_handler : Handler TelemetryE (list (outcome Status TelemetryAck)) :=
  fun X env e log =>
    match e in TelemetryE X return X * list (outcome Status TelemetryAck) with
    | SendAck m => (peer_alive env, if peer_alive env then log ++ [m] else log)
    end.
End telemetry.
