(* ===== verification/DmsServer.v ===== *)
(** * The device-management gRPC server

    [src/device-management-service/src/server/mod.rs], and the listeners that
    [src/device-management-service/src/main.rs] starts: which service answers
    on which port, and whose client certificates the port trusts. *)

From S2P Require Import Prelude Sqlite Async Pki DeviceStore DeviceStoreSpec Grpc DmsEffects.
From S2P Require Import Enrollment Provisioning Heartbeat DmsTelemetry.

(** [DeviceManagementServer], without the store and the handlers it shares. *)
Record DeviceManagementServer := mkServer {
  enrollment : EnrollmentService;
  device_ca_pem : string
}.

Definition new_server (fleet_ca_cert_pem fleet_ca_key_pem device_ca_pem : string)
    (cert_validity_days : Z) : DeviceManagementServer :=
  mkServer (mkEnrollmentService fleet_ca_cert_pem fleet_ca_key_pem cert_validity_days)
    device_ca_pem.

Definition at_seconds (s : Z) : option Timestamp := Some (mkTimestamp s 0).

Definition record_to_proto (r : DeviceRecord) : DeviceInfo :=
  mkDeviceInfo (id r) (serial r) (model r) (firmware r) (status r)
    (at_seconds (enrolled_at r)) (at_seconds (last_seen_at r)) ∅.

Section server.
Context `{PkiLib} (rusqlite_text : RusqliteError -> string).

Definition map_err (e : Error) : Status :=
  match e with
  | DmsErr.NotFound m => mkStatus NotFound m
  | DmsErr.AlreadyEnrolled m => mkStatus AlreadyExists m
  | DmsErr.SerialAlreadyClaimed m => mkStatus AlreadyExists m
  | DmsErr.NotPreEnrolled m => mkStatus FailedPrecondition m
  | DmsErr.SerialMismatch _ _ => mkStatus InvalidArgument (DmsErr.to_string rusqlite_text e)
  | DmsErr.DeviceNotActive _ => mkStatus FailedPrecondition (DmsErr.to_string rusqlite_text e)
  | DmsErr.CertVerification m => mkStatus Unauthenticated m
  | e => mkStatus Internal (DmsErr.to_string rusqlite_text e)
  end.

(** [.await.map_err(map_err)?]. *)
Definition mapped {A} (t : Task DmsE Error A) : Task DmsE Status A := task_map_err map_err t.

Context (self : DeviceManagementServer).

(** [peer_certs] is what the TLS layer hands over, if anything. *)
Definition bootstrap_enroll (peer_certs : option (list CertificateDer))
    (req : BootstrapEnrollRequest) : Task DmsE Status BootstrapEnrollResponse :=
  peer_certs ← pure_code (ok_or peer_certs (mkStatus Unauthenticated "no peer certificate"));
  result ← mapped (Enrollment.bootstrap_enroll (enrollment self) (be_serial req)
                     (be_csr_pem req) (be_firmware req) peer_certs (device_ca_pem self));
  mret (mkBootstrapResp (device_id result) (er_operational_cert_pem result)
          (fleet_ca_chain_pem result) (at_seconds (expires_at result))).

Definition renew_cert (req : RenewCertRequest) : Task DmsE Status RenewCertResponse :=
  '(cert_pem, expires_at) ←
    mapped (Enrollment.renew_cert (enrollment self) (rc_device_id req) (rc_csr_pem req));
  mret (mkRenewResp cert_pem (at_seconds expires_at)).

Definition get_device (req : GetDeviceRequest) : Task DmsE Status DeviceInfo :=
  record ← mapped (store (GetDevice (gd_device_id req)));
  mret (record_to_proto record).

(** The page size asked for, 50 if none is. *)
Definition page_limit (limit : Z) : Z := if (0 <? limit)%Z then limit else 50.

Definition list_devices (req : ListDevicesRequest) : Task DmsE Status ListDevicesResponse :=
  let limit := page_limit (ld_limit req) in
  let model := non_empty (ld_model req) in
  let status := non_empty (ld_status req) in
  let cursor := non_empty (ld_cursor req) in
  '(records, next_cursor) ← mapped (store (ListDevices model status limit cursor));
  mret (mkListResp (record_to_proto <$> records) (unwrap_or_default next_cursor)).

Definition update_device_status (req : UpdateDeviceStatusRequest) :
  Task DmsE Status UpdateDeviceStatusResponse :=
  _ ← mapped (store (UpdateStatus (us_device_id req) (us_status req) (us_reason req)));
  record ← mapped (store (GetDevice (us_device_id req)));
  mret (mkUpdateResp (Some (record_to_proto record))).

(** The handler task that [stream_heartbeat] spawns. *)
Definition stream_heartbeat (status_text : Status -> string) (stream : list Item) :
  async DmsE unit := Heartbeat.handle status_text stream.
End server.

(** ** The ports *)

(** The response channel of a telemetry stream. *)
Definition ack_effect X (e : TelemetryE X) : DmsE X :=
  match e with SendAck m => Ack m end.

Inductive Port := FleetPort | BootstrapPort | ProvisioningPort.

Section ports.
Context `{PkiLib, BuildProfile}.

(** The requests of the three services of the process. *)
Inductive Rpc :=
| ProvisionDevice (req : ProvisionDeviceRequest)
| BootstrapEnroll (peer_certs : option (list CertificateDer)) (req : BootstrapEnrollRequest)
| RenewCert (req : RenewCertRequest)
| GetDeviceRpc (req : GetDeviceRequest)
| ListDevicesRpc (req : ListDevicesRequest)
| UpdateDeviceStatus (req : UpdateDeviceStatusRequest)
| StreamHeartbeat (stream : list Item)
| StreamTelemetry (stream : list (TelemetryFrame + Status)).

Inductive Reply :=
| ProvisionReply (r : ProvisionDeviceResponse)
| BootstrapReply (r : BootstrapEnrollResponse)
| RenewReply (r : RenewCertResponse)
| DeviceReply (r : DeviceInfo)
| ListReply (r : ListDevicesResponse)
| UpdateReply (r : UpdateDeviceStatusResponse)
| HeartbeatEnd
| TelemetryEnd.

(** What [main] builds from its configuration. *)
Record Service := mkService {
  fleet_svc : DeviceManagementServer;
  bootstrap_svc : DeviceManagementServer;
  provisioning_svc : ProvisioningServer
}.

(** [main]: the certificates and keys are PEM texts read from files. *)
Definition start_service (fleet_ca_cert_pem fleet_ca_key_pem device_ca_cert_pem
    device_ca_key_pem : string) (validity_days : Z) : Service :=
  mkService
    (new_server fleet_ca_cert_pem fleet_ca_key_pem device_ca_cert_pem validity_days)
    (new_server fleet_ca_cert_pem fleet_ca_key_pem device_ca_cert_pem validity_days)
    (mkProvisioningServer device_ca_cert_pem device_ca_key_pem).

(** The services added to each listener; telemetry is on the fleet port only. *)
Definition serves (p : Port) (r : Rpc) : bool :=
  match p, r with
  | ProvisioningPort, ProvisionDevice _ => true
  | ProvisioningPort, _ => false
  | _, ProvisionDevice _ => false
  | _, StreamTelemetry _ => match p with FleetPort => true | _ => false end
  | _, _ => true
  end.

(** The root a listener verifies client certificates against. *)
Definition client_ca_root (svc : Service) (p : Port) : option string :=
  match p with
  | FleetPort => Some (fleet_ca_cert_pem (enrollment (fleet_svc svc)))
  | BootstrapPort => Some (device_ca_pem (bootstrap_svc svc))
  | ProvisioningPort => None
  end.

Context (rusqlite_text : RusqliteError -> string) (status_text : Status -> string).

Definition reply {A} (f : A -> Reply) (t : Task DmsE Status A) : Task DmsE Status Reply :=
  a ← t; mret (f a).

(** A request on a port of the running service. *)
Definition serve (svc : Service) (pr : Port * Rpc) : Task DmsE Status Reply :=
  let server := match pr.1 with BootstrapPort => bootstrap_svc svc | _ => fleet_svc svc end in
  if negb (serves pr.1 pr.2) then fail_with (mkStatus Unimplemented "")
  else
  match pr.2 with
  | ProvisionDevice req =>
      reply ProvisionReply (provision_device rusqlite_text (provisioning_svc svc) req)
  | BootstrapEnroll certs req =>
      reply BootstrapReply (bootstrap_enroll rusqlite_text server certs req)
  | RenewCert req => reply RenewReply (renew_cert rusqlite_text server req)
  | GetDeviceRpc req => reply DeviceReply (get_device rusqlite_text req)
  | ListDevicesRpc req => reply ListReply (list_devices rusqlite_text req)
  | UpdateDeviceStatus req => reply UpdateReply (update_device_status rusqlite_text req)
  | StreamHeartbeat stream =>
      let! _ := stream_heartbeat status_text stream in Done (Ok HeartbeatEnd)
  | StreamTelemetry stream =>
      let! _ := embed ack_effect (stream_telemetry status_text 0 stream) in Done (Ok TelemetryEnd)
  end.
End ports.
