(* ===== verification/RustStr.v ===== *)
(** * Rust strings

    A [str] is its UTF-8 bytes.  The functions of [std] the source uses on
    strings: [split], [splitn], [trim], and the parsing of unsigned integers. *)

From Stdlib Require Import Ascii String.
From S2P Require Import Prelude.

(** [s.split(c)]: always at least one part. *)
Fixpoint split_on (c : ascii) (s : string) : list string :=
  match s with
  | EmptyString => [""]
  | String a s' =>
      if decide (a = c) then "" :: split_on c s'
      else match split_on c s' with
           | p :: ps => String a p :: ps
           | [] => []
           end
  end.

(** [s.split_once(c)]. *)
Fixpoint split_once (c : ascii) (s : string) : option (string * string) :=
  match s with
  | EmptyString => None
  | String a s' =>
      if decide (a = c) then Some ("", s')
      else match split_once c s' with
           | Some (p, q) => Some (String a p, q)
           | None => None
           end
  end.

(** [s.splitn(n, c)]. *)
Fixpoint splitn (n : nat) (c : ascii) (s : string) : list string :=
  match n with
  | 0 => []
  | 1 => [s]
  | Datatypes.S n' =>
      match split_once c s with
      | Some (p, q) => p :: splitn n' c q
      | None => [s]
      end
  end.

(** ** [trim] *)

Definition bytes_str (l : list nat) : string := foldr (fun n s => String (ascii_of_nat n) s) "" l.

(** The UTF-8 encodings of the characters with the [White_Space] property. *)
Definition white_space : list string :=
  bytes_str <$>
  [ [9]; [10]; [11]; [12]; [13]; [32]; [194; 133]; [194; 160]; [225; 154; 128];
    [226; 128; 128]; [226; 128; 129]; [226; 128; 130]; [226; 128; 131]; [226; 128; 132];
    [226; 128; 133]; [226; 128; 134]; [226; 128; 135]; [226; 128; 136]; [226; 128; 137];
    [226; 128; 138]; [226; 128; 168]; [226; 128; 169]; [226; 128; 175]; [226; 129; 159];
    [227; 128; 128] ].

Fixpoint strip_prefix (p s : string) : option string :=
  match p, s with
  | EmptyString, _ => Some s
  | String a p', String b s' => if decide (a = b) then strip_prefix p' s' else None
  | String _ _, EmptyString => None
  end.

Definition strip_one (ws : list string) (s : string) : option string :=
  head (omap (fun w => strip_prefix w s) ws).

(** Strip while a prefix matches; the length of the string bounds the steps. *)
Fixpoint strip_all (fuel : nat) (ws : list string) (s : string) : string :=
  match fuel with
  | 0 => s
  | Datatypes.S fuel =>
      match strip_one ws s with
      | Some s' => strip_all fuel ws s'
      | None => s
      end
  end.

Definition trim_start (s : string) : string := strip_all (String.length s) white_space s.
Definition trim_end (s : string) : string :=
  String.rev (strip_all (String.length s) (String.rev <$> white_space) (String.rev s)).
Definition trim (s : string) : string := trim_end (trim_start s).

(** ** Unsigned integers: [s.parse::<uN>()] *)

Definition digit_value (a : ascii) : option Z :=
  let n := Z.of_N (N_of_ascii a) in
  if ((48 <=? n) && (n <=? 57))%Z then Some (n - 48)%Z else None.

Fixpoint parse_digits (max acc : Z) (s : string) : option Z :=
  match s with
  | EmptyString => Some acc
  | String a s' =>
      d ← digit_value a;
      let acc' := (acc * 10 + d)%Z in
      if (acc' <=? max)%Z then parse_digits max acc' s' else None
  end.

(** A leading [+] is allowed; no digits, another character and overflow are errors. *)
Definition parse_unsigned (max : Z) (s : string) : option Z :=
  match s with
  | EmptyString => None
  | String a s' =>
      if decide (a = "+"%char)
      then match s' with EmptyString => None | _ => parse_digits max 0 s' end
      else parse_digits max 0 s
  end.

(** ** Lemmas *)

(** [c] does not occur in [s]. *)
Fixpoint no_char (c : ascii) (s : string) : bool :=
  match s with
  | EmptyString => true
  | String a s' => dec (a <> c) && no_char c s'
  end.

Lemma str_app_nil s : "" +:+ s = s.
Proof. done. Qed.
Lemma str_app_cons a s1 s2 : String a s1 +:+ s2 = String a (s1 +:+ s2).
Proof. done. Qed.
#[export] Hint Rewrite str_app_nil str_app_cons : rust_str.

Lemma split_on_no_char c s : no_char c s = true -> split_on c s = [s].
Proof.
  induction s as [|a s IH]; cbn; [done|].
  rewrite andb_true_iff, bool_decide_eq_true. intros [Ha Hs].
  by rewrite decide_False, IH.
Qed.

Lemma split_on_app c s rest :
  no_char c s = true -> split_on c (s +:+ String c rest) = s :: split_on c rest.
Proof.
  induction s as [|a s IH]; autorewrite with rust_str; cbn.
  - by rewrite decide_True.
  - rewrite andb_true_iff, bool_decide_eq_true. intros [Ha Hs].
    by rewrite decide_False, IH.
Qed.

Lemma split_once_app c s rest :
  no_char c s = true -> split_once c (s +:+ String c rest) = Some (s, rest).
Proof.
  induction s as [|a s IH]; autorewrite with rust_str; cbn.
  - by rewrite decide_True.
  - rewrite andb_true_iff, bool_decide_eq_true. intros [Ha Hs].
    by rewrite decide_False, IH.
Qed.

Lemma split_once_no_char c s : no_char c s = true -> split_once c s = None.
Proof.
  induction s as [|a s IH]; cbn; [done|].
  rewrite andb_true_iff, bool_decide_eq_true. intros [Ha Hs].
  by rewrite decide_False, IH.
Qed.

Lemma no_char_app c s1 s2 : no_char c (s1 +:+ s2) = no_char c s1 && no_char c s2.
Proof.
  induction s1 as [|a s1 IH]; [done|].
  change (String a s1 +:+ s2) with (String a (s1 +:+ s2)). cbn. by rewrite IH, andb_assoc.
Qed.

Lemma parse_digits_bounds max acc s n :
  (0 <= acc <= max)%Z -> parse_digits max acc s = Some n -> (0 <= n <= max)%Z.
Proof.
  revert acc. induction s as [|a s IH]; cbn; intros acc Hacc; [by intros [= <-]|].
  destruct (digit_value a) as [d|] eqn:Hd; cbn; [|done].
  case_match eqn:Hle; [|done]. apply IH.
  unfold digit_value in Hd. case_match eqn:Hr; [|done]. simplify_eq. lia.
Qed.

Lemma parse_unsigned_bounds max s n :
  (0 <= max)%Z -> parse_unsigned max s = Some n -> (0 <= n <= max)%Z.
Proof.
  intros Hm. unfold parse_unsigned. destruct s as [|a s]; [done|].
  case_decide; [destruct s; [done|]|]; by apply parse_digits_bounds.
Qed.

Lemma str_length_app s1 s2 : String.length (s1 +:+ s2) = String.length s1 + String.length s2.
Proof.
  induction s1 as [|a s1 IH]; [done|]. rewrite str_app_cons. cbn. by rewrite IH.
Qed.

Lemma str_app_inj_r s1 s2 suffix : s1 +:+ suffix = s2 +:+ suffix -> s1 = s2.
Proof.
  revert s2. induction s1 as [|a s1 IH]; intros [|b s2]; rewrite ?str_app_nil, ?str_app_cons.
  - done.
  - intros E. apply (f_equal String.length) in E. cbn in E. rewrite str_length_app in E. lia.
  - intros E. apply (f_equal String.length) in E. cbn in E. rewrite str_length_app in E. lia.
  - intros [= -> ?]. f_equal. by apply IH.
Qed.
