(* ===== verification/RustNet.v ===== *)
(** * Socket addresses and UTF-8

    [String::from_utf8] and [str::parse::<SocketAddr>] of the Rust standard
    library, as the startup code uses them: the parser of [core::net] with its
    backtracking, where an alternative that fails leaves its input. *)

From Stdlib Require Import Ascii String.
From S2P Require Import Prelude RustStr.

(** ** UTF-8 *)

Definition byte_of (a : ascii) : Z := Z.of_N (N_of_ascii a).
Definition between (lo x hi : Z) : bool := ((lo <=? x) && (x <=? hi))%Z.
Definition is_cont (a : ascii) : bool := between 128 (byte_of a) 191.

(** The well-formed byte sequences: no overlong forms, no surrogates, nothing
    above U+10FFFF. *)
Fixpoint utf8_valid (s : string) : bool :=
  match s with
  | EmptyString => true
  | String a rest =>
      let x := byte_of a in
      if (x <? 128)%Z then utf8_valid rest
      else
      match rest with
      | EmptyString => false
      | String b rest =>
          let y := byte_of b in
          if between 194 x 223 then is_cont b && utf8_valid rest
          else
          match rest with
          | EmptyString => false
          | String c rest =>
              if between 224 x 239 then
                between (if (x =? 224)%Z then 160 else 128) y (if (x =? 237)%Z then 159 else 191) &&
                (is_cont c && utf8_valid rest)
              else
              match rest with
              | EmptyString => false
              | String d rest =>
                  between 240 x 244 &&
                  (between (if (x =? 240)%Z then 144 else 128) y (if (x =? 244)%Z then 143 else 191) &&
                   (is_cont c && (is_cont d && utf8_valid rest)))
              end
          end
      end
  end.

Definition from_utf8 (bytes : string) : option string :=
  if utf8_valid bytes then Some bytes else None.

(** ** [SocketAddr] *)

Inductive SocketAddr :=
| V4 (octets : list Z) (port : Z)
| V6 (segments : list Z) (scope_id port : Z).

#[export] Instance SocketAddr_eq_dec : EqDecision SocketAddr.
Proof. solve_decision. Defined.

Definition parser (A : Type) : Type := string -> option (A * string).
#[local] Instance parser_ret : MRet parser := fun A a s => Some (a, s).
#[local] Instance parser_bind : MBind parser := fun A B f p s =>
  match p s with Some (a, rest) => f a rest | None => None end.

(** [or_else]: the input is restored. *)
Definition or_else {A} (p q : parser A) : parser A := fun s =>
  match p s with Some r => Some r | None => q s end.

Definition read_given_char (c : ascii) : parser unit := fun s =>
  match s with
  | String a rest => if decide (a = c) then Some (tt, rest) else None
  | EmptyString => None
  end.

(** [char::to_digit]. *)
Definition to_digit (radix : Z) (a : ascii) : option Z :=
  let x := byte_of a in
  let d := if between 48 x 57 then Some (x - 48)%Z
           else if between 97 x 122 then Some (x - 87)%Z
           else if between 65 x 90 then Some (x - 55)%Z
           else None in
  d ← d; if (d <? radix)%Z then Some d else None.

(** The digits at the start of the input: their value, how many, the rest. *)
Fixpoint read_digits (radix acc : Z) (count : nat) (s : string) : Z * nat * string :=
  match s with
  | EmptyString => (acc, count, s)
  | String a rest =>
      match to_digit radix a with
      | Some d => read_digits radix (acc * radix + d) (S count) rest
      | None => (acc, count, s)
      end
  end.

(** [read_number]; a value above [max], the largest of its type, overflows. *)
Definition read_number (radix : Z) (max_digits : option nat) (allow_zero_prefix : bool) (max : Z) :
  parser Z := fun s =>
  let '(value, count, rest) := read_digits radix 0 0 s in
  let leading_zero := match s with String a _ => dec (a = "0"%char) | _ => false end in
  if decide (count = 0) then None
  else if match max_digits with Some m => dec (m < count) | None => false end then None
  else if negb allow_zero_prefix && (leading_zero && dec (1 < count)) then None
  else if (max <? value)%Z then None
  else Some (value, rest).

Definition read_separator {A} (sep : ascii) (index : nat) (inner : parser A) : parser A :=
  _ ← (if decide (0 < index) then read_given_char sep else mret tt); inner.

(** [groups] octets or segments, from [index] on, each after its separator. *)
Fixpoint read_octets (todo index : nat) : parser (list Z) :=
  match todo with
  | 0 => mret []
  | S todo =>
      o ← read_separator "."%char index (read_number 10 (Some 3) false 255);
      os ← read_octets todo (S index);
      mret (o :: os)
  end.
Definition read_ipv4_addr : parser (list Z) := read_octets 4 0.

(** [read_groups]: as many groups as can be read, at most [limit], and whether
    they end in an embedded IPv4 address; it never fails. *)
Fixpoint read_groups (limit todo : nat) (s : string) : list Z * bool * string :=
  let i := limit - todo in
  match todo with
  | 0 => ([], false, s)
  | S todo =>
      match (if decide (i < limit - 1) then read_separator ":"%char i read_ipv4_addr s else None) with
      | Some ([a; b; c; d], rest) => ([a * 256 + b; c * 256 + d]%Z, true, rest)
      | _ =>
          match read_separator ":"%char i (read_number 16 (Some 4) true 65535) s with
          | Some (g, rest) =>
              let '(gs, v4, rest) := read_groups limit todo rest in (g :: gs, v4, rest)
          | None => ([], false, s)
          end
      end
  end.

(** The groups after the [::], which stands for at least one zero group. *)
Definition read_ipv6_tail (head : list Z) : parser (list Z) := fun s =>
  let limit := 8 - (length head + 1) in
  let '(tail, _, rest) := read_groups limit limit s in
  Some (head ++ replicate (8 - length head - length tail) 0%Z ++ tail, rest).

Definition read_ipv6_addr : parser (list Z) := fun s =>
  let '(head, head_ipv4, rest) := read_groups 8 8 s in
  if decide (length head = 8) then Some (head, rest)
  else if (head_ipv4 : bool) then None
  else (_ ← read_given_char ":"%char; _ ← read_given_char ":"%char; read_ipv6_tail head) rest.

Definition read_port : parser Z :=
  _ ← read_given_char ":"%char; read_number 10 None true 65535.
Definition read_scope_id : parser Z :=
  _ ← read_given_char "%"%char; read_number 10 None true 4294967295.

Definition read_socket_addr_v4 : parser SocketAddr :=
  ip ← read_ipv4_addr; port ← read_port; mret (V4 ip port).
Definition read_socket_addr_v6 : parser SocketAddr :=
  _ ← read_given_char "["%char;
  ip ← read_ipv6_addr;
  scope_id ← or_else read_scope_id (mret 0%Z);
  _ ← read_given_char "]"%char;
  port ← read_port;
  mret (V6 ip scope_id port).

(** [s.parse::<SocketAddr>()]: the whole text. *)
Definition parse_socket_addr (s : string) : option SocketAddr :=
  match or_else read_socket_addr_v4 read_socket_addr_v6 s with
  | Some (a, EmptyString) => Some a
  | _ => None
  end.

(** *** Sanity *)

Lemma parse_any_v6 :
  parse_socket_addr "[::]:8443" = Some (V6 (replicate 8 0%Z) 0 8443) /\
  parse_socket_addr "[fe80::1%2]:80" = Some (V6 [65152; 0; 0; 0; 0; 0; 0; 1]%Z 2 80) /\
  parse_socket_addr "[::ffff:1.2.3.4]:80" = Some (V6 [0; 0; 0; 0; 0; 65535; 258; 772]%Z 0 80).
Proof. repeat split; reflexivity. Qed.

Lemma parse_v4 :
  parse_socket_addr "127.0.0.1:8443" = Some (V4 [127; 0; 0; 1]%Z 8443) /\
  parse_socket_addr "127.0.0.01:8443" = None /\ parse_socket_addr "127.0.0.1:65536" = None /\
  parse_socket_addr "localhost:8443" = None.
Proof. repeat split; reflexivity. Qed.
