(* ===== verification/DmsMain.v ===== *)
(** * Startup of the device-management service

    [src/device-management-service/src/main.rs]: the factory manifest of the
    environment is parsed and seeded into the store before the listeners open
    (phase 0).  Reading files and binding sockets are left out. *)

From Stdlib Require Import Ascii.
From S2P Require Import Prelude Sqlite Async DeviceStore DeviceStoreSpec Grpc DmsEffects RustStr.

Record ManifestEntry := mkEntry { e_serial : string; e_token : string; e_model : string }.

#[export] Instance ManifestEntry_eq_dec : EqDecision ManifestEntry.
Proof. solve_decision. Defined.

Definition default_model : string := "Alpha Wheeled".

(** The parts of one entry; anything but two or three parts is skipped with a
    warning. *)
Definition parse_entry (entry : string) : option ManifestEntry :=
  match splitn 3 ":"%char entry with
  | [s; t; m] => Some (mkEntry s t m)
  | [s; t] => Some (mkEntry s t default_model)
  | _ => None
  end.

(** [manifest.split(',').map(str::trim).filter(|s| !s.is_empty())]. *)
Definition manifest_entries (manifest : string) : list string :=
  filter (fun s => s <> "") (trim <$> split_on ","%char manifest).

Definition parse_manifest (manifest : string) : list ManifestEntry :=
  omap parse_entry (manifest_entries manifest).

(** The loop over the entries: a failed insert is logged, and counted all the
    same.  The count, a [u32] that only a manifest of 2^32 entries could
    overflow, is what the loop returns. *)
Fixpoint seed_entries (entries : list string) (manifest_count : Z) : async DmsE Z :=
  match entries with
  | [] => Done manifest_count
  | entry :: rest =>
      match parse_entry entry with
      | None => seed_entries rest manifest_count
      | Some e =>
          let! _ := store (SeedManifest (e_serial e) (e_model e) (e_token e)) in
          seed_entries rest (manifest_count + 1)
      end
  end.

(** [FACTORY_MANIFEST] may be unset. *)
Definition seed_factory_manifest (manifest : option string) : async DmsE Z :=
  match manifest with
  | Some m => seed_entries (manifest_entries m) 0
  | None => Done 0%Z
  end.

(** [store.count_devices().await.unwrap_or(0)]: the two numbers of the
    "store ready" line. *)
Definition store_ready (manifest : option string) : async DmsE (Z * Z) :=
  let! manifest_count := seed_factory_manifest manifest in
  let! enrolled := store CountDevices in
  Done (manifest_count, match enrolled with Ok n => n | _ => 0%Z end).

(** [CERT_VALIDITY_DAYS], 30 by default. *)
Definition validity_days (var : option string) : option Z :=
  parse_unsigned u32_max (default "30" var).

(** A restart of the process: the database file is opened again and the
    manifest seeded again. *)
Definition process_restart {S} `{DeviceStoreSpec S} (manifest : option string) (s s' : S) : Prop :=
  exists envs, s' = (run (store_ready manifest) envs (reopen s)).2.

(** How the demo configuration writes an entry. *)
Definition render_entry (e : ManifestEntry) : string :=
  e_serial e +:+ ":" +:+ e_token e +:+ ":" +:+ e_model e.

Definition render_manifest (es : list ManifestEntry) : string :=
  String.concat "," (render_entry <$> es).
