(* ===== verification/Startup.v ===== *)
(** * Startup of the three services

    The [main] functions of [device-management-service], [ota-service] and
    [artifact-store]: reading the configuration, opening the database, seeding
    the factory manifest, and the listeners with their trust roots.  Logging
    and the choice of a cryptographic provider are left out; a listener is what
    [main] hands to the transport, which is a library. *)

From S2P Require Import Prelude Sqlite Async Pki DeviceStore DeviceStoreSpec Grpc DmsEffects.
From S2P Require Import Enrollment Provisioning Heartbeat DmsServer RustStr RustNet DmsMain.

(** What a [main] can fail with. *)
Inductive StartErr :=
| NoVar (key : string)
| ReadFailed (e : string)
| BadNumber (key : string)
| DbFailed (e : RusqliteError)
| NotUtf8 (key : string)
| BadAddr (key : string)
| TlsFailed (e : string)
| ServerFailed (e : string).

(** [ServerTlsConfig]: the server's certificate and key, and the root that
    client certificates must verify against, if one is asked for. *)
Record Tls := mkTls { identity : string * string; tls_client_ca_root : option string }.

(** What is added to a listener. *)
Inductive Svc :=
| DeviceManagementSvc (server : DeviceManagementServer)
| TelemetrySvc
| ProvisioningSvc (server : ProvisioningServer)
| OtaSvc
| ArtifactSvc (minio_endpoint minio_access_key minio_secret_key minio_bucket : string).

Record Listener := mkListener { l_addr : SocketAddr; l_tls : Tls; l_services : list Svc }.

(** ** Effects *)

Inductive StartE : Type -> Type :=
| Var (key : string) : StartE (option string)
| ReadFile (path : string) : StartE (outcome string string)   (* [fs::read]: bytes *)
| ReadText (path : string) : StartE (outcome string string)   (* [fs::read_to_string] *)
| OpenDb (path : string) : StartE (outcome RusqliteError unit)
| StoreE {X} (e : DmsE X) : StartE X
| SpawnHealthTick : StartE unit
| TlsAccepts (tls : Tls) : StartE (outcome string unit)       (* [Server::builder().tls_config] *)
| Serve (listeners : list Listener) : StartE (outcome string unit).

Abbreviation Start := (Task StartE StartErr).

(** [env::var(key)]. *)
Definition env_var (key : string) : Start (option string) := get _ (Var key).
(** [env::var(key).unwrap_or_else(default)]. *)
Definition var_or (key fallback : string) : Start string :=
  v ← env_var key; mret (default fallback v).
(** [env::var(key).context(key)?]. *)
Definition var_required (key : string) : Start string :=
  v ← env_var key; pure_code (ok_or v (NoVar key)).

(** [fs::read(env::var(key).context(key)?)?]. *)
Definition read_required (key : string) : Start string :=
  path ← var_required key;
  task_map_err ReadFailed (call (ReadFile path)).
Definition read_text_required (key : string) : Start string :=
  path ← var_required key;
  task_map_err ReadFailed (call (ReadText path)).

Definition utf8 (key bytes : string) : Start string :=
  pure_code (ok_or (from_utf8 bytes) (NotUtf8 key)).
Definition parse_addr (key s : string) : Start SocketAddr :=
  pure_code (ok_or (parse_socket_addr s) (BadAddr key)).
Definition tls_config (tls : Tls) : Start unit := task_map_err TlsFailed (call (TlsAccepts tls)).

(** ** The device-management service *)

Record Settings := mkSettings {
  listen_addr : string; bootstrap_addr : string; provisioning_addr : string; db_path : string;
  cfg_validity_days : Z;
  server_cert : string; server_key : string;
  cfg_fleet_ca_cert : string; cfg_fleet_ca_key : string;
  cfg_device_ca_cert : string; cfg_device_ca_key : string
}.

Definition read_settings : Start Settings :=
  listen_addr ← var_or "LISTEN_ADDR" "[::]:8443";
  bootstrap_addr ← var_or "BOOTSTRAP_ADDR" "[::]:8444";
  provisioning_addr ← var_or "PROVISIONING_ADDR" "[::]:8445";
  db_path ← var_or "DB_PATH" "./fleet.db";
  days ← env_var "CERT_VALIDITY_DAYS";
  days ← pure_code (ok_or (validity_days days) (BadNumber "CERT_VALIDITY_DAYS"));
  server_cert ← read_required "SERVER_CERT_PEM";
  server_key ← read_required "SERVER_KEY_PEM";
  fleet_ca_cert ← read_required "FLEET_CA_CERT_PEM";
  fleet_ca_key ← read_required "FLEET_CA_KEY_PEM";
  device_ca_cert ← read_required "DEVICE_CA_CERT_PEM";
  device_ca_key ← read_required "DEVICE_CA_KEY_PEM";
  mret (mkSettings listen_addr bootstrap_addr provisioning_addr db_path days server_cert server_key
          fleet_ca_cert fleet_ca_key device_ca_cert device_ca_key).

Definition on_store {A} (t : async DmsE A) : async StartE A := embed (fun X e => StoreE e) t.

(** Phase 0, and the count that is only logged. *)
Definition seed_store : Start unit :=
  manifest ← env_var "FACTORY_MANIFEST";
  let! _ := on_store (store_ready manifest) in
  Done (Ok tt).

(** The listeners of the three ports, in the order they are served. *)
Definition make_listeners (s : Settings) : Start (list Listener) :=
  fleet_ca_cert_pem ← utf8 "FLEET_CA_CERT_PEM" (cfg_fleet_ca_cert s);
  fleet_ca_key_pem ← utf8 "FLEET_CA_KEY_PEM" (cfg_fleet_ca_key s);
  device_ca_cert_pem ← utf8 "DEVICE_CA_CERT_PEM" (cfg_device_ca_cert s);
  device_ca_key_pem ← utf8 "DEVICE_CA_KEY_PEM" (cfg_device_ca_key s);
  let id := (server_cert s, server_key s) in
  let fleet_tls := mkTls id (Some fleet_ca_cert_pem) in
  let bootstrap_tls := mkTls id (Some device_ca_cert_pem) in
  let provisioning_tls := mkTls id None in
  let svc := start_service fleet_ca_cert_pem fleet_ca_key_pem device_ca_cert_pem device_ca_key_pem
               (cfg_validity_days s) in
  fleet_addr ← parse_addr "LISTEN_ADDR" (listen_addr s);
  bootstrap_addr ← parse_addr "BOOTSTRAP_ADDR" (bootstrap_addr s);
  provisioning_addr ← parse_addr "PROVISIONING_ADDR" (provisioning_addr s);
  mret [mkListener fleet_addr fleet_tls [DeviceManagementSvc (fleet_svc svc); TelemetrySvc];
        mkListener bootstrap_addr bootstrap_tls [DeviceManagementSvc (bootstrap_svc svc)];
        mkListener provisioning_addr provisioning_tls [ProvisioningSvc (provisioning_svc svc)]].

(** The futures of [try_join!] are built in order, and a configuration that is
    refused returns before any of them is polled. *)
Fixpoint accept_all (ls : list Listener) : Start unit :=
  match ls with
  | [] => mret tt
  | l :: ls => _ ← tls_config (l_tls l); accept_all ls
  end.

Definition serve_all (ls : list Listener) : Start unit :=
  _ ← accept_all ls;
  task_map_err ServerFailed (call (Serve ls)).

Definition dms_main : Start unit :=
  settings ← read_settings;
  _ ← task_map_err DbFailed (call (OpenDb (db_path settings)));
  _ ← seed_store;
  listeners ← make_listeners settings;
  _ ← get _ SpawnHealthTick;
  serve_all listeners.

(** The spawned task, for its first [n] ticks: every 30 seconds it counts the
    devices and logs the number or the error. *)
Fixpoint health_ticks (n : nat) : async DmsE unit :=
  match n with
  | 0 => Done tt
  | S n => let! _ := store CountDevices in health_ticks n
  end.

(** ** The OTA service *)

Definition ota_main : Start unit :=
  listen_addr ← var_or "LISTEN_ADDR" "[::]:9444";
  listen_addr ← parse_addr "LISTEN_ADDR" listen_addr;
  db_path ← var_or "DB_PATH" "./ota.db";
  cert_pem ← read_text_required "SERVER_CERT_PEM";
  key_pem ← read_text_required "SERVER_KEY_PEM";
  ca_pem ← read_text_required "FLEET_CA_CERT_PEM";
  let tls := mkTls (cert_pem, key_pem) (Some ca_pem) in
  _ ← task_map_err DbFailed (call (OpenDb db_path));
  serve_all [mkListener listen_addr tls [OtaSvc]].

(** ** The artifact store *)

Definition artifact_main : Start unit :=
  listen_addr ← var_or "LISTEN_ADDR" "[::]:9443";
  db_path ← var_or "DB_PATH" "./artifacts.db";
  server_cert ← read_required "SERVER_CERT_PEM";
  server_key ← read_required "SERVER_KEY_PEM";
  fleet_ca ← read_required "FLEET_CA_CERT_PEM";
  minio_endpoint ← var_or "MINIO_ENDPOINT" "http://localhost:9000";
  minio_access_key ← var_or "MINIO_ACCESS_KEY" "minioadmin";
  minio_secret_key ← var_or "MINIO_SECRET_KEY" "minioadmin";
  minio_bucket ← var_or "MINIO_BUCKET" "robot-artifacts";
  let tls := mkTls (server_cert, server_key) (Some fleet_ca) in
  _ ← task_map_err DbFailed (call (OpenDb db_path));
  addr ← parse_addr "LISTEN_ADDR" listen_addr;
  serve_all [mkListener addr tls
               [ArtifactSvc minio_endpoint minio_access_key minio_secret_key minio_bucket]].
