(* ===== verification/ToyPki.v ===== *)
(** * A concrete PKI and environment for worked examples

    The cryptographic crates are parameters of the development.  This small
    instance satisfies what is assumed of them: a certificate request is the name of its
    subject, a signed certificate is written "subject|issuer", and a CA is
    known by its name. *)

From Stdlib Require Import Ascii.
From S2P Require Import Prelude RustStr Sqlite Pki DeviceStore Grpc.

Record ToyCert := mkToyCert { toy_cn : string; toy_signer : string; toy_key : string }.

Definition toy_last_second : Z := 253402300799 * 1000000000.

(** A text that parses unless it is "bad". *)
Definition toy_pem (s : string) : outcome string string :=
  if decide (s = "bad") then Err "malformed" else Ok s.

Definition toy_cert (s : string) : ToyCert :=
  match split_on "|"%char s with
  | [cn; signer] => mkToyCert cn signer s
  | _ => mkToyCert s s s
  end.

Definition toy_pki : PkiLib := {|
  KeyPair := string;
  CaParams := string;
  CsrParams := string;
  Certificate := string;
  Csr := string;
  key_pair_from_pem := toy_pem;
  key_serialize_pem k := k;
  ca_params_from_pem := toy_pem;
  self_signed p k := Ok p;
  csr_params_from_pem := toy_pem;
  signed_by csr not_before not_after ca key := Ok (csr +:+ "|" +:+ ca);
  cert_pem c := c;
  serialize_request cn k := Ok cn;
  csr_pem_of c := Ok c;
  date_add_days t d :=
    let t' := (t + d * 86400 * 1000000000)%Z in
    if (t' <=? toy_last_second)%Z then Some t' else None;
  CertificateDer := ToyCert;
  X509 := ToyCert;
  PublicKey := string;
  pemfile_certs s := if decide (s = "bad") then [Err "malformed"] else [Ok (toy_cert s)];
  x509_from_der c := Ok c;
  common_names c := if decide (toy_cn c = "") then [] else [Ok (toy_cn c)];
  public_key c := toy_key c;
  verify_signature c k := if decide (toy_signer c = k) then Ok tt else Err "invalid signature"
|}.

Lemma toy_pki_spec : @PkiLibSpec toy_pki.
Proof. constructor. cbn. intros t d t'. by case_match; intros [= <-]. Qed.

(** An environment: the clock in seconds, the next UUID, and the faults. *)
Definition toy_env_f (secs : Z) (uuid : string) (f : site -> fault) : Env :=
  mkEnv (secs * 1000000000) uuid "2024-01-01 00:00:00" f true.
Definition toy_env (secs : Z) (uuid : string) : Env := toy_env_f secs uuid no_faults.

Definition toy_text (e : RusqliteError) : string :=
  match e with
  | SqliteFailure ConstraintViolation => "constraint failed"
  | SqliteFailure OtherCode => "engine failure"
  | QueryReturnedNoRows => "Query returned no rows"
  | InvalidQuery => "Query is not read-only"
  end.

Definition toy_status_text (s : Status) : string := "status: " +:+ message s.
