(* ===== verification/Admission.v ===== *)
(** * Admission: one enrollment per serial, one device certificate per token

    The handlers of [DmsServer] under any interleaving of requests, client
    disconnections, process restarts and engine faults, proved against the
    contract [DeviceStoreSpec] of the store. *)

From S2P Require Import Prelude Sqlite Async Pki DeviceStore DeviceStoreSpec Grpc DmsEffects.
From S2P Require Import Enrollment Provisioning Heartbeat DmsTelemetry DmsServer RustStr DmsMain.
From S2P Require Import DeviceStoreSqlite ToyPki.

(** ** Facts about the tables that no request undoes *)

(** The serial has been claimed for enrollment. *)
Definition is_claimed (sno : string) (t : Tables) : Prop :=
  exists row, pre_enrollment t !! sno = Some row /\ claimed row <> 0%Z.

(** The serial's manufacturing token has been used. *)
Definition is_provisioned (sno : string) (t : Tables) : Prop :=
  exists row, factory_manifest t !! sno = Some row /\ is_Some (provisioned_at row).

(** [RegisterSerial] is the one method that resets a claim; no request and no
    startup code calls it. *)
Definition keeps_claims {A} (c : StoreCall A) : Prop :=
  match c with RegisterSerial _ _ => False | _ => True end.

Definition calm : forall X, DmsE X -> Prop := fun X e =>
  match e with Store c => keeps_claims c | _ => True end.

(** The answers that let a task go on to enroll, or to sign for, [sno]. *)
Definition grants_claim (sno : string) : forall X, DmsE X -> X -> bool := fun X e =>
  match e in DmsE X return X -> bool with
  | Store c =>
      match c in StoreCall A return outcome Error A -> bool with
      | LookupAndClaim s => fun r => dec (s = sno) && is_ok r
      | _ => fun _ => false
      end
  | _ => fun _ => false
  end.

Definition grants_provision (sno : string) : forall X, DmsE X -> X -> bool := fun X e =>
  match e in DmsE X return X -> bool with
  | Store c =>
      match c in StoreCall A return outcome Error A -> bool with
      | ClaimManifestEntry s _ => fun r => dec (s = sno) && is_ok r
      | _ => fun _ => false
      end
  | _ => fun _ => false
  end.

(** The request was a bootstrap enrollment of [sno], and it succeeded. *)
Definition enrolled_as `{PkiLib} (sno : string) (j : Port * Rpc) (r : outcome Status Reply) : Prop :=
  match j.2 with
  | BootstrapEnroll (Some certs) _ => Mtls.extract_serial certs = Ok sno /\ is_ok r = true
  | _ => False
  end.

(** The request was for a device certificate for [sno], and it succeeded. *)
Definition provisioned_as `{PkiLib} (sno : string) (j : Port * Rpc) (r : outcome Status Reply) : Prop :=
  match j.2 with
  | ProvisionDevice req => pd_serial req = sno /\ is_ok r = true
  | _ => False
  end.

(** ** Atomic steps *)

Section steps.
Implicit Types t : Tables.

Lemma spec_keeps_claimed {A} env (c : StoreCall A) sno t a t' :
  keeps_claims c -> spec env c t = (Ok a, t') -> is_claimed sno t -> is_claimed sno t'.
Proof.
  intros Hc Hs [row [Hrow Hcl]]. unfold is_claimed.
  destruct c; cbn in *; try done; repeat case_match; simplify_eq; cbn; eauto.
  all: destruct (decide (s = sno)) as [->|Hne]; simplify_map_eq; eauto.
Qed.

Lemma spec_keeps_provisioned {A} env (c : StoreCall A) sno t a t' :
  spec env c t = (Ok a, t') -> is_provisioned sno t -> is_provisioned sno t'.
Proof.
  intros Hs [row [Hrow Hp]]. unfold is_provisioned.
  destruct c; cbn in *; repeat case_match; simplify_eq; cbn; eauto.
  all: destruct (decide (s = sno)) as [->|Hne]; simplify_map_eq; eauto; done.
Qed.

Lemma spec_claim_Ok env sno t a t' :
  spec env (LookupAndClaim sno) t = (Ok a, t') -> ~ is_claimed sno t /\ is_claimed sno t'.
Proof.
  cbn. intros Hs. destruct (pre_enrollment t !! sno) as [row|] eqn:Hrow; [|done].
  case_decide; simplify_eq. unfold is_claimed. cbn. split.
  - intros (row' & ? & ?). simplify_eq.
  - eexists. by rewrite lookup_insert_eq.
Qed.

Lemma spec_provision_Ok env sno tok t a t' :
  spec env (ClaimManifestEntry sno tok) t = (Ok a, t') ->
  ~ is_provisioned sno t /\ is_provisioned sno t'.
Proof.
  cbn. intros Hs. destruct (factory_manifest t !! sno) as [row|] eqn:Hrow; [|done].
  case_decide; [done|]. case_decide; [done|]. simplify_eq. unfold is_provisioned. split.
  - intros (row' & ? & ?). by simplify_eq.
  - eexists. case_match; cbn; by rewrite lookup_insert_eq.
Qed.
End steps.

(** ** Every handler is calm *)

Section calm.
Context `{PkiLib, BuildProfile} (rt : RusqliteError -> string) (stx : Status -> string).

Lemma only_now {E} : only calm (now_utc : Task DmsE E Z).
Proof. done. Qed.
Lemma only_store {A} (c : StoreCall A) : keeps_claims c -> only calm (store c).
Proof. done. Qed.

Create HintDb calm.
Hint Resolve only_now only_store : calm.
Hint Constants Opaque : calm.
Hint Extern 1 (keeps_claims _) => exact I : calm.

Ltac calm_tac := only_tac; auto with calm.

Lemma calm_enroll svc s csr fw certs ca :
  only calm (Enrollment.bootstrap_enroll svc s csr fw certs ca).
Proof. unfold Enrollment.bootstrap_enroll. calm_tac. Qed.

Lemma calm_renew svc d csr : only calm (Enrollment.renew_cert svc d csr).
Proof. unfold Enrollment.renew_cert. calm_tac. Qed.

Lemma calm_provision srv req : only calm (provision_device rt srv req).
Proof. unfold provision_device. calm_tac. Qed.

Lemma calm_heartbeat_loop d l : only calm (handle_loop d l).
Proof.
  induction l as [|[req|e] l IH]; cbn; [done| |done].
  split; [done|]. intros [[]|[]|]; cbn; try done; split; try done; by intros [].
Qed.

Lemma calm_telemetry {A} (t : async TelemetryE A) : only calm (embed ack_effect t).
Proof. apply only_embed. by intros X []. Qed.

Lemma calm_heartbeat l : only calm (Heartbeat.handle stx l).
Proof.
  destruct l as [|[req|e] l]; [done| |done]. apply calm_heartbeat_loop.
Qed.

Lemma calm_serve svc j : only calm (serve rt stx svc j).
Proof.
  unfold serve, reply, DmsServer.bootstrap_enroll, renew_cert, get_device, list_devices,
    update_device_status, mapped.
  destruct (negb _); [done|].
  destruct (j.2); calm_tac; auto using calm_enroll, calm_renew, calm_provision.
  - apply calm_heartbeat.
  - apply calm_telemetry.
Qed.

Lemma calm_seed l n : only calm (seed_entries l n).
Proof.
  revert n. induction l as [|x l IH]; intros n; cbn; [done|].
  destruct (parse_entry x); cbn; auto.
Qed.

Lemma calm_startup m : only calm (store_ready m).
Proof. destruct m; [|by split]. apply only_bind; [apply calm_seed|by split]. Qed.
End calm.

(** ** The running service *)

Section admission.
Context `{PkiLib, BuildProfile} {S : Type} `{DeviceStoreSpec S}.
Context (rt : RusqliteError -> string) (stx : Status -> string) (svc : Service).
Context (manifest : option string).

Abbreviation fleet_pool := (Pool DmsE S (Port * Rpc) (outcome Status Reply)).
Abbreviation fleet_reachable :=
  (reachable (F := DmsE) (serve rt stx svc) (process_restart manifest)).

Lemma disk_fact (P : Tables -> Prop) (ok : forall X, DmsE X -> Prop) :
  (forall A env (c : StoreCall A) t a t',
     ok _ (Store c) -> spec env c t = (Ok a, t') -> P t -> P t') ->
  forall X env (e : DmsE X) s x s',
    ok X e -> Async.handle env e s = (x, s') -> P (on_disk s) -> P (on_disk s').
Proof.
  intros Hspec X env e s x s' Hok Hh HP. destruct e as [A c| |m|m]; cbn in Hh; simplify_eq; auto.
  destruct (disk_atomic _ _ _ _ _ _ Hh) as [->|[a Ha]]; [done|]. by eapply Hspec.
Qed.

Lemma claimed_stays sno X env (e : DmsE X) s x s' :
  calm X e -> Async.handle env e s = (x, s') ->
  is_claimed sno (on_disk s) -> is_claimed sno (on_disk s').
Proof.
  apply (disk_fact (is_claimed sno) calm). intros A env' c t a t' Hc.
  by apply spec_keeps_claimed.
Qed.

Lemma provisioned_stays sno X env (e : DmsE X) s x s' :
  calm X e -> Async.handle env e s = (x, s') ->
  is_provisioned sno (on_disk s) -> is_provisioned sno (on_disk s').
Proof.
  apply (disk_fact (is_provisioned sno) calm). intros A env' c t a t' _.
  by apply spec_keeps_provisioned.
Qed.

(** A fact the startup code keeps survives a restart. *)
Lemma restart_keeps (P : Tables -> Prop) s s' :
  (forall X env (e : DmsE X) s x s',
     calm X e -> Async.handle env e s = (x, s') -> P (on_disk s) -> P (on_disk s')) ->
  process_restart manifest s s' -> P (on_disk s) -> P (on_disk s').
Proof.
  intros HP [envs ->] Hs. apply (run_invariant calm (fun s => P (on_disk s))).
  - exact HP.
  - apply calm_startup.
  - by rewrite on_disk_reopen.
Qed.

Lemma claim_granted sno X env (e : DmsE X) s x s' :
  Async.handle env e s = (x, s') -> grants_claim sno X e x = true ->
  ~ is_claimed sno (on_disk s) /\ is_claimed sno (on_disk s').
Proof.
  destruct e as [A c| |m|m]; cbn; try done.
  destruct c as [d|i|s0|i st re|i|m st l cu|s0 m|s0| |s0 m tok|s0 tok]; try done.
  intros Hh [Hs [r ->]%is_ok_true]%andb_true_iff.
  apply bool_decide_eq_true in Hs as ->.
  eapply spec_claim_Ok, (claim_durable _ (LookupAndClaim sno)); [done|exact Hh].
Qed.

Lemma provision_granted sno X env (e : DmsE X) s x s' :
  Async.handle env e s = (x, s') -> grants_provision sno X e x = true ->
  ~ is_provisioned sno (on_disk s) /\ is_provisioned sno (on_disk s').
Proof.
  destruct e as [A c| |m|m]; cbn; try done.
  destruct c as [d|i|s0|i st re|i|m st l cu|s0 m|s0| |s0 m tok|s0 tok]; try done.
  intros Hh [Hs [r ->]%is_ok_true]%andb_true_iff.
  apply bool_decide_eq_true in Hs as ->.
  eapply spec_provision_Ok, (claim_durable _ (ClaimManifestEntry sno tok)); [done|exact Hh].
Qed.

(** A request that cannot win is gated whatever it does. *)
Lemma gated_never grant (won : Port * Rpc -> outcome Status Reply -> Prop) j t :
  (forall r, ~ won j r) -> only calm t -> gated calm grant won j t.
Proof.
  intros Hw. induction t as [r|X e k IH]; cbn; [auto|]. intros [He Hk].
  split; [done|]. intros x. destruct (grant X e x); auto.
Qed.

(** An error is no success. *)
Lemma gated_error grant (won : Port * Rpc -> outcome Status Reply -> Prop) j e :
  (forall r, won j r -> is_ok r = true) -> gated calm grant won j (Done (Err e)).
Proof. intros Hw Hr. by apply Hw in Hr. Qed.

Lemma won_enroll_ok sno j r : enrolled_as sno j r -> is_ok r = true.
Proof. unfold enrolled_as. destruct j.2 as [|[?|] ?| | | | | |]; naive_solver. Qed.

Lemma enroll_gated sno j :
  gated calm (grants_claim sno) (enrolled_as sno) j (serve rt stx svc j).
Proof.
  destruct (j.2) as [req|certs req| | | | | |] eqn:Hj.
  1, 3-8: apply gated_never; [intros r; unfold enrolled_as; rewrite Hj; by intros []|apply calm_serve].
  destruct certs as [certs|].
  2: apply gated_never; [intros r; unfold enrolled_as; rewrite Hj; by intros []|apply calm_serve].
  destruct (decide (Mtls.extract_serial certs = Ok sno)) as [Hcn|Hcn].
  2: apply gated_never; [intros r; unfold enrolled_as; rewrite Hj; by intros [? ?]|apply calm_serve].
  pose proof (calm_serve rt stx svc j) as Hcalm. revert Hcalm.
  unfold serve. rewrite Hj. destruct (negb _).
  { intros _. apply gated_error, won_enroll_ok. }
  unfold reply, DmsServer.bootstrap_enroll, mapped, Enrollment.bootstrap_enroll. cbn.
  rewrite Hcn. cbn. case_match.
  { intros _. apply gated_error, won_enroll_ok. }
  destruct (Mtls.verify_signed_by _ _); cbn.
  - intros [Hc Hk]. split; [done|]. intros x. specialize (Hk x).
    rewrite bool_decide_true by done. cbn. destruct x as [a'|e'|]; cbn in *; [exact Hk|..].
    + intros Hw. by apply won_enroll_ok in Hw.
    + intros Hw. by apply won_enroll_ok in Hw.
  - intros _ Hw. by apply won_enroll_ok in Hw.
  - intros _ Hw. by apply won_enroll_ok in Hw.
Qed.

Lemma won_provision_ok sno j r : provisioned_as sno j r -> is_ok r = true.
Proof. unfold provisioned_as. destruct j.2; naive_solver. Qed.

Lemma provision_gated sno j :
  gated calm (grants_provision sno) (provisioned_as sno) j (serve rt stx svc j).
Proof.
  destruct (j.2) as [req|certs req| | | | | |] eqn:Hj.
  2-8: apply gated_never; [intros r; unfold provisioned_as; rewrite Hj; by intros []|apply calm_serve].
  destruct (decide (pd_serial req = sno)) as [Hsn|Hsn].
  2: apply gated_never; [intros r; unfold provisioned_as; rewrite Hj; by intros [? ?]|apply calm_serve].
  pose proof (calm_serve rt stx svc j) as Hcalm. revert Hcalm.
  unfold serve. rewrite Hj. destruct (negb _).
  { intros _. apply gated_error, won_provision_ok. }
  unfold reply, provision_device. case_match; cbn.
  { intros _ Hw. by apply won_provision_ok in Hw. }
  intros [Hc Hk]. split; [done|]. intros x. specialize (Hk x). rewrite Hsn.
  rewrite bool_decide_true by done. cbn. destruct x as [a'|e'|]; cbn in *; [exact Hk|..].
  - intros Hw. by apply won_provision_ok in Hw.
  - intros Hw. by apply won_provision_ok in Hw.
Qed.

(** C1: a serial is enrolled at most once.  In every state the running
    service can reach, under any interleaving of requests on its ports, client
    disconnections, restarts and failures of the SQL engine, at most one
    reply to a bootstrap enrollment whose peer certificate carries a given
    serial is a success. *)
Theorem at_most_one_enrollment sno s p :
  fleet_reachable s p ->
  forall i1 j1 r1 i2 j2 r2,
    (i1, j1, r1) ∈ replies p -> enrolled_as sno j1 r1 ->
    (i2, j2, r2) ∈ replies p -> enrolled_as sno j2 r2 ->
    (i1, j1, r1) = (i2, j2, r2).
Proof.
  apply (won_at_most_once _ _ calm (grants_claim sno) (fun s => is_claimed sno (on_disk s))).
  - apply enroll_gated.
  - intros X env e s' x s'' Hc Hh. by eapply claimed_stays.
  - intros X env e s' x s'' _ Hh Hg. by eapply claim_granted.
  - intros s' s'' Hre. apply (restart_keeps (is_claimed sno)); [|done].
    intros X env e ? x ? Hc Hh. by eapply claimed_stays.
Qed.

(** C2: a manufacturing token buys at most one device certificate.  In every
    state the running service can reach, under any interleaving, restarts and
    failures, at most one provisioning request for a given serial succeeds. *)
Theorem at_most_one_device_cert sno s p :
  fleet_reachable s p ->
  forall i1 j1 r1 i2 j2 r2,
    (i1, j1, r1) ∈ replies p -> provisioned_as sno j1 r1 ->
    (i2, j2, r2) ∈ replies p -> provisioned_as sno j2 r2 ->
    (i1, j1, r1) = (i2, j2, r2).
Proof.
  apply (won_at_most_once _ _ calm (grants_provision sno)
           (fun s => is_provisioned sno (on_disk s))).
  - apply provision_gated.
  - intros X env e s' x s'' Hc Hh. by eapply provisioned_stays.
  - intros X env e s' x s'' _ Hh Hg. by eapply provision_granted.
  - intros s' s'' Hre. apply (restart_keeps (is_provisioned sno)); [|done].
    intros X env e ? x ? Hc Hh. by eapply provisioned_stays.
Qed.
End admission.

(** ** Worked examples *)

Section examples.
#[local] Instance release : BuildProfile := false.
#[local] Existing Instance toy_pki.

Definition toy_service : Service :=
  start_service "fleet-ca" "fleet-key" "device-ca" "device-key" 30.

Definition toy_tables : Tables :=
  set_pre {["SN-1" := mkPreRow "humanoid-v2" 0]}
    (set_manifest {["SN-1" := mkManifest "humanoid-v2" "tok" None]} empty_tables).

Definition enroll_job : Port * Rpc :=
  (BootstrapPort,
   BootstrapEnroll (Some [mkToyCert "SN-1" "device-ca" "k"])
     (mkBootstrapReq "csr" "humanoid-v2" "1.0.0" ∅ "SN-1")).

Definition provision_job : Port * Rpc :=
  (ProvisioningPort, ProvisionDevice (mkProvisionReq "SN-1" "csr" "tok")).

(** Two enrollments with the same certificate race: the second claims first. *)
Definition race : list action :=
  [Request enroll_job; Request enroll_job;
   Resume 1 (toy_env 100 "u1"); Resume 0 (toy_env 101 "u0"); Answer 0;
   Resume 1 (toy_env 102 "u1"); Resume 1 (toy_env 103 "u1"); Resume 1 (toy_env 104 "u1");
   Answer 1].

Definition provision_race : list action :=
  [Request provision_job; Request provision_job;
   Resume 1 (toy_env 100 "u"); Resume 0 (toy_env 101 "u"); Answer 0;
   Resume 1 (toy_env 102 "u"); Answer 1].

Definition race_pool (acts : list action) : Pool DmsE (Mutex Tables) (Port * Rpc) (outcome Status Reply) :=
  exec (serve toy_text toy_status_text toy_service) (Sqlite_.new toy_tables) acts.

Definition won_reply : outcome Status Reply :=
  Ok (BootstrapReply (mkBootstrapResp "u1" "csr|fleet-ca" "fleet-ca"
        (at_seconds (103 + 30 * 86400)))).

Lemma at_most_one_enrollment_witness :
  replies (race_pool race) =
    [(1, enroll_job, won_reply); (0, enroll_job, Err (mkStatus AlreadyExists "SN-1"))] /\
  forall i j r, (i, j, r) ∈ replies (race_pool race) -> enrolled_as "SN-1" j r ->
    (1, enroll_job, won_reply) = (i, j, r).
Proof.
  assert (replies (race_pool race) =
    [(1, enroll_job, won_reply); (0, enroll_job, Err (mkStatus AlreadyExists "SN-1"))])
    as Hreplies by reflexivity.
  split; [exact Hreplies|]. intros i j r Hin Hwon.
  apply (at_most_one_enrollment toy_text toy_status_text toy_service None "SN-1"
           (Sqlite_.new toy_tables) (race_pool race)).
  - apply exec_reachable.
  - rewrite Hreplies. apply list_elem_of_here.
  - split; reflexivity.
  - exact Hin.
  - exact Hwon.
Defined.

Lemma at_most_one_device_cert_witness :
  (fst <$> replies (race_pool provision_race)) = [(1, provision_job); (0, provision_job)] /\
  forall i j r, (i, j, r) ∈ replies (race_pool provision_race) -> provisioned_as "SN-1" j r ->
    (1, provision_job, Ok (ProvisionReply (mkProvisionResp "csr|device-ca")))
    = (i, j, r).
Proof.
  split; [reflexivity|]. intros i j r Hin Hwon.
  apply (at_most_one_device_cert toy_text toy_status_text toy_service None "SN-1"
           (Sqlite_.new toy_tables) (race_pool provision_race)).
  - apply exec_reachable.
  - apply list_elem_of_here.
  - split; reflexivity.
  - exact Hin.
  - exact Hwon.
Defined.
End examples.
