(* ===== verification/OtaStore.v ===== *)
(** * The job store of the OTA service

    [src/ota-service/src/store/mod.rs] and [src/ota-service/src/error.rs]: the
    update jobs and [SqliteJobStore].  The operations lock the connection with
    [lock().unwrap()], so a poisoned lock makes every later call panic. *)

From S2P Require Import Prelude Sqlite Grpc.

Module OtaErr.
Inductive Error :=
| NotFound (id : string)
| AlreadyPending
| NoActiveSubscribers (device : string)
| Db (e : RusqliteError)
| Grpc (s : Status)
| Transport.
End OtaErr.

(** ** Domain types *)

Module JobStatus.
Inductive t := Pending | InProgress | Completed | Failed.

Definition as_str (s : t) : string :=
  match s with
  | Pending => "pending"
  | InProgress => "in_progress"
  | Completed => "completed"
  | Failed => "failed"
  end.

Definition from_str (s : string) : option t :=
  if decide (s = "pending") then Some Pending
  else if decide (s = "in_progress") then Some InProgress
  else if decide (s = "completed") then Some Completed
  else if decide (s = "failed") then Some Failed
  else None.

#[global] Instance t_eq_dec : EqDecision t.
Proof. solve_decision. Defined.

Lemma from_as_str s : from_str (as_str s) = Some s.
Proof. by destruct s. Qed.
End JobStatus.

Record NewJob := mkNewJob {
  nj_device_id : string;
  nj_target_version : string;
  nj_artifact_url : string;
  nj_sha256 : string;
  nj_size_bytes : Z   (** a [u64] *)
}.

Record JobRecord := mkJob {
  job_id : string;
  job_device_id : string;
  job_target_version : string;
  job_artifact_url : string;
  job_sha256 : string;
  job_size_bytes : Z;
  job_status : JobStatus.t;
  job_error_message : option string;
  job_created_at : string
}.

#[export] Instance JobRecord_eq_dec : EqDecision JobRecord.
Proof. solve_decision. Defined.

(** ** The table *)

(** A row of [update_jobs] without its primary key; [size_bytes] is the
    signed integer SQLite stores. *)
Record JobRow := mkJobRow {
  r_device_id : string;
  r_target_version : string;
  r_artifact_url : string;
  r_sha256 : string;
  r_size_bytes : Z;
  r_status : string;
  r_error_message : option string;
  r_created_at : string;
  r_updated_at : string
}.

Abbreviation Jobs := (gmap string JobRow).

Definition row_to_record (r : string * JobRow) : JobRecord :=
  let '(i, row) := r in
  mkJob i (r_device_id row) (r_target_version row) (r_artifact_url row) (r_sha256 row)
    (wrap_u64 (r_size_bytes row))
    (default JobStatus.Pending (JobStatus.from_str (r_status row)))
    (r_error_message row) (r_created_at row).

(** [status IN ('pending','in_progress')]. *)
Definition active (row : JobRow) : Prop :=
  r_status row = "pending" \/ r_status row = "in_progress".
#[export] Instance active_dec row : Decision (active row).
Proof. unfold active. apply _. Defined.

(** [WHERE device_id = ? AND status IN ('pending','in_progress')]. *)
Definition active_for (d : string) (r : string * JobRow) : Prop :=
  r_device_id r.2 = d /\ active r.2.
#[export] Instance active_for_dec d r : Decision (active_for d r).
Proof. unfold active_for. apply _. Defined.

(** [WHERE device_id = ?1 AND (?2 IS NULL OR created_at < ?2)]: text is
    compared bytewise. *)
Definition older_for (d : string) (cursor : option string) (r : string * JobRow) : Prop :=
  r_device_id r.2 = d /\
  match cursor with
  | Some x => String.le (r_created_at r.2) x /\ r_created_at r.2 <> x
  | None => True
  end.
#[export] Instance older_for_dec d cursor r : Decision (older_for d cursor r).
Proof. unfold older_for. destruct cursor; apply _. Defined.

Definition oldest_first (r1 r2 : string * JobRow) : Prop :=
  String.le (r_created_at r1.2) (r_created_at r2.2).
Definition newest_first (r1 r2 : string * JobRow) : Prop :=
  String.le (r_created_at r2.2) (r_created_at r1.2).
#[export] Instance oldest_first_dec : RelDecision oldest_first.
Proof. intros r1 r2. unfold oldest_first. apply _. Defined.
#[export] Instance newest_first_dec : RelDecision newest_first.
Proof. intros r1 r2. unfold newest_first. apply _. Defined.

(** ** [SqliteJobStore] *)

Module JobStore.
Abbreviation Db := (Mutex Jobs).

Section ops.
Context `{SqlOrder, BuildProfile} (env : Env).

(** [self.conn.lock().unwrap()]. *)
Definition locked {A} (body : ST (Conn Jobs) OtaErr.Error A) : ST Db OtaErr.Error A :=
  with_lock Panic body.

Definition db {A} (m : sql Jobs A) : ST (Conn Jobs) OtaErr.Error A := st_map_err OtaErr.Db m.

(** [INSERT INTO update_jobs (...)]: the other columns take their defaults. *)
Definition insert_job (i : string) (job : NewJob) (t : Jobs) :
  outcome RusqliteError (unit * Jobs) :=
  match t !! i with
  | Some _ => Err (SqliteFailure ConstraintViolation)
  | None =>
      Ok (tt, <[i := mkJobRow (nj_device_id job) (nj_target_version job)
                       (nj_artifact_url job) (nj_sha256 job)
                       (wrap_i64 (nj_size_bytes job)) "pending" None
                       (sql_now env) (sql_now env)]> t)
  end.

(** [UPDATE update_jobs SET status, error_message, updated_at WHERE id = ?]. *)
Definition set_status (i : string) (s : string) (error : option string) (t : Jobs) :
  outcome RusqliteError (nat * Jobs) :=
  match t !! i with
  | Some r =>
      Ok (1, <[i := mkJobRow (r_device_id r) (r_target_version r) (r_artifact_url r)
                      (r_sha256 r) (r_size_bytes r) s error (r_created_at r)
                      (sql_now env)]> t)
  | None => Ok (0, t)
  end.

(** Any error is reported as [NotFound]. *)
Definition get_job_with_conn (n : nat) (i : string) : ST (Conn Jobs) OtaErr.Error JobRecord :=
  st_map_err (fun _ => OtaErr.NotFound i)
    (query_row env n (fun t => row_to_record ∘ pair i <$> t !! i)).

Definition create_job (job : NewJob) : ST Db OtaErr.Error JobRecord :=
  locked (
    n ← db (query env 0 (fun t =>
          Ok (length (filter (active_for (nj_device_id job)) (map_to_list t)))));
    if decide (0 < n) then st_err OtaErr.AlreadyPending
    else
      let id := fresh_uuid env in
      _ ← db (statement env 1 (insert_job id job));
      get_job_with_conn 2 id).

Definition get_pending_for_device (d : string) : ST Db OtaErr.Error (option JobRecord) :=
  locked (
    rows ← db (query env 0 (fun t =>
             Ok (limit_rows 1 (order_by env 0 oldest_first
                   (filter (active_for d) (map_to_list t))))));
    mret (row_to_record <$> head rows)).

Definition update_status (i : string) (s : JobStatus.t) (error : option string) :
  ST Db OtaErr.Error unit :=
  locked (
    updated ← db (statement env 0 (set_status i (JobStatus.as_str s) error));
    if decide (updated = 0) then st_err (OtaErr.NotFound i) else mret tt).

(** Rows that cannot be fetched are dropped. *)
Definition list_for_device (d : string) (limit : Z) (cursor : option string) :
  ST Db OtaErr.Error (list JobRecord * option string) :=
  locked (
    fetch ← st_lift (i64_arith (limit + 1));
    _ ← db (prepare env 0);
    items ← query_map env 1 (fun t =>
              limit_rows fetch (order_by env 1 newest_first
                (filter (older_for d cursor) (map_to_list t))));
    let records := row_to_record <$> omap ok_opt items in
    next_cursor ←
      (if (limit <? wrap_i64 (Z.of_nat (length records)))%Z
       then at_ ← st_lift (u64_arith (wrap_u64 limit - 1));
            mret (job_created_at <$> get_at records at_)
       else mret None);
    mret (take_at (wrap_u64 limit) records, next_cursor)).
End ops.

(** [SqliteJobStore::new] on a file that holds [t]. *)
Definition new (t : Jobs) : Db := new_mutex t.

(** The store after a restart of the process. *)
Definition reopen (s : Db) : Db := new (durable (guarded s)).
End JobStore.
