(* ===== verification/OtaDispatcher.v ===== *)
(** * The OTA dispatcher

    [src/ota-service/src/dispatcher/mod.rs].  The broadcast channels are those
    of tokio: [BroadcastLib] is their interface and [BroadcastSpec] what is
    documented of them; [queue_broadcast] is a channel kept as queues. *)

From S2P Require Import Prelude Grpc OtaStore.

(** ** Broadcast channels *)

(** A channel of messages [M]; receivers are named by numbers. *)
Class BroadcastLib (M : Type) := {
  Chan : Type;
  channel : nat -> Chan;                 (** the sender of a new channel *)
  chan_subscribe : Chan -> nat * Chan;
  receiver_count : Chan -> nat;
  chan_send : M -> Chan -> outcome M nat * Chan;
  (* one poll: nothing yet, a message, or how many were missed *)
  chan_recv : nat -> Chan -> option (outcome nat M) * Chan;
  chan_drop : nat -> Chan -> Chan
}.

(** What a receiver has ahead of it: the number of messages it missed, and the
    messages still held for it. *)
Abbreviation Backlog M := (nat * list M)%type.

(** A message arrives; at most [cap] are held. *)
Definition push {M} (cap : nat) (m : M) (b : Backlog M) : Backlog M :=
  let l := b.2 ++ [m] in (b.1 + (length l - cap), drop (length l - cap) l).

Class BroadcastSpec (M : Type) `{BroadcastLib M} := {
  backlog : Chan -> gmap nat (Backlog M);  (** of each receiver *)
  capacity : Chan -> nat;

  (** tokio rounds the capacity up to a power of two. *)
  channel_backlog k :
    backlog (channel (2 ^ k)) = ∅ /\ capacity (channel (2 ^ k)) = (2 ^ k)%nat;
  subscribe_backlog c i c' : chan_subscribe c = (i, c') ->
    backlog c !! i = None /\ backlog c' = <[i := (0, [])]> (backlog c) /\
    capacity c' = capacity c;
  receiver_count_backlog c : receiver_count c = size (backlog c);
  send_backlog m c : backlog c <> ∅ ->
    exists c', chan_send m c = (Ok (size (backlog c)), c') /\
      backlog c' = push (capacity c) m <$> backlog c /\ capacity c' = capacity c;
  recv_missed i c n l : backlog c !! i = Some (Datatypes.S n, l) ->
    exists c', chan_recv i c = (Some (Err (Datatypes.S n)), c') /\
      backlog c' = <[i := (0, l)]> (backlog c) /\ capacity c' = capacity c;
  recv_message i c m l : backlog c !! i = Some (0, m :: l) ->
    exists c', chan_recv i c = (Some (Ok m), c') /\
      backlog c' = <[i := (0, l)]> (backlog c) /\ capacity c' = capacity c;
  recv_empty i c : backlog c !! i = Some (0, []) -> chan_recv i c = (None, c);
  recv_gone i c : backlog c !! i = None -> chan_recv i c = (None, c);
  drop_backlog i c : backlog (chan_drop i c) = delete i (backlog c) /\
    capacity (chan_drop i c) = capacity c
}.

(** ** A channel as queues *)

Record QueueChan (M : Type) := mkQueueChan {
  q_backlog : gmap nat (Backlog M); q_capacity : nat }.
Arguments mkQueueChan {M} _ _.
Arguments q_backlog {M} _.
Arguments q_capacity {M} _.

Definition queue_recv {M} (i : nat) (c : QueueChan M) :
  option (outcome nat M) * QueueChan M :=
  let set b := mkQueueChan (<[i := b]> (q_backlog c)) (q_capacity c) in
  match q_backlog c !! i with
  | Some (Datatypes.S n, l) => (Some (Err (Datatypes.S n)), set (0, l))
  | Some (0, m :: l) => (Some (Ok m), set (0, l))
  | _ => (None, c)
  end.

Definition queue_broadcast (M : Type) : BroadcastLib M := {|
  Chan := QueueChan M;
  channel n := mkQueueChan ∅ n;
  chan_subscribe c :=
    let i := fresh (dom (q_backlog c)) in
    (i, mkQueueChan (<[i := (0, [])]> (q_backlog c)) (q_capacity c));
  receiver_count c := size (q_backlog c);
  chan_send m c :=
    if decide (q_backlog c = ∅) then (Err m, c)
    else (Ok (size (q_backlog c)),
          mkQueueChan (push (q_capacity c) m <$> q_backlog c) (q_capacity c));
  chan_recv := queue_recv;
  chan_drop i c := mkQueueChan (delete i (q_backlog c)) (q_capacity c)
|}.

(** ** [Dispatcher] *)

Definition CHANNEL_CAPACITY : nat := 8.

Section dispatcher.
Context `{BroadcastLib UpdateCommand}.

(** [senders]: the channel of each device that ever subscribed. *)
Abbreviation Dispatcher := (gmap string Chan).

Definition subscribe (device_id : string) (map : Dispatcher) : nat * Dispatcher :=
  let sender := default (channel CHANNEL_CAPACITY) (map !! device_id) in
  let '(rx, sender') := chan_subscribe sender in
  (rx, <[device_id := sender']> map).

(** A receiver dropped between the count and the send is not represented: the
    two are one step. *)
Definition dispatch (device_id : string) (cmd : UpdateCommand) :
  ST Dispatcher OtaErr.Error Z := fun map =>
  match map !! device_id with
  | None => (Err (OtaErr.NoActiveSubscribers device_id), map)
  | Some sender =>
      let count := receiver_count sender in
      if decide (count = 0) then (Err (OtaErr.NoActiveSubscribers device_id), map)
      else
        let '(_, sender') := chan_send cmd sender in
        (Ok (Z.of_nat count), <[device_id := sender']> map)
  end.

(** One poll of a receiver, and its drop. *)
Definition poll_recv (device_id : string) (rx : nat) (map : Dispatcher) :
  option (outcome nat UpdateCommand) * Dispatcher :=
  match map !! device_id with
  | None => (None, map)
  | Some sender =>
      let '(r, sender') := chan_recv rx sender in (r, <[device_id := sender']> map)
  end.

Definition drop_recv (device_id : string) (rx : nat) (map : Dispatcher) : Dispatcher :=
  alter (chan_drop rx) device_id map.
End dispatcher.

(** ** Lemmas *)

Section dispatcher_lemmas.
Context `{BroadcastSpec UpdateCommand}.
Abbreviation Dispatcher := (gmap string Chan).

(** The backlogs of the receivers of a device. *)
Definition backlogs (d : string) (map : Dispatcher) : gmap nat (Backlog UpdateCommand) :=
  from_option backlog ∅ (map !! d).

(** Every channel has the capacity the dispatcher gives it. *)
Definition capacities (map : Dispatcher) : Prop :=
  forall d c, map !! d = Some c -> capacity c = CHANNEL_CAPACITY.

Lemma subscribe_spec d map rx map' :
  subscribe d map = (rx, map') -> capacities map ->
  backlogs d map !! rx = None /\
  backlogs d map' = <[rx := (0, [])]> (backlogs d map) /\
  (forall d', d' <> d -> backlogs d' map' = backlogs d' map) /\ capacities map'.
Proof.
  unfold subscribe, backlogs. destruct (chan_subscribe _) as [i c] eqn:Hs.
  intros [= <- <-] Hcap. apply subscribe_backlog in Hs as (Hn & Hb & Hc).
  destruct (channel_backlog 3) as [Hb0 Hc0].
  change (2 ^ 3) with CHANNEL_CAPACITY in *.
  rewrite lookup_insert_eq. cbn. destruct (map !! d) as [c0|] eqn:Hd; cbn in *.
  all: rewrite ?Hb0 in *; split; [done|]; split; [done|]; split.
  1, 3: intros d' Hd'; by rewrite lookup_insert_ne.
  all: intros d' c'; rewrite lookup_insert; case_decide; [intros [= <-]|apply Hcap].
  - rewrite Hc. by eapply Hcap.
  - congruence.
Qed.

Lemma dispatch_spec d cmd map r map' :
  dispatch d cmd map = (r, map') -> capacities map ->
  capacities map' /\
  ((backlogs d map = ∅ /\ r = Err (OtaErr.NoActiveSubscribers d) /\ map' = map) \/
   (backlogs d map <> ∅ /\ r = Ok (Z.of_nat (size (backlogs d map))) /\
    backlogs d map' = push CHANNEL_CAPACITY cmd <$> backlogs d map /\
    forall d', d' <> d -> backlogs d' map' = backlogs d' map)).
Proof.
  unfold dispatch, backlogs. destruct (map !! d) as [c|] eqn:Hd; cbn.
  2: { intros [= <- <-]. auto. }
  rewrite receiver_count_backlog. case_decide as Hsz.
  - intros [= <- <-] Hcap. apply map_size_empty_iff in Hsz. auto.
  - rewrite map_size_empty_iff in Hsz.
    destruct (send_backlog cmd c Hsz) as (c' & -> & Hb & Hc). intros [= <- <-] Hcap.
    split.
    + intros d' c''. rewrite lookup_insert. case_decide; [intros [= <-]|apply Hcap].
      rewrite Hc. by eapply Hcap.
    + right. rewrite lookup_insert_eq. cbn. split; [done|]. split; [done|]. split.
      * by rewrite Hb, (Hcap _ _ Hd).
      * intros d' Hd'. by rewrite lookup_insert_ne.
Qed.
End dispatcher_lemmas.

#[export] Program Instance queue_broadcast_spec M : @BroadcastSpec M (queue_broadcast M) := {|
  backlog := q_backlog : @Chan M (queue_broadcast M) -> _;
  capacity := q_capacity : @Chan M (queue_broadcast M) -> _
|}.
Next Obligation. done. Qed.
Next Obligation.
  cbn. intros M c i c' [= <- <-]. split; [|done].
  apply not_elem_of_dom, is_fresh.
Qed.
Next Obligation. done. Qed.
Next Obligation. cbn. intros M m c Hb. rewrite decide_False by done. eauto. Qed.
Next Obligation. cbn. intros M i c n l Hb. unfold queue_recv. rewrite Hb. eauto. Qed.
Next Obligation. cbn. intros M i c m l Hb. unfold queue_recv. rewrite Hb. eauto. Qed.
Next Obligation. cbn. intros M i c Hb. unfold queue_recv. by rewrite Hb. Qed.
Next Obligation.
  cbn. intros M i c Hb. unfold queue_recv.
  by destruct (q_backlog c !! i) as [[[|n] [|m l]]|].
Qed.
Next Obligation. done. Qed.
