(* ===== verification/OtaServer.v ===== *)
(** * The OTA gRPC server

    [src/ota-service/src/server/mod.rs] and the listener of
    [src/ota-service/src/main.rs].  The handlers are trees of job-store and
    dispatcher effects; the transport that holds an update stream polls it and
    drops it when the client goes. *)

From S2P Require Import Prelude Sqlite Async Grpc OtaStore OtaDispatcher.

(** ** Effects *)

Inductive JobCall : Type -> Type :=
| CreateJob (job : NewJob) : JobCall JobRecord
| GetPending (d : string) : JobCall (option JobRecord)
| UpdateJobStatus (i : string) (s : JobStatus.t) (error : option string) : JobCall unit
| ListForDevice (d : string) (limit : Z) (cursor : option string) :
    JobCall (list JobRecord * option string).

Definition job_call `{SqlOrder, BuildProfile} (env : Env) {A} (c : JobCall A) :
  ST (Mutex Jobs) OtaErr.Error A :=
  match c with
  | CreateJob job => JobStore.create_job env job
  | GetPending d => JobStore.get_pending_for_device env d
  | UpdateJobStatus i s e => JobStore.update_status env i s e
  | ListForDevice d l cu => JobStore.list_for_device env d l cu
  end.

Inductive OtaE : Type -> Type :=
| JobE {A} (c : JobCall A) : OtaE (outcome OtaErr.Error A)
| SubscribeE (d : string) : OtaE nat
| DispatchE (d : string) (cmd : UpdateCommand) : OtaE (outcome OtaErr.Error Z)
| PollE (d : string) (rx : nat) : OtaE (option (outcome nat UpdateCommand))
| DropE (d : string) (rx : nat) : OtaE unit.

(** [OtaServer]. *)
Record OtaState `{BroadcastLib UpdateCommand} := mkOta {
  ota_store : Mutex Jobs;
  dispatcher : gmap string Chan
}.
Arguments mkOta {_} _ _.
Arguments ota_store {_} _.
Arguments dispatcher {_} _.

#[export] Instance ota_handler `{SqlOrder, BuildProfile, BroadcastLib UpdateCommand} :
  Handler OtaE OtaState :=
  fun X env e s =>
    match e in OtaE X return X * OtaState with
    | JobE c => let '(r, st) := job_call env c (ota_store s) in (r, mkOta st (dispatcher s))
    | SubscribeE d =>
        let '(rx, m) := subscribe d (dispatcher s) in (rx, mkOta (ota_store s) m)
    | DispatchE d cmd =>
        let '(r, m) := dispatch d cmd (dispatcher s) in (r, mkOta (ota_store s) m)
    | PollE d rx =>
        let '(r, m) := poll_recv d rx (dispatcher s) in (r, mkOta (ota_store s) m)
    | DropE d rx => (tt, mkOta (ota_store s) (drop_recv d rx (dispatcher s)))
    end.

(** A restart opens the database again; the channels are gone. *)
Definition ota_restart `{BroadcastLib UpdateCommand} (s s' : OtaState) : Prop :=
  s' = mkOta (JobStore.reopen (ota_store s)) ∅.

(** ** Handlers *)

Section server.
Context (rusqlite_text : RusqliteError -> string).

Definition to_status (e : OtaErr.Error) : Status :=
  match e with
  | OtaErr.NotFound msg => mkStatus NotFound msg
  | OtaErr.AlreadyPending => mkStatus AlreadyExists "device already has an active job"
  | OtaErr.NoActiveSubscribers i =>
      mkStatus Unavailable ("device " +:+ i +:+ " is not connected")
  | OtaErr.Db e => mkStatus Internal (rusqlite_text e)
  | _ => mkStatus Internal "internal error"
  end.

Definition record_to_proto (r : JobRecord) : UpdateJob :=
  mkUpdateJob (job_id r) (job_device_id r) (job_target_version r)
    (JobStatus.as_str (job_status r)) (job_artifact_url r) None None
    (unwrap_or_default (job_error_message r)).

(** [self.store.m(...).map_err(to_status)?]: no [.await], but other requests
    run between two calls. *)
Definition jobs {A} (c : JobCall A) : Task OtaE Status A :=
  task_map_err to_status (call (JobE c)).

Definition watch_updates (req : WatchUpdatesRequest) : Task OtaE Status (string * nat) :=
  rx ← get Status (SubscribeE (wu_device_id req));
  mret (wu_device_id req, rx).

(** The stream a client holds: [filter_map(|res| res.ok())] on each item. *)
Definition stream_item (item : option (outcome nat UpdateCommand)) : option UpdateCommand :=
  item ≫= ok_opt.

Definition check_update (req : CheckUpdateRequest) : Task OtaE Status CheckUpdateResponse :=
  job ← jobs (GetPending (cu_device_id req));
  mret match job with
       | None => mkCheckResp false "" "" "" 0 ""
       | Some j => mkCheckResp true (job_target_version j) (job_artifact_url j)
                     (job_sha256 j) (job_size_bytes j) (job_id j)
       end.

Definition ack_update (req : AckUpdateRequest) : Task OtaE Status AckUpdateResponse :=
  let status := if au_success req then JobStatus.Completed else JobStatus.Failed in
  _ ← jobs (UpdateJobStatus (au_update_job_id req) status (non_empty (au_error_message req)));
  mret (mkAckResp true).

Definition command_of (job : JobRecord) (apply_by : option Timestamp) : UpdateCommand :=
  mkCommand (job_id job) (job_target_version job) (job_artifact_url job) (job_sha256 job)
    (job_size_bytes job) apply_by.

Definition dispatch_update (req : DispatchUpdateRequest) :
  Task OtaE Status DispatchUpdateResponse :=
  job ← jobs (CreateJob (mkNewJob (du_device_id req) (du_target_version req) "" "" 0));
  _ ← task_map_err to_status
        (call (DispatchE (du_device_id req) (command_of job (du_apply_by req))));
  mret (mkDispatchResp (Some (record_to_proto job))).

(** The page size asked for, 20 if none is. *)
Definition job_page_limit (limit : Z) : Z := if (limit <=? 0)%Z then 20 else limit.

Definition list_update_jobs (req : ListUpdateJobsRequest) :
  Task OtaE Status ListUpdateJobsResponse :=
  '(records, next_cursor) ←
    jobs (ListForDevice (lj_device_id req) (job_page_limit (lj_limit req))
            (non_empty (lj_cursor req)));
  mret (mkListJobsResp (record_to_proto <$> records) (unwrap_or_default next_cursor)).

(** ** The running service *)

(** Requests, and what the transport does to an open stream. *)
Inductive OtaJob :=
| WatchUpdates (req : WatchUpdatesRequest)
| CheckUpdate (req : CheckUpdateRequest)
| AckUpdate (req : AckUpdateRequest)
| DispatchUpdate (req : DispatchUpdateRequest)
| ListUpdateJobs (req : ListUpdateJobsRequest)
| PollStream (d : string) (rx : nat)
| DropStream (d : string) (rx : nat).

Inductive OtaReply :=
| WatchReply (stream : string * nat)
| CheckReply (r : CheckUpdateResponse)
| AckReply (r : AckUpdateResponse)
| DispatchReply (r : DispatchUpdateResponse)
| ListJobsReply (r : ListUpdateJobsResponse)
| StreamItem (m : option UpdateCommand)
| StreamDropped.

Definition ota_reply {A} (f : A -> OtaReply) (t : Task OtaE Status A) :
  Task OtaE Status OtaReply := a ← t; mret (f a).

Definition ota_serve (j : OtaJob) : Task OtaE Status OtaReply :=
  match j with
  | WatchUpdates req => ota_reply WatchReply (watch_updates req)
  | CheckUpdate req => ota_reply CheckReply (check_update req)
  | AckUpdate req => ota_reply AckReply (ack_update req)
  | DispatchUpdate req => ota_reply DispatchReply (dispatch_update req)
  | ListUpdateJobs req => ota_reply ListJobsReply (list_update_jobs req)
  | PollStream d rx => item ← get Status (PollE d rx); mret (StreamItem (stream_item item))
  | DropStream d rx => _ ← get Status (DropE d rx); mret StreamDropped
  end.
End server.
