(* ===== verification/OtaJobs.v ===== *)
(** * Update jobs: one at a time per device

    What the job store does on every branch, the invariant that a device has
    at most one active job, and what follows for the OTA service under any
    interleaving, disconnection, restart and engine fault. *)

From S2P Require Import Prelude Sqlite Async Grpc OtaStore OtaDispatcher OtaServer.

(** ** The invariant *)

Definition one_active (t : Jobs) : Prop :=
  forall i1 i2 r1 r2,
    t !! i1 = Some r1 -> t !! i2 = Some r2 -> active r1 -> active r2 ->
    r_device_id r1 = r_device_id r2 -> i1 = i2.

(** The device has an active job. *)
Definition busy (d : string) (t : Jobs) : Prop :=
  exists i r, t !! i = Some r /\ r_device_id r = d /\ active r.

Lemma count_active_0 d (t : Jobs) :
  length (filter (active_for d) (map_to_list t)) = 0 <-> ~ busy d t.
Proof.
  rewrite length_zero_iff_nil. split.
  - intros Hf (i & r & Hi & Hd & Ha).
    assert ((i, r) ∈ filter (active_for d) (map_to_list t)) as Hin.
    { apply list_elem_of_filter. split; [done|]. by apply elem_of_map_to_list. }
    rewrite Hf in Hin. by apply not_elem_of_nil in Hin.
  - intros Hn. destruct (filter _ _) as [|[i r] l] eqn:Hf; [done|].
    assert ((i, r) ∈ filter (active_for d) (map_to_list t)) as Hin
      by (rewrite Hf; apply list_elem_of_here).
    apply list_elem_of_filter in Hin as [[? ?] ?%elem_of_map_to_list].
    destruct Hn. by exists i, r.
Qed.

#[export] Instance busy_dec d t : Decision (busy d t).
Proof.
  destruct (decide (length (filter (active_for d) (map_to_list t)) = 0)) as [H|H].
  - right. by apply count_active_0.
  - left. destruct (filter _ _) as [|[i r] l] eqn:Hf; [done|].
    assert ((i, r) ∈ filter (active_for d) (map_to_list t)) as Hin
      by (rewrite Hf; apply list_elem_of_here).
    apply list_elem_of_filter in Hin as [[? ?] ?%elem_of_map_to_list]. by exists i, r.
Defined.

(** The row [create_job] inserts. *)
Definition new_row (env : Env) (job : NewJob) : JobRow :=
  mkJobRow (nj_device_id job) (nj_target_version job) (nj_artifact_url job) (nj_sha256 job)
    (wrap_i64 (nj_size_bytes job)) "pending" None (sql_now env) (sql_now env).

Lemma one_active_insert env job t i :
  one_active t -> ~ busy (nj_device_id job) t -> one_active (<[i := new_row env job]> t).
Proof.
  intros Ht Hn i1 i2 r1 r2. rewrite !lookup_insert.
  repeat case_decide; intros; simplify_eq; eauto; destruct Hn; eexists _, _; eauto.
Qed.

Lemma terminal_not_active s r :
  s = JobStatus.Completed \/ s = JobStatus.Failed ->
  r_status r = JobStatus.as_str s -> ~ active r.
Proof. intros [-> | ->] Hr [Ha|Ha]; rewrite Ha in Hr; done. Qed.

Section jobs.
Context `{SqlOrder, BuildProfile}.

Lemma reads_db {A} (m : sql Jobs A) : reads m -> reads (JobStore.db m).
Proof. apply reads_map_err. Qed.
#[local] Hint Resolve reads_db : reads.
Implicit Types (s : Mutex Jobs) (c : Conn Jobs) (t : Jobs).

(** ** The operations *)

(** Between two calls of this store no transaction is ever open. *)
Definition settled (s : Mutex Jobs) : Prop := saved (guarded s) = None.

(** What [create_job] does to the table. *)
Definition create_outcome (env : Env) (job : NewJob) (t t' : Jobs)
    (r : outcome OtaErr.Error JobRecord) : Prop :=
  let row := new_row env job in
  let inserted :=
    ~ busy (nj_device_id job) t /\ t !! fresh_uuid env = None /\
    t' = <[fresh_uuid env := row]> t in
  match r with
  | Ok rec => inserted /\ rec = row_to_record (fresh_uuid env, row)
  | Err OtaErr.AlreadyPending => busy (nj_device_id job) t /\ t' = t
  | Err (OtaErr.NotFound i) => faulty env /\ i = fresh_uuid env /\ inserted
  | Err (OtaErr.Db e) =>
      t' = t /\ (faulty env \/ is_Some (t !! fresh_uuid env))
  | _ => False
  end.

Lemma create_job_conn env job c :
  saved c = None ->
  post (n ← JobStore.db (query env 0 (fun t =>
              Ok (length (filter (active_for (nj_device_id job)) (map_to_list t)))));
        if decide (0 < n) then st_err OtaErr.AlreadyPending
        else
          _ ← JobStore.db (statement env 1 (JobStore.insert_job env (fresh_uuid env) job));
          JobStore.get_job_with_conn env 2 (fresh_uuid env))
    (fun r c' => saved c' = None /\ create_outcome env job (live c) (live c') r) c.
Proof.
  intros Hs. pose proof (roll_back_idle _ Hs) as Hrb.
  apply post_bind, post_map_err, post_query; rewrite ?Hrb; cbn; [by auto..|].
  case_decide as Hn.
  { apply post_err. cbn. split; [done|]. split; [|done].
    destruct (decide (busy (nj_device_id job) (live c))) as [|Hb]; [done|].
    apply count_active_0 in Hb. lia. }
  assert (~ busy (nj_device_id job) (live c)) as Hb by (apply count_active_0; lia).
  apply post_bind, post_map_err, post_statement; rewrite ?Hrb; cbn; [by auto..|].
  unfold JobStore.insert_job.
  destruct (live c !! fresh_uuid env) as [r|] eqn:Hi; cbn; [by eauto 10|].
  apply post_map_err, post_query_row; cbn; rewrite ?Hs; cbn.
  1, 2: intros Hf; (split; [done|]); by eauto 10.
  rewrite lookup_insert_eq. cbn. by eauto 10.
Qed.

Lemma create_job_post env job s :
  settled s ->
  post (JobStore.create_job env job)
    (fun r s' => settled s' /\
       (r = Panic /\ poisoned s = true /\ s' = s \/
        poisoned s' = poisoned s /\
        create_outcome env job (live (guarded s)) (live (guarded s')) r)) s.
Proof.
  intros Hs. apply post_with_lock; [by auto|]. intros Hp. cbn.
  eapply post_mono; [by apply create_job_conn|]. cbn.
  intros r c' [Hc Ho]. split; [done|]. right. split; [|done].
  rewrite Hp. by destruct r as [| |].
Qed.

(** The row an acknowledgement leaves. *)
Definition acked_row (env : Env) (st : JobStatus.t) (error : option string) (r : JobRow) : JobRow :=
  mkJobRow (r_device_id r) (r_target_version r) (r_artifact_url r) (r_sha256 r)
    (r_size_bytes r) (JobStatus.as_str st) error (r_created_at r) (sql_now env).

Definition update_outcome (env : Env) (i : string) (st : JobStatus.t) (error : option string)
    (t t' : Jobs) (r : outcome OtaErr.Error unit) : Prop :=
  match r with
  | Ok _ => exists row, t !! i = Some row /\ t' = <[i := acked_row env st error row]> t
  | Err (OtaErr.NotFound j) => j = i /\ t !! i = None /\ t' = t
  | Err (OtaErr.Db _) => faulty env /\ t' = t
  | _ => False
  end.

Lemma update_status_post env i st error s :
  settled s ->
  post (JobStore.update_status env i st error)
    (fun r s' => settled s' /\
       (r = Panic /\ poisoned s = true /\ s' = s \/
        poisoned s' = poisoned s /\
        update_outcome env i st error (live (guarded s)) (live (guarded s')) r)) s.
Proof.
  intros Hs. apply post_with_lock; [by auto|]. intros Hp. cbn.
  pose proof (roll_back_idle _ Hs) as Hrb.
  apply post_bind, post_map_err, post_statement; rewrite ?Hrb; cbn; rewrite ?Hp; [by auto..|].
  unfold JobStore.set_status.
  destruct (live (guarded s) !! i) as [row|] eqn:Hi; cbn.
  - case_decide; [done|]. apply post_ret. split; [done|]. right. split; [done|]. cbn. eauto.
  - case_decide; [|done]. apply post_err. split; [done|]. right. by cbn.
Qed.

Lemma get_pending_reads env d s :
  settled s ->
  post (JobStore.get_pending_for_device env d)
    (fun r s' => guarded s' = guarded s /\ (r <> Panic -> s' = s)) s.
Proof. intros Hs. apply post_locked_reads; [|done]. reads_tac. Qed.

Lemma list_reads env d limit cu s :
  settled s ->
  post (JobStore.list_for_device env d limit cu)
    (fun r s' => guarded s' = guarded s /\ (r <> Panic -> s' = s)) s.
Proof. intros Hs. apply post_locked_reads; [|done]. unfold prepare. reads_tac. Qed.

(** ** The invariant of the store *)

Definition store_inv (s : Mutex Jobs) : Prop := settled s /\ one_active (live (guarded s)).

(** The server only sets final statuses. *)
Definition terminal {A} (c : JobCall A) : Prop :=
  match c with
  | UpdateJobStatus _ s _ => s = JobStatus.Completed \/ s = JobStatus.Failed
  | _ => True
  end.

Lemma one_active_ack env i st error t row :
  st = JobStatus.Completed \/ st = JobStatus.Failed -> t !! i = Some row ->
  one_active t -> one_active (<[i := acked_row env st error row]> t).
Proof.
  intros Hst Hi Ht i1 i2 r1 r2. rewrite !lookup_insert.
  pose proof (terminal_not_active st (acked_row env st error row) Hst eq_refl).
  repeat case_decide; intros; simplify_eq; naive_solver.
Qed.

Lemma job_call_inv {A} env (c : JobCall A) s :
  terminal c -> store_inv s -> post (job_call env c) (fun _ s' => store_inv s') s.
Proof.
  intros Hterm [Hs Ht]. destruct c as [job|d|i st e|d l cu]; cbn.
  - eapply post_mono; [by apply create_job_post|]. cbn.
    intros r s' [Hs' [(_ & _ & ->)|[_ Ho]]]; [done|]. split; [done|].
    destruct r as [rec|[i| |d|e|st|]|]; cbn in Ho; try done.
    + destruct Ho as [(? & _ & ->) _]. by apply one_active_insert.
    + destruct Ho as (_ & _ & ? & _ & ->). by apply one_active_insert.
    + by destruct Ho as [_ ->].
    + by destruct Ho as [-> _].
  - eapply post_mono; [by apply get_pending_reads|]. cbn. intros r s' [E _].
    unfold store_inv, settled. by rewrite E.
  - eapply post_mono; [by apply update_status_post|]. cbn.
    intros r s' [Hs' [(_ & _ & ->)|[_ Ho]]]; [done|]. split; [done|].
    destruct r as [[]|[j| |d|er|sst|]|]; cbn in Ho; try done.
    + destruct Ho as (row & Hi & ->). by apply one_active_ack.
    + by destruct Ho as (_ & _ & ->).
    + by destruct Ho as [_ ->].
  - eapply post_mono; [by apply list_reads|]. cbn. intros r s' [E _].
    unfold store_inv, settled. by rewrite E.
Qed.
End jobs.
