(* ===== verification/OtaClaims.v ===== *)
(** * Properties of the OTA service

    One active job per device, what a dispatch does, and why a job that could
    not be delivered blocks its device. *)

From S2P Require Import Prelude Sqlite Async Grpc OtaStore OtaDispatcher OtaServer OtaJobs.

(** The effects of the handlers set final statuses only. *)
Definition ota_ok : forall X, OtaE X -> Prop := fun X e =>
  match e with JobE c => terminal c | _ => True end.

(** The environment of every effect is free of faults. *)
Definition calm_envs (envs : nat -> Env) : Prop :=
  forall n x, sql_fault (envs n) x = NoFault.

Section claims.
Context `{SqlOrder, BuildProfile, BroadcastLib UpdateCommand} (rt : RusqliteError -> string).

Abbreviation jobs_of s := (live (guarded (ota_store s))).

Lemma only_jobs {A} (c : JobCall A) : terminal c -> only ota_ok (jobs rt c).
Proof. intros Hc. by apply only_map_err. Qed.

Lemma ota_serve_ok j : only ota_ok (ota_serve rt j).
Proof.
  destruct j as [req|req|req|req|req|d rx|d rx]; cbn -[jobs]; try done.
  all: apply only_task_bind; [|done].
  - by apply only_task_bind; [apply only_jobs|].
  - apply only_task_bind; [|done]. apply only_jobs. destruct (au_success req); [by left|by right].
  - apply only_task_bind; [by apply only_jobs|]. intros job.
    by apply only_task_bind; [apply only_map_err|].
  - apply only_task_bind; [by apply only_jobs|]. by intros [rs nc].
Qed.

Lemma ota_handle_inv X env (e : OtaE X) s x s' :
  ota_ok X e -> handle env e s = (x, s') ->
  store_inv (ota_store s) -> store_inv (ota_store s').
Proof.
  destruct e as [A c|d|d cmd|d rx|d rx]; cbn; intros Hok Hh Hs.
  - destruct (job_call env c (ota_store s)) as [r st] eqn:Hc. simplify_eq. cbn.
    exact (post_run _ _ _ _ _ Hc (job_call_inv env c _ Hok Hs)).
  - by destruct (subscribe _ _); simplify_eq.
  - by destruct (dispatch _ _ _); simplify_eq.
  - by destruct (poll_recv _ _ _); simplify_eq.
  - by simplify_eq.
Qed.

Lemma reopen_inv s : store_inv s -> store_inv (JobStore.reopen s).
Proof. intros [Hs Ht]. split; [done|]. cbn. by rewrite durable_idle. Qed.

(** C7: a device has at most one active update job.  In every state the OTA
    service can reach, under any interleaving of requests, disconnections,
    restarts and engine faults, two jobs that are pending or in progress are
    for different devices. *)
Theorem one_active_job s p :
  store_inv (ota_store s) -> reachable (ota_serve rt) ota_restart s p ->
  forall i1 i2 r1 r2,
    jobs_of (shared p) !! i1 = Some r1 -> jobs_of (shared p) !! i2 = Some r2 ->
    active r1 -> active r2 -> r_device_id r1 = r_device_id r2 -> i1 = i2.
Proof.
  intros Hs Hr. enough (store_inv (ota_store (shared p))) as [_ Ho] by exact Ho.
  revert Hs Hr. apply (reachable_invariant _ _ ota_ok (fun s => store_inv (ota_store s))).
  - apply ota_serve_ok.
  - apply ota_handle_inv.
  - intros s1 s2 ->. apply reopen_inv.
Qed.

(** ** Creating a job *)

(** What [create_job] reports and what it leaves.  On a sound lock and
    under any fault: success is a new pending row that is returned, and the
    device had no active job; [AlreadyPending] means it had one; a database
    error leaves the table; but [NotFound] means the row was inserted and only
    reading it back failed, so the job exists although its caller got an
    error. *)
Lemma create_job_cases env job s r s' :
  settled s -> poisoned s = false -> JobStore.create_job env job s = (r, s') ->
  settled s' /\ poisoned s' = false /\
  let t := live (guarded s) in
  let t' := live (guarded s') in
  let inserted := <[fresh_uuid env := new_row env job]> t in
  match r with
  | Ok rec =>
      ~ busy (nj_device_id job) t /\ t !! fresh_uuid env = None /\ t' = inserted /\
      rec = row_to_record (fresh_uuid env, new_row env job)
  | Err OtaErr.AlreadyPending => busy (nj_device_id job) t /\ t' = t
  | Err (OtaErr.NotFound i) =>
      faulty env /\ i = fresh_uuid env /\ ~ busy (nj_device_id job) t /\
      t' = inserted /\ busy (nj_device_id job) t'
  | Err (OtaErr.Db _) => t' = t /\ (faulty env \/ is_Some (t !! fresh_uuid env))
  | _ => False
  end.
Proof.
  intros Hs Hp Hrun. pose proof (post_run _ _ _ _ _ Hrun (create_job_post env job s Hs)) as Hpost.
  cbn in Hpost. destruct Hpost as [Hs' [(_ & ? & _)|[Hp' Ho]]]; [congruence|].
  split; [done|]. split; [congruence|]. cbn.
  destruct r as [rec|[i| |d|e|st|]|]; cbn in Ho; try done.
  - naive_solver.
  - destruct Ho as (? & ? & ? & ? & ->). repeat split; try done.
    exists (fresh_uuid env), (new_row env job). rewrite lookup_insert_eq.
    by repeat split; left.
Qed.

(** ** Dispatching an update *)

Lemma create_job_calm env job s :
  settled s -> poisoned s = false -> (forall x, sql_fault env x = NoFault) ->
  live (guarded s) !! fresh_uuid env = None ->
  JobStore.create_job env job s =
    if decide (busy (nj_device_id job) (live (guarded s)))
    then (Err OtaErr.AlreadyPending, s)
    else (Ok (row_to_record (fresh_uuid env, new_row env job)),
          mkMutex (open_conn (<[fresh_uuid env := new_row env job]> (live (guarded s)))) false).
Proof.
  intros Hs Hp Hf Hfresh. destruct (JobStore.create_job env job s) as [r s'] eqn:Hrun.
  destruct (post_run _ _ _ _ _ Hrun (create_job_post env job s Hs)) as
    [Hs' [(_ & ? & _)|[Hp' Ho]]]; [congruence|].
  assert (~ faulty env) as Hnf by (intros [x Hx]; by rewrite Hf in Hx).
  destruct s as [[t sv] po], s' as [[t' sv'] po']. unfold settled in *. cbn in *. subst.
  destruct r as [rec|[i| |d|e|st|]|]; cbn in Ho; try done.
  - destruct Ho as [(? & _ & ->) ->]. by case_decide.
  - naive_solver.
  - destruct Ho as [? ->]. by case_decide.
  - rewrite Hfresh in Ho. destruct Ho as [_ [?|[? ?]]]; done.
Qed.

Definition job_of (req : DispatchUpdateRequest) : NewJob :=
  mkNewJob (du_device_id req) (du_target_version req) "" "" 0.
End claims.

Section dispatch.
Context `{SqlOrder, BuildProfile, BroadcastSpec UpdateCommand} (rt : RusqliteError -> string).

(** C26: what [dispatch_update] does, on every branch.  Without faults: a
    device with an active job is refused and nothing changes; otherwise a
    pending job is stored, and if an update stream of the device is open every
    one of its receivers is handed the command, which carries the job id and
    version but no URL, checksum or size; if none is open the answer is
    [Unavailable] although the job stays stored. *)
Theorem dispatch_update_cases req envs s :
  settled (ota_store s) -> poisoned (ota_store s) = false -> capacities (dispatcher s) ->
  calm_envs envs -> live (guarded (ota_store s)) !! fresh_uuid (envs 0) = None ->
  let d := du_device_id req in
  let t := live (guarded (ota_store s)) in
  let row := new_row (envs 0) (job_of req) in
  let stored := mkMutex (open_conn (<[fresh_uuid (envs 0) := row]> t)) false in
  let '(r, s') := run (dispatch_update rt req) envs s in
  if decide (busy d t) then
    r = Err (mkStatus AlreadyExists "device already has an active job") /\ s' = s
  else if decide (backlogs d (dispatcher s) = ∅) then
    r = Err (mkStatus Unavailable ("device " +:+ d +:+ " is not connected")) /\
    s' = mkOta stored (dispatcher s)
  else
    r = Ok (mkDispatchResp (Some (mkUpdateJob (fresh_uuid (envs 0)) d (du_target_version req)
              "pending" "" None None ""))) /\
    ota_store s' = stored /\
    backlogs d (dispatcher s') =
      push CHANNEL_CAPACITY (mkCommand (fresh_uuid (envs 0)) (du_target_version req) "" "" 0
                               (du_apply_by req)) <$> backlogs d (dispatcher s) /\
    (forall d', d' <> d -> backlogs d' (dispatcher s') = backlogs d' (dispatcher s)).
Proof.
  intros Hs Hp Hcap Hcalm Hfresh. cbn.
  change (mkNewJob (du_device_id req) (du_target_version req) "" "" 0) with (job_of req).
  rewrite (create_job_calm (envs 0) (job_of req) (ota_store s)) by done. cbn.
  destruct (decide (busy _ _)) as [Hb|Hb]; cbn.
  { split; [done|]. by destruct s. }
  destruct (dispatch _ _ _) as [r m] eqn:Hd.
  destruct (dispatch_spec _ _ _ _ _ Hd Hcap) as [_ [(Hnone & -> & ->)|(Hsome & -> & Hbk & Hoth)]].
  - by destruct (decide _).
  - destruct (decide _); [done|]. cbn. repeat split; done.
Qed.
End dispatch.

(** ** A job that was not delivered *)

Section blocked.
Context `{SqlOrder, BuildProfile, BroadcastLib UpdateCommand} (rt : RusqliteError -> string).
Context (i d : string).

(** Requests other than an acknowledgement of the job. *)
Definition not_acked (j : OtaJob) : Prop :=
  match j with AckUpdate req => au_update_job_id req <> i | _ => True end.

Definition leaves_job : forall X, OtaE X -> Prop := fun X e =>
  match e with JobE (UpdateJobStatus j _ _) => j <> i | _ => True end.

(** A new job for the device. *)
Definition grants_job : forall X, OtaE X -> X -> bool := fun X e =>
  match e in OtaE X return X -> bool with
  | JobE c =>
      match c in JobCall A return outcome OtaErr.Error A -> bool with
      | CreateJob job => fun r => dec (nj_device_id job = d) && is_ok r
      | _ => fun _ => false
      end
  | _ => fun _ => false
  end.

(** The request dispatched an update to the device, and it succeeded. *)
Definition dispatched_to (j : OtaJob) (r : outcome Status OtaReply) : Prop :=
  match j with
  | DispatchUpdate req => du_device_id req = d /\ is_ok r = true
  | _ => False
  end.

(** The job is stored, for the device, and active. *)
Definition job_waits (s : OtaState) : Prop :=
  settled (ota_store s) /\
  exists row, live (guarded (ota_store s)) !! i = Some row /\ r_device_id row = d /\ active row.

Lemma dispatch_gated j :
  not_acked j -> gated leaves_job grants_job dispatched_to j (ota_serve rt j).
Proof.
  assert (forall t, only leaves_job t -> (forall r, ~ dispatched_to j r) ->
    gated leaves_job grants_job dispatched_to j t) as Hnever.
  { intros t Ht Hw. induction t as [r|X e k IH]; cbn; [apply Hw|].
    destruct Ht as [He Hk]. split; [done|]. intros x. destruct (grants_job X e x); auto. }
  intros Hj. destruct j as [req|req|req|req|req|dv rx|dv rx]; cbn in Hj.
  1-3, 5-7: apply Hnever; [|by intros r []]; cbn; repeat split; try done; by intros [[]|[]|].
  cbn. split; [done|]. destruct (decide (du_device_id req = d)) as [Hd|Hd].
  - rewrite bool_decide_true by done. cbn. intros [job|e|]; cbn.
    + split; [done|]. by intros [].
    + by intros [_ ?].
    + by intros [_ ?].
  - rewrite bool_decide_false by done. cbn.
    intros [job|e|]; cbn; [split; [done|]; intros []; cbn|..]; by intros [? ?].
Qed.

Lemma job_waits_handle X env (e : OtaE X) s x s' :
  leaves_job X e -> handle env e s = (x, s') -> job_waits s ->
  job_waits s' /\ grants_job X e x = false.
Proof.
  intros Hok Hh [Hs (row & Hrow & Hd & Ha)].
  destruct e as [A c|dv|dv cmd|dv rx|dv rx]; cbn in Hh.
  2-5: try (destruct (subscribe _ _)); try (destruct (dispatch _ _ _));
    try (destruct (poll_recv _ _ _)); simplify_eq; (split; [|done]); split; [done|by exists row].
  destruct (job_call env c (ota_store s)) as [r st] eqn:Hc. simplify_eq. unfold job_waits. cbn.
  destruct c as [job|dv|j st' err|dv l cu]; cbn in *.
  - destruct (post_run _ _ _ _ _ Hc (create_job_post env job _ Hs)) as
      [Hs' [(-> & _ & ->)|[_ Ho]]].
    { rewrite andb_false_r. split; [split; [done|by exists row]|done]. }
    assert (busy d (live (guarded (ota_store s)))) as Hbusy by (by exists i, row).
    assert (forall j, live (guarded (ota_store s)) !! j = None -> j <> i) as Hne by congruence.
    destruct x as [rec|[j| |dv|er|sst|]|]; cbn in Ho; try done; rewrite ?andb_false_r.
    + destruct Ho as [(Hnb & Hn & ->) _]. split; [split; [done|]|].
      * exists row. by rewrite lookup_insert_ne by auto.
      * destruct (decide (nj_device_id job = d)) as [E|E]; [by rewrite E in Hnb|].
        by rewrite bool_decide_false.
    + destruct Ho as (_ & _ & _ & Hn & ->). split; [|done]. split; [done|].
      exists row. by rewrite lookup_insert_ne by auto.
    + destruct Ho as [_ ->]. split; [|done]. split; [done|by exists row].
    + destruct Ho as [-> _]. split; [|done]. split; [done|by exists row].
  - destruct (post_run _ _ _ _ _ Hc (get_pending_reads env dv _ Hs)) as [E _].
    unfold settled. rewrite E. split; [|done]. split; [done|by exists row].
  - destruct (post_run _ _ _ _ _ Hc (update_status_post env j st' err _ Hs)) as
      [Hs' [(_ & _ & ->)|[_ Ho]]].
    { split; [|done]. split; [done|by exists row]. }
    split; [|done]. split; [done|]. exists row.
    destruct x as [[]|[j'| |dv|er|sst|]|]; cbn in Ho; try done.
    + destruct Ho as (row' & Hrow' & ->). by rewrite lookup_insert_ne.
    + by destruct Ho as (_ & _ & ->).
    + by destruct Ho as [_ ->].
  - destruct (post_run _ _ _ _ _ Hc (list_reads env dv l cu _ Hs)) as [E _].
    unfold settled. rewrite E. split; [|done]. split; [done|by exists row].
Qed.

(** C27: an update job that no device received blocks every later update of
    its device.  Once a job of the device is active, and as long as no request
    acknowledges that very job, no dispatch to the device succeeds: under any
    interleaving of requests, reconnections of the device, restarts of the
    service and engine faults. *)
Theorem undelivered_job_blocks s p :
  job_waits s ->
  reachable (fun j : {j | not_acked j} => ota_serve rt (proj1_sig j)) ota_restart s p ->
  forall n j r, (n, j, r) ∈ replies p -> ~ dispatched_to (proj1_sig j) r.
Proof.
  apply (never_won _ _ leaves_job grants_job (fun j => dispatched_to (proj1_sig j))).
  - intros [j Hj]. cbn. pose proof (dispatch_gated j Hj) as Hg. revert Hg.
    generalize (ota_serve rt j) as t. induction t as [r|X e k IH]; cbn; [done|].
    intros [Hc Hk]. split; [done|]. intros x. specialize (Hk x).
    destruct (grants_job X e x); auto.
  - apply job_waits_handle.
  - intros s1 s2 -> [Hs (row & Hrow & Hd & Ha)]. split; [done|]. exists row. cbn.
    by rewrite durable_idle.
Qed.
End blocked.
