(* ===== verification/OtaTypes.v ===== *)
(** * The type of a stored update job

    What every row of [update_jobs] looks like in every state the OTA service
    can reach, and how a row can change: the job's life as a state machine. *)

From S2P Require Import Prelude Sqlite Async Grpc OtaStore OtaDispatcher OtaServer OtaJobs OtaClaims.

(** A row that the handlers can have written: its status is one that
    [JobStatus::from_str] knows and is not [in_progress], a pending job has no
    error, a completed one neither, and, since [dispatch_update] creates every
    job without them, it has no URL, no digest and no size. *)
Record well_typed (r : JobRow) : Prop := {
  wt_status : exists st, JobStatus.from_str (r_status r) = Some st /\ st <> JobStatus.InProgress;
  wt_pending : r_status r = "pending" -> r_error_message r = None;
  wt_bare : r_artifact_url r = "" /\ r_sha256 r = "" /\ r_size_bytes r = 0%Z
}.

Definition finished (r : JobRow) : Prop := r_status r = "completed" \/ r_status r = "failed".

(** What a job is never loses: what was asked for; and a finished job stays
    finished. *)
Record becomes (r r' : JobRow) : Prop := {
  same_device : r_device_id r' = r_device_id r;
  same_version : r_target_version r' = r_target_version r;
  same_creation : r_created_at r' = r_created_at r;
  stays_finished : finished r -> finished r'
}.

(** Jobs are never deleted. *)
Definition evolves (t t' : Jobs) : Prop :=
  forall i r, t !! i = Some r -> exists r', t' !! i = Some r' /\ becomes r r'.

#[export] Instance becomes_preorder : PreOrder becomes.
Proof.
  split; [by intros r; split|]. intros r1 r2 r3 [? ? ? ?] [? ? ? ?]. split; [congruence..|auto].
Qed.

#[export] Instance evolves_preorder : PreOrder evolves.
Proof.
  split; [by intros t i r Hi; exists r|]. intros t1 t2 t3 H1 H2 i r Hi.
  destruct (H1 i r Hi) as (r2 & Hi2 & ?), (H2 i r2 Hi2) as (r3 & Hi3 & ?).
  exists r3. split; [done|]. by etrans.
Qed.

Definition all_typed (t : Jobs) : Prop := map_Forall (fun _ => well_typed) t.

Lemma evolves_insert_fresh t i r : t !! i = None -> evolves t (<[i := r]> t).
Proof.
  intros Hi j r' Hj. exists r'. split; [|done]. by rewrite lookup_insert_ne by congruence.
Qed.

Lemma evolves_insert t i r r' : t !! i = Some r -> becomes r r' -> evolves t (<[i := r']> t).
Proof.
  intros Hi Hr j rj Hj. destruct (decide (j = i)) as [->|Hne].
  - exists r'. rewrite lookup_insert_eq. split; [done|]. by simplify_eq.
  - exists rj. by rewrite lookup_insert_ne.
Qed.

(** The job that [dispatch_update] asks for, with nothing but a version. *)
Definition bare_job (job : NewJob) : Prop :=
  nj_artifact_url job = "" /\ nj_sha256 job = "" /\ nj_size_bytes job = 0%Z.

Lemma new_row_typed env job : bare_job job -> well_typed (new_row env job).
Proof.
  intros (Hu & Hd & Hz). split; cbn; [by exists JobStatus.Pending|done|]. by rewrite Hu, Hd, Hz.
Qed.

Lemma finished_status st r :
  st = JobStatus.Completed \/ st = JobStatus.Failed -> r_status r = JobStatus.as_str st -> finished r.
Proof. unfold finished. intros Hst ->. destruct Hst as [-> | ->]; [by left|by right]. Qed.

Lemma acked_row_typed env st error r :
  st = JobStatus.Completed \/ st = JobStatus.Failed -> well_typed r ->
  well_typed (acked_row env st error r) /\ becomes r (acked_row env st error r).
Proof.
  intros Hst [_ _ Hb]. split.
  - split; cbn; [exists st; by destruct Hst as [-> | ->]|by destruct Hst as [-> | ->]|done].
  - split; cbn; [done..|]. intros _. by apply (finished_status st).
Qed.

Section types.
Context `{SqlOrder, BuildProfile}.

(** What the handlers ask of the store. *)
Definition typed_call {A} (c : JobCall A) : Prop :=
  match c with
  | CreateJob job => bare_job job
  | UpdateJobStatus _ s _ => s = JobStatus.Completed \/ s = JobStatus.Failed
  | _ => True
  end.

(** The table of the store is typed, and descends from [t0]. *)
Definition typed_store (t0 : Jobs) (s : Mutex Jobs) : Prop :=
  settled s /\ all_typed (live (guarded s)) /\ evolves t0 (live (guarded s)).

Lemma typed_insert t0 t i r :
  all_typed t -> well_typed r -> evolves t0 t -> evolves t (<[i := r]> t) ->
  all_typed (<[i := r]> t) /\ evolves t0 (<[i := r]> t).
Proof using Type.
  intros Ht Hr Hev Ht'. split; [by apply map_Forall_insert_2|]. by etrans.
Qed.

Lemma job_call_typed {A} t0 env (c : JobCall A) s :
  typed_call c -> typed_store t0 s -> post (job_call env c) (fun _ s' => typed_store t0 s') s.
Proof.
  intros Hc (Hs & Ht & Hev). destruct c as [job|d|i st e|d l cu]; cbn.
  - eapply post_mono; [by apply create_job_post|]. cbn.
    intros r s' [Hs' [(_ & _ & ->)|[_ Ho]]]; [done|]. split; [done|].
    destruct r as [rec|[i| |d|e|st|]|]; cbn in Ho; try done.
    + destruct Ho as [(_ & Hi & ->) _]. apply typed_insert; [done|by apply new_row_typed|done|].
      by apply evolves_insert_fresh.
    + destruct Ho as (_ & _ & _ & Hi & ->). apply typed_insert; [done|by apply new_row_typed|done|].
      by apply evolves_insert_fresh.
    + by destruct Ho as [_ ->].
    + by destruct Ho as [-> _].
  - eapply post_mono; [by apply get_pending_reads|]. cbn. intros r s' [E _].
    unfold typed_store, settled. by rewrite E.
  - eapply post_mono; [by apply update_status_post|]. cbn.
    intros r s' [Hs' [(_ & _ & ->)|[_ Ho]]]; [done|]. split; [done|].
    destruct r as [[]|[j| |d|er|sst|]|]; cbn in Ho; try done.
    + destruct Ho as (row & Hi & ->).
      destruct (acked_row_typed env st e row Hc (Ht _ _ Hi)) as [Hw Hb].
      apply typed_insert; [done..|]. by eapply evolves_insert.
    + by destruct Ho as (_ & _ & ->).
    + by destruct Ho as [_ ->].
  - eapply post_mono; [by apply list_reads|]. cbn. intros r s' [E _].
    unfold typed_store, settled. by rewrite E.
Qed.

Context `{BroadcastLib UpdateCommand} (rt : RusqliteError -> string).

Definition typed_effect : forall X, OtaE X -> Prop := fun X e =>
  match e with JobE c => typed_call c | _ => True end.

Lemma only_typed_jobs {A} (c : JobCall A) : typed_call c -> only typed_effect (jobs rt c).
Proof using Type. intros Hc. by apply only_map_err. Qed.

Lemma ota_serve_typed j : only typed_effect (ota_serve rt j).
Proof using Type.
  destruct j as [req|req|req|req|req|d rx|d rx]; cbn -[jobs]; try done.
  all: apply only_task_bind; [|done].
  - by apply only_task_bind; [apply only_typed_jobs|].
  - apply only_task_bind; [|done]. apply only_typed_jobs. destruct (au_success req); [by left|by right].
  - apply only_task_bind; [by apply only_typed_jobs|]. intros job.
    by apply only_task_bind; [apply only_map_err|].
  - apply only_task_bind; [by apply only_typed_jobs|]. by intros [rs nc].
Qed.

Lemma ota_handle_typed t0 X env (e : OtaE X) s x s' :
  typed_effect X e -> handle env e s = (x, s') ->
  typed_store t0 (ota_store s) -> typed_store t0 (ota_store s').
Proof using Type.
  destruct e as [A c|d|d cmd|d rx|d rx]; cbn; intros Hok Hh Hs.
  - destruct (job_call env c (ota_store s)) as [r st] eqn:Hc. simplify_eq. cbn.
    exact (post_run _ _ _ _ _ Hc (job_call_typed t0 env c _ Hok Hs)).
  - by destruct (subscribe _ _); simplify_eq.
  - by destruct (dispatch _ _ _); simplify_eq.
  - by destruct (poll_recv _ _ _); simplify_eq.
  - by simplify_eq.
Qed.

Lemma reachable_typed s p :
  settled (ota_store s) -> all_typed (live (guarded (ota_store s))) ->
  reachable (ota_serve rt) ota_restart s p ->
  typed_store (live (guarded (ota_store s))) (ota_store (shared p)).
Proof using Type.
  intros Hs Ht Hr.
  assert (typed_store (live (guarded (ota_store s))) (ota_store s)) as Hs0 by done.
  revert Hs0 Hr. generalize (live (guarded (ota_store s))) as t0. intros t0.
  apply (reachable_invariant _ _ typed_effect (fun s => typed_store t0 (ota_store s))).
  - apply ota_serve_typed.
  - apply ota_handle_typed.
  - intros s1 s2 -> (Hs1 & Ht1 & He1). split; [done|]. cbn. by rewrite durable_idle.
Qed.

(** A typed row is read back as it is. *)
Lemma typed_row_reads_back i r :
  well_typed r ->
  JobStatus.as_str (job_status (row_to_record (i, r))) = r_status r /\
  uj_status (record_to_proto (row_to_record (i, r))) = r_status r /\
  r_status r <> "in_progress".
Proof using Type.
  intros [(st & Hst & Hne) _ _]. cbn. rewrite Hst. cbn.
  unfold JobStatus.from_str in Hst. repeat case_decide; simplify_eq; cbn; repeat split; congruence.
Qed.

(** C8: the type of an update job, and its life.  In every state that the
    OTA service reaches from a typed store (an empty one, for instance), under
    any interleaving, disconnection, restart and engine fault, each row holds
    a status that [JobStatus::from_str] knows, so that reading it never falls
    back to [Pending] and the job is reported with the status that is stored; a
    pending job has no error; no job carries a URL, a digest or a size.  The
    status [in_progress] is never stored.  Jobs are never deleted, keep their
    device, version and creation time, and a job that is completed or failed
    never becomes active again. *)
Theorem job_rows_typed s p :
  settled (ota_store s) -> all_typed (live (guarded (ota_store s))) ->
  reachable (ota_serve rt) ota_restart s p ->
  let t := live (guarded (ota_store (shared p))) in
  evolves (live (guarded (ota_store s))) t /\
  forall i r, t !! i = Some r ->
    well_typed r /\
    r_status r = uj_status (record_to_proto (row_to_record (i, r))) /\
    r_status r <> "in_progress" /\
    (active r <-> r_status r = "pending") /\ (finished r <-> ~ active r).
Proof.
  intros Hs Ht Hr t. destruct (reachable_typed s p Hs Ht Hr) as (_ & Htyped & Hev).
  split; [done|]. intros i r Hi. pose proof (Htyped i r Hi) as Hw. split; [done|].
  destruct (typed_row_reads_back i r Hw) as (_ & -> & Hne). split; [done|]. split; [done|].
  destruct Hw as [(st & Hst & Hsne) _ _]. unfold active, finished.
  unfold JobStatus.from_str in Hst. split.
  - split; [by intros [?|?]|by left].
  - split; [by intros [E|E] [E'|E']; rewrite E in E'|]. intros Hna.
    repeat case_decide; simplify_eq; auto; by destruct Hna; auto.
Qed.
End types.
