(* ===== verification/OtaPages.v ===== *)
(** * Listing update jobs

    [SqliteJobStore::list_for_device] and the paging of [list_update_jobs]:
    complete when the jobs of a device have distinct creation times, and
    skipping jobs when they do not. *)

From S2P Require Import Prelude Paging Sqlite Async Grpc OtaStore OtaDispatcher OtaServer.
From S2P Require Import OtaJobs OtaClaims.

Section pages.
Context `{SqlOrder, BuildProfile}.
Implicit Types (s : Mutex Jobs) (t : Jobs).

(** The jobs of a device that [list_for_device] selects, newest first. *)
Definition selected (env : Env) (d : string) (cursor : option string) (t : Jobs) :
  list JobRecord :=
  row_to_record <$> order_by env 1 newest_first (filter (older_for d cursor) (map_to_list t)).

(** The page computed from the rows fetched, one more than asked for. *)
Lemma page_of_fetched (l : list (string * JobRow)) limit (c : Conn Jobs) :
  (0 < limit < i64_max)%Z ->
  let records := row_to_record <$> limit_rows (limit + 1) l in
  post (E := OtaErr.Error)
    (next_cursor ←
      (if (limit <? wrap_i64 (Z.of_nat (length records)))%Z
       then at_ ← st_lift (u64_arith (wrap_u64 limit - 1));
            mret (job_created_at <$> get_at records at_)
       else mret None);
     mret (take_at (wrap_u64 limit) records, next_cursor))
    (fun (r : outcome OtaErr.Error (list JobRecord * option string)) c' =>
       r = Ok (page job_created_at (Z.to_nat limit) (row_to_record <$> l)) /\ c' = c) c.
Proof.
  unfold i64_max. intros Hl. cbn. unfold limit_rows.
  rewrite (proj2 (Z.ltb_ge _ _)) by lia.
  remember (Z.to_nat limit) as n eqn:Hn. replace (Z.to_nat (limit + 1)) with (S n) by lia.
  rewrite (wrap_u64_small limit) by lia. rewrite length_fmap, length_take.
  rewrite wrap_i64_small by lia. unfold page. rewrite length_fmap.
  rewrite take_at_take by lia. rewrite <- Hn, <- !fmap_take, take_take, Nat.min_l by lia.
  apply post_bind. destruct (limit <? Z.of_nat (S n `min` length l))%Z eqn:Hlt; [apply Z.ltb_lt in Hlt|apply Z.ltb_ge in Hlt].
  - rewrite u64_arith_in by (apply in_u64_spec; lia).
    apply post_bind, post_lift, post_ret, post_ret. split; [|done].
    rewrite decide_True by lia. rewrite get_at_small by lia.
    do 2 f_equal. rewrite last_lookup, length_fmap, length_take.
    replace (Init.Nat.pred (n `min` length l)) with (Z.to_nat (limit - 1)) by lia.
    rewrite !list_lookup_fmap, !lookup_take_lt by lia. done.
  - apply post_ret, post_ret. by rewrite decide_False by lia.
Qed.

(** With a positive limit and no faults it returns one page of the selection. *)
Lemma list_for_device_page env d limit cursor s :
  idle s -> (forall x, sql_fault env x = NoFault) -> (0 < limit < i64_max)%Z ->
  JobStore.list_for_device env d limit cursor s
  = (Ok (page job_created_at (Z.to_nat limit) (selected env d cursor (live (guarded s)))), s).
Proof.
  intros [Hs Hp] Hf Hl.
  assert (~ faulty env) as Hnf by (intros [x Hx]; by rewrite Hf in Hx).
  enough (post (JobStore.list_for_device env d limit cursor)
    (fun r s' => r = Ok (page job_created_at (Z.to_nat limit)
                           (selected env d cursor (live (guarded s)))) /\ s' = s) s) as Hpost.
  { unfold post in Hpost. destruct (JobStore.list_for_device _ _ _ _ s). cbn in Hpost.
    by destruct Hpost as [-> ->]. }
  destruct s as [[t sv] po]. cbn in Hs, Hp. subst.
  apply post_with_lock; [done|]. intros _. apply post_bind, post_lift.
  unfold i64_max in Hl. rewrite i64_arith_in by (apply in_i64_spec; lia).
  apply post_bind, post_map_err, post_prepare; [done..|].
  apply post_bind, post_query_map; [|done]. rewrite omap_ok_opt_Ok.
  eapply post_mono; [by apply page_of_fetched|]. cbn. by intros r c' [-> ->].
Qed.

(** ** The selection after a cursor *)

#[local] Instance newest_first_trans : Transitive newest_first.
Proof. intros r1 r2 r3 H1 H2. unfold newest_first in *. by etrans. Qed.
#[local] Instance newest_first_total : Total newest_first.
Proof. intros r1 r2. apply (total String.le). Qed.

(** The jobs of [d] have distinct creation times. *)
Definition distinct_times (d : string) (t : Jobs) : Prop :=
  NoDup (job_created_at <$> (row_to_record <$> filter (older_for d None) (map_to_list t))).

Lemma selected_sorted env d cursor t :
  StronglySorted (fun j1 j2 => String.le (job_created_at j2) (job_created_at j1))
    (selected env d cursor t).
Proof.
  unfold selected.
  pose proof (order_by_sorted env 1 newest_first (filter (older_for d cursor) (map_to_list t))) as Hs.
  induction Hs as [|[i r] l Hs IH Hall]; cbn; [constructor|]. constructor; [done|].
  rewrite Forall_fmap. eapply Forall_impl; [exact Hall|]. by intros [i' r'].
Qed.

Lemma selected_perm env d cursor t :
  selected env d cursor t ≡ₚ row_to_record <$> filter (older_for d cursor) (map_to_list t).
Proof. unfold selected. by rewrite order_by_perm. Qed.

Lemma selected_distinct env d t :
  distinct_times d t -> NoDup (job_created_at <$> selected env d None t).
Proof. unfold distinct_times. by rewrite selected_perm. Qed.

Lemma selected_ordered env d t :
  distinct_times d t -> ordered job_created_at str_gt (selected env d None t).
Proof.
  intros Hd. eapply sorted_strict; [|apply selected_sorted|by apply selected_distinct].
  intros x y Hxy Hne. by split.
Qed.

(** With distinct times, selecting after a cursor is filtering the whole
    selection, in whichever execution each is made. *)
Lemma selected_after env env2 d k t :
  distinct_times d t ->
  selected env d (Some k) t = after job_created_at str_gt (Some k) (selected env2 d None t).
Proof.
  intros Hd. pose proof (selected_ordered env2 d t Hd) as Ho.
  assert (selected env d (Some k) t ≡ₚ after job_created_at str_gt (Some k) (selected env2 d None t)) as Hperm.
  { cbn. rewrite !selected_perm. induction (map_to_list t) as [|[i r] l IH]; [done|].
    rewrite (filter_cons (older_for d None)), (filter_cons (older_for d (Some k))).
    destruct (decide (older_for d None (i, r))) as [[Hdev _]|Hn]; cbn.
    - destruct (decide (str_gt k (r_created_at r))) as [Hk|Hk].
      + rewrite decide_True by done. cbn. by rewrite IH.
      + rewrite decide_False; [done|]. by intros [_ ?].
    - rewrite decide_False; [done|]. intros [? _]. by destruct Hn. }
  assert (ordered job_created_at str_gt (after job_created_at str_gt (Some k) (selected env2 d None t))) as Ho2.
  { by apply StronglySorted_filter. }
  apply (StronglySorted_unique_strong (fun j1 j2 => String.le (job_created_at j2) (job_created_at j1))).
  - intros x y Hx Hy Hxy Hyx. assert (job_created_at x = job_created_at y) as Ek
      by (by apply (anti_symm String.le)).
    rewrite Hperm in Hx. cbn in Hx, Hy. apply list_elem_of_filter in Hx as [_ Hx], Hy as [_ Hy].
    apply list_elem_of_lookup in Hx as [n1 Hx], Hy as [n2 Hy].
    enough (n1 = n2) as -> by congruence.
    eapply NoDup_lookup; [by apply (selected_distinct env2)|..]; rewrite list_lookup_fmap; [by rewrite Hx|].
    rewrite Hy. cbn. by rewrite Ek.
  - apply selected_sorted.
  - eapply StronglySorted_impl; [|exact Ho2]. by intros x y [? _].
  - done.
Qed.

(** ** The server *)

Context `{BroadcastLib UpdateCommand} (rt : RusqliteError -> string).

(** What a client of [list_update_jobs] is shown at a cursor. *)
Definition job_page_at (env : Env) (d : string) (limit : Z) (s : OtaState)
    (cursor : option string) : list UpdateJob * option string :=
  match (run (list_update_jobs rt (mkListJobsReq d limit (unwrap_or_default cursor)))
           (fun _ => env) s).1 with
  | Ok resp => (lj_jobs resp, non_empty (lj_next_cursor resp))
  | _ => ([], None)
  end.

Lemma job_page_limit_bounds limit :
  in_i32 limit -> (0 < job_page_limit limit < i64_max)%Z.
Proof. unfold in_i32, job_page_limit, i64_max. case_match; lia. Qed.

Lemma non_empty_default (c : option string) :
  (forall k, c = Some k -> k <> "") -> non_empty (unwrap_or_default c) = c.
Proof.
  unfold non_empty. destruct c as [k|]; cbn; intros Hk; [|done].
  by rewrite decide_False by auto.
Qed.

Lemma job_page_at_spec env d limit (s : OtaState) cursor :
  idle (ota_store s) -> (forall x, sql_fault env x = NoFault) -> in_i32 limit ->
  (forall r, r ∈ selected env d cursor (live (guarded (ota_store s))) -> job_created_at r <> "") ->
  (forall k, cursor = Some k -> k <> "") ->
  job_page_at env d limit s cursor =
    let '(rows, next) := page job_created_at (Z.to_nat (job_page_limit limit))
                           (selected env d cursor (live (guarded (ota_store s)))) in
    (map record_to_proto rows, next).
Proof.
  intros Hs Hf Hl Hne Hk. unfold job_page_at. cbn.
  rewrite non_empty_default by done.
  rewrite list_for_device_page by auto using job_page_limit_bounds.
  unfold page. cbn. f_equal. apply non_empty_default. intros k.
  case_decide; [|done]. intros Hl'. apply fmap_Some in Hl' as (x & Hx & ->).
  apply Hne. apply last_Some in Hx as [p Hp]. rewrite <- (take_drop (Z.to_nat (job_page_limit limit))).
  rewrite Hp. set_solver.
Qed.

(** C32: paging through [list_update_jobs] with distinct creation times is
    complete.  From the first page, following [next_cursor] ends after at most
    one page per job and shows every job of the device exactly once, newest
    first, whatever page size the client asks for; each page is asked for in an
    environment of its own. *)
Theorem job_listing_complete (envs : option string -> Env) d limit (s : OtaState) :
  idle (ota_store s) -> (forall c x, sql_fault (envs c) x = NoFault) -> in_i32 limit ->
  let jobs := selected (envs None) d None (live (guarded (ota_store s))) in
  distinct_times d (live (guarded (ota_store s))) ->
  (forall r, r ∈ jobs -> job_created_at r <> "") ->
  walk (fun c => job_page_at (envs c) d limit s c) (S (length jobs)) None = Some (map record_to_proto jobs) /\
  (forall i row, live (guarded (ota_store s)) !! i = Some row -> r_device_id row = d ->
     row_to_record (i, row) ∈ jobs) /\
  StronglySorted (fun j1 j2 => str_gt (job_created_at j1) (job_created_at j2)) jobs.
Proof.
  intros Hs Hf Hl jobs Hd Hne. set (t := live (guarded (ota_store s))) in *.
  pose proof (selected_ordered (envs None) d t Hd) as Ho. split; [|split; [|exact Ho]].
  - rewrite (walk_ext _ (fun c =>
      let p := page job_created_at (Z.to_nat (job_page_limit limit))
                 (after job_created_at str_gt c jobs) in (map record_to_proto p.1, p.2))
      (fun c => cursor_of job_created_at jobs c)).
    + rewrite (walk_fmap record_to_proto (fun c =>
        page job_created_at (Z.to_nat (job_page_limit limit))
          (after job_created_at str_gt c jobs))).
      rewrite (walk_all job_created_at str_gt _ (Z.to_nat (job_page_limit limit)) jobs); try done.
      pose proof (job_page_limit_bounds limit Hl). lia.
    + intros [k|] Hc; [|by rewrite job_page_at_spec by done].
      destruct Hc as (x & Hx & ->).
      rewrite job_page_at_spec; [|done..| |].
      * fold t. by rewrite (selected_after _ (envs None)).
      * fold t. rewrite (selected_after _ (envs None)) by done. intros r [_ Hr]%list_elem_of_filter. by apply Hne.
      * intros k [= <-]. by apply Hne.
    + intros c k Hc. cbn. unfold page. case_decide; [|done].
      intros Hk. apply fmap_Some in Hk as (x & Hx & ->). exists x. split; [|done].
      apply last_Some in Hx as [p Hp].
      assert (x ∈ after job_created_at str_gt c jobs) as Hin.
      { rewrite <- (take_drop (Z.to_nat (job_page_limit limit))), Hp. set_solver. }
      destruct c; [by apply list_elem_of_filter in Hin as [_ ?]|done].
    + done.
  - intros i row Hi Hdev. unfold jobs. rewrite selected_perm.
    apply list_elem_of_fmap. exists (i, row). split; [done|]. apply list_elem_of_filter.
    split; [done|]. by apply elem_of_map_to_list.
Qed.

(** Jobs created in the same second are skipped.  If all jobs of a device
    were created in one second and there are more of them than fit a page, the
    client is shown one page and then told the listing is over: the other
    jobs are on no page. *)
Lemma tied_jobs_skipped env d limit (s : OtaState) k :
  idle (ota_store s) -> (forall x, sql_fault env x = NoFault) -> in_i32 limit ->
  let jobs := selected env d None (live (guarded (ota_store s))) in
  let n := Z.to_nat (job_page_limit limit) in
  k <> "" -> (forall r, r ∈ jobs -> job_created_at r = k) -> n < length jobs ->
  walk (job_page_at env d limit s) 2 None = Some (map record_to_proto (take n jobs)) /\
  length (take n jobs) < length jobs.
Proof.
  intros Hs Hf Hl jobs n Hk Hall Hn. split; [|rewrite length_take; lia].
  pose proof (job_page_limit_bounds limit Hl) as Hb.
  assert (selected env d (Some k) (live (guarded (ota_store s))) = []) as Hnil.
  { destruct (selected env d (Some k) _) as [|r l] eqn:E; [done|]. exfalso.
    assert (r ∈ selected env d (Some k) (live (guarded (ota_store s)))) as Hr by (rewrite E; set_solver).
    rewrite selected_perm in Hr. apply list_elem_of_fmap in Hr as ([i row] & -> & Hin).
    apply list_elem_of_filter in Hin as [[Hd [_ Hc]] Hin]. apply Hc.
    apply (Hall (row_to_record (i, row))). unfold jobs. rewrite selected_perm.
    apply list_elem_of_fmap. exists (i, row). split; [done|]. by apply list_elem_of_filter. }
  cbn. rewrite job_page_at_spec; try done.
  2: { intros r Hr. by rewrite (Hall r Hr). }
  fold jobs n. unfold page. rewrite decide_True by done.
  destruct (last (take n jobs)) as [x|] eqn:Hx.
  2: { apply last_None, (f_equal length) in Hx. rewrite length_take in Hx. cbn in Hx. lia. }
  assert (job_created_at x = k) as Hxk.
  { apply Hall. apply last_Some in Hx as [p Hp]. rewrite <- (take_drop n jobs), Hp. set_solver. }
  cbn. rewrite Hxk, job_page_at_spec; try done.
  - rewrite Hnil. unfold page. rewrite take_nil, decide_False by (cbn; lia).
    cbn. by rewrite app_nil_r.
  - rewrite Hnil. intros r Hr. by apply not_elem_of_nil in Hr.
  - by intros k' [= <-].
Qed.
End pages.
