(* ===== verification/OtaStreams.v ===== *)
(** * Update streams

    What a robot that holds a [watch_updates] stream receives, whatever else
    the dispatcher does meanwhile. *)

From S2P Require Import Prelude Grpc OtaStore OtaDispatcher OtaServer.

(** What happens to the dispatcher. *)
Inductive DispatcherOp :=
| OpSubscribe (d : string)
| OpDispatch (d : string) (cmd : UpdateCommand)
| OpPoll (d : string) (rx : nat)
| OpDrop (d : string) (rx : nat).

#[local] Arguments subscribe : simpl never.
#[local] Arguments dispatch : simpl never.
#[local] Arguments poll_recv : simpl never.
#[local] Arguments drop_recv : simpl never.
#[local] Arguments backlogs : simpl never.

Section streams.
Context `{BroadcastSpec UpdateCommand}.
(** The stream that is watched: a device and one receiver of it. *)
Context (d0 : string) (rx0 : nat).

(** What an observer of the stream has seen. *)
Record Observed := mkObserved {
  senders : gmap string Chan;
  sent : list UpdateCommand;      (** commands dispatched to the device *)
  received : list UpdateCommand;  (** items the stream yielded *)
  lost : nat                      (** commands skipped by the filter on lag *)
}.

Definition observe (o : Observed) (op : DispatcherOp) : Observed :=
  match op with
  | OpSubscribe d =>
      mkObserved (subscribe d (senders o)).2 (sent o) (received o) (lost o)
  | OpDispatch d cmd =>
      mkObserved (dispatch d cmd (senders o)).2
        (if decide (d = d0) then sent o ++ [cmd] else sent o) (received o) (lost o)
  | OpPoll d rx =>
      let '(item, m) := poll_recv d rx (senders o) in
      if decide (d = d0 /\ rx = rx0) then
        mkObserved m (sent o)
          (match stream_item item with
           | Some cmd => received o ++ [cmd] | None => received o end)
          (match item with Some (Err n) => lost o + n | _ => lost o end)
      else mkObserved m (sent o) (received o) (lost o)
  | OpDrop d rx => mkObserved (drop_recv d rx (senders o)) (sent o) (received o) (lost o)
  end.

Definition observe_all (o : Observed) (ops : list DispatcherOp) : Observed :=
  fold_left observe ops o.

(** The stream just after its subscription. *)
Definition fresh_stream (m : gmap string Chan) : Prop :=
  capacities m /\ backlogs d0 m !! rx0 = Some (0, []).

Record stream_inv (o : Observed) : Prop := {
  inv_capacities : capacities (senders o);
  inv_backlog : exists behind held,
    backlogs d0 (senders o) !! rx0 = Some (behind, held) /\
    sublist (received o ++ held) (sent o) /\
    length (sent o) = length (received o) + lost o + behind + length held /\
    length held <= CHANNEL_CAPACITY /\
    (lost o + behind <> 0 -> CHANNEL_CAPACITY < length (sent o))
}.

Lemma backlogs_insert d c m d' :
  backlogs d' (<[d := c]> m) = if decide (d = d') then backlog c else backlogs d' m.
Proof. unfold backlogs. rewrite lookup_insert. by case_decide. Qed.

Lemma capacities_insert d c m :
  capacities m -> capacity c = CHANNEL_CAPACITY -> capacities (<[d := c]> m).
Proof. intros Hm Hc d' c'. rewrite lookup_insert. case_decide; [by intros [= <-]|apply Hm]. Qed.

(** Handing a message to a backlog. *)
Lemma push_spec (m : UpdateCommand) behind held :
  length held <= CHANNEL_CAPACITY ->
  exists behind' held', push CHANNEL_CAPACITY m (behind, held) = (behind', held') /\
    sublist held' (held ++ [m]) /\
    behind' + length held' = behind + length held + 1 /\
    length held' <= CHANNEL_CAPACITY /\
    (behind' <> behind -> length held = CHANNEL_CAPACITY).
Proof.
  intros Hlen. unfold push. cbn. eexists _, _. split; [done|].
  rewrite length_drop, length_app. cbn.
  split; [apply sublist_drop|]. unfold CHANNEL_CAPACITY in *. lia.
Qed.

(** A poll changes the backlog of its own receiver only. *)
Lemma poll_other d rx m item m' :
  poll_recv d rx m = (item, m') -> capacities m -> ~ (d = d0 /\ rx = rx0) ->
  capacities m' /\ backlogs d0 m' !! rx0 = backlogs d0 m !! rx0.
Proof.
  unfold poll_recv. destruct (m !! d) as [c|] eqn:Hc; [|by intros [= <- <-]].
  destruct (chan_recv rx c) as [r c'] eqn:Hr. intros [= <- <-] Hcap Hne.
  assert (capacity c' = capacity c /\ forall j, j <> rx -> backlog c' !! j = backlog c !! j) as [Hc' Hb].
  { destruct (backlog c !! rx) as [[[|n] [|x l]]|] eqn:Hbk.
    - rewrite recv_empty in Hr by done. by simplify_eq.
    - destruct (recv_message _ _ _ _ Hbk) as (c1 & E & Hb & Hk). rewrite E in Hr. simplify_eq.
      split; [done|]. intros j Hj. by rewrite Hb, lookup_insert_ne.
    - destruct (recv_missed _ _ _ _ Hbk) as (c1 & E & Hb & Hk). rewrite E in Hr. simplify_eq.
      split; [done|]. intros j Hj. by rewrite Hb, lookup_insert_ne.
    - destruct (recv_missed _ _ _ _ Hbk) as (c1 & E & Hb & Hk). rewrite E in Hr. simplify_eq.
      split; [done|]. intros j Hj. by rewrite Hb, lookup_insert_ne.
    - rewrite recv_gone in Hr by done. by simplify_eq. }
  split; [apply capacities_insert; [done|]; rewrite Hc'; by eapply Hcap|].
  rewrite backlogs_insert. case_decide as Hd; [|done]. subst d.
  unfold backlogs. rewrite Hc. cbn. apply Hb. naive_solver.
Qed.

(** A poll of the stream takes the oldest held command, or reports the lag. *)
Lemma poll_same m behind held :
  capacities m -> backlogs d0 m !! rx0 = Some (behind, held) ->
  exists item m', poll_recv d0 rx0 m = (item, m') /\ capacities m' /\
    match behind, held with
    | 0, [] => item = None /\ backlogs d0 m' !! rx0 = Some (0, [])
    | 0, x :: l => item = Some (Ok x) /\ backlogs d0 m' !! rx0 = Some (0, l)
    | Datatypes.S n, l => item = Some (Err (Datatypes.S n)) /\ backlogs d0 m' !! rx0 = Some (0, l)
    end.
Proof.
  intros Hcap Hb. unfold poll_recv. unfold backlogs in Hb.
  destruct (m !! d0) as [c|] eqn:Hc; cbn in Hb; [|by rewrite lookup_empty in Hb].
  pose proof (Hcap _ _ Hc) as Hcc.
  destruct behind as [|n]; [destruct held as [|x l]|].
  - rewrite (recv_empty _ _ Hb). eexists _, _. split; [done|].
    split; [by apply capacities_insert|]. by rewrite backlogs_insert, decide_True.
  - destruct (recv_message _ _ _ _ Hb) as (c1 & -> & Hb1 & Hk). eexists _, _. split; [done|].
    split; [apply capacities_insert; [done|congruence]|].
    by rewrite backlogs_insert, decide_True, Hb1, lookup_insert_eq.
  - destruct (recv_missed _ _ _ _ Hb) as (c1 & -> & Hb1 & Hk). eexists _, _. split; [done|].
    split; [apply capacities_insert; [done|congruence]|].
    by rewrite backlogs_insert, decide_True, Hb1, lookup_insert_eq.
Qed.

(** A drop of another receiver leaves the stream. *)
Lemma drop_other d rx m :
  capacities m -> ~ (d = d0 /\ rx = rx0) ->
  capacities (drop_recv d rx m) /\
  backlogs d0 (drop_recv d rx m) !! rx0 = backlogs d0 m !! rx0.
Proof.
  intros Hcap Hne. unfold drop_recv. split.
  - intros d' c'. rewrite lookup_alter. case_decide; [|apply Hcap].
    intros (c & Hc & ->)%fmap_Some. destruct (drop_backlog rx c) as [_ ->]. by eapply Hcap.
  - unfold backlogs. rewrite lookup_alter. case_decide as Hd; [|done]. subst d.
    destruct (m !! d0) as [c|]; cbn; [|done].
    destruct (drop_backlog rx c) as [-> _]. rewrite lookup_delete_ne; naive_solver.
Qed.

Lemma subscribe_other d m :
  capacities m -> is_Some (backlogs d0 m !! rx0) ->
  capacities (subscribe d m).2 /\
  backlogs d0 (subscribe d m).2 !! rx0 = backlogs d0 m !! rx0.
Proof.
  intros Hcap [b Hb]. destruct (subscribe d m) as [rx m'] eqn:Hs.
  destruct (subscribe_spec _ _ _ _ Hs Hcap) as (Hn & Hins & Hoth & Hcap'). split; [done|]. cbn.
  destruct (decide (d0 = d)) as [<-|Hd]; [|by rewrite Hoth].
  rewrite Hins, lookup_insert_ne by congruence. done.
Qed.

Lemma observe_inv o op :
  op <> OpDrop d0 rx0 -> stream_inv o -> stream_inv (observe o op).
Proof.
  intros Hop [Hcap (behind & held & Hb & Hsub & Hlen & Hheld & Hlost)].
  destruct op as [d|d cmd|d rx|d rx]; cbn.
  - destruct (subscribe_other d (senders o) Hcap) as [Hcap' Hb']; [by eauto|].
    split; cbn; [exact Hcap'|]. exists behind, held. split; [by etrans; [exact Hb'|]|done].
  - destruct (dispatch d cmd (senders o)) as [r m'] eqn:Hd.
    destruct (dispatch_spec _ _ _ _ _ Hd Hcap) as [Hcap' [(Hnone & _ & ->)|(_ & _ & Hpush & Hoth)]];
      split; cbn; [done| |done|].
    + case_decide; [subst; by rewrite Hnone, lookup_empty in Hb|]. by exists behind, held.
    + case_decide as Hdd; [subst d|by exists behind, held; rewrite Hoth by congruence].
      destruct (push_spec cmd behind held Hheld) as (b' & h' & Hp & Hs & Hl & Hc & Ho).
      exists b', h'. rewrite Hpush, lookup_fmap, Hb. cbn -[CHANNEL_CAPACITY]. rewrite Hp.
      rewrite length_app. cbn -[CHANNEL_CAPACITY].
      split; [done|]. split; [|split; [lia|split; [done|]]].
      * etrans; [by apply sublist_app|]. rewrite app_assoc. by apply sublist_app.
      * destruct (decide (b' = behind)); lia.
  - destruct (decide (d = d0 /\ rx = rx0)) as [[-> ->]|Hne].
    + destruct (poll_same _ _ _ Hcap Hb) as (item & m' & -> & Hcap' & Hitem).
      split; [done|]. destruct behind as [|n]; [destruct held as [|x l]|];
        destruct Hitem as [-> Hb']; cbn.
      * by exists 0, [].
      * exists 0, l. rewrite <- app_assoc, length_app. cbn in *. by repeat split; try lia.
      * exists 0, held. repeat split; try done; lia.
    + destruct (poll_recv d rx (senders o)) as [item m'] eqn:Hp.
      destruct (poll_other _ _ _ _ _ Hp Hcap Hne) as [Hcap' Hb'].
      split; cbn; [exact Hcap'|]. exists behind, held. split; [by etrans; [exact Hb'|]|done].
  - destruct (drop_other d rx (senders o) Hcap) as [Hcap' Hb']; [naive_solver|].
    split; cbn; [exact Hcap'|]. exists behind, held. split; [by etrans; [exact Hb'|]|done].
Qed.

(** C16: what an update stream delivers.  From its subscription on, whatever
    commands are dispatched and whatever other streams open, are polled or
    close, the commands a stream has yielded followed by those held for it are
    the commands dispatched to its device, in order and without duplicates,
    less those lost to lag; every command is accounted for, at most eight are
    held, and nothing is lost before the ninth. *)
Theorem stream_delivery m ops :
  fresh_stream m -> OpDrop d0 rx0 ∉ ops ->
  let o := observe_all (mkObserved m [] [] 0) ops in
  exists behind held,
    backlogs d0 (senders o) !! rx0 = Some (behind, held) /\
    sublist (received o ++ held) (sent o) /\
    length (sent o) = length (received o) + lost o + behind + length held /\
    length held <= 8 /\
    (lost o + behind = 0 -> received o ++ held = sent o) /\
    (length (sent o) <= 8 -> lost o + behind = 0).
Proof.
  intros [Hcap Hb] Hops o.
  assert (stream_inv o) as [_ (behind & held & Hb' & Hsub & Hlen & Hheld & Hlost)].
  { assert (stream_inv (mkObserved m [] [] 0)) as Hinit.
    { split; [done|]. exists 0, []. cbn. repeat split; try done; lia. }
    unfold o. clear o. revert Hinit. generalize (mkObserved m [] [] 0) as o.
    induction ops as [|op ops IH]; intros o Ho; cbn; [done|].
    apply IH; [set_solver|]. apply observe_inv; [set_solver|done]. }
  exists behind, held. repeat split; try done.
  - intros Hz. apply sublist_full; [done|]. rewrite length_app. lia.
  - intros Hs. unfold CHANNEL_CAPACITY in Hlost. lia.
Qed.
End streams.
