(* ===== verification/OtaExamples.v ===== *)
(** * Worked examples of the OTA service

    The properties of [OtaClaims], [OtaPages] and [OtaStreams] at concrete
    stores, streams and schedules. *)

From stdpp Require Import pretty.
From S2P Require Import Prelude Paging Sqlite Async Grpc OtaStore OtaDispatcher OtaServer.
From S2P Require Import OtaJobs OtaClaims OtaTypes OtaPages OtaStreams ToyPki.

Section examples.
#[local] Instance release : BuildProfile := false.
#[local] Existing Instance stable_order.
#[local] Instance queues : BroadcastLib UpdateCommand := queue_broadcast UpdateCommand.

Definition empty_ota : OtaState := mkOta (JobStore.new ∅) ∅.

Definition update_request (version : string) : DispatchUpdateRequest :=
  mkDispatchReq "dev-1" version "artifact" None.

(** Two operators update the same device at once; the second request creates
    its job first. *)
Definition dispatch_race : list action :=
  [Request (DispatchUpdate (update_request "v2")); Request (DispatchUpdate (update_request "v3"));
   Resume 1 (toy_env 100 "job-1"); Resume 0 (toy_env 100 "job-0");
   Resume 1 (toy_env 101 "u"); Answer 0; Answer 1].

Definition raced : Pool OtaE OtaState OtaJob (outcome Status OtaReply) :=
  exec (ota_serve toy_text) empty_ota dispatch_race.

Lemma one_active_job_witness :
  map_to_list (live (guarded (ota_store (shared raced)))) =
    [("job-1", new_row (toy_env 100 "job-1") (job_of (update_request "v3")))] /\
  forall i r, live (guarded (ota_store (shared raced))) !! i = Some r -> active r ->
    r_device_id r = "dev-1" -> i = "job-1".
Proof.
  split; [reflexivity|]. intros i r Hi Ha Hd.
  apply (one_active_job toy_text empty_ota raced) with r
    (new_row (toy_env 100 "job-1") (job_of (update_request "v3"))).
  - split; [reflexivity|]. intros i1 i2 r1 r2 H1. change ((∅ : Jobs) !! i1 = Some r1) in H1.
    by rewrite lookup_empty in H1.
  - apply exec_reachable.
  - exact Hi.
  - reflexivity.
  - exact Ha.
  - left. reflexivity.
  - exact Hd.
Defined.

(** A dispatched job is acknowledged as failed. *)
Definition failing_job : list action :=
  [Request (WatchUpdates (mkWatchReq "dev-1")); Resume 0 (toy_env 100 "u"); Answer 0;
   Request (DispatchUpdate (update_request "v2")); Resume 1 (toy_env 100 "job-1");
   Resume 1 (toy_env 101 "u"); Answer 1;
   Request (AckUpdate (mkAckReq "dev-1" "job-1" "v2" false "no space")); Resume 2 (toy_env 102 "u"); Answer 2].

Lemma job_rows_typed_witness :
  let p := exec (ota_serve toy_text) empty_ota failing_job in
  exists r, live (guarded (ota_store (shared p))) !! "job-1" = Some r /\
    r_status r = "failed" /\ well_typed r /\ ~ active r.
Proof.
  intros p.
  assert (exists r, live (guarded (ota_store (shared p))) !! "job-1" = Some r /\ r_status r = "failed")
    as (r & Hr & Hf) by (eexists; split; reflexivity).
  destruct (job_rows_typed toy_text empty_ota p) as [_ Hrows].
  - reflexivity.
  - intros i x Hi. change ((∅ : Jobs) !! i = Some x) in Hi. by rewrite lookup_empty in Hi.
  - apply exec_reachable.
  - destruct (Hrows "job-1" r Hr) as (Hw & _ & _ & _ & Hfin).
    exists r. split; [exact Hr|]. split; [exact Hf|]. split; [exact Hw|]. apply Hfin. by right.
Defined.

(** The read-back of a new job fails. *)
Definition third_fails : site -> fault := fun x =>
  match x with AtStmt 2 => StmtFault | _ => NoFault end.

Lemma create_job_cases_witness :
  let env := toy_env_f 100 "job-1" third_fails in
  let s := JobStore.new ∅ in
  let '(r, s') := JobStore.create_job env (job_of (update_request "v2")) s in
  r = Err (OtaErr.NotFound "job-1") /\ busy "dev-1" (live (guarded s')).
Proof.
  intros env s. destruct (JobStore.create_job env _ s) as [r s'] eqn:Hrun.
  assert (r = Err (OtaErr.NotFound "job-1")) as Hr.
  { change r with (r, s').1. rewrite <- Hrun. reflexivity. }
  split; [exact Hr|].
  destruct (create_job_cases env (job_of (update_request "v2")) s r s') as (_ & _ & Hc);
    [reflexivity|reflexivity|exact Hrun|].
  rewrite Hr in Hc. apply Hc.
Defined.

(** No robot is connected: the answer is an error, and the job stays. *)
Lemma dispatch_update_cases_witness :
  let '(r, s') :=
    run (dispatch_update toy_text (update_request "v2")) (fun n => toy_env 100 "job-1") empty_ota in
  r = Err (mkStatus Unavailable "device dev-1 is not connected") /\
  s' = mkOta (mkMutex (open_conn (<["job-1" :=
         new_row (toy_env 100 "job-1") (job_of (update_request "v2"))]> ∅)) false) ∅.
Proof.
  refine (dispatch_update_cases toy_text (update_request "v2") (fun n => toy_env 100 "job-1")
            empty_ota _ _ _ _ _); try reflexivity.
  - intros d c Hc. change ((∅ : gmap string Chan) !! d = Some c) in Hc.
    by rewrite lookup_empty in Hc.
  - intros n x. reflexivity.
Defined.

(** The same device comes online and another update is dispatched to it. *)
Definition stuck : OtaState :=
  mkOta (JobStore.new {["job-1" := new_row (toy_env 100 "job-1") (job_of (update_request "v2"))]}) ∅.

Definition later_jobs : list (@action {j | not_acked "job-1" j}) :=
  [Request (exist _ (WatchUpdates (mkWatchReq "dev-1")) I);
   Resume 0 (toy_env 200 "u"); Answer 0;
   Request (exist _ (DispatchUpdate (update_request "v3")) I);
   Resume 1 (toy_env 300 "job-2"); Answer 1].

Definition stuck_pool : Pool OtaE OtaState {j | not_acked "job-1" j} (outcome Status OtaReply) :=
  exec (fun j : {j | not_acked "job-1" j} => ota_serve toy_text (proj1_sig j)) stuck later_jobs.

Lemma undelivered_job_blocks_witness :
  (snd <$> replies stuck_pool) =
    [Err (mkStatus AlreadyExists "device already has an active job");
     Ok (WatchReply ("dev-1", 0))] /\
  forall n j r, (n, j, r) ∈ replies stuck_pool -> ~ dispatched_to "dev-1" (proj1_sig j) r.
Proof.
  split; [reflexivity|].
  apply (undelivered_job_blocks toy_text "job-1" "dev-1" stuck stuck_pool).
  - split; [reflexivity|].
    exists (new_row (toy_env 100 "job-1") (job_of (update_request "v2"))).
    split; [reflexivity|]. split; [reflexivity|]. left. reflexivity.
  - apply exec_reachable.
Defined.

(** Two finished jobs, a day apart and in the same second. *)
Definition done_row (version created : string) : JobRow :=
  mkJobRow "dev-1" version "" "" 0 "failed" None created created.

Definition two_days : OtaState :=
  mkOta (JobStore.new {["a" := done_row "v1" "2024-01-01"; "b" := done_row "v2" "2024-01-02"]}) ∅.
Definition same_second : OtaState :=
  mkOta (JobStore.new {["a" := done_row "v1" "2024-01-01"; "b" := done_row "v2" "2024-01-01"]}) ∅.

Lemma job_listing_complete_witness :
  walk (fun c => job_page_at toy_text (toy_env 0 "") "dev-1" 1 two_days c) 3 None =
    Some (map record_to_proto [row_to_record ("b", done_row "v2" "2024-01-02");
                               row_to_record ("a", done_row "v1" "2024-01-01")]).
Proof.
  refine (proj1 (job_listing_complete toy_text (fun _ => toy_env 0 "") "dev-1" 1 two_days _ _ _ _ _)).
  - split; reflexivity.
  - intros c x. reflexivity.
  - split; reflexivity || lia.
  - change (NoDup ["2024-01-01"; "2024-01-02"]). apply (bool_decide_unpack _). exact I.
  - assert (Forall (fun r => job_created_at r <> "")
      (selected (toy_env 0 "") "dev-1" None (live (guarded (ota_store two_days))))) as Hall.
    { apply (bool_decide_unpack _). exact I. }
    rewrite Forall_forall in Hall. exact Hall.
Defined.

Lemma tied_jobs_skipped_witness :
  exists j, walk (job_page_at toy_text (toy_env 0 "") "dev-1" 1 same_second) 2 None = Some [j] /\
    length (selected (toy_env 0 "") "dev-1" None (live (guarded (ota_store same_second)))) = 2.
Proof.
  exists (record_to_proto (row_to_record ("a", done_row "v1" "2024-01-01"))).
  split; [|reflexivity].
  refine (proj1 (tied_jobs_skipped toy_text (toy_env 0 "") "dev-1" 1 same_second "2024-01-01"
                   _ _ _ _ _ _)).
  - split; reflexivity.
  - intros x. reflexivity.
  - split; reflexivity || lia.
  - discriminate.
  - assert (Forall (fun r => job_created_at r = "2024-01-01")
      (selected (toy_env 0 "") "dev-1" None (live (guarded (ota_store same_second))))) as Hall.
    { apply (bool_decide_unpack _). exact I. }
    rewrite Forall_forall in Hall. exact Hall.
  - apply (bool_decide_unpack _). exact I.
Defined.

(** A stream that is read once, then falls nine commands behind. *)
Definition subscribed : gmap string Chan := (subscribe "dev-1" ∅).2.

Definition command (n : nat) : UpdateCommand := mkCommand (pretty n) "v" "" "" 0 None.

Definition burst : list DispatcherOp :=
  OpDispatch "dev-1" (command 0) :: OpPoll "dev-1" 0 :: OpSubscribe "dev-1" ::
  map (fun n => OpDispatch "dev-1" (command n)) (seq 1 9) ++ [OpPoll "dev-1" 0; OpPoll "dev-1" 0].

Lemma stream_delivery_witness :
  let o := observe_all "dev-1" 0 (mkObserved subscribed [] [] 0) burst in
  received o = [command 0; command 2] /\ lost o = 1 /\
  exists behind held, backlogs "dev-1" (senders o) !! 0 = Some (behind, held) /\
    sublist (received o ++ held) (sent o) /\
    length (sent o) = length (received o) + lost o + behind + length held.
Proof.
  intros o. split; [reflexivity|]. split; [reflexivity|].
  destruct (stream_delivery "dev-1" 0 subscribed burst) as (behind & held & Hb & Hs & Hl & _).
  - split; [|reflexivity]. intros d c Hc. unfold subscribed in Hc.
    destruct (decide (d = "dev-1")) as [->|Hd].
    + injection Hc as <-. reflexivity.
    + change ((<["dev-1" := (chan_subscribe (channel CHANNEL_CAPACITY)).2]> (∅ : gmap string Chan))
                !! d = Some c) in Hc.
      by rewrite lookup_insert_ne, lookup_empty in Hc.
  - intros Hin. repeat (apply elem_of_cons in Hin as [Hin|Hin]; [discriminate|]).
    by apply not_elem_of_nil in Hin.
  - exists behind, held. split; [exact Hb|]. split; [exact Hs|exact Hl].
Defined.
End examples.
