(* ===== verification/ArtifactStore.v ===== *)
(** * The artifact registry and the object store

    [src/artifact-store/src/registry/mod.rs], [src/artifact-store/src/storage/mod.rs]
    and [src/artifact-store/src/error.rs]: the [Registry] trait and its SQLite
    implementation, the [ObjectStore] trait and its S3 implementation over the
    client library. *)

From S2P Require Import Prelude Sqlite.

Module ArtErr.
Inductive Error :=
| NotFound (what : string)
| VersionConflict (model version : string)
| Db (e : RusqliteError)
| Storage (e : string)
| ChecksumMismatch (expected actual : string).

(** The [#[error(...)]] texts. *)
Definition to_string (rusqlite_text : RusqliteError -> string) (e : Error) : string :=
  match e with
  | NotFound w => "not found: " +:+ w
  | VersionConflict m v => "version already exists: " +:+ m +:+ "@" +:+ v
  | Db e => "database error: " +:+ rusqlite_text e
  | Storage e => "storage error: " +:+ e
  | ChecksumMismatch x a => "checksum mismatch: expected " +:+ x +:+ ", got " +:+ a
  end.
End ArtErr.

(** ** Domain types *)

Record NewArtifact := mkNewArtifact {
  na_model : string;
  na_version : string;
  na_sha256 : string;
  na_size_bytes : Z;   (** an [i64] *)
  na_channel : string;
  na_object_key : string;
  na_download_url : string
}.

Record ArtifactRecord := mkArtifact {
  art_id : string;
  art_model : string;
  art_version : string;
  art_sha256 : string;
  art_size_bytes : Z;
  art_channel : string;
  art_object_key : string;
  art_download_url : string;
  art_created_at : Z   (** unix seconds *)
}.

#[export] Instance ArtifactRecord_eq_dec : EqDecision ArtifactRecord.
Proof. solve_decision. Defined.

(** ** [Registry] *)

Class Registry (S : Type) := {
  create : Env -> NewArtifact -> ST S ArtErr.Error ArtifactRecord;
  get : Env -> string -> ST S ArtErr.Error ArtifactRecord;
  get_latest : Env -> forall model channel : string, ST S ArtErr.Error ArtifactRecord;
  list_ : Env -> forall (model channel : string) (limit : Z),
    ST S ArtErr.Error (Datatypes.list ArtifactRecord)
}.

(** ** The SQLite implementation *)

(** The rows of [artifacts] by primary key. *)
Abbreviation Artifacts := (gmap string ArtifactRecord).

Definition artifact_rows (t : Artifacts) : Datatypes.list ArtifactRecord := (map_to_list t).*2.

Definition same_version (m v : string) (a : ArtifactRecord) : Prop :=
  art_model a = m /\ art_version a = v.
#[export] Instance same_version_dec m v a : Decision (same_version m v a).
Proof. unfold same_version. apply _. Defined.

(** [WHERE model = ?1 AND channel = ?2]. *)
Definition in_channel (m ch : string) (a : ArtifactRecord) : Prop :=
  art_model a = m /\ art_channel a = ch.
#[export] Instance in_channel_dec m ch a : Decision (in_channel m ch a).
Proof. unfold in_channel. apply _. Defined.

Definition latest_first (a1 a2 : ArtifactRecord) : Prop :=
  (art_created_at a2 <= art_created_at a1)%Z.
#[export] Instance latest_first_dec : RelDecision latest_first.
Proof. intros a1 a2. unfold latest_first. apply _. Defined.

Module SqliteRegistry.
Abbreviation Db := (Mutex Artifacts).

Section ops.
Context `{SqlOrder} (env : Env).

Definition locked {A} (body : ST (Conn Artifacts) ArtErr.Error A) : ST Db ArtErr.Error A :=
  with_lock (Err (ArtErr.Storage "db mutex poisoned")) body.

Definition db {A} (m : sql Artifacts A) : ST (Conn Artifacts) ArtErr.Error A :=
  st_map_err ArtErr.Db m.

(** [INSERT INTO artifacts]: the primary key and [UNIQUE(model, version)]. *)
Definition insert_artifact (a : ArtifactRecord) (t : Artifacts) :
  outcome RusqliteError (unit * Artifacts) :=
  if decide (is_Some (t !! art_id a) \/
             Exists (same_version (art_model a) (art_version a)) (artifact_rows t))
  then Err (SqliteFailure ConstraintViolation)
  else Ok (tt, <[art_id a := a]> t).

Definition record_of (a : NewArtifact) : ArtifactRecord :=
  mkArtifact (fresh_uuid env) (na_model a) (na_version a) (na_sha256 a) (na_size_bytes a)
    (na_channel a) (na_object_key a) (na_download_url a) (unix_timestamp (clock env)).

Definition create (a : NewArtifact) : ST Db ArtErr.Error ArtifactRecord :=
  let record := record_of a in
  _ ← locked (st_map_err
                (fun e => match e with
                          | SqliteFailure ConstraintViolation =>
                              ArtErr.VersionConflict (na_model a) (na_version a)
                          | other => ArtErr.Db other
                          end)
                (statement env 0 (insert_artifact record)));
  mret record.

Definition or_not_found (what : string) (e : RusqliteError) : ArtErr.Error :=
  match e with QueryReturnedNoRows => ArtErr.NotFound what | other => ArtErr.Db other end.

Definition get (i : string) : ST Db ArtErr.Error ArtifactRecord :=
  locked (st_map_err (or_not_found i) (query_row env 0 (fun t => t !! i))).

(** [WHERE ... ORDER BY created_at DESC], in the [n]-th statement of a call.
    Artifacts of the same second come in an order of their own each time. *)
Definition sorted (n : nat) (m ch : string) (t : Artifacts) : Datatypes.list ArtifactRecord :=
  order_by env n latest_first (filter (in_channel m ch) (artifact_rows t)).

Definition get_latest (m ch : string) : ST Db ArtErr.Error ArtifactRecord :=
  locked (st_map_err (or_not_found (m +:+ "@latest (" +:+ ch +:+ ")"))
            (query_row env 0 (fun t => head (limit_rows 1 (sorted 0 m ch t))))).

Definition list (m ch : string) (limit : Z) :
  ST Db ArtErr.Error (Datatypes.list ArtifactRecord) :=
  locked (
    _ ← db (prepare env 0);
    rows ← query_map env 1 (fun t => limit_rows limit (sorted 1 m ch t));
    st_lift (map_err ArtErr.Db (collect rows))).
End ops.

Definition new (t : Artifacts) : Db := new_mutex t.
Definition reopen (s : Db) : Db := new (durable (guarded s)).
End SqliteRegistry.

#[export] Instance sqlite_registry `{SqlOrder} : Registry (Mutex Artifacts) := {
  create := SqliteRegistry.create;
  get := SqliteRegistry.get;
  get_latest := SqliteRegistry.get_latest;
  list_ := SqliteRegistry.list
}.

(** ** [ObjectStore] *)

Class ObjectStore (O : Type) := {
  presign_upload : O -> forall (key : string) (expires_secs : Z), outcome ArtErr.Error string;
  presign_download : O -> forall (key : string) (expires_secs : Z), outcome ArtErr.Error string;
  object_exists : O -> forall key : string, outcome ArtErr.Error bool
}.

(** The S3 client library. *)
Class S3Lib := {
  S3Client : Type;
  PresigningConfig : Type;
  HeadError : Type;
  expires_in : Z -> outcome string PresigningConfig;
  presigned_put : S3Client -> forall bucket key : string, PresigningConfig ->
    outcome string string;
  presigned_get : S3Client -> forall bucket key : string, PresigningConfig ->
    outcome string string;
  head_object : S3Client -> forall bucket key : string, outcome HeadError unit;
  service_not_found : HeadError -> option bool;
  head_error_text : HeadError -> string
}.

Module Minio.
Section minio.
Context `{S3Lib}.

Record MinioStore := mkMinio { client : S3Client; bucket : string }.

Definition presign_upload (self : MinioStore) (key : string) (secs : Z) :
  outcome ArtErr.Error string :=
  cfg ← map_err ArtErr.Storage (expires_in secs);
  map_err ArtErr.Storage (presigned_put (client self) (bucket self) key cfg).

Definition presign_download (self : MinioStore) (key : string) (secs : Z) :
  outcome ArtErr.Error string :=
  cfg ← map_err ArtErr.Storage (expires_in secs);
  map_err ArtErr.Storage (presigned_get (client self) (bucket self) key cfg).

Definition object_exists (self : MinioStore) (key : string) : outcome ArtErr.Error bool :=
  match head_object (client self) (bucket self) key with
  | Ok _ => Ok true
  | Err e =>
      if default false (service_not_found e) then Ok false
      else Err (ArtErr.Storage (head_error_text e))
  | Panic => Panic
  end.
End minio.
Arguments MinioStore {_}.
End Minio.

#[export] Instance minio_store `{S3Lib} : ObjectStore Minio.MinioStore := {
  presign_upload := Minio.presign_upload;
  presign_download := Minio.presign_download;
  object_exists := Minio.object_exists
}.
