(* ===== verification/ArtifactServer.v ===== *)
(** * The artifact gRPC server

    [src/artifact-store/src/server/mod.rs] and the listener of
    [src/artifact-store/src/main.rs], over any registry and object store. *)

From S2P Require Import Prelude Sqlite Async Grpc ArtifactStore.

(** ** Effects *)

Inductive RegistryCall : Type -> Type :=
| Create (a : NewArtifact) : RegistryCall ArtifactRecord
| Get (i : string) : RegistryCall ArtifactRecord
| GetLatest (m ch : string) : RegistryCall ArtifactRecord
| ListCall (m ch : string) (limit : Z) : RegistryCall (list ArtifactRecord).

Definition registry_call {R} `{Registry R} (env : Env) {A} (c : RegistryCall A) :
  ST R ArtErr.Error A :=
  match c with
  | Create a => create env a
  | Get i => get env i
  | GetLatest m ch => get_latest env m ch
  | ListCall m ch l => list_ env m ch l
  end.

Inductive ArtE : Type -> Type :=
| RegistryE {A} (c : RegistryCall A) : ArtE (outcome ArtErr.Error A)
| PresignUpload (key : string) (secs : Z) : ArtE (outcome ArtErr.Error string).

(** The server's shared objects; the object store answers each call anew. *)
Definition art_handler {R O} `{Registry R, ObjectStore O} (storage : Env -> O) : Handler ArtE R :=
  fun X env e s =>
    match e in ArtE X return X * R with
    | RegistryE c => registry_call env c s
    | PresignUpload key secs => (presign_upload (storage env) key secs, s)
    end.

(** ** Handlers *)

Definition record_to_proto (r : ArtifactRecord) : ArtifactMeta :=
  mkMeta (art_id r) (art_model r) (art_version r) (art_download_url r) (art_sha256 r)
    (wrap_u64 (art_size_bytes r)) (art_channel r)
    (Some (mkTimestamp (art_created_at r) 0)) ∅.

Section server.
Context (rusqlite_text : RusqliteError -> string).

Definition map_err (e : ArtErr.Error) : Status :=
  match e with
  | ArtErr.NotFound msg => mkStatus NotFound msg
  | ArtErr.VersionConflict _ _ => mkStatus AlreadyExists (ArtErr.to_string rusqlite_text e)
  | e => mkStatus Internal (ArtErr.to_string rusqlite_text e)
  end.

Definition registry {A} (c : RegistryCall A) : Task ArtE Status A :=
  task_map_err map_err (call (RegistryE c)).

Definition publish_artifact (req : PublishRequest) : Task ArtE Status PublishResponse :=
  if dec (pr_sha256 req = "") then fail_with (mkStatus InvalidArgument "sha256 cannot be empty")
  else
  record ← registry (Create (mkNewArtifact (pr_model req) (pr_version req) (pr_sha256 req)
                               (wrap_i64 (pr_size_bytes req)) (pr_channel req)
                               (pr_object_key req) ""));
  mret (mkPublishResp (Some (record_to_proto record))).

Definition get_artifact (req : GetArtifactRequest) : Task ArtE Status ArtifactMeta :=
  record ← registry (Get (ga_artifact_id req));
  mret (record_to_proto record).

Definition artifact_limit (limit : Z) : Z := if (0 <? limit)%Z then limit else 50.

Definition list_artifacts (req : ListArtifactsRequest) : Task ArtE Status ListArtifactsResponse :=
  records ← registry (ListCall (la_model req) (la_channel req) (artifact_limit (la_limit req)));
  mret (mkListArtifactsResp (record_to_proto <$> records)).

Definition get_latest (req : GetLatestRequest) : Task ArtE Status ArtifactMeta :=
  record ← registry (GetLatest (gl_model req) (gl_channel req));
  mret (record_to_proto record).

(** [format!("{}/{}/firmware.bin", model, version)]. *)
Definition upload_key (model version : string) : string :=
  model +:+ "/" +:+ version +:+ "/firmware.bin".

Definition generate_upload_url (req : UploadUrlRequest) : Task ArtE Status UploadUrlResponse :=
  let key := upload_key (ur_model req) (ur_version req) in
  url ← task_map_err map_err (call (PresignUpload key 3600));
  mret (mkUploadResp url key).

(** ** The running service *)

Inductive ArtJob :=
| PublishArtifact (req : PublishRequest)
| GetArtifact (req : GetArtifactRequest)
| ListArtifacts (req : ListArtifactsRequest)
| GetLatestRpc (req : GetLatestRequest)
| GenerateUploadUrl (req : UploadUrlRequest).

Inductive ArtReply :=
| PublishReply (r : PublishResponse)
| MetaReply (r : ArtifactMeta)
| ListArtifactsReply (r : ListArtifactsResponse)
| UploadReply (r : UploadUrlResponse).

Definition art_reply {A} (f : A -> ArtReply) (t : Task ArtE Status A) : Task ArtE Status ArtReply :=
  a ← t; mret (f a).

Definition art_serve (j : ArtJob) : Task ArtE Status ArtReply :=
  match j with
  | PublishArtifact req => art_reply PublishReply (publish_artifact req)
  | GetArtifact req => art_reply MetaReply (get_artifact req)
  | ListArtifacts req => art_reply ListArtifactsReply (list_artifacts req)
  | GetLatestRpc req => art_reply MetaReply (get_latest req)
  | GenerateUploadUrl req => art_reply UploadReply (generate_upload_url req)
  end.
End server.
