(* ===== verification/ArtifactClaims.v ===== *)
(** * Properties of the artifact store

    Published artifacts are never changed or lost, versions are unique, what
    was published is what is read back, the latest artifact is the newest of
    its channel, and when upload keys tell versions apart. *)

From Stdlib Require Import Ascii.
From S2P Require Import Prelude Sqlite Async Grpc RustStr ArtifactStore ArtifactServer.

(** ** The invariant of the registry *)

Record registry_wf (t : Artifacts) : Prop := {
  reg_id : forall i a, t !! i = Some a -> art_id a = i;
  reg_version : forall i1 i2 a1 a2, t !! i1 = Some a1 -> t !! i2 = Some a2 ->
    art_model a1 = art_model a2 -> art_version a1 = art_version a2 -> i1 = i2
}.

Lemma artifact_rows_elem (t : Artifacts) a : a ∈ artifact_rows t <-> exists i, t !! i = Some a.
Proof. apply list_fmap_snd_map_to_list_elem. Qed.

Lemma insert_artifact_spec a t :
  match SqliteRegistry.insert_artifact a t with
  | Ok (_, t') =>
      t' = <[art_id a := a]> t /\ t !! art_id a = None /\
      forall i a', t !! i = Some a' -> ~ same_version (art_model a) (art_version a) a'
  | Err e => e = SqliteFailure ConstraintViolation /\
      (is_Some (t !! art_id a) \/
       exists i a', t !! i = Some a' /\ same_version (art_model a) (art_version a) a')
  | Panic => False
  end.
Proof.
  unfold SqliteRegistry.insert_artifact. case_decide as Hd.
  - split; [done|]. destruct Hd as [?|Hex]; [by left|]. right.
    apply Exists_exists in Hex as (a' & [i Hi]%artifact_rows_elem & Hv). eauto.
  - split; [done|]. split; [apply eq_None_not_Some; auto|]. intros i a' Hi Hv. apply Hd. right.
    apply Exists_exists. exists a'. split; [|done]. apply artifact_rows_elem. eauto.
Qed.

Lemma wf_insert a t :
  registry_wf t -> t !! art_id a = None ->
  (forall i a', t !! i = Some a' -> ~ same_version (art_model a) (art_version a) a') ->
  registry_wf (<[art_id a := a]> t).
Proof.
  intros [Hid Hv] Hn Hnew. split.
  - intros i a'. rewrite lookup_insert. case_decide; [by intros [= <-]|apply Hid].
  - intros i1 i2 a1 a2. rewrite !lookup_insert.
    unfold same_version in Hnew.
    repeat case_decide; intros; simplify_eq; eauto; exfalso; eapply Hnew; eauto.
Qed.

#[local] Arguments wrap_u64 : simpl never.
#[local] Arguments wrap_i64 : simpl never.
#[local] Arguments SqliteRegistry.list : simpl never.
#[local] Arguments SqliteRegistry.get_latest : simpl never.
#[local] Arguments SqliteRegistry.get : simpl never.
#[local] Arguments SqliteRegistry.create : simpl never.

Section claims.
Context `{SqlOrder} {O : Type} `{ObjectStore O} (rt : RusqliteError -> string) (storage : Env -> O).
Implicit Types (s : Mutex Artifacts) (t : Artifacts).

#[local] Instance handler : Handler ArtE (Mutex Artifacts) := art_handler storage.

(** No transaction is ever left open. *)
Definition registry_settled (s : Mutex Artifacts) : Prop := saved (guarded s) = None.

Definition rows (s : Mutex Artifacts) : Artifacts := live (guarded s).

(** What [create] does on every branch. *)
Definition created (env : Env) (a : NewArtifact) (t t' : Artifacts)
    (r : outcome ArtErr.Error ArtifactRecord) : Prop :=
  let rec := SqliteRegistry.record_of env a in
  match r with
  | Ok rec' => rec' = rec /\ t !! fresh_uuid env = None /\ t' = <[fresh_uuid env := rec]> t /\
      (forall i a', t !! i = Some a' -> ~ same_version (na_model a) (na_version a) a')
  | Err (ArtErr.VersionConflict m v) => m = na_model a /\ v = na_version a /\ t' = t /\
      (is_Some (t !! fresh_uuid env) \/
       exists i a', t !! i = Some a' /\ same_version m v a')
  | Err (ArtErr.Db _) => faulty env /\ t' = t
  | _ => False
  end.

Lemma create_post env a s :
  registry_settled s ->
  post (SqliteRegistry.create env a)
    (fun r s' => registry_settled s' /\ poisoned s' = poisoned s /\
       (r = Err (ArtErr.Storage "db mutex poisoned") /\ poisoned s = true /\ s' = s \/
        created env a (rows s) (rows s') r)) s.
Proof.
  intros Hs. apply post_bind, post_with_lock; cbn; [by auto 10|]. intros Hp. rewrite Hp.
  pose proof (roll_back_idle _ Hs) as Hrb.
  apply post_map_err, post_statement; rewrite ?Hrb; cbn; [by auto 10..|].
  pose proof (insert_artifact_spec (SqliteRegistry.record_of env a) (live (guarded s))) as Hi.
  destruct (SqliteRegistry.insert_artifact _ _) as [[[] t']|e|]; [| |done]; cbn in Hi.
  - destruct Hi as (-> & Hn & Hv). apply post_ret. split; [done|]. split; [done|]. by right.
  - destruct Hi as [-> Hi]. split; [done|]. split; [done|]. by right.
Qed.

Lemma registry_reads {A} (c : RegistryCall A) env s :
  match c with Create _ => False | _ => True end -> registry_settled s ->
  post (registry_call env c) (fun r s' => guarded s' = guarded s /\ (r <> Panic -> s' = s)) s.
Proof.
  intros Hc Hs. destruct c as [a|i|m ch|m ch l]; [done|..]; cbn;
    (apply post_locked_reads; [|done]); unfold SqliteRegistry.db, prepare; reads_tac.
Qed.

(** Rows are kept, and the table stays well formed. *)
Definition grows_from (t0 : Artifacts) (s : Mutex Artifacts) : Prop :=
  registry_settled s /\ t0 ⊆ rows s /\ registry_wf (rows s).

Lemma art_handle_grows t0 X env (e : ArtE X) s x s' :
  True -> handle env e s = (x, s') -> grows_from t0 s -> grows_from t0 s'.
Proof.
  intros _ Hh (Hs & Ht & Hw). destruct e as [A c|key secs]; cbn in Hh; [|by simplify_eq].
  destruct c as [a|i|m ch|m ch l].
  - pose proof (post_run _ _ _ _ _ Hh (create_post env a s Hs)) as (Hs' & _ & [(_ & _ & ->)|Hc]).
    { done. }
    split; [done|]. destruct x as [rec|[w|m v|e|e|ex ac]|]; cbn in Hc; try done.
    + destruct Hc as (_ & Hn & -> & Hv). split.
      * etrans; [exact Ht|]. by apply insert_subseteq.
      * by apply (wf_insert (SqliteRegistry.record_of env a)).
    + by destruct Hc as (_ & _ & -> & _).
    + by destruct Hc as [_ ->].
  - destruct (post_run _ _ _ _ _ Hh (registry_reads (Get i) env s I Hs)) as [E _].
    unfold grows_from, registry_settled, rows. by rewrite E.
  - destruct (post_run _ _ _ _ _ Hh (registry_reads (GetLatest m ch) env s I Hs)) as [E _].
    unfold grows_from, registry_settled, rows. by rewrite E.
  - destruct (post_run _ _ _ _ _ Hh (registry_reads (ListCall m ch l) env s I Hs)) as [E _].
    unfold grows_from, registry_settled, rows. by rewrite E.
Qed.

Definition any_effect : forall X, ArtE X -> Prop := fun X e => True.

Lemma only_any {A} (t : async ArtE A) : only any_effect t.
Proof. induction t; cbn; [done|]. by split. Qed.

(** C18: published artifacts are immutable and versions are unique.  In every
    state the artifact store can reach from [s], under any interleaving of
    requests, disconnections, restarts and engine faults, every artifact of
    [s] is still stored unchanged under its id, and two stored artifacts never
    share model and version. *)
Theorem artifacts_immutable s p :
  registry_settled s -> registry_wf (rows s) ->
  reachable (F := ArtE) (art_serve rt) (fun s s' => s' = SqliteRegistry.reopen s) s p ->
  rows s ⊆ rows (shared p) /\
  (forall i1 i2 a1 a2, rows (shared p) !! i1 = Some a1 -> rows (shared p) !! i2 = Some a2 ->
     art_model a1 = art_model a2 -> art_version a1 = art_version a2 -> i1 = i2).
Proof.
  intros Hs Hw Hr. enough (grows_from (rows s) (shared p)) as (_ & ? & [_ ?]) by done.
  apply (reachable_invariant (art_serve rt) (fun s s' => s' = SqliteRegistry.reopen s)
           any_effect (grows_from (rows s))) with s.
  - intros j. apply only_any.
  - intros X env e s1 x s2. apply art_handle_grows.
  - intros s1 s2 -> (Hs1 & Ht1 & Hw1). unfold grows_from, rows in *. cbn.
    by rewrite durable_idle.
  - done.
  - done.
Qed.

(** Without faults a query returns its rows and leaves the registry. *)
Lemma list_calm m ch limit env s :
  idle s -> (forall x, sql_fault env x = NoFault) -> (0 <= limit)%Z ->
  SqliteRegistry.list env m ch limit s =
    (Ok (take (Z.to_nat limit) (SqliteRegistry.sorted env 1 m ch (rows s))), s).
Proof.
  intros [Hs Hp] Hf Hl. assert (~ faulty env) as Hnf by (intros [x Hx]; by rewrite Hf in Hx).
  destruct s as [[t sv] po]. cbn in Hs, Hp. subst. apply post_eq.
  apply post_with_lock; [done|]. intros _.
  apply post_bind, post_map_err, post_prepare; [by intros ?%Hnf..|].
  apply post_bind, post_query_map; [|by intros ?%Hnf]. cbn [live guarded].
  rewrite collect_Ok. apply post_lift. unfold limit_rows, rows. cbn.
  by rewrite (proj2 (Z.ltb_ge _ _)).
Qed.

Lemma latest_calm m ch env s :
  idle s -> (forall x, sql_fault env x = NoFault) ->
  SqliteRegistry.get_latest env m ch s =
    (ok_or (head (SqliteRegistry.sorted env 0 m ch (rows s)))
       (ArtErr.NotFound (m +:+ "@latest (" +:+ ch +:+ ")")), s).
Proof.
  intros [Hs Hp] Hf. assert (~ faulty env) as Hnf by (intros [x Hx]; by rewrite Hf in Hx).
  destruct s as [[t sv] po]. cbn in Hs, Hp. subst. apply post_eq.
  apply post_with_lock; [done|]. intros _.
  apply post_map_err, post_query_row; [by intros ?%Hnf..|]. unfold rows. cbn [live guarded].
  by destruct (SqliteRegistry.sorted env 0 m ch t).
Qed.

Lemma get_calm i env s :
  idle s -> (forall x, sql_fault env x = NoFault) ->
  SqliteRegistry.get env i s = (ok_or (rows s !! i) (ArtErr.NotFound i), s).
Proof.
  intros [Hs Hp] Hf. assert (~ faulty env) as Hnf by (intros [x Hx]; by rewrite Hf in Hx).
  destruct s as [[t sv] po]. cbn in Hs, Hp. subst. apply post_eq.
  apply post_with_lock; [done|]. intros _.
  apply post_map_err, post_query_row; [by intros ?%Hnf..|]. unfold rows. cbn [live guarded].
  by destruct (t !! i).
Qed.

(** C35: what is published is what is read back, except its metadata.  When
    a publish request is answered with an artifact, its model, version,
    checksum, channel and size (any [u64]) are those of the request, its
    download URL is empty and its metadata map is empty whatever metadata the
    request carried; and in every state that still holds the stored row, a
    lookup by the answered id, without faults, returns the same artifact, so
    without the metadata too. *)
Theorem publish_then_get req envs s meta s1 s2 env :
  registry_settled s -> (0 <= pr_size_bytes req < 2 ^ 64)%Z ->
  run (publish_artifact rt req) envs s = (Ok (mkPublishResp (Some meta)), s1) ->
  rows s1 ⊆ rows s2 -> idle s2 -> (forall n x, sql_fault (env n) x = NoFault) ->
  meta = mkMeta (am_artifact_id meta) (pr_model req) (pr_version req) "" (pr_sha256 req)
           (pr_size_bytes req) (pr_channel req) (am_created_at meta) ∅ /\
  run (get_artifact rt (mkGetArtifactReq (am_artifact_id meta))) env s2 = (Ok meta, s2).
Proof.
  intros Hs Hsz Hrun Hsub [Hs2 Hp2] Hf. unfold publish_artifact in Hrun.
  case_bool_decide; [done|]. cbn in Hrun.
  destruct (SqliteRegistry.create _ _ s) as [r s'] eqn:Hc.
  pose proof (post_run _ _ _ _ _ Hc (create_post _ _ s Hs)) as (_ & _ & Hpost).
  destruct r as [rec|e|]; cbn in Hrun; [|done..]. injection Hrun as Hmeta ->.
  destruct Hpost as [(? & _)|Hcr]; [done|]. destruct Hcr as (-> & _ & Hrows & _).
  subst meta. unfold record_to_proto. cbn. rewrite wrap_u64_i64 by done. split; [done|].
  assert (rows s2 !! fresh_uuid (envs 0) =
    Some (SqliteRegistry.record_of (envs 0) (mkNewArtifact (pr_model req) (pr_version req)
      (pr_sha256 req) (wrap_i64 (pr_size_bytes req)) (pr_channel req) (pr_object_key req) ""))) as Hrow.
  { eapply lookup_weaken; [|exact Hsub]. by rewrite Hrows, lookup_insert_eq. }
  cbn. rewrite get_calm by done. cbn. rewrite Hrow. cbn.
  unfold record_to_proto. cbn. by rewrite ?wrap_u64_i64.
Qed.

#[export] Instance latest_first_trans : Transitive latest_first.
Proof. intros a b c. unfold latest_first. lia. Qed.
#[export] Instance latest_first_total : Total latest_first.
Proof. intros a b. unfold latest_first. lia. Qed.

(** The first row of one execution of the query. *)
Lemma sorted_head env n m ch t :
  let held := filter (in_channel m ch) (artifact_rows t) in
  match head (SqliteRegistry.sorted env n m ch t) with
  | Some a => a ∈ held /\ Forall (latest_first a) held
  | None => held = []
  end.
Proof.
  intros held. pose proof (order_by_perm env n latest_first held) as Hp.
  pose proof (order_by_sorted env n latest_first held) as Hs.
  unfold SqliteRegistry.sorted. fold held. destruct (order_by env n latest_first held) as [|a l]; cbn.
  - by apply Permutation_nil in Hp.
  - apply StronglySorted_inv in Hs as [_ Hall]. rewrite <- Hp. split; [left|].
    constructor; [by unfold latest_first|done].
Qed.

(** C36: listing and the latest artifact.  Without faults, [list_artifacts]
    answers the first artifacts, as many as asked for or fifty, of the
    artifacts of the model and channel in some order that puts newer ones
    first.  [get_latest], in another execution, answers an artifact of the
    model and channel that none of them is newer than, or [NotFound] exactly
    when there is none.  When one artifact is newer than all the others the
    two agree: it is the latest and comes first in the listing.  Neither
    changes the registry. *)
Theorem list_and_latest m ch limit envs envs' s :
  idle s -> (forall n x, sql_fault (envs n) x = NoFault) ->
  (forall n x, sql_fault (envs' n) x = NoFault) -> in_i32 limit ->
  let held := filter (in_channel m ch) (artifact_rows (rows s)) in
  exists l newest,
    run (list_artifacts rt (mkListArtifactsReq m ch limit)) envs s =
      (Ok (mkListArtifactsResp
             (record_to_proto <$> take (Z.to_nat (artifact_limit limit)) l)), s) /\
    run (ArtifactServer.get_latest rt (mkGetLatestReq m ch)) envs' s =
      (match newest with
       | Some a => Ok (record_to_proto a)
       | None => Err (mkStatus NotFound (m +:+ "@latest (" +:+ ch +:+ ")"))
       end, s) /\
    l ≡ₚ held /\ StronglySorted latest_first l /\
    match newest with
    | Some a => a ∈ held /\ Forall (latest_first a) held
    | None => held = []
    end /\
    forall a, a ∈ held ->
      (forall b, b ∈ held -> b = a \/ (art_created_at b < art_created_at a)%Z) ->
      newest = Some a /\ head l = Some a.
Proof.
  intros [Hs Hp] Hf Hf' Hl held.
  exists (SqliteRegistry.sorted (envs 0) 1 m ch (rows s)),
    (head (SqliteRegistry.sorted (envs' 0) 0 m ch (rows s))).
  pose proof (list_calm m ch (artifact_limit limit) (envs 0) s) as Hlist.
  pose proof (latest_calm m ch (envs' 0) s) as Hlatest. cbn. rewrite Hlist, Hlatest; try done.
  2: { unfold artifact_limit. case_match; lia. }
  cbn. split; [done|]. split; [by destruct (SqliteRegistry.sorted (envs' 0) 0 m ch (rows s))|].
  split; [apply order_by_perm|]. split; [apply order_by_sorted; apply _|].
  split; [apply sorted_head|]. intros a Ha Hmax.
  assert (forall env n, head (SqliteRegistry.sorted env n m ch (rows s)) = Some a) as Hhead; [|done].
  intros env n. pose proof (sorted_head env n m ch (rows s)) as Hh. cbv zeta in Hh. fold held in Hh.
  destruct (head (SqliteRegistry.sorted env n m ch (rows s))) as [b|].
  - destruct Hh as [Hb Hall]. rewrite Forall_forall in Hall. specialize (Hall a Ha).
    destruct (Hmax b Hb) as [->|Hlt]; [done|]. unfold latest_first in Hall. lia.
  - rewrite Hh in Ha. by apply not_elem_of_nil in Ha.
Qed.
End claims.

(** ** Upload keys *)

(** Upload keys tell versions apart when model names contain no slash:
    then two uploads share an object key only if they are for the same model
    and the same version. *)
Lemma upload_keys_distinct m1 v1 m2 v2 :
  no_char "/" m1 = true -> no_char "/" m2 = true ->
  upload_key m1 v1 = upload_key m2 v2 -> m1 = m2 /\ v1 = v2.
Proof.
  unfold upload_key. intros H1 H2 E.
  change ("/" +:+ v1 +:+ "/firmware.bin") with (String "/" (v1 +:+ "/firmware.bin")) in E.
  change ("/" +:+ v2 +:+ "/firmware.bin") with (String "/" (v2 +:+ "/firmware.bin")) in E.
  pose proof (split_once_app "/" m1 (v1 +:+ "/firmware.bin") H1) as S1.
  pose proof (split_once_app "/" m2 (v2 +:+ "/firmware.bin") H2) as S2.
  rewrite E, S2 in S1. injection S1 as -> Ev. split; [done|]. by eapply str_app_inj_r.
Qed.

(** Nothing checks the names, and with a slash two versions can share a key. *)
Lemma upload_keys_collide : upload_key "arm" "v1/2.0" = upload_key "arm/v1" "2.0".
Proof. reflexivity. Qed.
