(* ===== verification/ArtifactExamples.v ===== *)
(** * Worked examples of the artifact store

    The properties of [ArtifactClaims] at concrete registries and requests,
    over an object store that signs by naming the key. *)

From Stdlib Require Import Ascii.
From S2P Require Import Prelude Sqlite Async Grpc RustStr ArtifactStore ArtifactServer.
From S2P Require Import ArtifactClaims ToyPki.

Section examples.
#[local] Existing Instance stable_order.
#[local] Instance signing : ObjectStore unit := {
  presign_upload _ key _ := Ok ("put " +:+ key);
  presign_download _ key _ := Ok ("get " +:+ key);
  object_exists _ _ := Ok true
}.
Definition no_storage : Env -> unit := fun _ => tt.
#[local] Instance handler : Handler ArtE (Mutex Artifacts) := art_handler no_storage.

Definition publish_request (version sha : string) : PublishRequest :=
  mkPublishReq "humanoid-v2" version sha 4096 "stable" "k" ∅.

Definition empty_registry : Mutex Artifacts := SqliteRegistry.new ∅.

(** Two clients publish the same version with different contents. *)
Definition publish_race : list action :=
  [Request (PublishArtifact (publish_request "2.0.0" "aa"));
   Request (PublishArtifact (publish_request "2.0.0" "bb"));
   Resume 1 (toy_env 100 "art-1"); Resume 0 (toy_env 100 "art-0"); Answer 0; Answer 1].

Definition published : Pool ArtE (Mutex Artifacts) ArtJob (outcome Status ArtReply) :=
  exec (art_serve toy_text) empty_registry publish_race.

Definition first_artifact : ArtifactRecord :=
  mkArtifact "art-1" "humanoid-v2" "2.0.0" "bb" 4096 "stable" "k" "" 100.

Lemma empty_registry_wf : registry_wf (rows empty_registry).
Proof.
  split.
  - intros i a Hi. change ((∅ : Artifacts) !! i = Some a) in Hi. by rewrite lookup_empty in Hi.
  - intros i1 i2 a1 a2 H1. change ((∅ : Artifacts) !! i1 = Some a1) in H1.
    by rewrite lookup_empty in H1.
Qed.

Lemma artifacts_immutable_witness :
  map_to_list (rows (shared published)) = [("art-1", first_artifact)] /\
  forall i a, rows (shared published) !! i = Some a ->
    art_model a = "humanoid-v2" -> art_version a = "2.0.0" -> i = "art-1".
Proof.
  split; [reflexivity|]. intros i a Hi Hm Hv.
  refine (proj2 (artifacts_immutable toy_text no_storage empty_registry published _ _ _)
            i "art-1" a first_artifact Hi _ _ _).
  - reflexivity.
  - apply empty_registry_wf.
  - apply exec_reachable.
  - reflexivity.
  - exact Hm.
  - exact Hv.
Defined.

Lemma publish_then_get_witness :
  let req := publish_request "2.0.0" "bb" in
  let meta := ArtifactServer.record_to_proto first_artifact in
  exists s1, run (publish_artifact toy_text req) (fun _ => toy_env 100 "art-1") empty_registry =
      (Ok (mkPublishResp (Some meta)), s1) /\
    run (get_artifact toy_text (mkGetArtifactReq "art-1")) (fun _ => toy_env 200 "u") s1 = (Ok meta, s1).
Proof.
  intros req meta. eexists. split; [reflexivity|].
  refine (proj2 (publish_then_get toy_text no_storage req (fun _ => toy_env 100 "art-1") empty_registry
                   meta _ _ (fun _ => toy_env 200 "u") _ _ _ _ _ _)).
  - reflexivity.
  - split; reflexivity || discriminate.
  - reflexivity.
  - apply map_subseteq_spec. intros i a Ha. exact Ha.
  - split; reflexivity.
  - intros n x. reflexivity.
Defined.

Definition second_artifact : ArtifactRecord :=
  mkArtifact "art-2" "humanoid-v2" "2.1.0" "cc" 4096 "stable" "k2" "" 200.
Definition two_versions : Mutex Artifacts :=
  SqliteRegistry.new {["art-1" := first_artifact; "art-2" := second_artifact]}.

Lemma list_and_latest_witness :
  run (ArtifactServer.get_latest toy_text (mkGetLatestReq "humanoid-v2" "stable"))
    (fun _ => toy_env 300 "u") two_versions =
    (Ok (ArtifactServer.record_to_proto second_artifact), two_versions).
Proof.
  destruct (list_and_latest toy_text no_storage "humanoid-v2" "stable" 1 (fun _ => toy_env 200 "v")
    (fun _ => toy_env 300 "u") two_versions) as (l & newest & _ & Hlatest & _ & _ & _ & Hnewest).
  - split; reflexivity.
  - intros n x. reflexivity.
  - intros n x. reflexivity.
  - split; reflexivity || discriminate.
  - destruct (Hnewest second_artifact) as [E _].
    + apply list_elem_of_filter. split; [split; reflexivity|]. apply artifact_rows_elem.
      exists "art-2". reflexivity.
    + intros b [_ [i Hi]%artifact_rows_elem]%list_elem_of_filter.
      change (rows two_versions) with
        (<["art-1" := first_artifact]> {["art-2" := second_artifact]} : Artifacts) in Hi.
      apply lookup_insert_Some in Hi as [[_ <-]|[_ [_ <-]%lookup_singleton_Some]];
        [right; reflexivity|by left].
    + rewrite E in Hlatest. exact Hlatest.
Defined.

(** With two artifacts of one second the engine may list one first and answer
    the other as the latest: each statement breaks the tie by itself. *)
Program Definition fickle_order : SqlOrder :=
  {| order_by _ n A R _ l := merge_sort R (if decide (n = 0) then reverse l else l) |}.
Next Obligation.
  intros. rewrite merge_sort_Permutation. case_decide; [apply reverse_Permutation|done].
Qed.
Next Obligation. intros. by apply StronglySorted_merge_sort. Qed.

Definition same_second_versions : Mutex Artifacts :=
  SqliteRegistry.new {["art-1" := first_artifact;
    "art-2" := mkArtifact "art-2" "humanoid-v2" "2.1.0" "cc" 4096 "stable" "k2" "" 100]}.

Example latest_not_listed_first :
  let env := toy_env 300 "u" in
  exists a b, a <> b /\
    (SqliteRegistry.list (H := fickle_order) env "humanoid-v2" "stable" 1 same_second_versions).1 = Ok [a] /\
    (SqliteRegistry.get_latest (H := fickle_order) env "humanoid-v2" "stable" same_second_versions).1 = Ok b.
Proof. cbn zeta. do 2 eexists. split; [|split; vm_compute; reflexivity]. discriminate. Qed.

Lemma upload_keys_distinct_witness :
  upload_key "humanoid-v2" "a/b" <> upload_key "humanoid-v3" "a/b".
Proof.
  intros Hk. destruct (upload_keys_distinct "humanoid-v2" "a/b" "humanoid-v3" "a/b" eq_refl eq_refl Hk)
    as [Hm _]. discriminate.
Defined.
End examples.
