(* ===== verification/AgentTelemetry.v ===== *)
(** * Telemetry frames on the agent

    [src/robot-agent/src/telemetry.rs]: the parser of the simulator's wire
    format and the task that reads frames from its socket.  Doubles are kept as
    their 64 bits. *)

From Stdlib Require Import Init.Byte.
From Equations Require Import Equations.
From S2P Require Import Prelude Bytes Grpc.

Definition JOINT_NAMES : list string :=
  ["panda_joint1"; "panda_joint2"; "panda_joint3";
   "panda_joint4"; "panda_joint5"; "panda_joint6"].

(** The bits of [35.0f64]. *)
Definition temperature : Z := 0x4041800000000000.

(** [as i32]. *)
Definition wrap_i32 (z : Z) : Z := ((z + 2 ^ 31) mod 2 ^ 32 - 2 ^ 31)%Z.

(** A value with the equation that names it, for the recursion below. *)
Definition inspect {A} (x : A) : {y | x = y} := exist _ x eq_refl.

Section telemetry.
Context `{BuildProfile} (device_id : string).

(** An expression on [usize]; its operands are not negative, so it overflows
    where one of its steps does. *)
Definition usize (z : Z) : outcome unit Z := u64_arith z.

(** The body of the loop over the joints. *)
Definition parse_joint (payload : list byte) (joint_count i : Z) : outcome unit JointStatus :=
  pos_off ← usize (12 + i * 8);
  tor_off ← usize (12 + joint_count * 8 + i * 8);
  pos_end ← usize (pos_off + 8);
  position ← slice payload pos_off pos_end;
  tor_end ← usize (tor_off + 8);
  torque ← slice payload tor_off tor_end;
  mret (mkJoint (default "unknown" (get_at JOINT_NAMES i)) (from_be position) (from_be torque)
          temperature).

(** [for i in 0..joint_count], from [i] on. *)
Fixpoint parse_joints (payload : list byte) (joint_count i : Z) (todo : nat) :
  outcome unit (list JointStatus) :=
  match todo with
  | 0 => Ok []
  | S todo =>
      j ← parse_joint payload joint_count i;
      joints ← parse_joints payload joint_count (i + 1) todo;
      mret (j :: joints)
  end.

(** [None] of the source is [Err tt]. *)
Definition parse_frame (payload : list byte) : outcome unit TelemetryFrame :=
  let len := Z.of_nat (length payload) in
  if (len <? 12)%Z then Err tt
  else
  timestamp ← slice payload 0 8;
  let timestamp_ns := wrap_i64 (from_be timestamp) in
  count ← slice payload 8 12;
  let joint_count := from_be count in
  expected_len ← usize (12 + joint_count * 8 * 2);
  if (len <? expected_len)%Z then Err tt
  else
  joints ← parse_joints payload joint_count 0 (Z.to_nat joint_count);
  let seconds := Z.quot timestamp_ns 1000000000 in
  let nanos := wrap_i32 (Z.rem timestamp_ns 1000000000) in
  mret (mkFrame device_id (Some (mkTimestamp seconds nanos)) joints [] ∅).

(** ** The socket reader *)

Definition max_payload : Z := 1000000.

(** The spawned task of [run_from_socket], on the bytes the simulator sends
    before it closes the socket.  The channel takes [room] frames before its
    receiver is dropped.  The frames sent, in order. *)
Equations? reader (bytes : list byte) (room : nat) : list TelemetryFrame
  by wf (length bytes) lt :=
  reader bytes room with inspect (read_exact 4 bytes) := {
    | exist _ None _ => []
    | exist _ (Some (len_buf, rest)) Hlen with
        ((from_be len_buf =? 0) || (max_payload <? from_be len_buf))%Z := {
      | true => []
      | false with inspect (read_exact (from_be len_buf) rest) := {
        | exist _ None _ => []
        | exist _ (Some (payload, rest')) Hpay with parse_frame payload := {
          | Err _ => reader rest' room
          | Panic => []
          | Ok frame with room := {
            | 0 => []
            | S room' => frame :: reader rest' room'
            }
          }
        }
      }
    }.
Proof.
  all: apply read_exact_length in Hlen as (_ & Hl & _); [|done].
  all: apply read_exact_length in Hpay as (_ & Hp & _); [|apply from_be_bounds].
  all: pose proof (from_be_bounds len_buf); lia.
Qed.
End telemetry.
