(* ===== verification/TelemetryClaims.v ===== *)
(** * Properties of the telemetry wire format

    The parser never panics and accepts exactly the payloads that hold their
    joints; it inverts the encoder; and the socket reader delivers what the
    simulator sent, frame by frame. *)

From Stdlib Require Import Init.Byte.
From Equations Require Import Equations.
From S2P Require Import Prelude Bytes Grpc AgentTelemetry.

(** ** The encoder of the simulator *)

Definition doubles (l : list Z) : list byte := concat (to_be 8 <$> l).

(** [encode_frame] of the tests, [_encode_frame] of the simulator without its
    length prefix. *)
Definition encode_frame (timestamp_ns : Z) (positions torques : list Z) : list byte :=
  to_be 8 timestamp_ns ++ to_be 4 (Z.of_nat (length positions)) ++
  doubles positions ++ doubles torques.

(** With the length prefix, as it travels on the socket. *)
Definition on_wire (payload : list byte) : list byte :=
  to_be 4 (Z.of_nat (length payload)) ++ payload.

Lemma doubles_length l : length (doubles l) = 8 * length l.
Proof.
  unfold doubles. induction l as [|x l IH]; [done|].
  rewrite fmap_cons. cbn [concat]. rewrite length_app, IH, to_be_length. cbn. lia.
Qed.

Lemma doubles_at l i x rest :
  l !! i = Some x -> take 8 (drop (8 * i) (doubles l ++ rest)) = to_be 8 x.
Proof.
  unfold doubles. revert i. induction l as [|y l IH]; intros [|i] Hi; try done.
  - injection Hi as <-. rewrite fmap_cons. cbn [concat]. rewrite <- app_assoc.
    rewrite Nat.mul_0_r, drop_0. apply take_app_length'. by rewrite to_be_length.
  - rewrite fmap_cons. cbn [concat]. rewrite <- app_assoc.
    rewrite drop_app_ge by (rewrite to_be_length; lia). rewrite to_be_length.
    replace (8 * S i - 8) with (8 * i) by lia. by apply IH.
Qed.

Lemma encode_frame_length ts ps qs :
  length (encode_frame ts ps qs) = 12 + 8 * length ps + 8 * length qs.
Proof. unfold encode_frame. rewrite !length_app, !doubles_length, !to_be_length. lia. Qed.

(** ** The parser *)

Section parser.
Context `{BuildProfile} (device_id : string).

(** What a payload holds. *)
Definition header_ts (payload : list byte) : Z := wrap_i64 (from_be (take 8 payload)).
Definition header_count (payload : list byte) : nat := Z.to_nat (from_be (take 4 (drop 8 payload))).
Definition joint_at (payload : list byte) (i : nat) : JointStatus :=
  mkJoint (default "unknown" (JOINT_NAMES !! i))
    (from_be (take 8 (drop (12 + 8 * i) payload)))
    (from_be (take 8 (drop (12 + 8 * header_count payload + 8 * i) payload))) temperature.

Lemma header_count_bounds payload : (0 <= from_be (take 4 (drop 8 payload)) < 2 ^ 32)%Z.
Proof.
  pose proof (from_be_bounds (take 4 (drop 8 payload))) as Hb.
  assert (256 ^ Z.of_nat (length (take 4 (drop 8 payload))) <= 256 ^ 4)%Z.
  { apply Z.pow_le_mono_r; [lia|]. rewrite length_take. lia. }
  lia.
Qed.

Lemma parse_joint_spec payload i :
  let n := header_count payload in
  i < n -> 12 + 16 * n <= length payload ->
  parse_joint payload (Z.of_nat n) (Z.of_nat i) = Ok (joint_at payload i).
Proof.
  intros n Hi Hlen. pose proof (header_count_bounds payload) as Hn.
  assert (Z.of_nat n < 2 ^ 32)%Z by (unfold n, header_count; lia).
  unfold parse_joint, usize.
  rewrite !u64_arith_in by (apply in_u64_spec; lia). cbn [mbind outcome_bind].
  rewrite !u64_arith_in by (apply in_u64_spec; lia). cbn [mbind outcome_bind].
  rewrite !slice_ok by lia. cbn [mbind outcome_bind]. unfold joint_at. fold n.
  rewrite get_at_small by lia. rewrite Nat2Z.id.
  replace (12 + Z.of_nat i * 8 + 8 - (12 + Z.of_nat i * 8))%Z with 8%Z by lia.
  replace (Z.to_nat (12 + Z.of_nat i * 8)) with (12 + 8 * i) by lia.
  replace (12 + Z.of_nat n * 8 + Z.of_nat i * 8 + 8 - (12 + Z.of_nat n * 8 + Z.of_nat i * 8))%Z
    with 8%Z by lia.
  replace (Z.to_nat (12 + Z.of_nat n * 8 + Z.of_nat i * 8)) with (12 + 8 * n + 8 * i) by lia.
  done.
Qed.

Lemma parse_joints_spec payload i todo :
  let n := header_count payload in
  i + todo = n -> 12 + 16 * n <= length payload ->
  parse_joints payload (Z.of_nat n) (Z.of_nat i) todo = Ok (joint_at payload <$> seq i todo).
Proof.
  intros n. revert i. induction todo as [|todo IH]; intros i Hi Hlen; [done|].
  cbn [parse_joints]. rewrite parse_joint_spec by (fold n; lia). cbn [mbind outcome_bind].
  replace (Z.of_nat i + 1)%Z with (Z.of_nat (S i)) by lia.
  rewrite IH by lia. done.
Qed.

(** C28: the frame parser is total and never reads out of bounds.  On every
    payload it returns: a payload is rejected exactly when it is shorter than
    its header or than the joints its header announces, and otherwise the
    frame holds one joint per announced index, read at its offsets, and the
    timestamp split into seconds and nanoseconds.  No slice panics and no
    offset overflows, whatever the header says. *)
Theorem parse_frame_spec payload :
  let n := header_count payload in
  parse_frame device_id payload =
    if decide (12 <= length payload /\ 12 + 16 * n <= length payload) then
      Ok (mkFrame device_id
            (Some (mkTimestamp (Z.quot (header_ts payload) 1000000000)
                               (Z.rem (header_ts payload) 1000000000)))
            (joint_at payload <$> seq 0 n) [] ∅)
    else Err tt.
Proof.
  intros n. pose proof (header_count_bounds payload) as Hn. unfold parse_frame.
  destruct (Z.ltb_spec (Z.of_nat (length payload)) 12) as [Hl|Hl].
  { rewrite decide_False by lia. done. }
  rewrite !slice_ok by lia. cbn [mbind outcome_bind].
  change (Z.to_nat (8 - 0)) with 8. change (Z.to_nat (12 - 8)) with 4.
  change (Z.to_nat 0) with 0. change (Z.to_nat 8) with 8. rewrite drop_0.
  fold (header_ts payload). unfold usize.
  rewrite u64_arith_in by (apply in_u64_spec; lia). cbn [mbind outcome_bind].
  assert (from_be (take 4 (drop 8 payload)) = Z.of_nat n) as -> by (unfold n, header_count; lia).
  destruct (Z.ltb_spec (Z.of_nat (length payload)) (12 + Z.of_nat n * 8 * 2)) as [Hl2|Hl2].
  { rewrite decide_False by lia. done. }
  rewrite decide_True by lia. rewrite Nat2Z.id.
  pose proof (parse_joints_spec payload 0 n eq_refl) as Hj.
  change (Z.of_nat 0) with 0%Z in Hj. fold n in Hj.
  rewrite Hj by lia. cbn [mbind outcome_bind].
  assert (-1000000000 < Z.rem (header_ts payload) 1000000000 < 1000000000)%Z as Hr.
  { pose proof (Z.rem_bound_abs (header_ts payload) 1000000000 ltac:(lia)). lia. }
  unfold wrap_i32. rewrite Z.mod_small by lia. by rewrite Z.add_simpl_r.
Qed.

(** *** Round trip *)

Definition encoded_joints (ps qs : list Z) : list JointStatus :=
  imap (fun i pq => mkJoint (default "unknown" (JOINT_NAMES !! i)) pq.1 pq.2 temperature)
    (zip ps qs).

Definition is_u64 (z : Z) : Prop := (0 <= z < 2 ^ 64)%Z.

Lemma from_to_be_8 z : is_u64 z -> from_be (to_be 8 z) = z.
Proof. intros Hz. rewrite from_to_be. by apply Z.mod_small. Qed.

Lemma wrap_i64_mod z : (- 2 ^ 63 <= z < 2 ^ 63)%Z -> wrap_i64 (z mod 2 ^ 64) = z.
Proof.
  intros Hz. unfold wrap_i64. rewrite Zplus_mod_idemp_l. rewrite Z.mod_small by lia. lia.
Qed.

Section encoded.
Context (ts : Z) (ps qs : list Z) (extra : list byte).
Hypothesis same_length : length ps = length qs.
Hypothesis few : (Z.of_nat (length ps) < 2 ^ 32)%Z.
Abbreviation payload := (encode_frame ts ps qs ++ extra).

Lemma payload_parts :
  payload = to_be 8 ts ++ to_be 4 (Z.of_nat (length ps)) ++ doubles ps ++ doubles qs ++ extra.
Proof using Type. unfold encode_frame. by rewrite <- !app_assoc. Qed.

Lemma encoded_count : header_count payload = length ps.
Proof using same_length few.
  unfold header_count. rewrite payload_parts.
  rewrite drop_app_length' by (by rewrite to_be_length).
  rewrite take_app_length' by (by rewrite to_be_length).
  rewrite from_to_be, Z.mod_small by lia. lia.
Qed.

Lemma encoded_ts : (- 2 ^ 63 <= ts < 2 ^ 63)%Z -> header_ts payload = ts.
Proof using Type.
  intros Hts. unfold header_ts. rewrite payload_parts, take_app_length' by (by rewrite to_be_length).
  rewrite from_to_be. by apply wrap_i64_mod.
Qed.

Lemma encoded_joint_at i p q :
  ps !! i = Some p -> qs !! i = Some q -> is_u64 p -> is_u64 q ->
  joint_at payload i = mkJoint (default "unknown" (JOINT_NAMES !! i)) p q temperature.
Proof using same_length few.
  intros Hp Hq Up Uq. unfold joint_at. rewrite encoded_count. rewrite payload_parts.
  set (body := doubles ps ++ doubles qs ++ extra).
  assert (forall k, drop (12 + k) (to_be 8 ts ++ to_be 4 (Z.of_nat (length ps)) ++ body) = drop k body) as Hd.
  { intros k. rewrite app_assoc, drop_app_ge by (rewrite length_app, !to_be_length; lia).
    f_equal. rewrite length_app, !to_be_length. lia. }
  rewrite <- Nat.add_assoc, !Hd. unfold body.
  rewrite (doubles_at _ _ _ _ Hp).
  rewrite drop_app_ge by (rewrite doubles_length; lia). rewrite doubles_length.
  replace (8 * length ps + 8 * i - 8 * length ps) with (8 * i) by lia.
  rewrite (doubles_at _ _ _ _ Hq). by rewrite !from_to_be_8.
Qed.

Lemma encoded_joints_at :
  Forall is_u64 ps -> Forall is_u64 qs ->
  joint_at payload <$> seq 0 (length ps) = encoded_joints ps qs.
Proof using same_length few.
  intros Fp Fq. apply list_eq. intros i. unfold encoded_joints.
  rewrite list_lookup_fmap, list_lookup_imap.
  destruct (decide (i < length ps)) as [Hi|Hi].
  - rewrite lookup_seq_lt by done. cbn.
    destruct (lookup_lt_is_Some_2 ps i Hi) as [p Hp].
    destruct (lookup_lt_is_Some_2 qs i ltac:(lia)) as [q Hq].
    rewrite lookup_zip_with, Hp, Hq. cbn. f_equal.
    rewrite Forall_lookup in Fp, Fq. apply encoded_joint_at; eauto.
  - rewrite lookup_seq_ge by lia. cbn.
    rewrite (lookup_ge_None_2 (zip ps qs)); [done|]. rewrite length_zip_with. lia.
Qed.
End encoded.

(** C30: encoding and parsing a frame give it back.  A frame of equally many
    positions and torques parses to one joint per index with exactly those
    bits and the name of its index, and its time in nanoseconds is recovered
    from the two fields; bytes after the frame are ignored. *)
Theorem encode_parse ts ps qs extra :
  length ps = length qs -> (Z.of_nat (length ps) < 2 ^ 32)%Z ->
  (- 2 ^ 63 <= ts < 2 ^ 63)%Z -> Forall is_u64 ps -> Forall is_u64 qs ->
  exists seconds nanos,
    parse_frame device_id (encode_frame ts ps qs ++ extra) =
      Ok (mkFrame device_id (Some (mkTimestamp seconds nanos)) (encoded_joints ps qs) [] ∅) /\
    (seconds * 1000000000 + nanos = ts)%Z /\
    (-1000000000 < nanos < 1000000000)%Z /\ (0 <= ts -> 0 <= nanos)%Z.
Proof.
  intros Hl Hf Hts Fp Fq. exists (Z.quot ts 1000000000), (Z.rem ts 1000000000). split.
  - rewrite parse_frame_spec, encoded_count, encoded_ts, encoded_joints_at by done.
    rewrite decide_True; [done|]. rewrite length_app, encode_frame_length. lia.
  - pose proof (Z.quot_rem ts 1000000000 ltac:(lia)).
    pose proof (Z.rem_bound_abs ts 1000000000 ltac:(lia)).
    split; [lia|]. split; [lia|]. intros. by apply Z.rem_nonneg.
Qed.

(** Before 1970 the nanoseconds come out negative. *)
Lemma negative_nanos :
  parse_frame device_id (encode_frame (-1) [] []) =
    Ok (mkFrame device_id (Some (mkTimestamp 0 (-1))) [] [] ∅).
Proof. rewrite parse_frame_spec. reflexivity. Qed.

(** ** The reader *)

#[local] Arguments to_be : simpl never.
#[local] Arguments from_be : simpl never.
#[local] Arguments reader : simpl never.

(** The frames of the payloads that parse. *)
Definition parsed (payloads : list (list byte)) : list TelemetryFrame :=
  omap (fun p => ok_opt (parse_frame device_id p)) payloads.

(** The reader stops here: fewer than four bytes, or a length it refuses. *)
Definition stops (tail : list byte) : Prop :=
  match read_exact 4 tail with
  | None => True
  | Some (len_buf, _) => from_be len_buf = 0%Z \/ (max_payload < from_be len_buf)%Z
  end.

Lemma reader_stops tail room : stops tail -> reader device_id tail room = [].
Proof.
  unfold stops. intros Ht. simp reader. destruct (inspect (read_exact 4 tail)) as [x Hx].
  rewrite Hx in Ht. destruct x as [[len_buf rest]|]; [|done]. cbn.
  rewrite (proj2 (orb_true_iff _ _)); [done|].
  destruct Ht as [?|?]; [left; by apply Z.eqb_eq|right; by apply Z.ltb_lt].
Qed.

Lemma reader_frame payload rest room :
  (0 < Z.of_nat (length payload) <= max_payload)%Z ->
  reader device_id (on_wire payload ++ rest) room =
    match parse_frame device_id payload with
    | Ok frame => match room with 0 => [] | S room => frame :: reader device_id rest room end
    | Err _ => reader device_id rest room
    | Panic => []
    end.
Proof.
  intros Hl. unfold max_payload in Hl. rewrite (reader_equation_1 device_id (on_wire payload ++ rest)).
  assert (from_be (to_be 4 (Z.of_nat (length payload))) = Z.of_nat (length payload)) as Hlen.
  { rewrite from_to_be. apply Z.mod_small. lia. }
  unfold on_wire. rewrite <- app_assoc.
  destruct (inspect (read_exact 4 _)) as [x Hx].
  assert (x = Some (to_be 4 (Z.of_nat (length payload)), payload ++ rest)) as ->.
  { rewrite <- Hx. apply read_exact_app. by rewrite to_be_length. }
  cbn.
  rewrite (proj2 (orb_false_iff _ _)).
  2: { rewrite Hlen. unfold max_payload. split; [by apply Z.eqb_neq; lia|by apply Z.ltb_ge; lia]. }
  cbn -[inspect]. match goal with |- context [inspect ?r] => destruct (inspect r) as [y Hy] end.
  assert (y = Some (payload, rest)) as ->.
  { rewrite <- Hy. apply read_exact_app. lia. }
  cbn.
  destruct (parse_frame device_id payload) as [f|[]|] eqn:Hp; cbn; [|done..].
  by destruct room.
Qed.

Lemma reader_delivers_frames payloads tail room :
  Forall (fun p => 0 < Z.of_nat (length p) <= max_payload)%Z payloads -> stops tail ->
  reader device_id (concat (on_wire <$> payloads) ++ tail) room = take room (parsed payloads).
Proof.
  intros Hps Ht. revert room. induction Hps as [|p ps Hp Hps IH]; intros room.
  - rewrite fmap_nil. cbn [concat]. rewrite app_nil_l, reader_stops by done. by destruct room.
  - rewrite fmap_cons. cbn [concat]. rewrite <- app_assoc, reader_frame by done.
    unfold parsed. cbn [omap list_omap].
    destruct (parse_frame device_id p) as [f|[]|] eqn:Hf; cbn.
    + destruct room as [|room]; [done|]. cbn. f_equal. apply IH.
    + apply IH.
    + rewrite parse_frame_spec in Hf. by case_decide.
Qed.

(** The socket reader delivers the frames it was sent.  On any sequence of
    length-prefixed payloads of at most a million bytes, the task sends the
    frames of the payloads that parse, each once and in order, skipping the
    others, until the receiver is gone; it stops at the end of the stream, at
    an incomplete prefix, or at a length of zero or over the limit. *)
Lemma reader_delivers payloads tail room :
  Forall (fun p => 0 < Z.of_nat (length p) <= max_payload)%Z payloads -> stops tail ->
  reader device_id (concat (on_wire <$> payloads) ++ tail) room = take room (parsed payloads).
Proof. apply reader_delivers_frames. Qed.
End parser.
