(* ===== verification/TelemetryExamples.v ===== *)
(** * Worked examples of the agent's telemetry *)

From Stdlib Require Import Init.Byte.
From S2P Require Import Prelude Bytes Grpc AgentTelemetry TelemetryClaims.

Section examples.
#[local] Instance release : BuildProfile := false.

(** Two joints, half a second after the epoch. *)
Definition two_joints : list byte := encode_frame 500000000 [1; 2]%Z [3; 4]%Z.

Lemma encode_parse_witness :
  exists seconds nanos,
    parse_frame "dev-1" (two_joints ++ []) =
      Ok (mkFrame "dev-1" (Some (mkTimestamp seconds nanos)) (encoded_joints [1; 2]%Z [3; 4]%Z) [] ∅) /\
    (seconds * 1000000000 + nanos = 500000000)%Z.
Proof.
  destruct (encode_parse "dev-1" 500000000 [1; 2]%Z [3; 4]%Z []) as (s & n & Hp & Hsum & _).
  - reflexivity.
  - reflexivity.
  - split; reflexivity || discriminate.
  - repeat constructor; discriminate.
  - repeat constructor; discriminate.
  - exists s, n. split; [exact Hp|exact Hsum].
Defined.

(** A frame, a payload that does not parse, a frame, and the end of the
    socket in the middle of a length. *)
Lemma reader_delivers_witness :
  length (parsed "dev-1" [two_joints; [x00]; two_joints]) = 2 /\
  reader "dev-1" (concat (on_wire <$> [two_joints; [x00]; two_joints]) ++ [x00; x01]) 5 =
    take 5 (parsed "dev-1" [two_joints; [x00]; two_joints]).
Proof.
  split; [reflexivity|].
  apply (reader_delivers "dev-1" [two_joints; [x00]; two_joints] [x00; x01] 5).
  - repeat constructor; discriminate || reflexivity.
  - exact I.
Defined.
End examples.
