(* ===== verification/AgentBoot.v ===== *)
(** * The life of the robot agent up to normal operation

    [src/robot-agent/src/main.rs], [provisioning.rs], [enrollment.rs] and
    [error.rs]: factory provisioning (phase 1), bootstrap enrollment (phase 2)
    and the start of normal operation (phase 3), as a tree of effects on the
    agent's files, its environment variables and the network. *)

From S2P Require Import Prelude Sqlite Async Pki Grpc.

Module AgentErr.
Inductive Error :=
| Tls (e : string)
| Grpc (s : Status)
| Io (e : string)
| Checksum (expected actual : string)
| Install (e : string)
| Pki (e : PkiErr.Error)
| Transport (e : string).

(** The [#[error(...)]] texts. *)
Definition to_string (status_text : Status -> string) (e : Error) : string :=
  match e with
  | Tls e => "TLS error: " +:+ e
  | Grpc s => "gRPC error: " +:+ status_text s
  | Io e => "IO error: " +:+ e
  | Checksum x a => "checksum mismatch: expected " +:+ x +:+ ", got " +:+ a
  | Install e => "install script failed: " +:+ e
  | Pki e => "PKI error: " +:+ PkiErr.to_string e
  | Transport e => "gRPC transport error: " +:+ e
  end.
End AgentErr.

(** What [main] can end with: a missing variable, or an error of a phase. *)
Inductive MainErr :=
| MissingVar (key : string)
| Failed (e : AgentErr.Error).

(** ** Effects *)

(** A client certificate and its key, as PEM. *)
Abbreviation Identity := (string * string)%type.

Section boot.
Context `{PkiLib}.

Inductive AgentE : Type -> Type :=
| Host {X} (e : Csr.HostE X) : AgentE X
| EnvVar (key : string) : AgentE (option string)
| CreateDirAll (path : string) : AgentE (outcome string unit)
| PathExists (path : string) : AgentE bool
| ReadToString (path : string) : AgentE (outcome string string)
(* [Channel::from_shared], [tls_config] and [connect] *)
| Connect (addr ca_pem : string) (identity : option Identity) :
    AgentE (outcome AgentErr.Error unit)
| ProvisionRpc (addr : string) (req : ProvisionDeviceRequest) :
    AgentE (outcome Status ProvisionDeviceResponse)
| EnrollRpc (addr : string) (identity : Identity) (req : BootstrapEnrollRequest) :
    AgentE (outcome Status BootstrapEnrollResponse).

Abbreviation Agent := (Task AgentE AgentErr.Error).

Definition everyone : Z := 438. (* 0o666, before the umask *)

(** [std::fs::write]: create or truncate, then write. *)
Definition fs_write (path contents : string) : Agent unit :=
  _ ← task_map_err AgentErr.Io (call (Host (Csr.OpenCreateTruncate path everyone)));
  task_map_err AgentErr.Io (call (Host (Csr.WriteAll path contents))).

Definition read_to_string (path : string) : Agent string :=
  task_map_err AgentErr.Io (call (ReadToString path)).

Definition generate_csr (cn key_path : string) : Agent string :=
  task_map_err AgentErr.Pki (Csr.generate_csr (fun X e => Host e) cn key_path).

(** ** [EnrollmentManager] *)

Record EnrollmentManager := mkManager {
  cert_dir : string; serial : string; model : string; firmware : string }.

(** [PathBuf::join] of a plain file name. *)
Definition join (dir name : string) : string := dir +:+ "/" +:+ name.

Section manager.
Context (self : EnrollmentManager).

Definition device_cert_path : string := join (cert_dir self) "device.pem".
Definition device_key_path : string := join (cert_dir self) "device.key".
Definition operational_cert_path : string := join (cert_dir self) "operational.pem".
Definition operational_key_path : string := join (cert_dir self) "operational.key".
Definition fleet_ca_path : string := join (cert_dir self) "fleet-ca-chain.pem".
Definition device_id_path : string := join (cert_dir self) "device-id".

Definition is_enrolled : Agent bool := get _ (PathExists operational_cert_path).
Definition is_provisioned : Agent bool := get _ (PathExists device_cert_path).

Definition load_device_cert : Agent Identity :=
  cert ← read_to_string device_cert_path;
  key ← read_to_string device_key_path;
  mret (cert, key).

Definition load_operational_creds : Agent Identity :=
  cert ← read_to_string operational_cert_path;
  key ← read_to_string operational_key_path;
  mret (cert, key).

Definition load_device_id : Agent string := read_to_string device_id_path.

(** Phase 2, on a connected channel. *)
Definition enroll (addr : string) (identity : Identity) : Agent unit :=
  csr_pem ← generate_csr (serial self) operational_key_path;
  response ← task_map_err AgentErr.Grpc
    (call (EnrollRpc addr identity
             (mkBootstrapReq csr_pem (model self) (firmware self) ∅ (serial self))));
  _ ← fs_write operational_cert_path (br_operational_cert_pem response);
  _ ← fs_write fleet_ca_path (br_fleet_ca_chain_pem response);
  fs_write device_id_path (br_device_id response).
End manager.

(** ** Phase 1 *)

Definition provision (serial token provisioning_addr fleet_ca_pem cert_dir : string) : Agent unit :=
  let key_path := join cert_dir "device.key" in
  let cert_path := join cert_dir "device.pem" in
  csr_pem ← generate_csr serial key_path;
  _ ← call (Connect provisioning_addr fleet_ca_pem None);
  resp ← task_map_err AgentErr.Grpc
    (call (ProvisionRpc provisioning_addr (mkProvisionReq serial csr_pem token)));
  fs_write cert_path (device_cert_pem resp).

(** ** [main] *)

Abbreviation Main := (Task AgentE MainErr).

Definition env_required (key : string) : Main string :=
  v ← get _ (EnvVar key);
  pure_code (ok_or v (MissingVar key)).
Definition env_or (key fallback : string) : Main string :=
  v ← get _ (EnvVar key);
  mret (default fallback v).

(** [?] on a result of the agent's library. *)
Definition lib {A} (t : Agent A) : Main A := task_map_err Failed t.

(** The manager that [main] builds, and the CA the device ships with. *)
Definition configure : Main (EnrollmentManager * string) :=
  cert_dir ← env_or "AGENT_DATA_DIR" "/root/.robot-agent";
  _ ← lib (task_map_err AgentErr.Io (call (CreateDirAll cert_dir)));
  serial ← env_required "DEVICE_SERIAL";
  ca_path ← env_required "FLEET_CA_CERT_PEM";
  fleet_ca_pem ← lib (read_to_string ca_path);
  model ← env_or "DEVICE_MODEL" "Alpha Wheeled";
  firmware ← env_or "FIRMWARE_VERSION" "0.1.0";
  mret (mkManager cert_dir serial model firmware, fleet_ca_pem).

Definition phase1 (manager : EnrollmentManager) (fleet_ca_pem : string) : Main unit :=
  provisioned ← lib (is_provisioned manager);
  if (provisioned : bool) then mret tt
  else
    token ← env_required "PROVISION_TOKEN";
    provisioning_addr ← env_required "PROVISIONING_ADDR";
    lib (provision (serial manager) token provisioning_addr fleet_ca_pem (cert_dir manager)).

Definition phase2 (manager : EnrollmentManager) (fleet_ca_pem : string) : Main unit :=
  enrolled ← lib (is_enrolled manager);
  if (enrolled : bool) then mret tt
  else
    identity ← lib (load_device_cert manager);
    bootstrap_addr ← env_required "BOOTSTRAP_ADDR";
    _ ← lib (call (Connect bootstrap_addr fleet_ca_pem (Some identity)));
    lib (enroll manager bootstrap_addr identity).

(** What the three loops of phase 3 are started with. *)
Record Online := mkOnline {
  on_device_id : string; on_identity : Identity; on_fleet_addr : string; on_ota_addr : string }.

Definition phase3 (manager : EnrollmentManager) (fleet_ca_pem : string) : Main Online :=
  creds ← lib (load_operational_creds manager);
  device_id ← lib (load_device_id manager);
  fleet_addr ← env_required "FLEET_SERVICE_ADDR";
  ota_addr ← env_or "OTA_SERVICE_ADDR" fleet_addr;
  _ ← lib (call (Connect fleet_addr fleet_ca_pem (Some creds)));
  _ ← lib (call (Connect ota_addr fleet_ca_pem (Some creds)));
  mret (mkOnline device_id creds fleet_addr ota_addr).

Definition agent_main : Main Online :=
  '(manager, fleet_ca_pem) ← configure;
  _ ← phase1 manager fleet_ca_pem;
  _ ← phase2 manager fleet_ca_pem;
  phase3 manager fleet_ca_pem.
End boot.
Arguments AgentE {_} _.
