(* ===== verification/AgentOta.v ===== *)
(** * Over-the-air updates on the agent

    [src/robot-agent/src/ota.rs]: applying an update and the loop over the
    commands of an update stream; and the reconnecting loop that the heartbeat,
    OTA and telemetry tasks share.  The service answers an update stream with
    the list of its items up to its end. *)

From Stdlib Require Import Init.Byte.
From S2P Require Import Prelude Sqlite Async Pki Grpc AgentBoot.

(** [hex::encode(Sha256::digest(..))]. *)
Class Sha256Lib := sha256_hex : list byte -> string.

(** ** Effects *)

Inductive OtaAgentE : Type -> Type :=
| TempDir : OtaAgentE (outcome string string)
| HttpGet (url : string) : OtaAgentE (outcome string unit)
| BodyBytes : OtaAgentE (outcome string (list byte))
| WriteBytes (path : string) (bytes : list byte) : OtaAgentE (outcome string unit)
| MakeDirs (path : string) : OtaAgentE (outcome string unit)
(* [tar -xzf archive -C dir] *)
| RunTar (archive dir : string) : OtaAgentE (outcome string bool)
| FileExists (path : string) : OtaAgentE bool
(* [bash script]: the exit code, if the script was not killed *)
| RunScript (path : string) : OtaAgentE (outcome string (option Z))
| WatchUpdatesRpc (req : WatchUpdatesRequest) :
    OtaAgentE (outcome Status (list (UpdateCommand + Status)))
| AckUpdateRpc (req : AckUpdateRequest) : OtaAgentE (outcome Status unit)
| OtaSleepMs (ms : Z) : OtaAgentE unit.

Abbreviation OtaTask := (Task OtaAgentE AgentErr.Error).

(** ** Reconnecting *)

Definition MAX_BACKOFF : Z := 60.

(** The loop of [run] in all three modules, for at most [fuel] streams; the
    answer is what it returned, if it did. *)
Fixpoint reconnecting {F : Type -> Type} (sleep_ms : Z -> F unit) (stream : Task F AgentErr.Error unit)
    (fuel : nat) (backoff : Z) : async F (option (outcome AgentErr.Error unit)) :=
  match fuel with
  | 0 => Done None
  | S fuel =>
      let! result := stream in
      match result with
      | Err _ =>
          let! _ := trigger (sleep_ms (backoff * 1000)%Z) in
          reconnecting sleep_ms stream fuel (Z.min (backoff * 2) MAX_BACKOFF)
      | _ => Done (Some result)
      end
  end.

(** ** Updates *)

Section ota.
Context `{Sha256Lib} (int_text : Z -> string) (error_text : AgentErr.Error -> string).

Definition io {A} (e : OtaAgentE (outcome string A)) : OtaTask A :=
  task_map_err AgentErr.Io (call e).

Definition apply_update (artifact_url expected_sha256 : string) : OtaTask unit :=
  tmp_dir ← io TempDir;
  let archive_path := join tmp_dir "artifact.tar.gz" in
  _ ← task_map_err (fun e => AgentErr.Install ("download failed: " +:+ e))
        (call (HttpGet artifact_url));
  bytes ← task_map_err (fun e => AgentErr.Install ("read body failed: " +:+ e))
            (call BodyBytes);
  let actual_sha256 := sha256_hex bytes in
  if dec (expected_sha256 <> "" /\ actual_sha256 <> expected_sha256)
  then fail_with (AgentErr.Checksum expected_sha256 actual_sha256)
  else
  _ ← io (WriteBytes archive_path bytes);
  let staging_dir := join tmp_dir "staging" in
  _ ← io (MakeDirs staging_dir);
  success ← io (RunTar archive_path staging_dir);
  if negb success then fail_with (AgentErr.Install "tar extraction failed")
  else
  let install_script := join staging_dir "install.sh" in
  exists_ ← get _ (FileExists install_script);
  if negb exists_ then fail_with (AgentErr.Install "install.sh not found in artifact")
  else
  status ← io (RunScript install_script);
  if dec (status = Some 0%Z) then mret tt
  else fail_with (AgentErr.Install ("install.sh exited with: " +:+ int_text (default (-1)%Z status))).

(** The answer to a command. *)
Definition ack_of (device_id : string) (cmd : UpdateCommand) (result : outcome AgentErr.Error unit) :
  AckUpdateRequest :=
  match result with
  | Ok _ => mkAckReq device_id (uc_update_job_id cmd) (uc_target_version cmd) true ""
  | Err e => mkAckReq device_id (uc_update_job_id cmd) "" false (error_text e)
  | Panic => mkAckReq device_id (uc_update_job_id cmd) "" false ""
  end.

(** The loop over the stream; its items are commands, or the status that ends
    it. *)
Fixpoint handle_commands (device_id : string) (stream : list (UpdateCommand + Status)) :
  OtaTask unit :=
  match stream with
  | [] => mret tt
  | inr s :: _ => fail_with (AgentErr.Grpc s)
  | inl cmd :: rest =>
      let! result := apply_update (uc_artifact_url cmd) (uc_sha256 cmd) in
      match result with
      | Panic => Done Panic
      | _ =>
          _ ← task_map_err AgentErr.Grpc (call (AckUpdateRpc (ack_of device_id cmd result)));
          handle_commands device_id rest
      end
  end.

Definition run_stream (device_id : string) : OtaTask unit :=
  stream ← task_map_err AgentErr.Grpc (call (WatchUpdatesRpc (mkWatchReq device_id)));
  handle_commands device_id stream.

Definition run (device_id : string) (fuel : nat) :
  async OtaAgentE (option (outcome AgentErr.Error unit)) :=
  reconnecting OtaSleepMs (run_stream device_id) fuel 1.
End ota.
