(* ===== verification/F64.v ===== *)
(** * Doubles

    [f64] as the binary64 numbers of the Standard Library's executable IEEE 754
    specification: conversions, the arithmetic the agent uses, and the bits
    that travel in a protobuf [double].  [sin] and [cos] have no specified
    precision in Rust and are parameters. *)

From Stdlib Require Import Floats.SpecFloat.
From S2P Require Import Prelude.

Abbreviation f64 := spec_float.

(** 53 bits of precision, exponents below 1024; to the nearest, ties to even. *)
Definition f64_of_Z (z : Z) : f64 := binary_normalize 53 1024 z 0 false.
Definition f64_add : f64 -> f64 -> f64 := SFadd 53 1024.
Definition f64_sub : f64 -> f64 -> f64 := SFsub 53 1024.
Definition f64_mul : f64 -> f64 -> f64 := SFmul 53 1024.
Definition f64_div : f64 -> f64 -> f64 := SFdiv 53 1024.

(** [std::f64::consts::PI]. *)
Definition f64_pi : f64 := S754_finite false 7074237752028440 (-51).

Class TrigLib := { f64_sin : f64 -> f64; f64_cos : f64 -> f64 }.

(** [Duration::as_secs_f64], of a duration in nanoseconds. *)
Definition as_secs_f64 (ns : Z) : f64 :=
  f64_add (f64_of_Z (ns / 1000000000)) (f64_div (f64_of_Z (ns mod 1000000000)) (f64_of_Z 1000000000)).

(** [f64::to_bits]. *)
Definition sign_bit (s : bool) : Z := if s then 2 ^ 63 else 0.
Definition f64_bits (x : f64) : Z :=
  match x with
  | S754_zero s => sign_bit s
  | S754_infinity s => sign_bit s + Z.shiftl 2047 52
  | S754_nan => Z.shiftl 4095 51
  | S754_finite s m e =>
      if (Zpos m <? 2 ^ 52)%Z then sign_bit s + Zpos m
      else sign_bit s + Z.shiftl (e + 1075) 52 + (Zpos m - 2 ^ 52)
  end.

Lemma f64_bits_35 : f64_bits (f64_of_Z 35) = 0x4041800000000000%Z.
Proof. reflexivity. Qed.

Lemma f64_bits_pi : f64_bits f64_pi = 0x400921fb54442d18%Z.
Proof. reflexivity. Qed.
