(* ===== verification/F64Bounds.v ===== *)
(** * The accuracy of the doubles

    The operations of [F64] against the real numbers: on the positive normal
    doubles the readings of a heartbeat go through, a conversion, a product, a
    quotient and a difference each give the nearest double, ties to the even
    one.  From this follow a bound on the relative error and that rounding
    keeps order. *)

From Stdlib Require Import Reals Lra Lia ZArith Floats.SpecFloat.
From S2P Require Import Prelude F64.

(** ** Powers of two *)

Definition bpow (e : Z) : R := powerRZ 2 e.

Lemma bpow_pos e : (0 < bpow e)%R.
Proof. apply powerRZ_lt. lra. Qed.

Lemma bpow_add a b : bpow (a + b) = (bpow a * bpow b)%R.
Proof. apply powerRZ_add. lra. Qed.

Lemma bpow_0 : bpow 0 = 1%R.
Proof. done. Qed.

Lemma bpow_opp e : (bpow e * bpow (- e) = 1)%R.
Proof. rewrite <- bpow_add. by replace (e + - e)%Z with 0%Z by lia. Qed.

Lemma bpow_IZR k : (0 <= k)%Z -> bpow k = IZR (2 ^ k).
Proof.
  intros Hk. rewrite <- (Z2Nat.id k) at 1 by done. unfold bpow. rewrite <- pow_powerRZ.
  rewrite <- (Z2Nat.id k) at 2 by done. by rewrite pow_IZR.
Qed.

Lemma bpow_1 : bpow 1 = 2%R.
Proof. by rewrite bpow_IZR. Qed.

Lemma bpow_le a b : (a <= b)%Z -> (bpow a <= bpow b)%R.
Proof.
  intros Hab. replace b with (a + (b - a))%Z by lia. rewrite bpow_add.
  pose proof (bpow_pos a). rewrite (bpow_IZR (b - a)) by lia.
  assert (1 <= IZR (2 ^ (b - a)))%R as H1 by (apply IZR_le; lia).
  nra.
Qed.

Lemma bpow_lt_inv a b : (bpow a < bpow b)%R -> (a < b)%Z.
Proof. intros Hab. destruct (Z.lt_ge_cases a b) as [|Hle]; [done|]. apply bpow_le in Hle. lra. Qed.

Lemma bpow_succ e : bpow (e + 1) = (2 * bpow e)%R.
Proof. rewrite bpow_add, bpow_1. lra. Qed.

Lemma IZR_shift m k : (0 <= k)%Z -> IZR (m * 2 ^ k) = (IZR m * bpow k)%R.
Proof. intros Hk. by rewrite mult_IZR, bpow_IZR. Qed.

(** Bounds on a number, and on its multiple of a power of two. *)
Lemma bpow_scale a b e v :
  (bpow (e + a) <= v < bpow (e + b))%R <-> (bpow a <= v * bpow (- e) < bpow b)%R.
Proof.
  rewrite !bpow_add. pose proof (bpow_opp e) as E. pose proof (bpow_pos e). pose proof (bpow_pos (- e)).
  assert (forall x, x = bpow e * x * bpow (- e))%R as Hx.
  { intros x. rewrite (Rmult_comm (bpow e)), Rmult_assoc, E. lra. }
  split; intros [Hl Hu].
  - rewrite (Hx (bpow a)), (Hx (bpow b)).
    split; [apply Rmult_le_compat_r|apply Rmult_lt_compat_r]; lra.
  - assert (v = bpow e * (v * bpow (- e)))%R as -> by (rewrite (Hx v) at 1; ring).
    split; [apply Rmult_le_compat_l|apply Rmult_lt_compat_l]; lra.
Qed.

Lemma Rabs_bounds x y : (Rabs x <= y -> - y <= x <= y)%R.
Proof. unfold Rabs. destruct (Rcase_abs x); lra. Qed.

(** ** The value of a double *)

Definition to_R (x : f64) : R :=
  match x with
  | S754_finite s m e => IZR (cond_Zopp s (Zpos m)) * bpow e
  | _ => 0
  end%R.

Definition finite (x : f64) : Prop :=
  match x with S754_zero _ | S754_finite _ _ _ => True | _ => False end.

(** The positive normal doubles with exponents up to [b] on either side. *)
Definition normal (b : Z) (x : f64) : Prop :=
  exists m e, x = S754_finite false m e /\ (2 ^ 52 <= Zpos m < 2 ^ 53)%Z /\ (- b <= e <= b)%Z.

(** [x] is the double nearest to the positive real [v], the even one if two
    are: [v] lies among the doubles of exponent [e]. *)
Definition nearest (v : R) (x : f64) : Prop :=
  exists n e,
    (2 ^ 52 <= n <= 2 ^ 53)%Z /\ (bpow (e + 52) <= v < bpow (e + 53))%R /\
    (Rabs (IZR n - v * bpow (- e)) <= 1 / 2)%R /\
    (Rabs (IZR n - v * bpow (- e)) = 1 / 2 -> Z.even n = true)%R /\
    to_R x = (IZR n * bpow e)%R /\
    exists m e', x = S754_finite false m e' /\ (2 ^ 52 <= Zpos m < 2 ^ 53)%Z /\ (e <= e' <= e + 1)%Z.

(** ** Digits and shifts *)

Lemma digits2_bounds p :
  (2 ^ (Zpos (digits2_pos p) - 1) <= Zpos p < 2 ^ Zpos (digits2_pos p))%Z.
Proof.
  induction p as [p IH|p IH|]; cbn [digits2_pos]; [..|done];
    rewrite Pos2Z.inj_succ, Z.sub_succ_l in *;
    rewrite (Z.pow_succ_r 2 (Z.pos (digits2_pos p))) by lia;
    rewrite (Z.pow_succ_r 2 (Z.pos (digits2_pos p) - 1)) by lia; lia.
Qed.

Lemma digits2_unique p d : (0 < d)%Z -> (2 ^ (d - 1) <= Zpos p < 2 ^ d)%Z -> Zpos (digits2_pos p) = d.
Proof.
  intros Hd Hp. pose proof (digits2_bounds p) as Hb.
  assert (d - 1 < Zpos (digits2_pos p))%Z by (apply (Z.pow_lt_mono_r_iff 2); lia).
  assert (Zpos (digits2_pos p) - 1 < d)%Z by (apply (Z.pow_lt_mono_r_iff 2); lia). lia.
Qed.

Lemma fexp_normal k : (-1021 <= k)%Z -> fexp 53 1024 k = (k - 53)%Z.
Proof. unfold fexp, emin. lia. Qed.

(** The real [v] that a record of the shifts stands for. *)
Definition inside (mrs : shr_record) (v : R) : Prop :=
  match shr_r mrs, shr_s mrs with
  | false, false => v = IZR (shr_m mrs)
  | false, true => IZR (shr_m mrs) < v < IZR (shr_m mrs) + 1 / 2
  | true, false => v = IZR (shr_m mrs) + 1 / 2
  | true, true => IZR (shr_m mrs) + 1 / 2 < v < IZR (shr_m mrs) + 1
  end%R.

Lemma inside_bounds mrs v : inside mrs v -> (IZR (shr_m mrs) <= v < IZR (shr_m mrs) + 1)%R.
Proof. unfold inside. destruct mrs as [m [] []]; cbn; lra. Qed.

Lemma shr_1_inside mrs v :
  (0 <= shr_m mrs)%Z -> inside mrs v -> (0 <= shr_m (shr_1 mrs))%Z /\ inside (shr_1 mrs) (v / 2).
Proof.
  destruct mrs as [m r s]. cbn [shr_m]. intros Hm Hv.
  destruct m as [|[p|p|]|p]; [| | | |lia]; cbn in *.
  2: change (Zpos p~1) with (2 * Zpos p + 1)%Z in Hv.
  3: change (Zpos p~0) with (2 * Zpos p)%Z in Hv.
  all: unfold inside in *; cbn in *; rewrite ?plus_IZR, ?mult_IZR in Hv;
    destruct r, s; cbn; (split; [lia|lra]).
Qed.

Lemma iter_shr_1 p mrs v :
  (0 <= shr_m mrs)%Z -> inside mrs v ->
  (0 <= shr_m (SpecFloat.iter_pos shr_1 p mrs))%Z /\ inside (SpecFloat.iter_pos shr_1 p mrs) (v * bpow (Zneg p)).
Proof.
  revert mrs v. induction p as [p IH|p IH|]; intros mrs v Hm Hv; cbn [SpecFloat.iter_pos].
  - destruct (shr_1_inside mrs v Hm Hv) as [H1 V1]. destruct (IH _ _ H1 V1) as [H2 V2].
    destruct (IH _ _ H2 V2) as [H3 V3]. split; [done|].
    replace (v * bpow (Zneg p~1))%R with (v / 2 * bpow (Zneg p) * bpow (Zneg p))%R; [done|].
    replace (Zneg p~1) with (Zneg p + Zneg p + - (1))%Z by lia. rewrite !bpow_add.
    pose proof (bpow_opp 1) as E. rewrite bpow_1 in E. replace (bpow (- (1))) with (/ 2)%R by lra. lra.
  - destruct (IH _ _ Hm Hv) as [H2 V2]. destruct (IH _ _ H2 V2) as [H3 V3]. split; [done|].
    replace (v * bpow (Zneg p~0))%R with (v * bpow (Zneg p) * bpow (Zneg p))%R; [done|].
    replace (Zneg p~0) with (Zneg p + Zneg p)%Z by lia. rewrite !bpow_add. lra.
  - destruct (shr_1_inside mrs v Hm Hv) as [H1 V1]. split; [done|].
    pose proof (bpow_opp 1) as E. rewrite bpow_1 in E. cbn in E.
    replace (bpow (-1)) with (/ 2)%R by (change (-1)%Z with (- (1))%Z; lra). done.
Qed.

Lemma shr_inside mrs e k v :
  (0 <= k)%Z -> (0 <= shr_m mrs)%Z -> inside mrs v ->
  exists mrs', shr mrs e k = (mrs', (e + k)%Z) /\ inside mrs' (v * bpow (- k)).
Proof.
  intros Hk Hm Hv. destruct k as [|p|]; [| |lia]; cbn [shr].
  - exists mrs. rewrite Z.add_0_r. split; [done|]. change (bpow (- 0)) with 1%R. by rewrite Rmult_1_r.
  - eexists. split; [done|]. by apply iter_shr_1.
Qed.

Lemma inside_of_loc m l : shr_m (shr_record_of_loc m l) = m.
Proof. by destruct l as [|[]]. Qed.

(** ** Rounding *)

Lemma round_nearest_even_spec mrs v :
  inside mrs v ->
  let n := round_nearest_even (shr_m mrs) (loc_of_shr_record mrs) in
  (shr_m mrs <= n <= shr_m mrs + 1)%Z /\
  (Rabs (IZR n - v) <= 1 / 2)%R /\ (Rabs (IZR n - v) = 1 / 2 -> Z.even n = true)%R.
Proof.
  destruct mrs as [m r s]. unfold inside. cbn. intros Hv. destruct r, s; cbn.
  - rewrite plus_IZR. split; [lia|]. rewrite Rabs_right by lra. split; [lra|]. intros; lra.
  - destruct (Z.even m) eqn:He.
    + split; [lia|]. split; [|done]. subst v. rewrite Rabs_left by lra. lra.
    + rewrite plus_IZR. split; [lia|]. subst v. rewrite Rabs_right by lra. split; [lra|].
      intros _. by rewrite Z.even_add, He.
  - split; [lia|]. rewrite Rabs_left by lra. split; [lra|]. intros; lra.
  - split; [lia|]. subst v. replace (IZR m - IZR m)%R with 0%R by lra. rewrite Rabs_R0.
    split; [lra|]. intros; lra.
Qed.

(** A mantissa of 53 bits, or the next power of two, is kept by the second
    shift. *)
Lemma shr_fexp_rounded n e :
  (2 ^ 52 <= n <= 2 ^ 53)%Z -> (-1000 <= e)%Z ->
  exists m e', (shr_m (shr_fexp 53 1024 n e loc_Exact).1, (shr_fexp 53 1024 n e loc_Exact).2) = (Zpos m, e') /\
    (2 ^ 52 <= Zpos m < 2 ^ 53)%Z /\ (e <= e' <= e + 1)%Z /\
    (IZR (Zpos m) * bpow e' = IZR n * bpow e)%R.
Proof.
  intros Hn He. unfold shr_fexp. destruct (Z.eq_dec n (2 ^ 53)) as [->|Hne].
  - change (Zdigits2 (2 ^ 53)) with 54%Z.
    rewrite fexp_normal by lia. replace (54 + e - 53 - e)%Z with 1%Z by lia.
    exists (2 ^ 52)%positive, (e + 1)%Z. split; [reflexivity|].
    split; [split; [discriminate|reflexivity]|]. split; [lia|].
    rewrite bpow_succ. change (Zpos (2 ^ 52)) with (2 ^ 52)%Z. change (2 ^ 53)%Z with (2 ^ 52 * 2)%Z.
    rewrite mult_IZR. lra.
  - destruct n as [|p|]; [lia| |lia]. cbn [Zdigits2].
    rewrite (digits2_unique p 53) by lia. rewrite fexp_normal by lia.
    replace (53 + e - 53 - e)%Z with 0%Z by lia. cbn [shr fst snd]. exists p, e.
    split; [reflexivity|]. split; [lia|]. split; [lia|lra].
Qed.

(** The rounding of the operations: a mantissa of at least 53 bits with the
    location of the rest. *)
Lemma binary_round_aux_nearest p e l v :
  (2 ^ 52 <= Zpos p)%Z -> (-1000 <= e)%Z -> (Zpos (digits2_pos p) + e <= 1000)%Z ->
  inside (shr_record_of_loc (Zpos p) l) (v * bpow (- e)) ->
  nearest v (binary_round_aux 53 1024 false (Zpos p) e l).
Proof.
  intros Hp He Hd Hv. set (d := Zpos (digits2_pos p)) in *.
  pose proof (digits2_bounds p) as Hb. fold d in Hb.
  assert (53 <= d)%Z as Hd53.
  { enough (52 < d)%Z by lia. apply (Z.pow_lt_mono_r_iff 2); lia. }
  pose proof (inside_bounds _ _ Hv) as Hin. rewrite inside_of_loc in Hin.
  assert (bpow (d - 1) <= v * bpow (- e) < bpow d)%R as Hmag.
  { rewrite (bpow_IZR (d - 1)), (bpow_IZR d) by lia. split.
    - etrans; [|apply Hin]. apply IZR_le. lia.
    - eapply Rlt_le_trans; [apply Hin|]. rewrite <- plus_IZR. apply IZR_le. lia. }
  apply bpow_scale in Hmag.
  unfold binary_round_aux, shr_fexp at 1. cbn [Zdigits2]. fold d. rewrite fexp_normal by lia.
  destruct (shr_inside (shr_record_of_loc (Zpos p) l) e (d + e - 53 - e) (v * bpow (- e)))
    as (mrs & -> & Hmrs); [lia|rewrite inside_of_loc; lia|done|].
  replace (e + (d + e - 53 - e))%Z with (d + e - 53)%Z by lia.
  rewrite Rmult_assoc, <- bpow_add in Hmrs.
  replace (- e + - (d + e - 53 - e))%Z with (- (d + e - 53))%Z in Hmrs by lia.
  set (e1 := (d + e - 53)%Z) in *.
  replace (e + (d - 1))%Z with (e1 + 52)%Z in Hmag by (unfold e1; lia).
  replace (e + d)%Z with (e1 + 53)%Z in Hmag by (unfold e1; lia).
  pose proof (inside_bounds _ _ Hmrs) as Hin1.
  pose proof (proj1 (bpow_scale _ _ _ _) Hmag) as Hmag1.
  rewrite (bpow_IZR 52), (bpow_IZR 53) in Hmag1 by lia.
  assert (2 ^ 52 <= shr_m mrs < 2 ^ 53)%Z as Hm.
  { split; [enough (2 ^ 52 < shr_m mrs + 1)%Z by lia|];
      apply lt_IZR; rewrite ?plus_IZR; lra. }
  destruct (round_nearest_even_spec mrs _ Hmrs) as (Hn & Herr & Htie).
  set (n := round_nearest_even _ _) in *.
  destruct (shr_fexp_rounded n e1) as (m & e2 & Heq & Hm2 & He2 & Hval); [lia|unfold e1; lia|].
  destruct (shr_fexp 53 1024 n e1 loc_Exact) as [mrs2 e2']. cbn [fst snd] in Heq.
  injection Heq as Hmm ->. rewrite Hmm. rewrite (proj2 (Z.leb_le e2 (1024 - 53))) by (unfold e1 in *; lia).
  exists n, e1. split; [lia|]. split; [done|]. split; [done|]. split; [done|].
  split; [exact Hval|]. by exists m, e2.
Qed.

Lemma iter_xO p d : Zpos (Pos.iter xO p d) = (Zpos p * 2 ^ Zpos d)%Z.
Proof.
  induction d as [|d IH] using Pos.peano_ind; [cbn; lia|].
  rewrite Pos.iter_succ, Pos2Z.inj_succ, Z.pow_succ_r by lia.
  change (Zpos (xO (Pos.iter xO p d))) with (2 * Zpos (Pos.iter xO p d))%Z. lia.
Qed.

(** [shl_align] changes the representation only. *)
Lemma shl_align_value p e e' :
  exists q, shl_align p e e' = (q, Z.min e e') /\ Zpos q = (Zpos p * 2 ^ (e - Z.min e e'))%Z.
Proof.
  unfold shl_align. destruct (e' - e)%Z as [|d|d] eqn:Hd.
  - exists p. split; [f_equal; lia|]. replace (e - Z.min e e')%Z with 0%Z by lia. cbn. lia.
  - exists p. split; [f_equal; lia|]. replace (e - Z.min e e')%Z with 0%Z by lia. cbn. lia.
  - exists (Pos.iter xO p d). split; [f_equal; lia|]. rewrite iter_xO.
    by replace (e - Z.min e e')%Z with (Zpos d) by lia.
Qed.

Lemma binary_round_nearest p e :
  (-900 <= e)%Z -> (Zpos (digits2_pos p) + e <= 900)%Z ->
  nearest (IZR (Zpos p) * bpow e) (binary_round 53 1024 false p e).
Proof.
  intros He Hd. unfold binary_round. pose proof (digits2_bounds p) as Hb.
  rewrite fexp_normal by lia. set (d := Zpos (digits2_pos p)) in *.
  destruct (shl_align_value p e (d + e - 53)) as (q & -> & Hq).
  assert (0 < d)%Z as Hd0 by (unfold d; lia).
  set (k := (e - Z.min e (d + e - 53))%Z) in *.
  assert (Zpos (digits2_pos q) = d + k)%Z as Hdq.
  { apply digits2_unique; [lia|]. rewrite Hq. replace (d + k - 1)%Z with (d - 1 + k)%Z by lia.
    rewrite !Z.pow_add_r by lia. nia. }
  apply binary_round_aux_nearest; [|lia..|].
  - etrans; [|apply digits2_bounds]. rewrite Hdq. apply Z.pow_le_mono_r; lia.
  - unfold inside. cbn. rewrite Hq, IZR_shift by lia. rewrite Rmult_assoc, <- bpow_add. done.
Qed.

(** ** The operations *)

Lemma f64_of_Z_nearest z : (0 < z <= u64_max)%Z -> nearest (IZR z) (f64_of_Z z).
Proof.
  unfold u64_max. intros Hz. destruct z as [|p|]; [lia| |lia]. cbn.
  replace (IZR (Zpos p)) with (IZR (Zpos p) * bpow 0)%R by (rewrite bpow_0; lra).
  apply binary_round_nearest; [lia|]. pose proof (digits2_bounds p).
  enough (Zpos (digits2_pos p) - 1 < 64)%Z by lia. apply (Z.pow_lt_mono_r_iff 2); lia.
Qed.

Lemma to_R_finite m e : to_R (S754_finite false m e) = (IZR (Zpos m) * bpow e)%R.
Proof. done. Qed.

Lemma f64_mul_nearest x y :
  normal 300 x -> normal 300 y -> nearest (to_R x * to_R y) (f64_mul x y).
Proof.
  intros (m1 & e1 & -> & Hm1 & He1) (m2 & e2 & -> & Hm2 & He2). rewrite !to_R_finite.
  unfold f64_mul, SFmul. cbn [xorb].
  assert (2 ^ 104 <= Zpos (m1 * m2) < 2 ^ 106)%Z as Hm.
  { rewrite Pos2Z.inj_mul. change (2 ^ 104)%Z with (2 ^ 52 * 2 ^ 52)%Z.
    change (2 ^ 106)%Z with (2 ^ 53 * 2 ^ 53)%Z. nia. }
  apply binary_round_aux_nearest; [lia|lia| |].
  - pose proof (digits2_bounds (m1 * m2)).
    enough (Zpos (digits2_pos (m1 * m2)) - 1 < 106)%Z by lia. apply (Z.pow_lt_mono_r_iff 2); lia.
  - unfold inside. cbn [shr_record_of_loc shr_r shr_s shr_m].
    rewrite Pos2Z.inj_mul, mult_IZR.
    replace (IZR (Zpos m1) * bpow e1 * (IZR (Zpos m2) * bpow e2) * bpow (- (e1 + e2)))%R
      with (IZR (Zpos m1) * IZR (Zpos m2) * (bpow e1 * bpow e2 * bpow (- (e1 + e2))))%R by lra.
    rewrite <- (bpow_add e1 e2), bpow_opp. lra.
Qed.

(** The remainder of a division locates the quotient. *)
Lemma new_location_inside q r m :
  (0 <= r < m)%Z -> inside (shr_record_of_loc q (new_location m r)) (IZR q + IZR r / IZR m).
Proof.
  intros Hr. assert (0 < IZR m)%R as Hm by (apply IZR_lt; lia).
  assert (forall c, IZR c = IZR m * (IZR c / IZR m))%R as Hdiv by (intros c; field; lra).
  unfold inside, new_location. assert (IZR m / IZR m = 1)%R as H1 by (field; lra).
  assert (forall a, IZR r < IZR a -> IZR r / IZR m < IZR a / IZR m)%R as Hlt.
  { intros a Ha. apply Rmult_lt_compat_r; [by apply Rinv_0_lt_compat|done]. }
  destruct (Z.eq_dec r 0) as [->|Hr0].
  { unfold new_location_even, new_location_odd. cbn. destruct (Z.even m); cbn; lra. }
  assert (0 < IZR r / IZR m < 1)%R as H01.
  { split; [apply Rdiv_lt_0_compat; [apply IZR_lt; lia|done]|]. rewrite <- H1. apply Hlt, IZR_lt. lia. }
  assert ((2 * r < m)%Z -> (IZR r / IZR m < 1 / 2)%R) as HL.
  { intros Hc. apply IZR_lt in Hc. rewrite mult_IZR in Hc. specialize (Hdiv r). nra. }
  assert ((m < 2 * r)%Z -> (1 / 2 < IZR r / IZR m)%R) as HG.
  { intros Hc. apply IZR_lt in Hc. rewrite mult_IZR in Hc. specialize (Hdiv r). nra. }
  assert ((2 * r = m)%Z -> (IZR r / IZR m = 1 / 2)%R) as HE.
  { intros Hc. apply (f_equal IZR) in Hc. rewrite mult_IZR in Hc. rewrite <- Hc. field.
    apply not_0_IZR. lia. }
  apply Z.eqb_neq in Hr0. change IntDef.Z.even with Z.even.
  destruct (Z.even m) eqn:He; unfold new_location_even, new_location_odd;
    change IntDef.Z.eqb with Z.eqb; change IntDef.Z.compare with Z.compare; rewrite Hr0.
  - destruct (Z.compare_spec (2 * r) m) as [Hc|Hc|Hc]; cbn;
      [apply HE in Hc|apply HL in Hc|apply HG in Hc]; lra.
  - apply (f_equal negb) in He. rewrite Z.negb_even in He. apply Z.odd_spec in He as [k Hk].
    assert (2 * r < m \/ m < 2 * r)%Z as [Hc|Hc] by lia.
    + apply HL in Hc as Hv. destruct (Z.compare_spec (2 * r + 1) m); cbn; lra || lia.
    + apply HG in Hc as Hv. destruct (Z.compare_spec (2 * r + 1) m); cbn; lra || lia.
Qed.

Lemma f64_div_nearest x y :
  normal 300 x -> normal 300 y -> nearest (to_R x / to_R y) (f64_div x y).
Proof.
  intros (m1 & e1 & -> & Hm1 & He1) (m2 & e2 & -> & Hm2 & He2). rewrite !to_R_finite.
  unfold f64_div, SFdiv, SFdiv_core_binary. cbn [xorb Zdigits2].
  rewrite !(digits2_unique _ 53) by lia. rewrite fexp_normal by lia.
  replace (Z.min (53 + e1 - (53 + e2) - 53) (e1 - e2)) with (e1 - e2 - 53)%Z by lia.
  replace (e1 - e2 - (e1 - e2 - 53))%Z with 53%Z by lia.
  rewrite Z.shiftl_mul_pow2 by lia.
  pose proof (Z_div_mod (Zpos m1 * 2 ^ 53) (Zpos m2)) as Hqr.
  destruct (Z.div_eucl _ _) as [q r]. destruct Hqr as [Hq Hr]; [lia|].
  assert (2 ^ 52 <= q < 2 ^ 54)%Z as Hqb.
  { change (2 ^ 53)%Z with (2 * 2 ^ 52)%Z in *. change (2 ^ 54)%Z with (4 * 2 ^ 52)%Z.
    remember (2 ^ 52)%Z as b. nia. }
  destruct q as [|q|]; [lia| |lia].
  apply binary_round_aux_nearest; [lia|lia| |].
  - pose proof (digits2_bounds q).
    enough (Zpos (digits2_pos q) - 1 < 54)%Z by lia. apply (Z.pow_lt_mono_r_iff 2); lia.
  - assert (0 < IZR (Zpos m2))%R as Hp2 by (apply IZR_lt; lia).
    replace (IZR (Zpos m1) * bpow e1 / (IZR (Zpos m2) * bpow e2) * bpow (- (e1 - e2 - 53)))%R
      with (IZR (Zpos q) + IZR r / IZR (Zpos m2))%R; [by apply new_location_inside|].
    apply (f_equal IZR) in Hq. rewrite IZR_shift, plus_IZR, mult_IZR in Hq by lia.
    replace (bpow (- (e1 - e2 - 53))) with (bpow (- e1) * bpow e2 * bpow 53)%R.
    2: { rewrite <- !bpow_add. f_equal. lia. }
    pose proof (bpow_opp e1) as E1. pose proof (bpow_pos e1). pose proof (bpow_pos e2).
    replace (IZR (Zpos m1) * bpow e1 / (IZR (Zpos m2) * bpow e2) * (bpow (- e1) * bpow e2 * bpow 53))%R
      with (IZR (Zpos m1) * bpow 53 * (bpow e1 * bpow (- e1)) / IZR (Zpos m2))%R by (field; lra).
    rewrite E1, Rmult_1_r, Hq. field. lra.
Qed.

Definition f64_one : f64 := S754_finite false (2 ^ 52) (-52).

Lemma f64_of_Z_1 : f64_of_Z 1 = f64_one.
Proof. reflexivity. Qed.

Lemma to_R_one : to_R f64_one = 1%R.
Proof.
  cbn [to_R f64_one cond_Zopp]. change (Zpos (2 ^ 52)) with (1 * 2 ^ 52)%Z.
  rewrite IZR_shift by lia. rewrite Rmult_assoc, <- bpow_add. rewrite Rmult_1_l. exact bpow_0.
Qed.

(** What is left of one. *)
Lemma f64_one_sub_nearest x :
  normal 200 x -> (to_R x < 1)%R ->
  nearest (1 - to_R x) (f64_sub f64_one x) /\ (bpow (-200) <= 1 - to_R x)%R.
Proof.
  intros (m & e & -> & Hm & He) Hx. rewrite to_R_finite in *.
  assert (e < -52)%Z as He52.
  { destruct (Z.lt_ge_cases e (-52)) as [|Hge]; [done|]. apply bpow_le in Hge.
    pose proof to_R_one as E1. unfold f64_one in E1. rewrite to_R_finite in E1.
    assert (IZR (Zpos (2 ^ 52)) <= IZR (Zpos m))%R by (apply IZR_le; exact (proj1 Hm)).
    pose proof (bpow_pos (-52)). exfalso.
    enough (IZR (Zpos (2 ^ 52)) * bpow (-52) <= IZR (Zpos m) * bpow e)%R by lra.
    apply Rmult_le_compat; try lra. apply IZR_le. discriminate. }
  unfold f64_sub, f64_one, SFsub.
  destruct (shl_align_value (2 ^ 52) (-52) (Z.min (-52) e)) as (q & -> & Hq).
  destruct (shl_align_value m e (Z.min (-52) e)) as (m' & -> & Hm').
  cbn [fst cond_Zopp]. replace (Z.min (-52) (Z.min (-52) e)) with e in Hq by lia.
  replace (Z.min e (Z.min (-52) e)) with e in Hm' by lia. rewrite Z.min_r by lia.
  rewrite Z.sub_diag, Z.mul_1_r in Hm'. injection Hm' as ->.
  assert (1 = IZR (Zpos q) * bpow e)%R as Hone.
  { rewrite Hq, IZR_shift by lia. rewrite Rmult_assoc, <- bpow_add.
    replace (-52 - e + e)%Z with (-52)%Z by lia. symmetry. exact to_R_one. }
  assert (Zpos m < Zpos q)%Z as Hlt.
  { apply lt_IZR. pose proof (bpow_pos e). apply Rmult_lt_reg_r with (bpow e); lra. }
  destruct (Zpos q - Zpos m)%Z as [|p|] eqn:Hp; [lia| |lia]. cbn [binary_normalize].
  rewrite Hone. rewrite <- Rmult_minus_distr_r, <- minus_IZR, Hp. split.
  2: { transitivity (bpow e); [apply bpow_le; lia|]. pose proof (bpow_pos e).
       assert (1 <= IZR (Zpos p))%R by (apply IZR_le; lia). nra. }
  apply binary_round_nearest; [lia|].
  assert (Zpos p < 2 ^ (- e))%Z as Hpb.
  { apply lt_IZR. rewrite <- bpow_IZR by lia. apply Rmult_lt_reg_r with (bpow e); [apply bpow_pos|].
    rewrite (Rmult_comm (bpow (- e))), bpow_opp. rewrite <- Hp, minus_IZR.
    assert (0 < IZR (Zpos m) * bpow e)%R by (apply Rmult_lt_0_compat; [by apply IZR_lt|apply bpow_pos]).
    lra. }
  pose proof (digits2_bounds p).
  enough (Zpos (digits2_pos p) - 1 < - e)%Z by lia. apply (Z.pow_lt_mono_r_iff 2); lia.
Qed.

(** ** Accuracy and order *)

Lemma nearest_normal v x a :
  nearest v x -> (0 <= a)%Z -> (bpow (- a) <= v <= bpow a)%R -> normal (a + 54) x.
Proof.
  intros (n & e & _ & Hv & _ & _ & _ & m & e' & -> & Hm & He') Ha Hb. exists m, e'.
  split; [done|]. split; [done|].
  assert (e + 52 < a + 1)%Z.
  { apply bpow_lt_inv. pose proof (bpow_le a a). rewrite bpow_succ. pose proof (bpow_pos a). lra. }
  assert (- a < e + 53)%Z by (apply bpow_lt_inv; lra). lia.
Qed.

Lemma nearest_finite v x : nearest v x -> finite x.
Proof. by intros (n & e & _ & _ & _ & _ & _ & m & e' & -> & _). Qed.

(** Half a unit in the last of 53 places. *)
Definition half_ulp : R := bpow (-53).

Lemma nearest_error v x : nearest v x -> (Rabs (to_R x - v) <= half_ulp * v)%R.
Proof.
  intros (n & e & Hn & Hv & Herr & _ & -> & _).
  replace (IZR n * bpow e - v)%R with ((IZR n - v * bpow (- e)) * bpow e)%R.
  2: { rewrite Rmult_minus_distr_r, Rmult_assoc, (Rmult_comm (bpow (- e))), bpow_opp. lra. }
  pose proof (bpow_pos e). rewrite Rabs_mult, (Rabs_right (bpow e)) by lra.
  transitivity (1 / 2 * bpow e)%R; [apply Rmult_le_compat_r; lra|].
  transitivity (half_ulp * bpow (e + 52))%R.
  - unfold half_ulp. rewrite <- bpow_add. replace (-53 + (e + 52))%Z with (e - 1)%Z by lia.
    replace e with (e - 1 + 1)%Z at 1 by lia. rewrite bpow_succ. lra.
  - apply Rmult_le_compat_l; [apply Rlt_le, bpow_pos|lra].
Qed.

Lemma nearest_le v w x y : nearest v x -> nearest w y -> (v <= w)%R -> (to_R x <= to_R y)%R.
Proof.
  intros (n1 & e1 & Hn1 & Hv1 & Herr1 & Htie1 & -> & _) (n2 & e2 & Hn2 & Hv2 & Herr2 & Htie2 & -> & _) Hvw.
  assert (e1 + 52 < e2 + 53)%Z as He by (apply bpow_lt_inv; lra).
  destruct (Z.eq_dec e1 e2) as [->|Hne].
  - apply Rmult_le_compat_r; [apply Rlt_le, bpow_pos|]. apply IZR_le.
    destruct (Z.le_gt_cases n1 n2) as [|Hgt]; [done|]. exfalso.
    assert (IZR n2 + 1 <= IZR n1)%R as Hgt' by (rewrite <- plus_IZR; apply IZR_le; lia).
    assert (v * bpow (- e2) <= w * bpow (- e2))%R
      by (apply Rmult_le_compat_r; [apply Rlt_le, bpow_pos|done]).
    set (a := (v * bpow (- e2))%R) in *. set (b := (w * bpow (- e2))%R) in *.
    apply Rabs_bounds in Herr1 as Ha, Herr2 as Hb.
    assert (IZR n1 - a = 1 / 2)%R as E1 by lra. assert (IZR n2 - b = - (1 / 2))%R as E2 by lra.
    rewrite E1, Rabs_right in Htie1 by lra. rewrite E2, Rabs_Ropp, Rabs_right in Htie2 by lra.
    assert (n1 = n2 + 1)%Z as ->.
    { apply eq_IZR. rewrite plus_IZR. lra. }
    rewrite Z.even_add, Htie2 in Htie1 by done. by specialize (Htie1 eq_refl).
  - assert (0 < bpow e1)%R by apply bpow_pos. assert (0 < bpow e2)%R by apply bpow_pos.
    transitivity (bpow (e1 + 53)).
    + rewrite (Z.add_comm e1), bpow_add, (bpow_IZR 53) by lia.
      apply Rmult_le_compat_r; [lra|]. apply IZR_le. lia.
    + transitivity (bpow (e2 + 52)); [apply bpow_le; lia|].
      rewrite (Z.add_comm e2), bpow_add, (bpow_IZR 52) by lia.
      apply Rmult_le_compat_r; [lra|]. apply IZR_le. lia.
Qed.

(** ** Percentages of counters *)

Lemma half_ulp_value : half_ulp = (/ 9007199254740992)%R.
Proof.
  pose proof (bpow_opp 53) as E. rewrite (bpow_IZR 53) in E by lia. unfold half_ulp.
  apply Rmult_eq_reg_l with (IZR (2 ^ 53)); [|by apply not_0_IZR].
  change (-53)%Z with (- (53))%Z. rewrite E. change (2 ^ 53)%Z with 9007199254740992%Z. lra.
Qed.

Lemma nearest_range v x : nearest v x -> (0 < v)%R -> (v / 2 <= to_R x <= 2 * v)%R.
Proof.
  intros Hx Hv. apply nearest_error, Rabs_bounds in Hx. rewrite half_ulp_value in Hx. lra.
Qed.

Lemma normal_mono a b x : (a <= b)%Z -> normal a x -> normal b x.
Proof. intros Hab (m & e & -> & Hm & He). exists m, e. split; [done|]. split; [done|lia]. Qed.

Definition f64_hundred : f64 := f64_of_Z 100.

Lemma to_R_hundred : to_R f64_hundred = 100%R.
Proof.
  change f64_hundred with (S754_finite false 7036874417766400 (-46)). rewrite to_R_finite.
  change (Zpos 7036874417766400) with (100 * 2 ^ 46)%Z. rewrite IZR_shift by lia.
  rewrite Rmult_assoc, <- bpow_add. change (bpow (46 + -46)) with 1%R. lra.
Qed.

Lemma normal_hundred : normal 300 f64_hundred.
Proof.
  exists 7036874417766400%positive, (-46)%Z. split; [reflexivity|].
  split; [split; [discriminate|reflexivity]|lia].
Qed.

Lemma normal_one b x : normal b x -> to_R x = 1%R -> x = f64_one.
Proof.
  intros (m & e & -> & Hm & _) Hx. rewrite to_R_finite in Hx. pose proof (bpow_pos e).
  assert (bpow 52 <= IZR (Zpos m) < bpow 53)%R as Hm'.
  { rewrite (bpow_IZR 52), (bpow_IZR 53) by lia. split; [apply IZR_le|apply IZR_lt]; lia. }
  assert (bpow (52 + e) <= bpow 0 < bpow (53 + e))%R as He.
  { rewrite !bpow_add, bpow_0, <- Hx. split; [apply Rmult_le_compat_r|apply Rmult_lt_compat_r]; lra. }
  assert (0 < 53 + e)%Z by (apply bpow_lt_inv; lra).
  assert (52 + e < 1)%Z by (apply bpow_lt_inv; rewrite bpow_1; rewrite bpow_0 in He; lra).
  assert (e = -52)%Z as -> by lia. rewrite <- to_R_one in Hx. unfold f64_one in *.
  rewrite to_R_finite in Hx. pose proof (bpow_pos (-52)).
  apply Rmult_eq_reg_r, eq_IZR in Hx; [congruence|lra].
Qed.

Lemma nearest_one : nearest 1 f64_one.
Proof. apply (f64_of_Z_nearest 1). unfold u64_max. lia. Qed.
Lemma nearest_hundred : nearest 100 f64_hundred.
Proof. apply (f64_of_Z_nearest 100). unfold u64_max. lia. Qed.

(** A counter as a double. *)
Lemma counter_range z :
  (0 < z <= u64_max)%Z -> (1 / 2 <= to_R (f64_of_Z z) <= bpow 65)%R /\ normal 300 (f64_of_Z z).
Proof.
  intros Hz. pose proof (f64_of_Z_nearest z Hz) as Hn.
  assert (1 <= IZR z <= bpow 64)%R as Hv.
  { rewrite bpow_IZR by lia. unfold u64_max in Hz. split; apply IZR_le; lia. }
  pose proof (nearest_range _ _ Hn ltac:(lra)). split.
  - change (bpow 65) with (bpow (64 + 1)). rewrite bpow_succ. lra.
  - apply (normal_mono (64 + 54)); [lia|]. apply (nearest_normal _ _ 64 Hn); [lia|].
    split; [|lra]. transitivity 1%R; [|lra]. change 1%R with (bpow 0). apply bpow_le. lia.
Qed.

(** The error of a quotient whose operands carry a relative error [u]. *)
Lemma quotient_accuracy u x y a b :
  (0 < u < 1 / 1000 -> 0 < a -> 0 < b -> Rabs (x - a) <= u * a -> Rabs (y - b) <= u * b ->
   Rabs (x / y - a / b) <= 3 * u * (a / b))%R.
Proof.
  intros Hu Ha Hb Hx%Rabs_bounds Hy%Rabs_bounds. assert (0 < y)%R as Hy0 by nra.
  assert (a = a / b * b)%R as Ea by (field; lra).
  assert (x = x / y * y)%R as Ex by (field; lra).
  assert (0 < a / b)%R as Hr by (by apply Rdiv_lt_0_compat).
  remember (a / b)%R as r. remember (x / y)%R as q. clear Heqr Heqq.
  rewrite Ea, Ex in Hx.
  assert (0 < r * b)%R as Hrb by (by apply Rmult_lt_0_compat).
  apply Rabs_le. split.
  - enough ((1 - 3 * u) * r <= q)%R by lra. apply Rmult_le_reg_r with y; [lra|].
    transitivity ((1 - 3 * u) * r * ((1 + u) * b))%R; [apply Rmult_le_compat_l; [apply Rmult_le_pos|]; lra|].
    transitivity ((1 - u) * (r * b))%R; [|lra].
    replace ((1 - 3 * u) * r * ((1 + u) * b))%R with (((1 - 3 * u) * (1 + u)) * (r * b))%R by ring.
    apply Rmult_le_compat_r; nra.
  - enough (q <= (1 + 3 * u) * r)%R by lra. apply Rmult_le_reg_r with y; [lra|].
    transitivity ((1 + u) * (r * b))%R; [lra|].
    transitivity ((1 + 3 * u) * r * ((1 - u) * b))%R; [|apply Rmult_le_compat_l; [apply Rmult_le_pos|]; lra].
    replace ((1 + 3 * u) * r * ((1 - u) * b))%R with (((1 + 3 * u) * (1 - u)) * (r * b))%R by ring.
    apply Rmult_le_compat_r; nra.
Qed.

(** The quotient of two counters: its size, its error and its order with one. *)
Definition f64_share (a b : Z) : f64 := f64_div (f64_of_Z a) (f64_of_Z b).

Section share.
Context (a b : Z) (Ha : (0 < a <= u64_max)%Z) (Hb : (0 < b <= u64_max)%Z).

#[local] Notation A := (to_R (f64_of_Z a)).
#[local] Notation B := (to_R (f64_of_Z b)).

Lemma share_nearest : nearest (A / B) (f64_share a b).
Proof using All. apply f64_div_nearest; by apply counter_range. Qed.

Lemma quotient_range : (bpow (-66) <= A / B <= bpow 66)%R.
Proof using All.
  destruct (counter_range a Ha) as [HA _], (counter_range b Hb) as [HB _].
  assert (A = A / B * B)%R as E by (field; lra). set (r := (A / B)%R) in *.
  pose proof (bpow_opp 66) as E66. change (- (66))%Z with (-66)%Z in E66.
  assert (bpow 66 = 2 * bpow 65)%R as E65 by exact (bpow_succ 65). rewrite E65 in *.
  pose proof (bpow_pos 65). pose proof (bpow_pos (-66)).
  assert (0 < r)%R as Hr by (apply Rdiv_lt_0_compat; lra).
  split; nra.
Qed.

Lemma share_normal : normal 200 (f64_share a b).
Proof using All.
  apply (normal_mono (66 + 54)); [lia|].
  apply (nearest_normal _ _ 66 share_nearest); [lia|]. apply quotient_range.
Qed.

Lemma quotient_error :
  (Rabs (A / B - IZR a / IZR b) <= 3 * half_ulp * (IZR a / IZR b))%R.
Proof using All.
  apply quotient_accuracy.
  - rewrite half_ulp_value. lra.
  - apply IZR_lt. lia.
  - apply IZR_lt. lia.
  - by apply nearest_error, f64_of_Z_nearest.
  - by apply nearest_error, f64_of_Z_nearest.
Qed.

Lemma share_error :
  (Rabs (to_R (f64_share a b) - IZR a / IZR b) <= 5 * half_ulp * (IZR a / IZR b))%R.
Proof using All.
  pose proof quotient_error as H1%Rabs_bounds.
  pose proof (nearest_error _ _ share_nearest) as H2%Rabs_bounds.
  assert (0 < IZR a / IZR b)%R as Hr by (apply Rdiv_lt_0_compat; apply IZR_lt; lia).
  rewrite half_ulp_value in *. apply Rabs_le. lra.
Qed.

Lemma share_le_one : (a <= b)%Z -> (to_R (f64_share a b) <= 1)%R.
Proof using All.
  intros Hab. rewrite <- to_R_one. apply (nearest_le _ _ _ _ share_nearest nearest_one).
  destruct (counter_range b Hb) as [HB _]. apply Rmult_le_reg_r with B; [lra|].
  replace (A / B * B)%R with A by (field; lra). rewrite Rmult_1_l.
  apply (nearest_le (IZR a) (IZR b)); [by apply f64_of_Z_nearest..|by apply IZR_le].
Qed.

Lemma share_ge_one : (b <= a)%Z -> (1 <= to_R (f64_share a b))%R.
Proof using All.
  intros Hab. rewrite <- to_R_one. apply (nearest_le _ _ _ _ nearest_one share_nearest).
  destruct (counter_range b Hb) as [HB _]. apply Rmult_le_reg_r with B; [lra|].
  replace (A / B * B)%R with A by (field; lra). rewrite Rmult_1_l.
  apply (nearest_le (IZR b) (IZR a)); [by apply f64_of_Z_nearest..|by apply IZR_le].
Qed.

(** [a as f64 / b as f64 * 100.0]. *)
Lemma percent_of_counters (x := f64_mul (f64_share a b) f64_hundred) :
  finite x /\ (0 <= to_R x)%R /\
  ((a <= b)%Z -> (to_R x <= 100)%R) /\ ((b <= a)%Z -> (100 <= to_R x)%R) /\
  (Rabs (to_R x - 100 * (IZR a / IZR b)) <= 7 * half_ulp * (100 * (IZR a / IZR b)))%R.
Proof using All.
  assert (normal 300 (f64_share a b)) as Hq by (by apply (normal_mono 200), share_normal).
  pose proof (f64_mul_nearest _ _ Hq normal_hundred) as Hn.
  fold x in Hn. rewrite to_R_hundred in Hn. split; [by eapply nearest_finite|].
  pose proof share_error as Hs%Rabs_bounds. pose proof (nearest_error _ _ Hn) as He%Rabs_bounds.
  assert (0 < IZR a / IZR b)%R as Hr by (apply Rdiv_lt_0_compat; apply IZR_lt; lia).
  rewrite half_ulp_value in *. split; [lra|]. split; [|split].
  - intros Hab%share_le_one. rewrite <- to_R_hundred.
    apply (nearest_le _ _ _ _ Hn nearest_hundred). lra.
  - intros Hab%share_ge_one. rewrite <- to_R_hundred.
    apply (nearest_le _ _ _ _ nearest_hundred Hn). lra.
  - apply Rabs_le. lra.
Qed.

(** [(1.0 - a as f64 / b as f64) * 100.0]. *)
Lemma rest_of_counters (x := f64_mul (f64_sub f64_one (f64_share a b)) f64_hundred) :
  (a <= b)%Z ->
  finite x /\ (0 <= to_R x <= 100)%R /\
  (Rabs (to_R x - 100 * (1 - IZR a / IZR b)) <= 800 * half_ulp)%R.
Proof using All.
  intros Hab. pose proof (share_le_one Hab) as H1. pose proof share_error as Hs%Rabs_bounds.
  assert (0 < IZR a / IZR b)%R as Hr by (apply Rdiv_lt_0_compat; apply IZR_lt; lia).
  assert (IZR a / IZR b <= 1)%R as Hr1.
  { apply Rmult_le_reg_r with (IZR b); [apply IZR_lt; lia|].
    replace (IZR a / IZR b * IZR b)%R with (IZR a) by (field; apply not_0_IZR; lia).
    rewrite Rmult_1_l. by apply IZR_le. }
  destruct (Rle_lt_or_eq_dec _ _ H1) as [Hlt|Heq].
  - destruct (f64_one_sub_nearest _ share_normal Hlt) as [Hd Hlow].
    assert (normal 300 (f64_sub f64_one (f64_share a b))) as Hdn.
    { apply (normal_mono (200 + 54)); [lia|]. apply (nearest_normal _ _ 200 Hd); [lia|].
      split; [done|]. transitivity (bpow 0); [|apply bpow_le; lia]. rewrite bpow_0.
      rewrite half_ulp_value in Hs. lra. }
    pose proof (f64_mul_nearest _ _ Hdn normal_hundred) as Hn. fold x in Hn. rewrite to_R_hundred in Hn.
    split; [by eapply nearest_finite|].
    pose proof (nearest_error _ _ Hd) as Hde%Rabs_bounds. pose proof (nearest_error _ _ Hn) as He%Rabs_bounds.
    pose proof (bpow_pos (-200)).
    assert (to_R (f64_sub f64_one (f64_share a b)) <= 1)%R as Hd1.
    { rewrite <- to_R_one. apply (nearest_le _ _ _ _ Hd nearest_one).
      rewrite half_ulp_value in Hs. lra. }
    rewrite half_ulp_value in *. split; [split|apply Rabs_le; lra]; [lra|].
    rewrite <- to_R_hundred. apply (nearest_le _ _ _ _ Hn nearest_hundred). lra.
  - unfold x. rewrite (normal_one _ _ share_normal Heq).
    change (f64_sub f64_one f64_one) with (S754_zero false).
    change (f64_mul (S754_zero false) f64_hundred) with (S754_zero false).
    cbn [to_R finite]. split; [done|]. split; [lra|]. rewrite half_ulp_value in *. apply Rabs_le. lra.
Qed.
End share.

(** [x] is the share [r] as a percentage, up to rounding. *)
Definition percentage (x : f64) (r : R) : Prop :=
  finite x /\ (0 <= to_R x <= 100)%R /\ (Rabs (to_R x - 100 * r) <= / 10 ^ 13)%R.

Lemma ten_pow_13 : (/ 10 ^ 13 = / 10000000000000)%R.
Proof. f_equal. lra. Qed.
Lemma ten_pow_15 : (/ 10 ^ 15 = / 1000000000000000)%R.
Proof. f_equal. lra. Qed.

Lemma share_zero b : (0 < b <= u64_max)%Z -> f64_share 0 b = S754_zero false.
Proof. intros Hb. unfold f64_share. by destruct (counter_range b Hb) as [_ (m & e & -> & _)]. Qed.

Lemma percentage_of_counters a b :
  (0 <= a <= b)%Z -> (0 < b <= u64_max)%Z ->
  percentage (f64_mul (f64_share a b) f64_hundred) (IZR a / IZR b).
Proof.
  intros Ha Hb. destruct (Z.eq_dec a 0) as [->|Hne].
  - rewrite share_zero by done.
    change (f64_mul (S754_zero false) f64_hundred) with (S754_zero false).
    unfold percentage. cbn [to_R finite]. split; [done|]. split; [lra|]. unfold Rdiv. rewrite Rmult_0_l.
    replace (0 - 100 * 0)%R with 0%R by lra. rewrite Rabs_R0, ten_pow_13. lra.
  - destruct (percent_of_counters a b) as (Hf & H0 & H100 & _ & He); [lia..|].
    split; [done|]. split; [split; [done|apply H100; lia]|]. etrans; [exact He|].
    assert (IZR a / IZR b <= 1)%R.
    { apply Rmult_le_reg_r with (IZR b); [apply IZR_lt; lia|].
      replace (IZR a / IZR b * IZR b)%R with (IZR a) by (field; apply not_0_IZR; lia).
      rewrite Rmult_1_l. apply IZR_le. lia. }
    rewrite half_ulp_value, ten_pow_13. lra.
Qed.

Lemma percentage_of_rest a b :
  (0 <= a <= b)%Z -> (0 < b <= u64_max)%Z ->
  percentage (f64_mul (f64_sub f64_one (f64_share a b)) f64_hundred) (1 - IZR a / IZR b).
Proof.
  intros Ha Hb. destruct (Z.eq_dec a 0) as [->|Hne].
  - rewrite share_zero by done.
    change (f64_mul (f64_sub f64_one (S754_zero false)) f64_hundred) with f64_hundred.
    split; [done|]. rewrite to_R_hundred. split; [lra|].
    unfold Rdiv. rewrite Rmult_0_l.
    replace (100 - 100 * (1 - 0))%R with 0%R by lra. rewrite Rabs_R0, ten_pow_13. lra.
  - destruct (rest_of_counters a b) as (Hf & H0 & He); [lia..|].
    split; [done|]. split; [done|]. etrans; [exact He|]. rewrite half_ulp_value, ten_pow_13. lra.
Qed.
