(* ===== verification/AgentHeartbeat.v ===== *)
(** * Heartbeats on the agent

    [src/robot-agent/src/heartbeat.rs]: the CPU and memory readings of a
    heartbeat, from the texts under [/proc] to the doubles that are sent. *)

From Stdlib Require Import Ascii.
From S2P Require Import Prelude F64 Sqlite Async Pki Grpc RustStr AgentBoot.

(** [str::lines]: the pieces that a newline ends, without it and a carriage
    return before it, and the rest if it is not empty. *)
Definition newline : ascii := "010"%char.
Definition strip_cr (s : string) : string :=
  match strip_prefix (bytes_str [13]) (String.rev s) with
  | Some r => String.rev r
  | None => s
  end.
Definition lines (s : string) : list string :=
  let pieces := split_on newline s in
  (strip_cr <$> removelast pieces) ++
  match last pieces with Some (String a s) => [String a s] | _ => [] end.

(** [str::split_whitespace]: the pieces between runs of white space. *)
Fixpoint split_ws (fuel : nat) (word s : string) : list string :=
  let flush := if decide (word = "") then [] else [word] in
  match fuel with
  | 0 => flush
  | S fuel =>
      match strip_one white_space s, s with
      | Some s', _ => flush ++ split_ws fuel "" s'
      | None, String a s' => split_ws fuel (word +:+ String a "") s'
      | None, EmptyString => flush
      end
  end.
Definition split_whitespace (s : string) : list string := split_ws (S (String.length s)) "" s.

(** [s.parse::<u64>().ok()]. *)
Definition parse_u64 (s : string) : option Z := parse_unsigned u64_max s.

Section readings.
Context `{BuildProfile}.

(** [iter().sum::<u64>()]. *)
Definition sum_u64 (l : list Z) : outcome unit Z :=
  foldl (fun acc x => a ← acc; u64_arith (a + x)) (Ok 0%Z) l.

(** [read_cpu_usage] on the contents of [/proc/stat], if it can be read. *)
Definition read_cpu_usage (stat : option string) : outcome unit f64 :=
  match stat with
  | None => Ok (f64_of_Z 0)
  | Some stat =>
      let line := default "" (head (lines stat)) in
      let nums := omap parse_u64 (drop 1 (split_whitespace line)) in
      if decide (length nums < 4) then Ok (f64_of_Z 0)
      else
        let idle := default 0%Z (nums !! 3) in
        total ← sum_u64 nums;
        if (total =? 0)%Z then mret (f64_of_Z 0)
        else mret (f64_mul (f64_sub (f64_of_Z 1) (f64_div (f64_of_Z idle) (f64_of_Z total)))
                     (f64_of_Z 100))
  end.

(** [line.split_whitespace().nth(1).and_then(|v| v.parse().ok()).unwrap_or(0)]. *)
Definition second_number (line : string) : Z :=
  default 0%Z (split_whitespace line !! 1 ≫= parse_u64).

Definition starts_with (p s : string) : bool :=
  match strip_prefix p s with Some _ => true | None => false end.

(** One line of [/proc/meminfo]. *)
Definition meminfo_line (acc : Z * Z) (line : string) : Z * Z :=
  let '(total, available) := acc in
  if starts_with "MemTotal:" line then (second_number line, available)
  else if starts_with "MemAvailable:" line then (total, second_number line)
  else (total, available).

Definition read_memory_usage (info : option string) : outcome unit f64 :=
  match info with
  | None => Ok (f64_of_Z 0)
  | Some info =>
      let '(total, available) := foldl meminfo_line (0, 0)%Z (lines info) in
      if (total =? 0)%Z then Ok (f64_of_Z 0)
      else
        used ← u64_arith (total - available);
        mret (f64_mul (f64_div (f64_of_Z used) (f64_of_Z total)) (f64_of_Z 100))
  end.
End readings.
