(* ===== verification/AgentLoops.v ===== *)
(** * The agent online

    The loops of phase 3: the heartbeat stream
    ([src/robot-agent/src/heartbeat.rs]) and the telemetry stream
    ([src/robot-agent/src/telemetry.rs]) with the tasks that feed them, and the [select!] of [src/robot-agent/src/main.rs]
    that ends the agent.  A task that feeds a stream is a function of what the
    host shows it and of how many sends its channel takes before the receiver
    is dropped; the answer to a stream is the list of its items up to its
    end. *)

From Stdlib Require Import Init.Byte.
From S2P Require Import Prelude F64 Sqlite Async Pki Grpc AgentBoot AgentOta AgentHeartbeat.
From S2P Require Import AgentTelemetry.

(** ** Effects *)

(** [/proc/stat] and [/proc/meminfo], if they can be read. *)
Record ProcFs := mkProc { proc_stat : option string; proc_meminfo : option string }.

(** The clock of the sine wave in nanoseconds: when the task started, and the
    two readings of each turn of its loop. *)
Record Ticks := mkTicks { started : Z; turn_at : nat -> Z * Z }.

Inductive LoopE : Type -> Type :=
| SocketExists (path : string) : LoopE bool
| RemoveFile (path : string) : LoopE (outcome string unit)
| BindUnix (path : string) : LoopE (outcome string unit)
(* [accept]: what the peer sends before it closes its end *)
| AcceptSim : LoopE (outcome string (list byte))
| StreamTelemetryRpc (sender : Ticks -> nat -> list TelemetryFrame) :
    LoopE (outcome Status (list (TelemetryAck + Status)))
| StreamHeartbeatRpc (sender : (nat -> ProcFs) -> nat -> list HeartbeatRequest) :
    LoopE (outcome Status (list (HeartbeatResponse + Status)))
(* [Command::new("reboot").status()] *)
| RunReboot : LoopE (outcome string (option Z))
| SleepMs (ms : Z) : LoopE unit.

Abbreviation Loop := (Task LoopE AgentErr.Error).

(** [?] on an operation of the host. *)
Definition loop_io {A} (e : LoopE (outcome string A)) : Loop A :=
  task_map_err AgentErr.Io (call e).
Definition sleep_ms (ms : Z) : Loop unit := get _ (SleepMs ms).

(** ** Heartbeats *)

Section heartbeats.
Context `{BuildProfile}.

Definition beat (device_id : string) (cpu memory : f64) : HeartbeatRequest :=
  mkHeartbeatReq device_id None (f64_bits cpu) (f64_bits memory) (f64_bits (f64_of_Z 100)) "" ∅.

(** The spawned sender, from its [i]-th turn on: every ten seconds it reads the
    host and sends; a panic while reading ends the task. *)
Fixpoint beats (device_id : string) (proc : nat -> ProcFs) (i room : nat) : list HeartbeatRequest :=
  match room with
  | 0 => []
  | S room =>
      match read_cpu_usage (proc_stat (proc i)), read_memory_usage (proc_meminfo (proc i)) with
      | Ok cpu, Ok memory => beat device_id cpu memory :: beats device_id proc (S i) room
      | _, _ => []
      end
  end.

(** The loop over the server's messages. *)
Fixpoint handle_directives (stream : list (HeartbeatResponse + Status)) : Loop unit :=
  match stream with
  | [] => mret tt
  | inr s :: _ => fail_with (AgentErr.Grpc s)
  | inl resp :: rest =>
      if dec (directive resp = "reboot")
      then let! _ := trigger RunReboot in handle_directives rest
      else handle_directives rest
  end.

Definition run_heartbeat_stream (device_id : string) : Loop unit :=
  stream ← task_map_err AgentErr.Grpc
             (call (StreamHeartbeatRpc (fun proc room => beats device_id proc 0 room)));
  handle_directives stream.

Definition heartbeat_run (device_id : string) (fuel : nat) :
  async LoopE (option (outcome AgentErr.Error unit)) :=
  reconnecting SleepMs (run_heartbeat_stream device_id) fuel 1.
End heartbeats.

(** ** Telemetry *)

Section telemetry.
Context `{BuildProfile, TrigLib} (device_id : string).

(** The joints of the sine wave, [elapsed] seconds after its start. *)
Definition sine_joint (elapsed : f64) (i : nat) (name : string) : JointStatus :=
  let angle := f64_add elapsed
                 (f64_div (f64_mul (f64_of_Z (Z.of_nat i)) f64_pi)
                          (f64_of_Z (Z.of_nat (length JOINT_NAMES)))) in
  mkJoint name (f64_bits (f64_sin angle))
    (f64_bits (f64_mul (f64_div (f64_of_Z 1) (f64_of_Z 2)) (f64_cos angle))) temperature.

(** A time before the start or before the epoch counts as zero. *)
Definition sine_frame (start : Z) (turn : Z * Z) : TelemetryFrame :=
  let elapsed := as_secs_f64 (Z.max 0 (turn.1 - start)) in
  let now := Z.max 0 turn.2 in
  mkFrame device_id
    (Some (mkTimestamp (wrap_i64 (now / 1000000000)) (wrap_i32 (now mod 1000000000))))
    (imap (sine_joint elapsed) JOINT_NAMES) [] ∅.

(** The spawned task of [run_sine_wave]. *)
Definition sine_wave (ticks : Ticks) (room : nat) : list TelemetryFrame :=
  (fun i => sine_frame (started ticks) (turn_at ticks i)) <$> seq 0 room.

(** [while let Some(ack) = resp_stream.message().await?]. *)
Fixpoint handle_acks (stream : list (TelemetryAck + Status)) : Loop unit :=
  match stream with
  | [] => mret tt
  | inr s :: _ => fail_with (AgentErr.Grpc s)
  | inl ack :: rest =>
      _ ← (if ta_throttle ack then sleep_ms 500 else mret tt);
      handle_acks rest
  end.

Definition run_from_socket (socket_path : string) : Loop unit :=
  exists_ ← get _ (SocketExists socket_path);
  _ ← (if (exists_ : bool) then loop_io (RemoveFile socket_path) else mret tt);
  _ ← loop_io (BindUnix socket_path);
  bytes ← loop_io AcceptSim;
  resp_stream ← task_map_err AgentErr.Grpc
                  (call (StreamTelemetryRpc (fun _ room => reader device_id bytes room)));
  handle_acks resp_stream.

Definition run_sine_wave : Loop unit :=
  resp_stream ← task_map_err AgentErr.Grpc (call (StreamTelemetryRpc sine_wave));
  handle_acks resp_stream.

(** One turn of the loop of [run]. *)
Definition telemetry_stream (socket_path : option string) : Loop unit :=
  match socket_path with
  | Some path =>
      exists_ ← get _ (SocketExists path);
      if (exists_ : bool) then run_from_socket path else run_sine_wave
  | None => run_sine_wave
  end.

Definition telemetry_run (socket_path : option string) (fuel : nat) :
  async LoopE (option (outcome AgentErr.Error unit)) :=
  reconnecting SleepMs (telemetry_stream socket_path) fuel 1.
End telemetry.

(** ** The end of the agent *)

(** What [select!] waits for: a signal, or one of the three tasks with what it
    returned ([Panic] when the task panicked). *)
Inductive AgentEvent :=
| CtrlC
| HeartbeatEnded (result : outcome AgentErr.Error unit)
| OtaEnded (result : outcome AgentErr.Error unit)
| TelemetryEnded (result : outcome AgentErr.Error unit).

(** What [main] returns, given the events in the order they happen: the first
    one ends it, an error is logged and the process exits successfully. *)
Definition select_end (events : list AgentEvent) : option (outcome MainErr unit) :=
  match events with
  | [] => None
  | _ :: _ => Some (Ok tt)
  end.
