(* ===== verification/AgentWorld.v ===== *)
(** * The agent in its world

    The agent's disk, which a crash keeps, and the device-management service
    it talks to, which runs its handlers on the store that the service keeps.
    The environment chooses the outcome of file operations, the new key pairs
    and what the network loses. *)

From S2P Require Import Prelude Sqlite Async Pki DeviceStore DeviceStoreSpec Grpc DmsEffects.
From S2P Require Import Enrollment Provisioning Heartbeat DmsServer AgentBoot.

(** ** Disk *)

Record File := mkFile { contents : string; mode : Z }.
Abbreviation Disk := (gmap string File).

(** [open] with create and truncate: the mode is set, less the umask, when the
    file is created. *)
Definition open_truncate (umask : Z) (path : string) (m : Z) (d : Disk) : Disk :=
  <[path := mkFile "" (match d !! path with
                       | Some f => mode f
                       | None => Z.ldiff m umask
                       end)]> d.

(** A write at the start of an empty file that stores [n] bytes. *)
Definition write_at_start (path s : string) (n : nat) (d : Disk) : Disk :=
  alter (fun f => mkFile (String.substring 0 n s) (mode f)) path d.

(** ** Environments *)

(** What becomes of a request. *)
Inductive Net := Delivered | RequestLost | ReplyLost.

Record AgentEnv `{PkiLib} := mkAgentEnv {
  service_env : Env;                      (** of the service's handler *)
  io_result : outcome string unit;        (** of a file operation *)
  written : nat;                          (** bytes stored by a write that fails *)
  new_key : outcome string KeyPair;
  net : Net
}.

Section world.
Context `{PkiLib, BuildProfile} {S : Type} `{DeviceStore S}.
Context (rt : RusqliteError -> string) (stx : Status -> string) (svc : Service).
(** The agent's environment variables and umask do not change. *)
Context (vars : string -> option string) (umask : Z).

Record World := mkWorld { disk : Disk; service : S }.

Definition with_disk (d : Disk) (w : World) : World := mkWorld d (service w).

(** The status a client sees when the connection fails. *)
Definition disconnected : Status := mkStatus Unavailable "transport error".

(** The certificates of an identity, if they verify against the root of the
    port: otherwise the handshake fails. *)
Definition handshake (p : Port) (identity : option Identity) : option (list CertificateDer) :=
  match client_ca_root svc p, identity with
  | None, _ => Some []
  | Some root, Some (cert_pem, _) =>
      match Mtls.certs_from_pem cert_pem with
      | Ok certs => match Mtls.verify_signed_by certs root with Ok _ => Some certs | _ => None end
      | _ => None
      end
  | Some _, None => None
  end.

(** A request to the service, and its reply as the client sees it. *)
Definition rpc {A} (env : AgentEnv) (p : Port) (r : Rpc) (unpack : Reply -> option A) (w : World) :
  outcome Status A * World :=
  match net env with
  | RequestLost => (Err disconnected, w)
  | _ =>
      let '(result, s) := run (serve rt stx svc (p, r)) (fun _ => service_env env) (service w) in
      let w' := mkWorld (disk w) s in
      match net env, result with
      | Delivered, Ok reply =>
          (match unpack reply with Some a => Ok a | None => Err disconnected end, w')
      | Delivered, Err e => (Err e, w')
      | _, _ => (Err disconnected, w')
      end
  end.

Definition provision_reply (r : Reply) : option ProvisionDeviceResponse :=
  match r with ProvisionReply r => Some r | _ => None end.
Definition bootstrap_reply (r : Reply) : option BootstrapEnrollResponse :=
  match r with BootstrapReply r => Some r | _ => None end.

Definition host_effect {X} (env : AgentEnv) (e : Csr.HostE X) (w : World) : X * World :=
  match e in Csr.HostE X return X * World with
  | Csr.KeyGen => (new_key env, w)
  | Csr.OpenCreateTruncate path m =>
      (io_result env,
       match io_result env with
       | Ok _ => with_disk (open_truncate umask path m (disk w)) w
       | _ => w
       end)
  | Csr.WriteAll path s =>
      (io_result env,
       with_disk (write_at_start path s
         (match io_result env with Ok _ => String.length s | _ => written env end) (disk w)) w)
  end.

(** Which port an address leads to is configuration: each phase is given the
    address of its own. *)
Definition agent_handler : HandlerIn AgentEnv AgentE World :=
  fun X env e w =>
    match e in AgentE X return X * World with
    | Host e => host_effect env e w
    | EnvVar key => (vars key, w)
    | CreateDirAll _ => (io_result env, w)
    | PathExists path => (dec (is_Some (disk w !! path)), w)
    | ReadToString path =>
        (match io_result env, disk w !! path with
         | Ok _, Some f => Ok (contents f)
         | Ok _, None => Err "No such file or directory"
         | Err e, _ => Err e
         | Panic, _ => Panic
         end, w)
    | Connect _ _ identity =>
        (match net env with
         | Delivered => Ok tt
         | _ => Err (AgentErr.Transport "transport error")
         end, w)
    | ProvisionRpc _ req =>
        rpc env ProvisioningPort (ProvisionDevice req) provision_reply w
    | EnrollRpc _ identity req =>
        match handshake BootstrapPort (Some identity) with
        | Some certs => rpc env BootstrapPort (BootstrapEnroll (Some certs) req) bootstrap_reply w
        | None => (Err disconnected, w)
        end
    end.
End world.
