(* ===== verification/Progress.v ===== *)
(** * Which tasks end, and when

    The calls of the three services and a boot of the agent take a bounded
    number of effects, given here.  The tasks of the two client streams are
    loops: they go on for as long as their client sends and takes the answers,
    and no longer. *)

From S2P Require Import Prelude Sqlite Async Termination Pki DeviceStore DeviceStoreSpec Grpc DmsEffects.
From S2P Require Import Enrollment Provisioning Heartbeat DmsTelemetry DmsServer.
From S2P Require Import OtaStore OtaDispatcher OtaServer ArtifactStore ArtifactServer AgentBoot.

(** ** The handlers of the three services *)

(** How many effects a request of the device-management service has at most: a
    heartbeat stream costs two per message, the others a constant. *)
Definition dms_effects `{PkiLib, BuildProfile} (r : Rpc) : nat :=
  match r with
  | ProvisionDevice _ | UpdateDeviceStatus _ => 2
  | BootstrapEnroll _ _ => 4
  | RenewCert _ => 3
  | GetDeviceRpc _ | ListDevicesRpc _ => 1
  | StreamHeartbeat stream => S (2 * length stream)
  | StreamTelemetry stream => length stream
  end.

Lemma handle_loop_within d stream : within (2 * length stream) (handle_loop d stream).
Proof.
  induction stream as [|[req|e] rest IH]; [done| |done].
  replace (2 * length (inl req :: rest)) with (S (S (2 * length rest))) by (cbn; lia).
  intros [u|[]|]; cbn; try intros []; done.
Qed.

Lemma handle_within stx stream : within (S (2 * length stream)) (handle stx stream).
Proof.
  destruct stream as [|[req|e] rest]; [done| |by intros ?].
  eapply within_le, handle_loop_within. lia.
Qed.

Lemma stream_telemetry_within `{BuildProfile} stx received stream :
  within (length stream) (stream_telemetry stx received stream).
Proof.
  revert received. induction stream as [|[frame|e] rest IH]; intros received; cbn; [done| |done].
  unfold acknowledge. destruct (u64_arith _); [|done..]. intros [|]; [apply IH|done].
Qed.

#[local] Arguments within : simpl never.

Lemma serve_within `{PkiLib, BuildProfile} rt stx svc pr : within (dms_effects pr.2) (serve rt stx svc pr).
Proof.
  unfold serve, reply, mapped. destruct (negb _); [done|].
  destruct pr as [p r]. generalize (match p with BootstrapPort => bootstrap_svc svc | _ => fleet_svc svc end).
  intros self. destruct r; cbn [dms_effects snd].
  - unfold provision_device. within_tac.
  - unfold bootstrap_enroll, mapped, Enrollment.bootstrap_enroll. within_tac.
  - unfold renew_cert, mapped, Enrollment.renew_cert. within_tac.
  - unfold get_device, mapped. within_tac.
  - unfold list_devices, mapped. within_tac.
  - unfold update_device_status, mapped. within_tac.
  - eapply within_le, (within_bind _ 0), (fun _ => within_done _); [|apply handle_within]. lia.
  - eapply within_le, (within_bind _ 0), (fun _ => within_done _);
      [|apply within_embed, stream_telemetry_within]. lia.
Qed.

Definition ota_effects (j : OtaJob) : nat :=
  match j with DispatchUpdate _ => 2 | _ => 1 end.

Lemma ota_serve_within rt j : within (ota_effects j) (ota_serve rt j).
Proof.
  destruct j; unfold ota_serve, ota_reply; [unfold watch_updates|unfold check_update, jobs|unfold ack_update, jobs
    |unfold dispatch_update, jobs|unfold list_update_jobs, jobs|idtac..]; within_tac.
Qed.

Lemma art_serve_within rt j : within 1 (art_serve rt j).
Proof.
  destruct j; unfold art_serve, art_reply; [unfold publish_artifact, registry|unfold get_artifact, registry
    |unfold list_artifacts, registry|unfold ArtifactServer.get_latest, registry|unfold generate_upload_url]; within_tac.
Qed.

Lemma agent_main_within `{PkiLib} : within 39 agent_main.
Proof.
  unfold agent_main, configure, phase1, phase2, phase3, provision, enroll, generate_csr, Csr.generate_csr,
    load_device_cert, load_operational_creds, load_device_id, is_provisioned, is_enrolled, lib, fs_write,
    read_to_string, env_required, env_or. within_tac.
Qed.

(** ** Termination *)

(** Whatever the service did [before] (a schedule of other requests, answers
    and disconnections in any environments) and whatever runs between, the
    request [j] has its reply once its task was resumed [n] times, unless its
    own client leaves. *)
Definition ends_after {F S Job Res} `{!Handler F S} (serve : Job -> async F Res)
    (n : nat) (j : Job) : Prop :=
  forall s before acts,
    Forall (fun a => stays (task_of serve s before) a = true) acts ->
    n <= turns (task_of serve s before) acts ->
    exists r, (task_of serve s before, j, r) ∈
      replies (exec serve s (before ++ Request j :: acts ++ [Answer (task_of serve s before)])).

(** Every request whose client stream is closed ends, and so does every boot
    of the agent.  In all the services a request is answered after a bounded
    number of its own steps, whatever the schedule of the other requests, the
    clock, the disk and the network do: a constant number for each call, two
    for each message of a heartbeat stream and one for each telemetry frame.  A
    boot of the agent takes at most 39 effects, whatever the answers of its
    host and of the service, so that it never hangs in one of its phases. *)
Lemma requests_end `{PkiLib} {S R O W En} `{DeviceStore S} `{SqlOrder, BuildProfile}
    `{BroadcastLib UpdateCommand} `{Registry R, ObjectStore O} `{!HandlerIn En AgentE W}
    (storage : Env -> O) rt stx (svc : Service) :
  (forall pr, ends_after (S := S) (serve rt stx svc) (dms_effects pr.2) pr) /\
  (forall j, ends_after (ota_serve rt) (ota_effects j) j) /\
  (forall j, ends_after (Handler0 := art_handler storage) (art_serve rt) 1 j) /\
  (forall (envs : nat -> En) (w : W), crash_after 39 agent_main envs w = (run agent_main envs w).2).
Proof.
  split; [|split; [|split]].
  - intros pr s before acts. by apply fair_end, serve_within.
  - intros j s before acts. by apply fair_end, ota_serve_within.
  - intros j s before acts. apply (fair_end (Handler0 := art_handler storage)), art_serve_within.
  - intros envs w. apply within_crash, agent_main_within.
Qed.

(** ** The loops over client streams *)

(** The [k]-th poll answers a message. *)
Definition sends {M E} (inbox : nat -> option (M + E)) (k : nat) : bool :=
  match inbox k with Some (inl _) => true | _ => false end.

Section loops.
Context `{BuildProfile} {S : Type} `{DeviceStoreSpec S} (stx : Status -> string).

(** *** Heartbeats *)

(** The device of the stream is stored. *)
Definition knows_device (i : string) (s : S) : Prop :=
  healthy s /\ is_Some (devices (visible s) !! i).

(** A turn for a stored device: one call of the store, then one answer. *)
Lemma heartbeat_answer_run i envs s :
  knows_device i s -> (forall k, ends_cleanly (envs k)) ->
  exists s', knows_device i s' /\
    forall B (f : bool -> async DmsE B), run (async_bind (heartbeat_answer i) f) envs s =
      run (f (peer_alive (envs 1))) (fun k => envs (2 + k)) s'.
Proof using Type.
  intros [Hs [d Hd]] He. unfold heartbeat_answer. cbn.
  destruct (touch_last_seen (envs 0) i s) as [r s1] eqn:Hr.
  destruct (call_refines _ (TouchLastSeen i) _ _ _ _ Hs (He 0) I Hr) as [Hs1 [(e & -> & Hv)|Hv]].
  - exists s1. split; [split; [done|by rewrite Hv]|done].
  - cbn in Hv. rewrite Hd in Hv. injection Hv as <- Hv. exists s1. split; [|done].
    split; [done|]. rewrite <- Hv. cbn. rewrite lookup_insert_eq. by eexists.
Qed.

Lemma heartbeat_loop_ends i inbox n k envs s :
  knows_device i s -> (forall k, ends_cleanly (envs k)) ->
  is_Some (run (loop_for (heartbeat_turn i inbox) n k) envs s).1 <->
  exists m, m < n /\ (sends inbox (k + m) = false \/ peer_alive (envs (2 * m + 1)) = false).
Proof using Type.
  revert k envs s. induction n as [|n IH]; intros k envs s Hs He; cbn [loop_for].
  { split; [by intros []|]. intros (m & Hm & _). lia. }
  unfold heartbeat_turn at 1, sends. destruct (inbox k) as [[req|e]|] eqn:Hk.
  2, 3: cbn; (split; [intros _|by eexists]); exists 0; rewrite Nat.add_0_r, Hk; split; [lia|by left].
  rewrite run_assoc. destruct (heartbeat_answer_run i envs s Hs He) as (s' & Hs' & Hrun). rewrite Hrun.
  destruct (peer_alive (envs 1)) eqn:Hp; cbn [async_bind].
  - rewrite IH by (done || intros; apply He). split.
    + intros (m & Hm & Hend). exists (Datatypes.S m). split; [lia|].
      replace (k + Datatypes.S m) with (Datatypes.S k + m) by lia.
      by replace (2 * Datatypes.S m + 1) with (2 + (2 * m + 1)) by lia.
    + intros ([|m] & Hm & Hend).
      { rewrite Nat.add_0_r, Hk in Hend. cbn in Hend. rewrite Hp in Hend. by destruct Hend. }
      exists m. split; [lia|].
      replace (Datatypes.S k + m) with (k + Datatypes.S m) by lia.
      by replace (2 + (2 * m + 1)) with (2 * Datatypes.S m + 1) by lia.
  - split; [intros _|by eexists]. exists 0. split; [lia|]. by right.
Qed.

(** Against a client that closes, the loop is the recursion over its items. *)
Lemma heartbeat_loop_list i (inbox : nat -> option Item) l k envs s :
  (forall m, inbox (k + m) = l !! m) ->
  run (loop_for (heartbeat_turn i inbox) (Datatypes.S (length l)) k) envs s =
    (Some tt, (run (handle_loop i l) envs s).2).
Proof using Type.
  revert k envs s. induction l as [|[req|e] l IH]; intros k envs s Hin;
    cbn [loop_for handle_loop length]; unfold heartbeat_turn at 1;
    pose proof (Hin 0) as H0i; rewrite Nat.add_0_r in H0i; cbn in H0i; rewrite H0i; [done| |done].
  rewrite run_assoc. destruct (run_then (heartbeat_answer i) envs s) as [m Hm]. rewrite !Hm.
  destruct (run (heartbeat_answer i) envs s).1; cbn [async_bind]; [|done].
  apply IH. intros m'. specialize (Hin (Datatypes.S m')). by rewrite Nat.add_succ_r in Hin.
Qed.

(** *** Telemetry *)

#[local] Existing Instance ack_handler.

Lemma acknowledge_run r envs log :
  in_u64 (r + 1) = true ->
  forall B (f : option Z -> async TelemetryE B), run (async_bind (acknowledge r) f) envs log =
    run (f (if peer_alive (envs 0) then Some (r + 1)%Z else None)) (fun k => envs (Datatypes.S k))
      (if peer_alive (envs 0) then log ++ [Ok (mkTelemetryAck (r + 1) false)] else log).
Proof using Type. intros Hr B f. unfold acknowledge. rewrite u64_arith_in by done. done. Qed.

Lemma telemetry_loop_ends inbox n k r envs log :
  (0 <= r)%Z -> (r + Z.of_nat n <= u64_max)%Z ->
  is_Some (run (loop_for (telemetry_turn stx inbox) n (k, r)) envs log).1 <->
  exists m, m < n /\ (sends inbox (k + m) = false \/ peer_alive (envs m) = false).
Proof using Type.
  revert k r envs log. induction n as [|n IH]; intros k r envs log Hr Hmax; cbn [loop_for].
  { split; [by intros []|]. intros (m & Hm & _). lia. }
  unfold telemetry_turn at 1, sends. cbn [fst snd]. destruct (inbox k) as [[frame|e]|] eqn:Hk.
  2, 3: cbn; (split; [intros _|by eexists]); exists 0; rewrite Nat.add_0_r, Hk; split; [lia|by left].
  rewrite run_assoc, acknowledge_run by (unfold in_u64; lia).
  destruct (peer_alive (envs 0)) eqn:Hp; cbn [async_bind].
  - rewrite IH by lia. split.
    + intros (m & Hm & Hend). exists (Datatypes.S m). split; [lia|].
      by replace (k + Datatypes.S m) with (Datatypes.S k + m) by lia.
    + intros ([|m] & Hm & Hend).
      { rewrite Nat.add_0_r, Hk in Hend. rewrite Hp in Hend. by destruct Hend. }
      exists m. split; [lia|].
      by replace (Datatypes.S k + m) with (k + Datatypes.S m) by lia.
  - split; [intros _|by eexists]. exists 0. split; [lia|]. by right.
Qed.

Lemma telemetry_loop_list (inbox : nat -> option (TelemetryFrame + Status)) l k r envs log :
  (forall m, inbox (k + m) = l !! m) ->
  run (loop_for (telemetry_turn stx inbox) (Datatypes.S (length l)) (k, r)) envs log =
    (Some tt, (run (stream_telemetry stx r l) envs log).2).
Proof using Type.
  revert k r envs log. induction l as [|[frame|e] l IH]; intros k r envs log Hin;
    cbn [loop_for stream_telemetry length]; unfold telemetry_turn at 1; cbn [fst snd];
    pose proof (Hin 0) as H0i; rewrite Nat.add_0_r in H0i; cbn in H0i; rewrite H0i; [done| |done].
  rewrite run_assoc. destruct (run_then (acknowledge r) envs log) as [m Hm]. rewrite !Hm.
  destruct (run (acknowledge r) envs log).1; cbn [async_bind]; [|done].
  apply IH. intros m'. specialize (Hin (Datatypes.S m')). by rewrite Nat.add_succ_r in Hin.
Qed.

(** C13: the task of a client stream lives exactly as long as its client.
    Take a heartbeat stream whose first message names a stored device, while the engine
    ends transactions cleanly (other calls may fail), and a telemetry stream of
    no more frames than a [u64] counts, each with an inbound side that need not
    ever close ([inbox]).  After [n] turns of its loop the task has ended if and
    only if one of the first [n] polls was no message (the stream closed or
    failed) or one of the first [n] answers was not taken; so against a client
    that keeps sending and listening it is never over.  A heartbeat stream for
    a device that is not stored ends in its first turn.  And on the streams
    that close, the recursions over lists that the rest of the development
    uses are these loops. *)
Theorem stream_tasks_end first inbox frames n envs s log :
  inbox 0 = Some (inl first) -> healthy s -> (forall k, ends_cleanly (envs k)) ->
  (Z.of_nat n <= u64_max)%Z ->
  (is_Some (devices (visible s) !! hb_device_id first) ->
    (is_Some (run (heartbeat_task stx inbox n) envs s).1 <->
     exists k, k < n /\ (sends inbox k = false \/ peer_alive (envs (2 * k + 1)) = false))) /\
  (devices (visible s) !! hb_device_id first = None -> (forall x, sql_fault (envs 0) x = NoFault) -> 0 < n ->
    (run (heartbeat_task stx inbox n) envs s).1 = Some tt) /\
  (is_Some (run (telemetry_task stx frames n) envs log).1 <->
   exists k, k < n /\ (sends frames k = false \/ peer_alive (envs k) = false)) /\
  (forall l envs s, run (heartbeat_task stx (fun k => l !! k) (Datatypes.S (length l))) envs s =
     (Some tt, (run (stream_heartbeat stx l) envs s).2)) /\
  (forall l envs log, run (telemetry_task stx (fun k => l !! k) (Datatypes.S (length l))) envs log =
     (Some tt, (run (stream_telemetry stx 0 l) envs log).2)).
Proof.
  intros Hfirst Hs He Hn. unfold heartbeat_task at 1 2. rewrite Hfirst. split; [|split; [|split; [|split]]].
  - intros Hd. by apply (heartbeat_loop_ends (hb_device_id first) inbox n 0).
  - intros Hd Hf Hpos. destruct n as [|n]; [lia|]. cbn [loop_for]. unfold heartbeat_turn at 1.
    rewrite Hfirst. rewrite run_assoc. cbn.
    destruct (call_faultless _ (TouchLastSeen (hb_device_id first)) (envs 0) s Hs Hf I)
      as (r & s' & Hr & _ & Hv). cbn in Hr, Hv. rewrite Hr. rewrite Hd in Hv. by injection Hv as <- _.
  - apply (telemetry_loop_ends frames n 0 0); lia.
  - intros l envs' s'. unfold heartbeat_task, stream_heartbeat, Heartbeat.handle.
    destruct l as [|[req|e] l]; [done| |done]. cbn [lookup list_lookup].
    by apply (heartbeat_loop_list (hb_device_id req) _ (inl req :: l)).
  - intros l envs' log'. by apply telemetry_loop_list.
Qed.
End loops.
