(* ===== verification/Lockout.v ===== *)
(** * Spent rights stay spent

    A serial that is claimed, or a token that is used, is never given back by
    the running service: what follows for requests that fail after the claim.
    No production code calls [register_serial], the one method that resets a
    claim. *)

From S2P Require Import Prelude Sqlite Async Pki DeviceStore DeviceStoreSpec Grpc DmsEffects.
From S2P Require Import Enrollment Provisioning Heartbeat DmsTelemetry DmsServer RustStr DmsMain.
From S2P Require Import DeviceStoreSqlite ToyPki Admission.

(** No engine call fails. *)
Definition no_fault (env : Env) : Prop := forall x, sql_fault env x = NoFault.

Section lockout.
Context `{PkiLib, BuildProfile} {S : Type} `{DeviceStoreSpec S}.
Context (rt : RusqliteError -> string) (stx : Status -> string).

Lemma claim_not_granted sno X env (e : DmsE X) s x s' :
  calm X e -> Async.handle env e s = (x, s') -> is_claimed sno (on_disk s) ->
  is_claimed sno (on_disk s') /\ grants_claim sno X e x = false.
Proof.
  intros Hc Hh Hs. split; [by eapply claimed_stays|].
  destruct (grants_claim sno X e x) eqn:Hg; [|done].
  by destruct (claim_granted sno X env e s x s' Hh Hg).
Qed.

Lemma provision_not_granted sno X env (e : DmsE X) s x s' :
  calm X e -> Async.handle env e s = (x, s') -> is_provisioned sno (on_disk s) ->
  is_provisioned sno (on_disk s') /\ grants_provision sno X e x = false.
Proof.
  intros Hc Hh Hs. split; [by eapply provisioned_stays|].
  destruct (grants_provision sno X e x) eqn:Hg; [|done].
  by destruct (provision_granted sno X env e s x s' Hh Hg).
Qed.

(** A claimed serial does not enroll, alone or in the running service. *)
Lemma claimed_run svc sno j envs s :
  is_claimed sno (on_disk s) ->
  ~ enrolled_as sno j (run (serve rt stx svc j) envs s).1 /\
  is_claimed sno (on_disk (run (serve rt stx svc j) envs s).2).
Proof.
  intros Hs. apply (run_not_won calm (grants_claim sno) (enrolled_as sno)
    (fun s => is_claimed sno (on_disk s))); [|apply enroll_gated|done].
  intros X env e s1 x s2. apply claim_not_granted.
Qed.

Lemma provisioned_run svc sno j envs s :
  is_provisioned sno (on_disk s) ->
  ~ provisioned_as sno j (run (serve rt stx svc j) envs s).1 /\
  is_provisioned sno (on_disk (run (serve rt stx svc j) envs s).2).
Proof.
  intros Hs. apply (run_not_won calm (grants_provision sno) (provisioned_as sno)
    (fun s => is_provisioned sno (on_disk s))); [|apply provision_gated|done].
  intros X env e s1 x s2. apply provision_not_granted.
Qed.

Lemma claimed_forever svc manifest sno s p :
  is_claimed sno (on_disk s) ->
  reachable (F := DmsE) (serve rt stx svc) (process_restart manifest) s p ->
  forall i j r, (i, j, r) ∈ replies p -> ~ enrolled_as sno j r.
Proof.
  apply (never_won _ _ calm (grants_claim sno) (enrolled_as sno) (enroll_gated rt stx svc sno)
    (fun s => is_claimed sno (on_disk s))).
  - intros X env e s1 x s2. apply claim_not_granted.
  - intros s1 s2 Hre. apply (restart_keeps manifest (is_claimed sno)); [|done].
    intros X env e s3 x s4. apply claimed_stays.
Qed.

Lemma provisioned_forever svc manifest sno s p :
  is_provisioned sno (on_disk s) ->
  reachable (F := DmsE) (serve rt stx svc) (process_restart manifest) s p ->
  forall i j r, (i, j, r) ∈ replies p -> ~ provisioned_as sno j r.
Proof.
  apply (never_won _ _ calm (grants_provision sno) (provisioned_as sno) (provision_gated rt stx svc sno)
    (fun s => is_provisioned sno (on_disk s))).
  - intros X env e s1 x s2. apply provision_not_granted.
  - intros s1 s2 Hre. apply (restart_keeps manifest (is_provisioned sno)); [|done].
    intros X env e s3 x s4. apply provisioned_stays.
Qed.

(** A call on a healthy store without faults is its atomic step. *)
Lemma store_call_calm {A} (c : StoreCall A) env s :
  healthy s -> no_fault env -> call_ok c ->
  exists s', store_call env c s = ((spec env c (visible s)).1, s') /\ healthy s' /\
    visible s' = (spec env c (visible s)).2.
Proof.
  intros Hs Hf Hc. destruct (call_faultless A c env s Hs Hf Hc) as (r & s' & E & Hs' & Hspec).
  exists s'. by rewrite E, Hspec.
Qed.

(** C23: a signing failure after the claim locks the device out.  When an
    enrollment request gets past the peer certificate and its serial is
    waiting to enroll, but the CSR cannot be signed, the request fails with
    [Internal], the serial is claimed all the same, and from then on no
    enrollment of that serial ever succeeds, in any interleaving and across
    restarts. *)
Theorem failed_signing_locks_out svc manifest certs req sno row e envs s :
  healthy s -> (forall n, no_fault (envs n)) ->
  Mtls.extract_serial certs = Ok sno ->
  Mtls.verify_signed_by certs (device_ca_pem (bootstrap_svc svc)) = Ok tt ->
  be_serial req = "" \/ be_serial req = sno ->
  pre_enrollment (visible s) !! sno = Some row -> claimed row = 0%Z ->
  sign (enrollment (bootstrap_svc svc)) (clock (envs 1)) (be_csr_pem req) = Err e ->
  let '(r, s') := run (serve rt stx svc (BootstrapPort, BootstrapEnroll (Some certs) req)) envs s in
  r = Err (DmsServer.map_err rt e) /\
  devices (visible s') = devices (visible s) /\
  forall p, reachable (F := DmsE) (serve rt stx svc) (process_restart manifest) s' p ->
    forall i j r, (i, j, r) ∈ replies p -> ~ enrolled_as sno j r.
Proof.
  intros Hs Hf Hcn Hv Hreq Hrow Hcl Hsign. unfold serve. cbn.
  rewrite Hcn. cbn. rewrite bool_decide_false by naive_solver. rewrite Hv. cbn.
  destruct (store_call_calm (LookupAndClaim sno) (envs 0) s Hs (Hf 0) I) as (s' & Hc & Hs' & Hv').
  cbn in Hc. rewrite Hc. cbn in Hv'. rewrite Hrow, decide_True in Hv' |- * by done. cbn in *.
  rewrite Hsign. cbn. split; [done|]. split; [by rewrite Hv'|].
  intros p. apply claimed_forever. rewrite healthy_on_disk, Hv' by done.
  eexists. cbn. by rewrite lookup_insert_eq.
Qed.

(** A bad CSR spends the manufacturing token.  When a provisioning request
    names a serial of the factory manifest with its unused token, but the CSR
    cannot be signed, the request fails with [Internal], the token is used up,
    and no provisioning request for that serial ever succeeds again. *)
Lemma bad_csr_spends_token svc manifest req row e envs s :
  healthy s -> (forall n, no_fault (envs n)) ->
  pd_serial req <> "" -> pd_csr_pem req <> "" -> pd_provision_token req <> "" ->
  factory_manifest (visible s) !! pd_serial req = Some row ->
  m_token row = pd_provision_token req -> provisioned_at row = None ->
  Csr.sign_csr (clock (envs 1)) (pd_csr_pem req)
    (device_ca_cert_pem (provisioning_svc svc)) (device_ca_key_pem (provisioning_svc svc)) 365 = Err e ->
  let '(r, s') := run (serve rt stx svc (ProvisioningPort, ProvisionDevice req)) envs s in
  r = Err (mkStatus Internal ("CSR signing failed: " +:+ PkiErr.to_string e)) /\
  forall p, reachable (F := DmsE) (serve rt stx svc) (process_restart manifest) s' p ->
    forall i j r, (i, j, r) ∈ replies p -> ~ provisioned_as (pd_serial req) j r.
Proof.
  intros Hs Hf Hn1 Hn2 Hn3 Hrow Htok Hprov Hsign. unfold serve, provision_device. cbn.
  rewrite bool_decide_false by naive_solver. cbn.
  destruct (store_call_calm (ClaimManifestEntry (pd_serial req) (pd_provision_token req))
    (envs 0) s Hs (Hf 0) I) as (s' & Hc & Hs' & Hv').
  cbn in Hc. rewrite Hc. cbn in Hv'. rewrite Hrow in Hv' |- *.
  rewrite decide_False in Hv' |- * by congruence.
  rewrite decide_False in Hv' |- * by (rewrite Hprov; by intros [? ?]). cbn in *.
  rewrite Hsign. cbn. split; [done|].
  intros p. apply provisioned_forever. rewrite healthy_on_disk, Hv' by done.
  eexists. case_match; cbn; by rewrite lookup_insert_eq.
Qed.
End lockout.
