(* ===== verification/Lineage.v ===== *)
(** * Every enrolled device comes from the factory manifest

    An invariant of the stored tables that ties the three tables together,
    and its proof over every interleaving: the insertion of a device relies on
    what its task learnt from an earlier claim. *)

From S2P Require Import Prelude Sqlite Async Pki DeviceStore DeviceStoreSpec Grpc DmsEffects.
From S2P Require Import Enrollment Provisioning Heartbeat DmsTelemetry DmsServer RustStr DmsMain.
From S2P Require Import DeviceStoreSqlite ToyPki Admission.

(** The serial is claimed, for a model. *)
Definition claimed_as (f : string * string) (t : Tables) : Prop :=
  exists row, pre_enrollment t !! f.1 = Some row /\ claimed row <> 0%Z /\ p_model row = f.2.

(** The serial's manifest entry has this model, and its token was used. *)
Definition manufactured (sno m : string) (t : Tables) : Prop :=
  exists row, factory_manifest t !! sno = Some row /\ m_model row = m /\ is_Some (provisioned_at row).

Record lineage (t : Tables) : Prop := {
  lin_wf : Sqlite_.wf t;
  lin_device : forall i d, devices t !! i = Some d -> claimed_as (serial d, model d) t;
  lin_pre : forall sno row, pre_enrollment t !! sno = Some row -> manufactured sno (p_model row) t
}.

Lemma lineage_empty : lineage empty_tables.
Proof.
  split; [split|..].
  - intros i d. cbn. by rewrite lookup_empty.
  - intros i1 i2 d1 d2. cbn. by rewrite lookup_empty.
  - intros i d. cbn. by rewrite lookup_empty.
  - intros sno row. cbn. by rewrite lookup_empty.
Qed.

(** What an effect needs to be known, and what its answer tells. *)
Definition allowed (known : list (string * string)) : forall X, DmsE X -> Prop := fun X e =>
  match e with
  | Store c =>
      keeps_claims c /\
      match c with CreateDevice d => (nd_serial d, nd_model d) ∈ known | _ => True end
  | _ => True
  end.

Definition learnt : forall X, DmsE X -> X -> list (string * string) := fun X e =>
  match e in DmsE X return X -> list (string * string) with
  | Store c =>
      match c in StoreCall A return outcome Error A -> list (string * string) with
      | LookupAndClaim s => fun r => match r with Ok p => [(s, pre_model p)] | _ => [] end
      | _ => fun _ => []
      end
  | _ => fun _ => []
  end.

(** ** Atomic steps *)

Section steps.
Implicit Types t : Tables.

Lemma spec_claimed_as {A} env (c : StoreCall A) f t a t' :
  keeps_claims c -> spec env c t = (Ok a, t') -> claimed_as f t -> claimed_as f t'.
Proof.
  intros Hc Hs [row (Hrow & Hcl & Hm)]. destruct f as [sno m]. unfold claimed_as. cbn in *.
  destruct c; cbn in *; try done; repeat case_match; simplify_eq; cbn; eauto.
  all: destruct (decide (s = sno)) as [->|Hne]; simplify_map_eq; eauto.
Qed.

Lemma spec_manufactured {A} env (c : StoreCall A) sno m t a t' :
  spec env c t = (Ok a, t') -> manufactured sno m t -> manufactured sno m t'.
Proof.
  intros Hs [row (Hrow & Hm & Hp)]. unfold manufactured.
  destruct c; cbn in *; repeat case_match; simplify_eq; cbn; eauto.
  all: destruct (decide (s = sno)) as [->|Hne]; simplify_map_eq; eauto; done.
Qed.

(** Devices that a step may have touched. *)
Lemma spec_devices {A} env (c : StoreCall A) t a t' i d :
  spec env c t = (Ok a, t') -> devices t' !! i = Some d ->
  (exists d0, devices t !! i = Some d0 /\ serial d = serial d0 /\ model d = model d0 /\ id d = id d0) \/
  (exists new, serial d = nd_serial new /\ model d = nd_model new /\ id d = i /\
     devices t !! i = None /\ device_with_serial (nd_serial new) t = None /\
     match c with CreateDevice new' => new' = new | _ => False end).
Proof.
  intros Hs Hd.
  destruct c as [new|i0|s|i0 st re|i0|m st l cu|s m|s| |s m tok|s tok]; cbn in Hs.
  - case_decide as Hfree; [done|]. simplify_eq. cbn in Hd.
    rewrite lookup_insert in Hd. case_decide; [|left; eauto]. simplify_eq. right.
    exists new. repeat split; try done; apply eq_None_not_Some; auto.
  - repeat case_match; simplify_eq; left; eauto.
  - repeat case_match; simplify_eq; left; eauto.
  - case_match eqn:Hi; [|done]. simplify_eq. cbn in Hd. rewrite lookup_insert in Hd.
    case_decide; simplify_eq; left; eauto.
  - case_match eqn:Hi; [|done]. simplify_eq. cbn in Hd. rewrite lookup_insert in Hd.
    case_decide; simplify_eq; left; eauto.
  - simplify_eq. left. eauto.
  - repeat case_match; simplify_eq; cbn in Hd; left; eauto.
  - repeat case_match; simplify_eq; cbn in Hd; left; eauto.
  - simplify_eq. left. eauto.
  - repeat case_match; simplify_eq; cbn in Hd; left; eauto.
  - repeat case_match; simplify_eq; cbn in Hd; left; eauto.
Qed.

Lemma spec_pre {A} env (c : StoreCall A) t a t' sno row :
  keeps_claims c -> spec env c t = (Ok a, t') -> pre_enrollment t' !! sno = Some row ->
  (exists row0, pre_enrollment t !! sno = Some row0 /\ p_model row = p_model row0) \/
  manufactured sno (p_model row) t'.
Proof.
  intros Hc Hs Hrow.
  destruct c as [new|i0|s|i0 st re|i0|m st l cu|s m|s| |s m tok|s tok]; cbn in Hs, Hc; try done.
  1-6: repeat case_match; simplify_eq; cbn in Hrow; left; eauto.
  - repeat case_match; simplify_eq; cbn in Hrow. rewrite lookup_insert in Hrow.
    case_decide; simplify_eq; left; eauto.
  - simplify_eq. left. eauto.
  - repeat case_match; simplify_eq; cbn in Hrow; left; eauto.
  - destruct (factory_manifest t !! s) as [mrow|]; [|done].
    case_decide; [done|]. case_decide; [done|]. simplify_eq.
    destruct (pre_enrollment t !! s) as [prow|] eqn:Hp; cbn in Hrow; [left; eauto|].
    rewrite lookup_insert in Hrow. case_decide; [|left; eauto]. simplify_eq. right.
    eexists. cbn. rewrite lookup_insert_eq. eauto.
Qed.

Lemma spec_lineage {A} env (c : StoreCall A) known t a t' :
  allowed known _ (Store c) -> Forall (fun f => claimed_as f t) known ->
  spec env c t = (Ok a, t') -> lineage t -> lineage t'.
Proof.
  intros [Hc Hk] Hknown Hs [Hwf Hdev Hpre]. split; [split|..].
  - intros i d Hd. destruct (spec_devices _ _ _ _ _ _ _ Hs Hd) as
      [(d0 & Hd0 & _ & _ & ->)|(new & _ & _ & ? & _)]; [|done].
    by apply (Sqlite_.wf_id t).
  - intros i1 i2 d1 d2 H1 H2 Hser.
    destruct (spec_devices _ _ _ _ _ _ _ Hs H1) as
      [(e1 & He1 & S1 & _ & _)|(n1 & S1 & _ & _ & N1 & F1 & C1)];
    destruct (spec_devices _ _ _ _ _ _ _ Hs H2) as
      [(e2 & He2 & S2 & _ & _)|(n2 & S2 & _ & _ & N2 & F2 & C2)].
    + apply (Sqlite_.wf_serial t Hwf i1 i2 e1 e2); congruence.
    + exfalso. rewrite device_with_serial_None in F2. apply (F2 i1 e1 He1). congruence.
    + exfalso. rewrite device_with_serial_None in F1. apply (F1 i2 e2 He2). congruence.
    + destruct c; try done. cbn in Hs. case_decide; [done|]. simplify_eq. cbn in H1, H2.
      rewrite !lookup_insert in H1, H2. by repeat case_decide; simplify_eq.
  - intros i d Hd. destruct (spec_devices _ _ _ _ _ _ _ Hs Hd) as
      [(d0 & Hd0 & -> & -> & _)|(new & -> & -> & _ & _ & _ & Hnew)].
    + eapply spec_claimed_as; eauto.
    + destruct c; try done. subst. eapply spec_claimed_as; [done|exact Hs|].
      rewrite Forall_forall in Hknown. by apply Hknown.
  - intros sno row Hrow. destruct (spec_pre _ _ _ _ _ _ _ Hc Hs Hrow) as [(row0 & Hrow0 & ->)|?]; [|done].
    eapply spec_manufactured; [exact Hs|]. by apply Hpre.
Qed.
End steps.

Section lineage.
Context `{PkiLib, BuildProfile} {S : Type} `{DeviceStoreSpec S}.
Context (rt : RusqliteError -> string) (stx : Status -> string) (svc : Service).
Context (manifest : option string).

Abbreviation knows := (informed learnt allowed).

(** Effects other than an insertion need nothing. *)
Definition free : forall X, DmsE X -> Prop := fun X e =>
  match e with
  | Store c => keeps_claims c /\ match c with CreateDevice _ => False | _ => True end
  | _ => True
  end.

Lemma free_knows known {A} (t : async DmsE A) : only free t -> knows known t.
Proof.
  apply informed_only. intros K X [B c| |m|m] He; cbn in *; [|done..].
  destruct He as [? He]. split; [done|]. by destruct c.
Qed.

Lemma free_heartbeat_loop d l : only free (handle_loop d l).
Proof.
  induction l as [|[req|e] l IH]; cbn; [done| |done].
  split; [done|]. intros [[]|[]|]; cbn; try done; split; try done; by intros [].
Qed.

Lemma free_telemetry {A} (t : async TelemetryE A) : only free (embed ack_effect t).
Proof. apply only_embed. by intros X []. Qed.

Lemma free_seed l n : only free (seed_entries l n).
Proof.
  revert n. induction l as [|x l IH]; intros n; cbn; [done|].
  destruct (parse_entry x); cbn; auto.
Qed.

Lemma free_startup : only free (store_ready manifest).
Proof. destruct manifest; [|by split]. apply only_bind; [apply free_seed|by split]. Qed.

Lemma serve_knows j : knows [] (serve rt stx svc j).
Proof.
  unfold serve, reply. destruct (negb _); [done|].
  destruct (j.2) as [req|certs req|req|req|req|req|stream|frames].
  2: {
    unfold DmsServer.bootstrap_enroll. destruct certs as [certs|]; [|done]. cbn.
    destruct (Mtls.extract_serial certs); cbn; [|done..]. case_match; [done|].
    destruct (Mtls.verify_signed_by _ _); cbn; [|done..].
    split; [done|]. intros [pre|e|]; cbn; [|done..]. split; [done|]. intros t.
    destruct (sign _ _ _); cbn; [|done..]. split; [done|]. intros t'. split.
    - split; [done|]. cbn. set_solver.
    - by intros [d|e|]. }
  all: apply free_knows; cbn.
  - unfold provision_device. case_match; [done|]. split; [done|].
    intros [m|e|]; cbn; [|done..]. split; [done|]. intros t. by destruct (Csr.sign_csr _ _ _ _ _).
  - split; [done|]. intros [d|e|]; cbn; [|done..].
    case_match; [done|]. split; [done|]. intros t. destruct (sign _ _ _); cbn; [|done..]. by split.
  - split; [done|]. by intros [d|e|].
  - split; [done|]. by intros [[rows c]|e|].
  - split; [done|]. intros [u|e|]; cbn; [|done..]. split; [done|]. by intros [d|e|].
  - apply only_bind; [|done]. destruct stream as [|[first|e] l]; [done| |by split].
    apply free_heartbeat_loop.
  - apply only_bind; [apply free_telemetry|done].
Qed.

(** C6: every enrolled device comes from the factory manifest.  In every state
    the running service can reach, under any interleaving of requests,
    disconnections, restarts and engine faults, each stored device has an
    entry of the factory manifest with its serial and its model whose
    manufacturing token was used, its serial is claimed, it is stored under
    its own id, and no two devices share a serial. *)
Theorem devices_from_manifest s p :
  lineage (on_disk s) ->
  reachable (F := DmsE) (serve rt stx svc) (process_restart manifest) s p ->
  let t := on_disk (shared p) in
  forall i d, devices t !! i = Some d ->
    manufactured (serial d) (model d) t /\ is_claimed (serial d) t /\ id d = i /\
    (forall i' d', devices t !! i' = Some d' -> serial d' = serial d -> i' = i).
Proof.
  intros Hs Hr. enough (lineage (on_disk (shared p))) as [Hwf Hdev Hpre].
  { cbn. intros i d Hd. destruct (Hdev i d Hd) as (row & Hrow & Hcl & Hm). cbn in *.
    split; [rewrite <- Hm; by apply Hpre|]. split; [by exists row|].
    split; [by apply (Sqlite_.wf_id _ Hwf)|]. intros i' d' Hd' Hser.
    by eapply (Sqlite_.wf_serial _ Hwf). }
  revert Hs Hr. apply (reachable_informed (serve rt stx svc) (process_restart manifest)
    (fun f s => claimed_as f (on_disk s)) learnt allowed (fun s => lineage (on_disk s))).
  - apply serve_knows.
  - intros K X env e s1 x s2 Hok Hh HK Hl. destruct e as [A c| |m|m]; cbn in Hh; simplify_eq; [|done..].
    destruct (disk_atomic _ _ _ _ _ _ Hh) as [->|[a Ha]]; [done|]. eapply (spec_lineage _ _ K); [exact Hok|exact HK|exact Ha|exact Hl].
  - intros X env e s1 x s2 Hh. destruct e as [A c| |m|m]; cbn in Hh; simplify_eq; [|by constructor..].
    destruct c as [?|?|?|? ? ?|?|? ? ? ?|? ?|sno| |? ? ?|? ?]; try by constructor. destruct x as [pre|e|]; [|by constructor..]. cbn in Hh.
    pose proof (claim_durable _ (LookupAndClaim sno) _ _ _ _ eq_refl Hh) as Hspec. cbn in Hspec.
    constructor; [|by constructor]. unfold claimed_as. cbn.
    destruct (pre_enrollment (on_disk s1) !! sno) as [row|]; [|done]. case_decide; [|done].
    injection Hspec as <- <-. cbn. rewrite lookup_insert_eq. by eexists.
  - intros K X env e s1 x s2 f Hok Hh Hf. destruct e as [A c| |m|m]; cbn in Hh; simplify_eq; [|done..].
    destruct (disk_atomic _ _ _ _ _ _ Hh) as [->|[a Ha]]; [done|].
    eapply spec_claimed_as; [|exact Ha|done]. apply Hok.
  - intros s1 s2 [envs ->] Hl.
    apply (run_invariant free (fun s => lineage (on_disk s))).
    + intros X env e s3 x s4 Hok Hh Hl3. destruct e as [A c| |m|m]; cbn in Hh; simplify_eq; [|done..].
      destruct (disk_atomic _ _ _ _ _ _ Hh) as [->|[a Ha]]; [done|].
      eapply (spec_lineage _ _ []); [|by constructor|exact Ha|done].
      destruct Hok as [? Hok]. split; [done|]. by destruct c.
    + apply free_startup.
    + by rewrite on_disk_reopen.
Qed.
End lineage.
