(* ===== verification/StoreClaims.v ===== *)
(** * Properties of the SQLite device store

    Refinement of the atomic steps, atomicity on disk under every fault, and
    what a failed [COMMIT] does to the shared connection. *)

From S2P Require Import Prelude Sqlite Pki DeviceStore DeviceStoreSpec DeviceStoreSqlite.

Section claims.
Context `{BuildProfile}.
Implicit Types (s : Mutex Tables) (c : Conn Tables).

(** C4: the SQLite store implements its specification.  With no transaction
    open and the lock sound, and unless the end of a transaction fails with
    the transaction left open, every method returns and the store stays so:
    either it performed exactly its atomic step with that step's result, or
    the engine failed, the result is a database error, and the tables are as
    they were. *)
Theorem store_refines_spec A (k : StoreCall A) env s r s' :
  idle s -> ends_cleanly env -> call_ok k -> store_call env k s = (r, s') ->
  idle s' /\ r <> Panic /\
  (spec env k (live (guarded s)) = (r, live (guarded s')) \/
   faulty env /\ (exists e, r = Err (DmsErr.Db e)) /\ live (guarded s') = live (guarded s)).
Proof.
  intros Hs He Hk Hrun. destruct (post_run _ _ _ _ _ Hrun (sqlite_refines env k s Hs He Hk)) as
    [Hi [(Hf & [e ->] & Ht)|Hspec]].
  - split; [done|]. split; [done|]. right. eauto.
  - split; [done|]. split; [|by left]. intros ->.
    destruct k; cbn in Hspec; unfold ok_or in Hspec; repeat case_match; simplify_eq.
Qed.

(** C20: the disk changes by whole steps.  In every state of the store, open
    transaction and poisoned lock included, and under every combination of
    engine faults, what a crash would leave after a call is what it would have
    left before, or that with the call's atomic step done; and when a claim
    is reported, its step is on disk. *)
Theorem store_crash_atomic A (k : StoreCall A) env s r s' :
  store_call env k s = (r, s') ->
  (durable (guarded s') = durable (guarded s) \/
   exists a, spec env k (durable (guarded s)) = (Ok a, durable (guarded s'))) /\
  (transactional k = true -> forall a, r = Ok a ->
   spec env k (durable (guarded s)) = (Ok a, durable (guarded s'))).
Proof. intros Hrun. exact (post_run _ _ _ _ _ Hrun (sqlite_disk env k s)). Qed.

(** ** A connection with a transaction left open *)

Definition wedged (s : Mutex Tables) : Prop := saved (guarded s) <> None.

(** Without faults the code keeps the transaction of the connection open. *)
Definition seals {E A} (m : ST (Conn Tables) E A) : Prop :=
  forall c t, saved c = Some t -> post m (fun _ c' => saved c' = Some t) c.

Lemma seals_bind {E A B} (m : ST (Conn Tables) E A) (f : A -> ST (Conn Tables) E B) :
  seals m -> (forall a, seals (f a)) -> seals (m ≫= f).
Proof using Type.
  intros Hm Hf c t Hc. apply post_bind. eapply post_mono; [by apply Hm|].
  intros [a|e|] c' Hc'; [by apply Hf|done..].
Qed.

Lemma seals_map_err {E E' A} (f : E' -> E) (m : ST (Conn Tables) E' A) :
  seals m -> seals (st_map_err f m).
Proof using Type. intros Hm c t Hc. by apply post_map_err, Hm. Qed.

Lemma seals_ret {E A} (a : A) : seals (mret a : ST (Conn Tables) E A).
Proof using Type. by intros c t Hc. Qed.
Lemma seals_err {E A} (e : E) : seals (st_err e : ST (Conn Tables) E A).
Proof using Type. by intros c t Hc. Qed.
Lemma seals_lift {E A} (r : outcome E A) : seals (st_lift r : ST (Conn Tables) E A).
Proof using Type. by intros c t Hc. Qed.

Section calm.
Context (env : Env).
Hypothesis no_fault : forall x, sql_fault env x = NoFault.

Lemma seals_statement {A} n (f : Tables -> outcome RusqliteError (A * Tables)) :
  seals (statement env n f).
Proof using no_fault.
  intros c t Hc. unfold post, statement. rewrite no_fault.
  by destruct (f (live c)) as [[a t']|e|].
Qed.

Lemma seals_query {A} n (f : Tables -> outcome RusqliteError A) : seals (query env n f).
Proof using no_fault. apply seals_statement. Qed.

Lemma seals_query_row {A} n (f : Tables -> option A) : seals (query_row env n f).
Proof using no_fault. apply seals_statement. Qed.

(** [BEGIN IMMEDIATE] inside a transaction fails, and the method with it. *)
Lemma transaction_refused {A} (body : ST (Conn Tables) Error A) c t :
  saved c = Some t ->
  Sqlite_.transaction env body c = (Err (DmsErr.Db (SqliteFailure OtherCode)), c).
Proof using no_fault.
  intros Hc. unfold Sqlite_.transaction, Sqlite_.db, st_map_err, begin_immediate.
  cbn. unfold mbind, ST_bind. by rewrite no_fault, Hc.
Qed.

Lemma seals_transaction {A} (body : ST (Conn Tables) Error A) :
  seals (Sqlite_.transaction env body).
Proof using no_fault. intros c t Hc. unfold post. by erewrite transaction_refused. Qed.

Lemma locked_seals {A} (body : ST (Conn Tables) Error A) s t :
  seals body -> saved (guarded s) = Some t ->
  post (Sqlite_.locked body) (fun _ s' => saved (guarded s') = Some t) s.
Proof using Type.
  intros Hb Hs. apply post_with_lock; [done|]. intros _.
  eapply post_mono; [by apply Hb|]. by cbn.
Qed.

Lemma locked_refused {A} (body : ST (Conn Tables) Error A) s t :
  saved (guarded s) = Some t ->
  exists e, (Sqlite_.locked (Sqlite_.transaction env body) s).1 = Err (DmsErr.Db e).
Proof using no_fault.
  intros Hs. unfold Sqlite_.locked, with_lock. destruct (poisoned s); [by eexists|].
  rewrite (transaction_refused _ _ t) by done. by eexists.
Qed.

Ltac seals_tac :=
  repeat match goal with
    | |- seals (mbind _ _) => apply seals_bind; [|intros ?]
    | |- seals (Sqlite_.db _) => apply seals_map_err
    | |- seals (st_map_err _ _) => apply seals_map_err
    | |- seals (if ?b then _ else _) => destruct b
    | |- seals (let _ := _ in _) => cbv zeta
    end;
  auto using seals_ret, seals_err, seals_lift, seals_statement, seals_query, seals_query_row,
    seals_transaction.

Lemma wedged_call {A} (k : StoreCall A) s t :
  saved (guarded s) = Some t ->
  post (store_call env k) (fun _ s' => saved (guarded s') = Some t) s.
Proof using no_fault.
  intros Hs. destruct k as [d|i|sno|i st re|i|m st l cu|sno m|sno| |sno m tok|sno tok]; cbn [store_call].
  1: { apply post_bind. eapply post_mono; [by apply locked_seals; [seals_tac|]|].
       by intros [a|e|] s'. }
  all: apply locked_seals; [|done]; seals_tac.
Qed.
End calm.

(** C34: a failed [COMMIT] disables the store until the process restarts.  If
    the [COMMIT] of a claim fails and the engine keeps the transaction open,
    the claim is reported as a database error and the shared connection stays
    inside the transaction, since nothing rolls it back.  From then on, even
    if the engine never fails again, every claim is refused with a database
    error, and whatever the other methods report as done never reaches the
    disk. *)
Theorem failed_commit_wedges_store sno row env s :
  idle s -> pre_enrollment (live (guarded s)) !! sno = Some row -> claimed row = 0%Z ->
  sql_fault env AtCommit = StmtFault ->
  (forall x, x <> AtCommit -> sql_fault env x = NoFault) ->
  let '(r, s1) := lookup_and_claim env sno s in
  r = Err (DmsErr.Db (SqliteFailure OtherCode)) /\ wedged s1 /\
  durable (guarded s1) = durable (guarded s) /\
  forall A (k : StoreCall A) env' s2 r3 s3,
    wedged s2 -> (forall x, sql_fault env' x = NoFault) -> store_call env' k s2 = (r3, s3) ->
    wedged s3 /\ durable (guarded s3) = durable (guarded s2) /\
    (transactional k = true -> exists e, r3 = Err (DmsErr.Db e)).
Proof.
  intros [Hs Hp] Hrow Hcl Hcommit Hothers.
  destruct s as [[t sv] po]. cbn in Hs, Hp, Hrow. subst.
  cbn. unfold Sqlite_.lookup_and_claim, Sqlite_.locked, with_lock, Sqlite_.transaction,
    Sqlite_.db, st_map_err, begin_immediate, query_row, query, statement, st_inspect, commit.
  cbn. unfold mbind, ST_bind. cbn.
  rewrite (Hothers AtBegin), (Hothers (AtStmt 0)), (Hothers (AtStmt 1)) by done. cbn.
  rewrite Hrow. cbn. rewrite decide_False by lia. cbn. rewrite Hcommit. cbn.
  split; [done|]. split; [done|]. split; [done|].
  intros A k env' s2 r3 s3 Hw Hf Hrun. unfold wedged in *.
  destruct (saved (guarded s2)) as [t2|] eqn:Hs2; [|done].
  pose proof (post_run _ _ _ _ _ Hrun (wedged_call env' Hf k s2 t2 Hs2)) as Hs3. cbn in Hs3.
  split; [by rewrite Hs3|]. split; [unfold durable; by rewrite Hs2, Hs3|].
  intros Hk. assert (r3 = (store_call env' k s2).1) as -> by (by rewrite Hrun).
  destruct k; try done; cbn; by eapply locked_refused.
Qed.
End claims.
