(* ===== verification/DmsClaims.v ===== *)
(** * What the requests of the device-management service do

    Renewal on every branch, the paging of the device list, and the heartbeat
    stream. *)

From S2P Require Import Prelude Paging Sqlite Async Pki DeviceStore DeviceStoreSpec Grpc DmsEffects.
From S2P Require Import Enrollment Provisioning Heartbeat DmsServer RustStr DmsMain.
From S2P Require Import DeviceStoreSqlite ToyPki Admission Lockout.

#[local] Instance by_id_trans : Transitive Sql.by_id.
Proof. intros a b c Hab Hbc. unfold Sql.by_id in *. by etrans. Qed.
#[local] Instance by_id_total : Total Sql.by_id.
Proof. intros a b. apply (total String.le). Qed.

Section claims.
Context `{PkiLib, BuildProfile} {S : Type} `{DeviceStoreSpec S}.
Context (rt : RusqliteError -> string) (stx : Status -> string).

(** ** Renewal *)

(** The server behind a port. *)
Definition server_of (svc : Service) (p : Port) : DeviceManagementServer :=
  match p with BootstrapPort => bootstrap_svc svc | _ => fleet_svc svc end.

(** C25: renewal asks for a device id and nothing else.  Without faults,
    [renew_cert] on the fleet port and on the bootstrap port answers by the
    stored device alone: [NotFound] if there is none, [FailedPrecondition]
    unless it is active, and otherwise a Fleet-CA certificate for whatever CSR
    was sent, without looking at the caller's certificate or the CSR's subject;
    the tables, the device's stored certificate included, do not change. *)
Theorem renew_cert_cases svc p req envs s :
  p <> ProvisioningPort -> healthy s -> (forall n, no_fault (envs n)) ->
  let self := enrollment (server_of svc p) in
  let '(r, s') := run (serve rt stx svc (p, RenewCert req)) envs s in
  healthy s' /\ visible s' = visible s /\
  match devices (visible s) !! rc_device_id req with
  | None => r = Err (mkStatus NotFound (rc_device_id req))
  | Some d =>
      if decide (status d = "active") then
        match sign self (clock (envs 1)) (rc_csr_pem req) with
        | Ok cert =>
            r = Ok (RenewReply (mkRenewResp cert (at_seconds (expiry self (clock (envs 2))))))
        | Err e => r = Err (DmsServer.map_err rt e)
        | Panic => r = Panic
        end
      else r = Err (mkStatus FailedPrecondition
                      ("device is " +:+ status d +:+ ", cannot renew cert"))
  end.
Proof.
  intros Hp Hs Hf self.
  destruct (store_call_calm (GetDevice (rc_device_id req)) (envs 0) s Hs (Hf 0) I) as (s' & Hc & Hs' & Hv).
  cbn in Hc, Hv. unfold serve, renew_cert, Enrollment.renew_cert, mapped, reply.
  destruct (negb _) eqn:Hn; [by destruct p|]. cbn. rewrite Hc.
  destruct (devices (visible s) !! rc_device_id req) as [d|]; cbn; [|done].
  fold (server_of svc p). fold self.
  destruct (decide (status d = "active")) as [Ha|Ha].
  - rewrite bool_decide_false by auto. cbn. fold self.
    destruct (sign self _ _) as [cert|e|]; cbn; done.
  - rewrite bool_decide_true by done. done.
Qed.

(** ** Listing devices *)

(** What a client of [list_devices] is shown at a cursor. *)
Definition device_page_at (env : Env) (m st : string) (limit : Z) (s : S)
    (cursor : option string) : list DeviceInfo * option string :=
  match (run (list_devices rt (mkListReq m st limit (unwrap_or_default cursor)))
           (fun _ => env) s).1 with
  | Ok resp => (lr_devices resp, non_empty (lr_next_cursor resp))
  | _ => ([], None)
  end.

Lemma page_limit_bounds limit : in_i32 limit -> (0 < page_limit limit < i64_max)%Z.
Proof. unfold in_i32, page_limit, i64_max. case_match; lia. Qed.

Lemma matching_after m st k t :
  matching m st (Some k) t = after id str_lt (Some k) (matching m st None t).
Proof.
  unfold matching. cbn. rewrite list_filter_filter. apply list_filter_iff.
  intros d. unfold matches, str_lt. naive_solver.
Qed.

Lemma elem_of_matching m st cursor t d :
  d ∈ matching m st cursor t <-> matches m st cursor d /\ exists i, devices t !! i = Some d.
Proof.
  unfold matching. rewrite list_elem_of_filter, merge_sort_Permutation.
  unfold device_rows. by rewrite list_fmap_snd_map_to_list_elem.
Qed.

Lemma matching_ordered m st t : Sqlite_.wf t -> ordered id str_lt (matching m st None t).
Proof.
  intros Hwf. unfold matching. apply StronglySorted_filter.
  eapply (sorted_strict id Sql.by_id); [by intros x y ? ?; split| |].
  - apply (StronglySorted_merge_sort Sql.by_id).
  - rewrite merge_sort_Permutation. unfold device_rows.
    rewrite <- list_fmap_compose. rewrite (list_fmap_ext _ fst).
    + apply NoDup_fst_map_to_list.
    + intros n [i d] Hi. cbn. apply (Sqlite_.wf_id t Hwf). apply elem_of_map_to_list.
      by eapply list_elem_of_lookup_2.
Qed.

Lemma device_page_at_spec env m st limit s cursor :
  healthy s -> no_fault env -> in_i32 limit ->
  (forall i d, devices (visible s) !! i = Some d -> id d <> "") ->
  (forall k, cursor = Some k -> k <> "") ->
  device_page_at env m st limit s cursor =
    let p := page id (Z.to_nat (page_limit limit))
               (matching (non_empty m) (non_empty st) cursor (visible s)) in
    (map record_to_proto p.1, p.2).
Proof.
  intros Hs Hf Hl Hid Hk. pose proof (page_limit_bounds limit Hl) as Hb.
  unfold device_page_at. cbn.
  assert (non_empty (unwrap_or_default cursor) = cursor) as ->.
  { unfold non_empty. destruct cursor as [k|]; cbn; [|done]. by rewrite decide_False by auto. }
  destruct (store_call_calm (ListDevices (non_empty m) (non_empty st) (page_limit limit) cursor)
    env s Hs Hf) as (s' & Hc & _). { cbn. lia. }
  cbn in Hc. rewrite Hc. cbn. f_equal. unfold page.
  case_decide as Hlt; [|done].
  destruct (last (take _ (matching _ _ _ _))) as [d|] eqn:Hlast; [|done]. cbn.
  unfold non_empty. rewrite decide_False; [done|].
  assert (d ∈ matching (non_empty m) (non_empty st) cursor (visible s)) as Hd.
  { apply last_Some in Hlast as [q Hq].
    rewrite <- (take_drop (Z.to_nat (page_limit limit)) (matching _ _ _ _)), Hq. set_solver. }
  apply elem_of_matching in Hd as [_ [i Hi]]. by eapply Hid.
Qed.

(** C31: paging through the device list is complete.  Following [next_cursor]
    from the first page ends after at most one page per device and shows every
    stored device that matches the model and status filters exactly once, in
    the order of ids, whatever page size is asked for. *)
Theorem device_listing_complete env m st limit s :
  healthy s -> no_fault env -> in_i32 limit -> Sqlite_.wf (visible s) ->
  (forall i d, devices (visible s) !! i = Some d -> id d <> "") ->
  let ds := matching (non_empty m) (non_empty st) None (visible s) in
  walk (device_page_at env m st limit s) (Datatypes.S (length ds)) None =
    Some (map record_to_proto ds) /\
  (forall d, d ∈ ds <-> (exists i, devices (visible s) !! i = Some d) /\
     (m = "" \/ model d = m) /\ (st = "" \/ status d = st)) /\
  StronglySorted (fun d1 d2 => str_lt (id d1) (id d2)) ds.
Proof.
  intros Hs Hf Hl Hwf Hid ds. pose proof (matching_ordered (non_empty m) (non_empty st) _ Hwf) as Ho.
  split; [|split; [|exact Ho]].
  - rewrite (walk_ext _ (fun c =>
      let p := page id (Z.to_nat (page_limit limit)) (after id str_lt c ds) in
      (map record_to_proto p.1, p.2)) (fun c => cursor_of id ds c)).
    + rewrite (walk_fmap record_to_proto (fun c =>
        page id (Z.to_nat (page_limit limit)) (after id str_lt c ds))).
      rewrite (walk_all id str_lt _ (Z.to_nat (page_limit limit)) ds); try done.
      pose proof (page_limit_bounds limit Hl). lia.
    + intros [k|] Hc; [|by rewrite device_page_at_spec by done].
      destruct Hc as (x & Hx & ->). rewrite device_page_at_spec; [|done..|].
      * by rewrite matching_after.
      * intros k [= <-]. apply elem_of_matching in Hx as [_ [i Hi]]. by eapply Hid.
    + intros c k Hc. cbn. unfold page. case_decide; [|done].
      intros Hk. apply fmap_Some in Hk as (x & Hx & ->). exists x. split; [|done].
      apply last_Some in Hx as [q Hq].
      assert (x ∈ after id str_lt c ds) as Hin.
      { rewrite <- (take_drop (Z.to_nat (page_limit limit))), Hq. set_solver. }
      destruct c; [by apply list_elem_of_filter in Hin as [_ ?]|done].
    + done.
  - intros d. unfold ds. rewrite elem_of_matching. unfold matches, non_empty.
    repeat case_decide; naive_solver.
Qed.

(** ** Heartbeats *)

#[local] Existing Instance logged_handler.

(** The device is known, and only its last-seen time changes. *)
Definition touched (i : string) (d : DeviceRecord) (now : Z) (t t' : Tables) : Prop :=
  t' = set_devices (<[i := Sqlite_.with_last_seen (unix_timestamp now) d]> (devices t)) t.

#[local] Arguments handle_loop : simpl never.

Lemma handle_loop_cons i req (rest : list Item) :
  handle_loop i (inl req :: rest) =
    async_bind (heartbeat_answer i) (fun go : bool => if go then handle_loop i rest else Done tt).
Proof. done. Qed.

Lemma handle_loop_touches i d reqs envs s log :
  healthy s -> (forall n, no_fault (envs n) /\ peer_alive (envs n) = true) ->
  devices (visible s) !! i = Some d -> reqs <> [] ->
  exists s' n, run (handle_loop i (inl <$> reqs)) envs (s, log) =
      (tt, (s', log ++ replicate (length reqs) (Ok (mkHeartbeatResp false "")))) /\
    healthy s' /\ touched i d (clock (envs n)) (visible s) (visible s').
Proof.
  revert d envs s log. induction reqs as [|req reqs IH]; intros d envs s log Hs He Hd Hne; [done|].
  destruct (store_call_calm (TouchLastSeen i) (envs 0) s Hs (proj1 (He 0)) I) as (s1 & Hc & Hs1 & Hv1).
  cbn in Hc, Hv1. rewrite Hd in Hc, Hv1. cbn in Hc, Hv1.
  rewrite fmap_cons, handle_loop_cons. cbn. rewrite Hc. cbn. rewrite (proj2 (He 1)). cbn.
  destruct reqs as [|req2 reqs].
  { exists s1, 0. split; [done|]. split; [done|]. exact Hv1. }
  destruct (IH (Sqlite_.with_last_seen (unix_timestamp (clock (envs 0))) d)
    (fun n => envs (2 + n)) s1 (log ++ [Ok (mkHeartbeatResp false "")])) as (s' & n & Hrun & Hs' & Ht).
  - done.
  - intros n. apply He.
  - rewrite Hv1. cbn. by rewrite lookup_insert_eq.
  - done.
  - exists s', (2 + n). split; [|split; [done|]].
    + etrans; [exact Hrun|]. do 2 f_equal. by rewrite <- app_assoc.
    + unfold touched in *. rewrite Ht, Hv1. cbn. by rewrite insert_insert_eq.
Qed.

(** The heartbeat stream, server side.  Without faults and while the client listens, a
    stream of messages whose first names a stored device is answered message
    by message with no directive, and all it changes is the last-seen time of
    that device, to the time of one of the messages, whatever ids the later
    messages carry; if the first message names no stored device the stream is
    answered with one [NotFound] and nothing changes. *)
Lemma heartbeat_stream first rest envs s :
  healthy s -> (forall n, no_fault (envs n) /\ peer_alive (envs n) = true) ->
  let i := hb_device_id first in
  let '(_, (s', sent)) := run (Heartbeat.handle stx (inl <$> first :: rest)) envs (s, []) in
  healthy s' /\
  match devices (visible s) !! i with
  | Some d =>
      sent = replicate (Datatypes.S (length rest)) (Ok (mkHeartbeatResp false "")) /\
      exists n, visible s' =
        set_devices (<[i := Sqlite_.with_last_seen (unix_timestamp (clock (envs n))) d]>
                       (devices (visible s))) (visible s)
  | None =>
      sent = [Err (mkStatus NotFound ("device " +:+ i +:+ " not found"))] /\ visible s' = visible s
  end.
Proof.
  intros Hs He i. rewrite fmap_cons. unfold Heartbeat.handle. fold i.
  destruct (devices (visible s) !! i) as [d|] eqn:Hd.
  - destruct (handle_loop_touches i d (first :: rest) envs s [] Hs He Hd) as (s' & n & Hrun & Hs' & Ht);
      [done|]. rewrite fmap_cons in Hrun. rewrite Hrun.
    split; [done|]. split; [done|]. by exists n.
  - destruct (store_call_calm (TouchLastSeen i) (envs 0) s Hs (proj1 (He 0)) I) as (s1 & Hc & Hs1 & Hv1).
    cbn in Hc, Hv1. rewrite Hd in Hc, Hv1. cbn in Hc, Hv1.
    rewrite handle_loop_cons. cbn. rewrite Hc. cbn. rewrite (proj2 (He 1)). done.
Qed.
End claims.
