(* ===== verification/Suspension.v ===== *)
(** * Suspended devices

    An operator's change of status holds until the next one: nothing else in
    the service changes a device's status, neither another request nor a
    restart, and while it is not [active] no renewal of the device's
    certificate that begins succeeds. *)

From S2P Require Import Prelude Sqlite Async Pki DeviceStore DeviceStoreSpec Grpc DmsEffects.
From S2P Require Import Enrollment Provisioning Heartbeat DmsTelemetry DmsServer RustStr DmsMain Admission.

Section suspension.
Context `{PkiLib, BuildProfile} {S : Type} `{DeviceStoreSpec S}.
Context (rt : RusqliteError -> string) (stx : Status -> string) (svc : Service).
Context (manifest : option string) (i st : string).

(** Effects that keep the status of device [i]. *)
Definition quiet : forall X, DmsE X -> Prop := fun X e =>
  match e with
  | Store c => call_ok c /\ match c with UpdateStatus j _ _ => j <> i | _ => True end
  | _ => True
  end.

(** Requests that do not set it, with a page size of 32 bits. *)
Definition no_status_change (r : Rpc) : Prop :=
  match r with
  | UpdateDeviceStatus req => us_device_id req <> i
  | ListDevicesRpc req => in_i32 (ld_limit req)
  | _ => True
  end.

(** The device is stored with this status. *)
Definition has_status (s : S) : Prop :=
  healthy s /\ exists d, devices (visible s) !! i = Some d /\ status d = st.

Lemma spec_keeps_status {A} env (c : StoreCall A) t r t' d :
  match c with UpdateStatus j _ _ => j <> i | _ => True end ->
  spec env c t = (r, t') -> devices t !! i = Some d -> status d = st ->
  exists d', devices t' !! i = Some d' /\ status d' = st.
Proof using Type.
  intros Hc Hs Hd Hst.
  destruct c as [new|i0|s|i0 st' re|i0|m st' l cu|s m|s| |s m tok|s tok]; cbn in Hs.
  - case_decide as Hfree; simplify_eq; [by exists d|]. cbn. exists d.
    rewrite lookup_insert_ne; [done|]. intros E. apply Hfree. left. by rewrite E; exists d.
  - simplify_eq. by exists d.
  - simplify_eq. by exists d.
  - case_match; simplify_eq; [|by exists d]. exists d. cbn. by rewrite lookup_insert_ne.
  - destruct (devices t !! i0) as [d0|] eqn:Hi0; simplify_eq; [|by exists d]. cbn.
    destruct (decide (i0 = i)) as [->|Hne]; [|exists d; by rewrite lookup_insert_ne].
    rewrite lookup_insert_eq. simplify_eq. by eexists.
  - simplify_eq. by exists d.
  - repeat case_match; simplify_eq; by exists d.
  - repeat case_match; simplify_eq; by exists d.
  - simplify_eq. by exists d.
  - repeat case_match; simplify_eq; by exists d.
  - repeat case_match; simplify_eq; by exists d.
Qed.

Lemma handle_keeps_status X env (e : DmsE X) s x s' :
  ends_cleanly env -> quiet X e -> Async.handle env e s = (x, s') -> has_status s -> has_status s'.
Proof using Type.
  intros He Hq Hh [Hs (d & Hd & Hst)].
  destruct e as [A c| |m|m]; cbn in Hh; [|by simplify_eq; split; [|exists d]..].
  destruct Hq as [Hok Hc]. destruct (call_refines _ _ _ _ _ _ Hs He Hok Hh) as [Hs' [(er & -> & Hv)|Hv]].
  - split; [done|]. exists d. by rewrite Hv.
  - split; [done|]. by eapply spec_keeps_status.
Qed.

(** ** Requests *)

Lemma quiet_store {A} (c : StoreCall A) :
  call_ok c -> match c with UpdateStatus j _ _ => j <> i | _ => True end -> only quiet (store c).
Proof using Type. by repeat split. Qed.

Lemma quiet_now {E} : only quiet (now_utc : Task DmsE E Z).
Proof using Type. done. Qed.

Lemma quiet_heartbeat_loop d l : only quiet (handle_loop d l).
Proof using Type.
  induction l as [|[req|e] l IH]; cbn; [done| |done].
  split; [done|]. intros [[]|[]|]; cbn; try done; split; try done; by intros [].
Qed.

Lemma quiet_telemetry {A} (t : async TelemetryE A) : only quiet (embed ack_effect t).
Proof using Type. apply only_embed. by intros X []. Qed.

Lemma quiet_heartbeat l : only quiet (Heartbeat.handle stx l).
Proof using Type. destruct l as [|[req|e] l]; [done| |done]. apply quiet_heartbeat_loop. Qed.

Lemma quiet_serve p r : no_status_change r -> only quiet (serve rt stx svc (p, r)).
Proof using Type.
  intros Hr. unfold serve, reply, DmsServer.bootstrap_enroll, renew_cert, get_device, list_devices,
    update_device_status, mapped, provision_device, Enrollment.bootstrap_enroll, Enrollment.renew_cert.
  destruct (negb _); [done|].
  destruct r as [req|certs req|req|req|req|req|stream|frames]; cbn [snd] in *; only_tac;
    try apply quiet_now; try (by apply quiet_store);
    [|apply quiet_heartbeat|apply quiet_telemetry].
  apply quiet_store; [|done]. unfold no_status_change, in_i32 in Hr.
  unfold call_ok, page_limit, i64_max. case_match; lia.
Qed.

(** ** Restarts *)

Lemma quiet_seed l n : only quiet (seed_entries l n).
Proof using Type.
  revert n. induction l as [|x l IH]; intros n; cbn; [done|].
  destruct (parse_entry x); cbn; auto.
Qed.

Lemma quiet_startup : only quiet (store_ready manifest).
Proof using Type. destruct manifest; [|by repeat split]. apply only_bind; [apply quiet_seed|by repeat split]. Qed.

(** A restart of the process in which the engine ends its transactions
    cleanly. *)
Definition clean_restart (s s' : S) : Prop :=
  exists envs, (forall n, ends_cleanly (envs n)) /\
    s' = (Async.run (store_ready manifest) envs (reopen s)).2.

Lemma restart_keeps_status s s' : clean_restart s s' -> has_status s -> has_status s'.
Proof using Type.
  intros (envs & He & ->) [Hs (d & Hd & Hst)].
  apply (run_invariant_good ends_cleanly quiet has_status); [apply handle_keeps_status|done|apply quiet_startup|].
  split; [apply healthy_reopen|]. exists d.
  by rewrite <- healthy_on_disk, on_disk_reopen, healthy_on_disk by (done || apply healthy_reopen).
Qed.

(** ** Renewals *)

(** The answer a renewal needs: that the device is active. *)
Definition grants_renewal : forall X, DmsE X -> X -> bool := fun X e =>
  match e in DmsE X return X -> bool with
  | Store c =>
      match c in StoreCall A return outcome Error A -> bool with
      | GetDevice j => fun r =>
          match r with Ok d => dec (j = i) && dec (status d = "active") | _ => false end
      | _ => fun _ => false
      end
  | _ => fun _ => false
  end.

(** A renewal of the device's certificate, and it succeeded. *)
Definition renewed (j : Port * Rpc) (r : outcome Status Reply) : Prop :=
  match j.2 with RenewCert req => rc_device_id req = i /\ is_ok r = true | _ => False end.

(** A task that can only renew after it was told that the device is active. *)
Abbreviation awaits_status := (gated quiet grants_renewal renewed).

Lemma awaits_status_never j t : (forall r, ~ renewed j r) -> only quiet t -> awaits_status j t.
Proof using Type.
  intros Hw. induction t as [r|X e k IH]; cbn; [auto|]. intros [He Hk].
  split; [done|]. intros x. destruct (grants_renewal X e x); auto.
Qed.

Lemma awaits_status_serve j : only quiet (serve rt stx svc j) -> awaits_status j (serve rt stx svc j).
Proof using Type.
  destruct (j.2) as [req|certs req|req|req|req|req|stream|frames] eqn:Hj.
  1, 2, 4-8: apply awaits_status_never; intros r; unfold renewed; rewrite Hj; by intros [].
  destruct (decide (rc_device_id req = i)) as [Hi|Hi].
  2: apply awaits_status_never; intros r; unfold renewed; rewrite Hj; by intros [].
  unfold serve. rewrite Hj. destruct (negb _); cbn.
  { intros _. unfold renewed. rewrite Hj. by intros []. }
  intros [Hq Hk]. split; [done|]. intros x. specialize (Hk x). destruct x as [d|e|]; cbn in *.
  - rewrite bool_decide_true by done. cbn. destruct (decide (status d = "active")) as [Ha|Ha].
    + by rewrite bool_decide_true by done.
    + rewrite bool_decide_false, (bool_decide_true (status d <> "active")) by done. cbn.
      unfold renewed. rewrite Hj. by intros [].
  - unfold renewed. rewrite Hj. by intros [].
  - unfold renewed. rewrite Hj. by intros [].
Qed.

Lemma suspended_denies X env (e : DmsE X) s x s' :
  st <> "active" -> ends_cleanly env -> quiet X e -> Async.handle env e s = (x, s') ->
  has_status s -> has_status s' /\ grants_renewal X e x = false.
Proof using Type.
  intros Hna He Hq Hh Hs. split; [by eapply handle_keeps_status|].
  destruct e as [A c| | |]; [|done..].
  destruct c as [d|j|s0|j st' re|j|m st' l cu|s0 m|s0| |s0 m tok|s0 tok]; try done.
  cbn in Hh. destruct Hs as [Hs (d & Hd & Hst)]. cbn. destruct x as [d'| |]; [|done..].
  case_bool_decide as Hj; [|done]. subst j. cbn. apply bool_decide_eq_false.
  destruct (call_refines _ (GetDevice i) _ _ _ _ Hs He I Hh) as [_ [(er & ? & _)|Hv]]; [done|].
  cbn in Hv. rewrite Hd in Hv. cbn in Hv. injection Hv as -> _. by rewrite Hst.
Qed.

(** ** The suspension *)

(** The service runs on while no request sets the status of the device and the
    engine ends its transactions cleanly; other calls may fail. *)
Abbreviation quiet_step :=
  (limited_step (F := DmsE) (serve rt stx svc) clean_restart ends_cleanly
     (fun j => no_status_change j.2)).

(** The operator's request, once its update is stored. *)
Lemma update_resumed port reason k env (p : Pool DmsE S (Port * Rpc) (outcome Status Reply)) :
  let operator := (port, UpdateDeviceStatus (mkUpdateReq i st reason)) in
  healthy (shared p) -> ends_cleanly env -> port <> ProvisioningPort ->
  tasks p !! k = Some (operator, serve rt stx svc operator) ->
  (update_status env i st reason (shared p)).1 = Ok tt ->
  let p' := act (serve rt stx svc) p (Resume k env) in
  has_status (shared p') /\ replies p' = replies p /\
  exists t, only quiet t /\ tasks p' = <[k := (operator, t)]> (tasks p).
Proof using Type.
  intros operator Hs He Hp Hk Hok p'. unfold p'. cbn [act]. unfold Task in *. rewrite Hk. unfold operator, serve.
  assert (serves port (UpdateDeviceStatus (mkUpdateReq i st reason)) = true) as Hserves by (by destruct port).
  cbn [fst snd]. rewrite Hserves. cbn.
  destruct (update_status env i st reason (shared p)) as [r s1] eqn:Hr. cbn in Hok. subst r. cbn.
  split; [|split; [done|]].
  - destruct (call_refines _ (UpdateStatus i st reason) _ _ _ _ Hs He I Hr) as [Hs1 [(er & ? & _)|Hv]]; [done|].
    split; [done|]. cbn in Hv. destruct (devices (visible (shared p)) !! i) as [d|] eqn:Hd; [|done].
    injection Hv as <-. cbn. eexists. by rewrite lookup_insert_eq.
  - eexists. split; [|done]. split; [done|]. by intros [|e|].
Qed.

(** C19: a suspension holds.  Take any state the service can reach, under any
    interleaving, disconnections, restarts and faults, in which the store has
    no transaction open, an operator's [update_device_status] of a device is
    being handled and no other request in flight sets that device's status.
    When the update is stored, with a status other than [active], then until
    another request sets the status of that device, whatever requests arrive
    and interleave, whichever clients disconnect, however often the process
    restarts and whichever calls of the engine fail, as long as it ends its
    transactions cleanly: the device keeps that status, and no [renew_cert] for
    it succeeds, except one that had already begun when the update was stored
    and may have read the old status. *)
Theorem suspension_holds s0 p0 k port reason env p
    (operator := (port, UpdateDeviceStatus (mkUpdateReq i st reason))) :
  reachable (F := DmsE) (serve rt stx svc) (process_restart manifest) s0 p0 ->
  healthy (shared p0) -> port <> ProvisioningPort -> st <> "active" -> ends_cleanly env ->
  tasks p0 !! k = Some (operator, serve rt stx svc operator) ->
  (forall k' j t, tasks p0 !! k' = Some (j, t) -> k' <> k -> no_status_change j.2) ->
  (update_status env i st reason (shared p0)).1 = Ok tt ->
  rtc quiet_step (act (serve rt stx svc) p0 (Resume k env)) p ->
  has_status (shared p) /\
  forall k' j req r, j.2 = RenewCert req -> rc_device_id req = i ->
    (k', j, r) ∈ replies p -> (k', j, r) ∉ replies p0 ->
    (forall j' t, tasks p0 !! k' = Some (j', t) -> t = serve rt stx svc j') ->
    is_ok r = false.
Proof.
  intros Hr0 Hs Hport Hna He Hk Hothers Hup Hsteps.
  destruct (update_resumed port reason k env p0 Hs He Hport Hk Hup) as (Hst & Hrep & t0 & Hq0 & Htasks).
  fold operator in Htasks. set (p1 := act _ p0 _) in *.
  assert (forall k' j t, tasks p0 !! k' = Some (j, t) -> k' <> k -> only quiet t) as Hquiet.
  { intros k' [q r] t Ht Hne. eapply (reachable_tasks _ _ s0 p0 Hr0 k'); [exact Ht|].
    exact (quiet_serve q r (Hothers k' _ t Ht Hne)). }
  assert (forall r, ~ renewed operator r) as Hop by (by intros r []).
  destruct (limited_never_won (serve rt stx svc) clean_restart quiet grants_renewal renewed ends_cleanly
    (fun j => no_status_change j.2) has_status p1 p) as [Hst' Hreps].
  - intros X env' e s x s' He' Hq Hh. by apply suspended_denies with (env := env').
  - apply restart_keeps_status.
  - intros [q r] Hj. by apply awaits_status_serve, quiet_serve.
  - exact Hst.
  - intros k' j t. rewrite Htasks, lookup_insert. case_decide; [by intros [= <- <-]|by eauto].
  - exact Hsteps.
  - split; [exact Hst'|]. intros k' j req r Hj Hi Hin Hnew Hfresh. rewrite <- Hrep in Hnew.
    destruct (Hreps k' j r Hin) as [?|Hnot]; [done|]. apply not_true_is_false. intros Hok.
    apply Hnot; [|unfold renewed; by rewrite Hj]. intros j' t. rewrite Htasks, lookup_insert.
    case_decide as Hkk.
    + intros [= <- <-]. by apply awaits_status_never.
    + intros Ht. pose proof (Hquiet _ _ _ Ht ltac:(done)) as Hqt. rewrite (Hfresh _ _ Ht) in Hqt |- *.
      by apply awaits_status_serve.
Qed.
End suspension.

(** ** What an issued certificate says *)

Section expiry.
Context `{PkiLibSpec} (self : EnrollmentService).

(** The expiry that is reported is not the certificate's.  A certificate
    that [bootstrap_enroll] and [renew_cert] issue is valid from the clock
    reading of its signing for exactly the configured number of days; the
    expiry they report is computed from a later reading, so that it is never
    before the certificate's own, and it is later by as much as the clock has
    advanced, to the second. *)
Lemma reported_expiry signed_at reported_at csr_pem cert_text :
  sign self signed_at csr_pem = Ok cert_text -> (signed_at <= reported_at)%Z ->
  exists params ca key cert,
    let not_after := (signed_at + cert_validity_days self * 86400 * 1000000000)%Z in
    signed_by params signed_at not_after ca key = Ok cert /\ cert_pem cert = cert_text /\
    (unix_timestamp not_after <= expiry self reported_at)%Z /\
    (expiry self reported_at - unix_timestamp not_after =
       unix_timestamp reported_at - unix_timestamp signed_at)%Z.
Proof using All.
  unfold sign, Csr.sign_csr, expiry. intros Hsign Hle. set (d := cert_validity_days self) in *.
  destruct (key_pair_from_pem _) as [key|?|]; cbn in Hsign; [|done..].
  destruct (ca_params_from_pem _) as [cap|?|]; cbn in Hsign; [|done..].
  destruct (self_signed _ _) as [ca|?|]; cbn in Hsign; [|done..].
  destruct (csr_params_from_pem _) as [params|?|]; cbn in Hsign; [|done..].
  destruct (date_add_days _ _) as [na|] eqn:Hna; cbn in Hsign; [|done].
  apply date_add_days_exact in Hna as ->.
  destruct (signed_by _ _ _ _ _) as [cert|?|] eqn:Hsig; cbn in Hsign; [|done..].
  exists params, ca, key, cert. split; [exact Hsig|]. split; [by injection Hsign|].
  unfold unix_timestamp. rewrite Z.div_add by lia.
  pose proof (Z.div_le_mono signed_at reported_at 1000000000). lia.
Qed.
End expiry.
