(* ===== verification/ManifestClaims.v ===== *)
(** * The factory manifest

    The manifest text of the configuration parses back to the entries it was
    written from, and what a start of the service makes of the stored
    manifest. *)

From Stdlib Require Import Ascii.
From S2P Require Import Prelude Sqlite Async Pki DeviceStore DeviceStoreSpec Grpc DmsEffects.
From S2P Require Import RustStr DmsMain DeviceStoreSqlite Admission Lockout.

(** ** The text *)

(** An entry that the format can carry: no comma, no colon in the serial or
    the token, and no white space around it. *)
Definition entry_ok (e : ManifestEntry) : Prop :=
  no_char ":" (e_serial e) = true /\ no_char ":" (e_token e) = true /\
  no_char "," (render_entry e) = true /\ trim (render_entry e) = render_entry e.

#[export] Instance entry_ok_dec e : Decision (entry_ok e).
Proof. unfold entry_ok. apply _. Defined.

Lemma parse_render_entry e : entry_ok e -> parse_entry (render_entry e) = Some e.
Proof.
  intros (Hs & Ht & _ & _). destruct e as [s t m]. cbn in Hs, Ht.
  unfold parse_entry, render_entry. cbn [e_serial e_token e_model splitn].
  change (":" +:+ t +:+ ":" +:+ m) with (String ":" (t +:+ String ":" m)).
  rewrite split_once_app by done. by rewrite split_once_app by done.
Qed.

Lemma render_entry_not_empty e : render_entry e <> "".
Proof. intros Hr. unfold render_entry in Hr. by destruct (e_serial e). Qed.

Lemma split_concat l :
  l <> [] -> Forall (fun s => no_char "," s = true) l ->
  split_on "," (String.concat "," l) = l.
Proof.
  intros Hne Hl. induction Hl as [|x l Hx Hl IH]; [done|].
  destruct l as [|y l]; [by apply split_on_no_char|].
  change (String.concat "," (x :: y :: l)) with (x +:+ String "," (String.concat "," (y :: l))).
  rewrite split_on_app by done. by rewrite IH.
Qed.

(** The manifest format round-trips.  Parsing the text written from a list
    of entries gives the entries back, in order, when no entry holds a comma,
    serials and tokens hold no colon, and entries have no white space at
    their ends; models may hold colons. *)
Lemma manifest_round_trip es :
  Forall entry_ok es -> parse_manifest (render_manifest es) = es.
Proof.
  intros Hes. unfold parse_manifest, manifest_entries, render_manifest.
  destruct es as [|e0 es0]; [reflexivity|]. rewrite split_concat.
  - induction Hes as [|e es He Hes IH]; [done|]. rewrite !fmap_cons.
    destruct He as (H1 & H2 & H3 & H4). rewrite H4.
    rewrite filter_cons_True by apply render_entry_not_empty.
    cbn [omap list_omap]. rewrite parse_render_entry by done. by rewrite IH.
  - done.
  - apply Forall_fmap. eapply Forall_impl; [exact Hes|]. by intros e (_ & _ & ? & _).
Qed.

(** ** Seeding *)

(** The rows of the entries; the first entry of a serial counts. *)
Definition entry_rows (es : list ManifestEntry) : gmap string ManifestRow :=
  list_to_map ((fun e => (e_serial e, mkManifest (e_model e) (e_token e) None)) <$> es).

Section seeding.
Context {S : Type} `{DeviceStoreSpec S}.

Lemma seed_entries_spec l n envs s :
  healthy s -> (forall n, no_fault (envs n)) ->
  exists s', run (seed_entries l n) envs s = ((n + Z.of_nat (length (omap parse_entry l)))%Z, s') /\
    healthy s' /\
    visible s' = set_manifest (factory_manifest (visible s) ∪ entry_rows (omap parse_entry l))
                   (visible s).
Proof.
  revert n envs s. induction l as [|x l IH]; intros n envs s Hs Hf.
  { exists s. cbn. rewrite Z.add_0_r. split; [done|]. split; [done|].
    unfold entry_rows. cbn. rewrite (right_id_L ∅ (∪)). by destruct (visible s). }
  cbn. destruct (parse_entry x) as [e|] eqn:Hx; [|by apply IH].
  destruct (store_call_calm (SeedManifest (e_serial e) (e_model e) (e_token e)) (envs 0) s Hs (Hf 0) I)
    as (s1 & Hc & Hs1 & Hv1). cbn in Hc, Hv1.
  destruct (IH (n + 1)%Z (fun i => envs (Datatypes.S i)) s1 Hs1 (fun i => Hf _))
    as (s' & Hrun & Hs' & Hv').
  exists s'. cbn. rewrite Hc. cbn. rewrite Hrun. split; [f_equal; lia|]. split; [done|].
  - rewrite Hv', Hv1. unfold entry_rows. cbn.
    destruct (factory_manifest (visible s) !! e_serial e) as [row|] eqn:Hrow; cbn.
    + f_equal. apply map_eq. intros i. rewrite !lookup_union, lookup_insert.
      case_decide; [subst; rewrite Hrow|done].
      by destruct (list_to_map _ !! _).
    + unfold set_manifest. cbn. f_equal. apply map_eq. intros i.
      rewrite !lookup_union, !lookup_insert. case_decide; [subst; rewrite Hrow|done].
      by destruct (list_to_map _ !! _).
Qed.

(** C33: what a start of the service seeds.  Without faults, phase 0 adds to the
    stored manifest a row, with its token unused, for each serial of the
    configured manifest that has none (the first entry of a serial counts) and
    changes nothing else: a serial that is already stored keeps its model and
    token even if the configuration now gives others, and a used token stays
    used.  The count it reports is the number of entries parsed, stored or
    not, and it reports the number of stored devices. *)
Theorem startup_seeds manifest envs s :
  healthy s -> (forall n, no_fault (envs n)) ->
  let es := match manifest with Some m => parse_manifest m | None => [] end in
  let '((count, enrolled), s') := run (store_ready manifest) envs s in
  healthy s' /\
  visible s' = set_manifest (factory_manifest (visible s) ∪ entry_rows es) (visible s) /\
  count = Z.of_nat (length es) /\
  enrolled = wrap_u64 (Z.of_nat (size (devices (visible s)))).
Proof.
  intros Hs Hf es. unfold store_ready, seed_factory_manifest.
  assert (forall (n : Z) k s1, healthy s1 -> devices (visible s1) = devices (visible s) ->
    run ((let! enrolled := store CountDevices in
          Done (n, match enrolled with Ok n => n | _ => 0%Z end)) : async DmsE (Z * Z)) (fun i => envs (k + i)) s1 =
    ((n, wrap_u64 (Z.of_nat (size (devices (visible s))))),
     (store_call (envs k) CountDevices s1).2) /\
    healthy (store_call (envs k) CountDevices s1).2 /\
    visible (store_call (envs k) CountDevices s1).2 = visible s1) as Hcount.
  { intros n k s1 Hs1 Hd. destruct (store_call_calm CountDevices (envs k) s1 Hs1 (Hf _) I) as (s2 & Hc & Hs2 & Hv2).
    cbn in Hc. cbn. rewrite Nat.add_0_r, Hc. cbn. by rewrite Hd. }
  destruct manifest as [m|].
  - destruct (seed_entries_spec (manifest_entries m) 0 envs s Hs Hf) as (s1 & Hrun & Hs1 & Hv1).
    destruct (run_bind (seed_entries (manifest_entries m) 0) (fun manifest_count =>
      let! enrolled := store CountDevices in
      Done (manifest_count, match enrolled with Ok n => n | _ => 0%Z end)) envs s) as [k' Hk].
    rewrite Hk, Hrun. clear Hk.
    destruct (Hcount (0 + Z.of_nat (length (omap parse_entry (manifest_entries m))))%Z k' s1) as (Hr & Hh & Hv);
      [done|by rewrite Hv1|].
    rewrite Hr. split; [done|]. split; [by rewrite Hv, Hv1|]. split; [|done]. unfold es, parse_manifest. lia.
  - destruct (Hcount 0%Z 0 s) as (Hr & Hh & Hv); [done..|]. cbn in Hr, Hh, Hv. cbn. rewrite Hr. cbn.
    split; [done|]. split; [|done]. rewrite Hv. unfold entry_rows. cbn.
    rewrite (right_id_L ∅ (∪)). by destruct (visible s).
Qed.
End seeding.
