(* ===== verification/StartupClaims.v ===== *)
(** * What the services check before they open a port

    The startup code on a host with given variables and files: which errors
    come before the database is touched, that the factory manifest is seeded
    before a port opens, and what the ports trust. *)

From S2P Require Import Prelude Sqlite Async Pki DeviceStore DeviceStoreSpec Grpc DmsEffects.
From S2P Require Import Enrollment Provisioning Heartbeat DmsServer RustStr RustNet DmsMain Startup.

Section host.
Context {S : Type} `{DeviceStoreSpec S}.
(** The host: variables, files, whether a database opens, which TLS settings
    the transport accepts, and how serving ends. *)
Context (vars : string -> option string) (files : gmap string string).
Context (opens : string -> outcome RusqliteError unit) (accepts : Tls -> outcome string unit).
Context (serving : outcome string unit).

Record Started := mkStarted { st_store : S; st_ports : list Listener; st_ticking : bool }.

Definition no_file : string := "No such file or directory".
Definition read_file (path : string) : outcome string string := ok_or (files !! path) no_file.
Definition read_text (path : string) : outcome string string :=
  bytes ← read_file path; ok_or (from_utf8 bytes) "stream did not contain valid UTF-8".

Definition start_handler : Handler StartE Started := fun X env e w =>
  match e in StartE X return X * Started with
  | Var key => (vars key, w)
  | ReadFile path => (read_file path, w)
  | ReadText path => (read_text path, w)
  | OpenDb path =>
      (opens path,
       match opens path with
       | Ok _ => mkStarted (reopen (st_store w)) (st_ports w) (st_ticking w)
       | _ => w
       end)
  | StoreE e =>
      let '(x, s) := @Async.handle _ _ _ dms_handler _ env e (st_store w) in
      (x, mkStarted s (st_ports w) (st_ticking w))
  | SpawnHealthTick => (tt, mkStarted (st_store w) (st_ports w) true)
  | TlsAccepts tls => (accepts tls, w)
  | Serve ls => (serving, mkStarted (st_store w) (st_ports w ++ ls) (st_ticking w))
  end.
#[local] Existing Instance start_handler.

(** ** Code that only reads the host *)

Definition reads_as {A} (t : Start A) (r : outcome StartErr A) : Prop :=
  forall envs w, Async.run t envs w = (r, w).

Lemma reads_as_bind {A B} (t : Start A) (f : A -> Start B) r g :
  reads_as t r -> (forall a, reads_as (f a) (g a)) -> reads_as (t ≫= f) (r ≫= g).
Proof using Type.
  intros Ht Hf envs w. destruct (run_task_bind t f envs w) as [k ->]. rewrite Ht.
  destruct r as [a|e|]; [apply Hf|done..].
Qed.

Lemma reads_pure {A} (r : outcome StartErr A) : reads_as (pure_code r) r.
Proof using Type. done. Qed.

Lemma reads_var_or key d : reads_as (var_or key d) (Ok (default d (vars key))).
Proof using Type. done. Qed.

(** The contents of the file that a variable names. *)
Definition contents_of (read : string -> outcome string string) (key : string) : outcome StartErr string :=
  path ← ok_or (vars key) (NoVar key); Prelude.map_err ReadFailed (read path).

Lemma reads_required key : reads_as (read_required key) (contents_of read_file key).
Proof using Type. intros envs w. unfold read_required, contents_of. cbn. by destruct (vars key). Qed.
Lemma reads_text_required key : reads_as (read_text_required key) (contents_of read_text key).
Proof using Type. intros envs w. unfold read_text_required, contents_of. cbn. by destruct (vars key). Qed.

Lemma reads_tls tls : reads_as (tls_config tls) (Prelude.map_err TlsFailed (accepts tls)).
Proof using Type. done. Qed.

Create HintDb startup.
Hint Resolve reads_pure reads_var_or reads_required reads_text_required reads_tls : startup.

(** What is left of a run after code that only reads. *)
Lemma run_reads {A B} (t : Start A) (f : A -> Start B) r envs w :
  reads_as t r ->
  exists k, Async.run (t ≫= f) envs w =
    match r with
    | Ok a => Async.run (f a) (fun n => envs (k + n)) w
    | Err e => (Err e, w)
    | Panic => (Panic, w)
    end.
Proof using Type. intros Ht. destruct (run_task_bind t f envs w) as [k ->]. exists k. by rewrite Ht. Qed.

(** Effects on the store, seen from the host. *)
Lemma run_embed {A} (t : async DmsE A) envs w :
  Async.run (on_store t) envs w =
    (let '(a, s) := Async.run (HandlerIn0 := dms_handler) t envs (st_store w) in
     (a, mkStarted s (st_ports w) (st_ticking w))).
Proof using Type.
  revert envs w. induction t as [a|X e k IH]; intros envs w; cbn; [by destruct w|].
  destruct (Async.handle (envs 0) e (st_store w)) as [x s]. by apply (IH x (fun n => envs (Datatypes.S n)) (mkStarted s (st_ports w) (st_ticking w))).
Qed.

(** ** The configuration of the device-management service *)

Definition env_default (key fallback : string) : outcome StartErr string :=
  Ok (default fallback (vars key)).

(** The settings, or the first thing that is wrong with them. *)
Definition settings : outcome StartErr Settings :=
  listen_addr ← env_default "LISTEN_ADDR" "[::]:8443";
  bootstrap_addr ← env_default "BOOTSTRAP_ADDR" "[::]:8444";
  provisioning_addr ← env_default "PROVISIONING_ADDR" "[::]:8445";
  db_path ← env_default "DB_PATH" "./fleet.db";
  days ← Ok (vars "CERT_VALIDITY_DAYS");
  days ← ok_or (validity_days days) (BadNumber "CERT_VALIDITY_DAYS");
  server_cert ← contents_of read_file "SERVER_CERT_PEM";
  server_key ← contents_of read_file "SERVER_KEY_PEM";
  fleet_ca_cert ← contents_of read_file "FLEET_CA_CERT_PEM";
  fleet_ca_key ← contents_of read_file "FLEET_CA_KEY_PEM";
  device_ca_cert ← contents_of read_file "DEVICE_CA_CERT_PEM";
  device_ca_key ← contents_of read_file "DEVICE_CA_KEY_PEM";
  mret (mkSettings listen_addr bootstrap_addr provisioning_addr db_path days server_cert server_key
          fleet_ca_cert fleet_ca_key device_ca_cert device_ca_key).

Lemma reads_var key : reads_as (env_var key) (Ok (vars key)).
Proof using Type. done. Qed.
Hint Resolve reads_var : startup.

Ltac reads_tac :=
  repeat (eapply reads_as_bind; [solve [eauto with startup]|intros ?]); try done.

Lemma reads_settings : reads_as read_settings settings.
Proof using Type. unfold read_settings, settings, env_default. reads_tac. Qed.

Definition listeners_of (s : Settings) : outcome StartErr (list Listener) :=
  fleet_ca_cert_pem ← ok_or (from_utf8 (cfg_fleet_ca_cert s)) (NotUtf8 "FLEET_CA_CERT_PEM");
  fleet_ca_key_pem ← ok_or (from_utf8 (cfg_fleet_ca_key s)) (NotUtf8 "FLEET_CA_KEY_PEM");
  device_ca_cert_pem ← ok_or (from_utf8 (cfg_device_ca_cert s)) (NotUtf8 "DEVICE_CA_CERT_PEM");
  device_ca_key_pem ← ok_or (from_utf8 (cfg_device_ca_key s)) (NotUtf8 "DEVICE_CA_KEY_PEM");
  let id := (server_cert s, server_key s) in
  let svc := start_service fleet_ca_cert_pem fleet_ca_key_pem device_ca_cert_pem device_ca_key_pem
               (cfg_validity_days s) in
  fleet_addr ← ok_or (parse_socket_addr (listen_addr s)) (BadAddr "LISTEN_ADDR");
  bootstrap_addr ← ok_or (parse_socket_addr (bootstrap_addr s)) (BadAddr "BOOTSTRAP_ADDR");
  provisioning_addr ← ok_or (parse_socket_addr (provisioning_addr s)) (BadAddr "PROVISIONING_ADDR");
  mret [mkListener fleet_addr (mkTls id (Some fleet_ca_cert_pem))
          [DeviceManagementSvc (fleet_svc svc); TelemetrySvc];
        mkListener bootstrap_addr (mkTls id (Some device_ca_cert_pem))
          [DeviceManagementSvc (bootstrap_svc svc)];
        mkListener provisioning_addr (mkTls id None) [ProvisioningSvc (provisioning_svc svc)]].

Lemma reads_listeners s : reads_as (make_listeners s) (listeners_of s).
Proof using Type. unfold make_listeners, listeners_of. reads_tac. Qed.

Fixpoint all_accepted (ls : list Listener) : outcome StartErr unit :=
  match ls with
  | [] => mret tt
  | l :: ls => _ ← Prelude.map_err TlsFailed (accepts (l_tls l)); all_accepted ls
  end.

Lemma reads_accept_all ls : reads_as (accept_all ls) (all_accepted ls).
Proof using Type. induction ls as [|l ls IH]; [done|]. eapply reads_as_bind; [apply reads_tls|]. by intros _. Qed.

Lemma run_serve_all ls envs w :
  Async.run (serve_all ls) envs w =
    match all_accepted ls with
    | Ok _ => (Prelude.map_err ServerFailed serving,
               mkStarted (st_store w) (st_ports w ++ ls) (st_ticking w))
    | Err e => (Err e, w)
    | Panic => (Panic, w)
    end.
Proof using Type.
  unfold serve_all. destruct (run_reads _ (fun _ => task_map_err ServerFailed (call (Serve ls)))
    _ envs w (reads_accept_all ls)) as [k ->].
  by destruct (all_accepted ls).
Qed.

(** Phase 0 on an opened store. *)
Lemma run_seed envs w :
  exists s, (exists envs, s = (Async.run (store_ready (vars "FACTORY_MANIFEST")) envs (st_store w)).2) /\
    Async.run seed_store envs w = (Ok tt, mkStarted s (st_ports w) (st_ticking w)).
Proof using Type.
  unfold seed_store. match goal with |- context [Async.run (?t ≫= ?f) _ _] =>
    destruct (run_task_bind t f envs w) as [k ->] end.
  cbn [Async.run env_var get Async.handle start_handler].
  match goal with |- context [async_bind ?t ?f] => destruct (run_bind t f (fun n => envs (k + n)) w) as [k' ->] end.
  rewrite run_embed. destruct (Async.run (store_ready _) _ (st_store w)) as [a s] eqn:Hr.
  exists s. split; [|done]. exists (fun n => envs (k + n)). by rewrite Hr.
Qed.

(** The run of [main]: its store is the one a restart leaves. *)
Lemma run_dms_main envs w :
  exists s, process_restart (vars "FACTORY_MANIFEST") (st_store w) s /\
  Async.run dms_main envs w =
    match settings with
    | Ok c =>
        match opens (db_path c) with
        | Ok _ =>
            let seeded := mkStarted s (st_ports w) (st_ticking w) in
            match listeners_of c with
            | Ok ls =>
                match all_accepted ls with
                | Ok _ => (Prelude.map_err ServerFailed serving, mkStarted s (st_ports w ++ ls) true)
                | Err e => (Err e, mkStarted s (st_ports w) true)
                | Panic => (Panic, mkStarted s (st_ports w) true)
                end
            | Err e => (Err e, seeded)
            | Panic => (Panic, seeded)
            end
        | Err e => (Err (DbFailed e), w)
        | Panic => (Panic, w)
        end
    | Err e => (Err e, w)
    | Panic => (Panic, w)
    end.
Proof using Type.
  unfold dms_main.
  match goal with |- context [read_settings ≫= ?f] =>
    destruct (run_reads _ f _ envs w reads_settings) as [k ->] end.
  destruct settings as [c|e|]; [|by eexists; split; [by exists envs|]..].
  match goal with |- context [Async.run (?t ≫= ?f) ?en w] =>
    destruct (run_task_bind t f en w) as [k1 ->]; cbn [Async.run task_map_err async_bind call trigger] end.
  cbn [Async.handle start_handler].
  destruct (opens (db_path c)) as [[]|e|]; cbn [Prelude.map_err]; [|by eexists; split; [by exists envs|]..].
  match goal with |- context [Async.run (?t ≫= ?f) ?en ?w1] =>
    destruct (run_task_bind t f en w1) as [k2 ->];
    destruct (run_seed en w1) as (s & Hs & ->); cbn [st_store st_ports st_ticking] in Hs |- * end.
  exists s. split; [exact Hs|].
  match goal with |- context [make_listeners c ≫= ?f] =>
    match goal with |- context [Async.run _ ?en ?w1 = _] =>
      destruct (run_reads _ f _ en w1 (reads_listeners c)) as [k3 ->] end end.
  destruct (listeners_of c) as [ls|e|]; [|done..].
  match goal with |- context [Async.run (?t ≫= ?f) ?en ?w1] => destruct (run_task_bind t f en w1) as [k4 ->] end.
  cbn [Async.run get Async.handle start_handler]. rewrite run_serve_all. done.
Qed.

(** The health task never changes what is stored. *)
Lemma health_ticks_read n envs (s : S) :
  on_disk (Async.run (HandlerIn0 := dms_handler) (health_ticks n) envs s).2 = on_disk s.
Proof using Type.
  revert envs s. induction n as [|n IH]; intros envs s; [done|]. cbn.
  destruct (count_devices (envs 0) s) as [r s'] eqn:Hc. rewrite IH.
  destruct (disk_atomic _ CountDevices (envs 0) s r s' Hc) as [?|(a & [= _ <-])]; done.
Qed.

(** ** What follows for the ports *)

(** A port of the running service as a listener. *)
Definition port_services (svc : Service) (p : Port) : list Svc :=
  match p with
  | FleetPort => [DeviceManagementSvc (fleet_svc svc); TelemetrySvc]
  | BootstrapPort => [DeviceManagementSvc (bootstrap_svc svc)]
  | ProvisioningPort => [ProvisioningSvc (provisioning_svc svc)]
  end.
Definition listener_of (svc : Service) (id : string * string) (p : Port) (a : SocketAddr) : Listener :=
  mkListener a (mkTls id (client_ca_root svc p)) (port_services svc p).

(** The file that a variable names holds this text. *)
Definition text_of (key text : string) : Prop :=
  contents_of read_file key = Ok text /\ utf8_valid text = true.

Lemma from_utf8_Some bytes text : from_utf8 bytes = Some text -> bytes = text /\ utf8_valid text = true.
Proof using Type. unfold from_utf8. case_match eqn:Hv; [|done]. by intros [= <-]. Qed.

Lemma ok_or_Ok {E A} (o : option A) (e : E) a : ok_or o e = Ok a -> o = Some a.
Proof using Type. destruct o; cbn; congruence. Qed.

(** Takes an [Ok] result of a chain of [?] apart. *)
Ltac ok_inv :=
  repeat match goal with
    | H : (?m ≫= ?f) = Ok _ |- _ =>
        let a := fresh "a" in let Ha := fresh "Ha" in
        apply outcome_bind_Ok in H as (a & Ha & H)
    | H : ok_or _ _ = Ok _ |- _ => apply ok_or_Ok in H
    | H : mret _ = Ok _ |- _ => injection H as <-
    | H : env_default _ _ = Ok _ |- _ => injection H as <-
    | H : Ok _ = Ok _ |- _ => injection H as <-
    end.

Lemma settings_Ok c :
  settings = Ok c ->
  contents_of read_file "SERVER_CERT_PEM" = Ok (server_cert c) /\
  contents_of read_file "SERVER_KEY_PEM" = Ok (server_key c) /\
  contents_of read_file "FLEET_CA_CERT_PEM" = Ok (cfg_fleet_ca_cert c) /\
  contents_of read_file "FLEET_CA_KEY_PEM" = Ok (cfg_fleet_ca_key c) /\
  contents_of read_file "DEVICE_CA_CERT_PEM" = Ok (cfg_device_ca_cert c) /\
  contents_of read_file "DEVICE_CA_KEY_PEM" = Ok (cfg_device_ca_key c) /\
  validity_days (vars "CERT_VALIDITY_DAYS") = Some (cfg_validity_days c).
Proof using Type.
  unfold settings. generalize (contents_of read_file). intros read Hs. ok_inv. cbn. by repeat split.
Qed.

Lemma listeners_of_Ok c ls :
  listeners_of c = Ok ls ->
  exists a1 a2 a3,
    utf8_valid (cfg_fleet_ca_cert c) = true /\ utf8_valid (cfg_fleet_ca_key c) = true /\
    utf8_valid (cfg_device_ca_cert c) = true /\ utf8_valid (cfg_device_ca_key c) = true /\
    let svc := start_service (cfg_fleet_ca_cert c) (cfg_fleet_ca_key c) (cfg_device_ca_cert c)
                 (cfg_device_ca_key c) (cfg_validity_days c) in
    let id := (server_cert c, server_key c) in
    ls = [listener_of svc id FleetPort a1; listener_of svc id BootstrapPort a2;
          listener_of svc id ProvisioningPort a3].
Proof using Type.
  unfold listeners_of. intros Hl. ok_inv.
  repeat match goal with H : from_utf8 _ = Some _ |- _ => apply from_utf8_Some in H as [<- ?] end.
  eexists _, _, _. repeat split; done.
Qed.

(** C9: the ports of the device-management service open last, and right.
    Whatever the configuration and the files of the host, and whatever the
    database does:
    - a setting that is missing, a validity that is not a [u32] or a file that
      cannot be read ends [main] before the database is opened, and nothing has
      changed;
    - if any port opens, all six credential files were read and the CA texts are
      UTF-8, the store is one that a restart of the process leaves (the database
      on disk with the manifest seeded into it, the restart that the invariants
      of the service are proved for), and exactly the three ports of the model
      are served: the fleet port asks for client certificates of the Fleet CA,
      the bootstrap port for those of the Device CA, the provisioning port for
      none, and the CA that each signs with is the one that was read;
    - a CA text that is not UTF-8 or an address that does not parse is found
      only after the manifest was seeded: no port opens, but the store has
      changed. *)
Theorem dms_ports_open envs w :
  let '(result, w') := Async.run dms_main envs w in
  let restarted := process_restart (vars "FACTORY_MANIFEST") (st_store w) (st_store w') in
  (forall e, settings = Err e -> result = Err e /\ w' = w) /\
  (st_ports w' <> st_ports w ->
     restarted /\
     exists days cert key fleet_ca fleet_key device_ca device_key a1 a2 a3,
       validity_days (vars "CERT_VALIDITY_DAYS") = Some days /\
       contents_of read_file "SERVER_CERT_PEM" = Ok cert /\ contents_of read_file "SERVER_KEY_PEM" = Ok key /\
       text_of "FLEET_CA_CERT_PEM" fleet_ca /\ text_of "FLEET_CA_KEY_PEM" fleet_key /\
       text_of "DEVICE_CA_CERT_PEM" device_ca /\ text_of "DEVICE_CA_KEY_PEM" device_key /\
       let svc := start_service fleet_ca fleet_key device_ca device_key days in
       st_ports w' = st_ports w ++
         [listener_of svc (cert, key) FleetPort a1; listener_of svc (cert, key) BootstrapPort a2;
          listener_of svc (cert, key) ProvisioningPort a3]) /\
  (forall c e, settings = Ok c -> opens (db_path c) = Ok tt -> listeners_of c = Err e ->
     result = Err e /\ st_ports w' = st_ports w /\ restarted).
Proof.
  destruct (run_dms_main envs w) as (s & Hs & ->).
  destruct settings as [c|e|] eqn:Hset; [|by split; [by intros e' [= ->]|by split]|by split; [|by split]].
  destruct (opens (db_path c)) as [[]|e|] eqn:Hdb;
    [|split; [done|]; split; [done|]; intros c' e' [= <-]; by rewrite Hdb..].
  destruct (listeners_of c) as [ls|e|] eqn:Hls; cbn.
  - assert (forall c' e, Ok (E := StartErr) c = Ok c' -> opens (db_path c') = Ok tt -> listeners_of c' = Err e -> False) as Hno.
    { intros c' e [= <-] _. congruence. }
    destruct (all_accepted ls) as [[]|e|]; cbn; (split; [done|]; split; [|intros c' e' ? ? ?; exfalso; eauto]);
      [|done..].
    intros _. split; [done|]. apply settings_Ok in Hset as (Hc & Hk & Hfc & Hfk & Hdc & Hdk & Hd).
    apply listeners_of_Ok in Hls as (a1 & a2 & a3 & Hv1 & Hv2 & Hv3 & Hv4 & ->).
    exists (cfg_validity_days c), (server_cert c), (server_key c), (cfg_fleet_ca_cert c), (cfg_fleet_ca_key c),
      (cfg_device_ca_cert c), (cfg_device_ca_key c), a1, a2, a3.
    by repeat split.
  - split; [done|]. split; [done|]. intros c' e' [= <-] _. rewrite Hls. by intros [= ->].
  - split; [done|]. split; [done|]. intros c' e' [= <-] _. by rewrite Hls.
Qed.

(** ** The services with one port *)

(** Steps over code that only reads the host: what is left, if it succeeded. *)
Ltac read_step H :=
  match goal with |- context [Async.run (?t ≫= ?f) ?en ?w] =>
    let k := fresh "k" in destruct (run_reads t f _ en w H) as [k ->] end.
Ltac result_case r a := destruct r as [a|?|] eqn:?; [|by intros []..].

(** [OpenDb], and [serve_all] after it. *)
Lemma run_open_db {A} path (f : unit -> Start A) envs w :
  exists k, Async.run (_ ← task_map_err DbFailed (call (OpenDb path)); f tt) envs w =
    match opens path with
    | Ok _ => Async.run (f tt) (fun n => envs (k + n)) (mkStarted (reopen (st_store w)) (st_ports w) (st_ticking w))
    | Err e => (Err (DbFailed e), w)
    | Panic => (Panic, w)
    end.
Proof using Type.
  destruct (run_task_bind (task_map_err DbFailed (call (OpenDb path))) (fun _ => f tt) envs w) as [k ->].
  exists k. cbn [Async.run task_map_err async_bind call trigger Async.handle start_handler].
  by destruct (opens path) as [[]| |].
Qed.

(** The OTA service and the artifact store open one port, for clients of the
    Fleet CA.  If either opens a port, its certificate, key and the Fleet CA
    were read from the files that its variables name, its address parsed, its
    database opened, the transport accepted the TLS settings, and the one port
    it opens asks for client certificates of the Fleet CA; so no setting that
    is missing can leave a port open to clients without a certificate. *)
Lemma single_ports_mutual_tls envs w :
  (let '(result, w') := Async.run ota_main envs w in
   st_ports w' <> st_ports w ->
   exists a cert key ca,
     parse_socket_addr (default "[::]:9444" (vars "LISTEN_ADDR")) = Some a /\
     contents_of read_text "SERVER_CERT_PEM" = Ok cert /\ contents_of read_text "SERVER_KEY_PEM" = Ok key /\
     contents_of read_text "FLEET_CA_CERT_PEM" = Ok ca /\
     opens (default "./ota.db" (vars "DB_PATH")) = Ok tt /\ accepts (mkTls (cert, key) (Some ca)) = Ok tt /\
     st_ports w' = st_ports w ++ [mkListener a (mkTls (cert, key) (Some ca)) [OtaSvc]]) /\
  (let '(result, w') := Async.run artifact_main envs w in
   st_ports w' <> st_ports w ->
   exists a cert key ca minio,
     parse_socket_addr (default "[::]:9443" (vars "LISTEN_ADDR")) = Some a /\
     contents_of read_file "SERVER_CERT_PEM" = Ok cert /\ contents_of read_file "SERVER_KEY_PEM" = Ok key /\
     contents_of read_file "FLEET_CA_CERT_PEM" = Ok ca /\
     opens (default "./artifacts.db" (vars "DB_PATH")) = Ok tt /\ accepts (mkTls (cert, key) (Some ca)) = Ok tt /\
     st_ports w' = st_ports w ++ [mkListener a (mkTls (cert, key) (Some ca)) [minio]]).
Proof.
  split.
  - unfold ota_main. read_step (reads_var_or "LISTEN_ADDR" "[::]:9444").
    read_step (reads_pure (ok_or (parse_socket_addr (default "[::]:9444" (vars "LISTEN_ADDR"))) (BadAddr "LISTEN_ADDR"))).
    destruct (parse_socket_addr _) as [a|]; [cbn [ok_or]|by intros []].
    read_step (reads_var_or "DB_PATH" "./ota.db").
    read_step (reads_text_required "SERVER_CERT_PEM"). result_case (contents_of read_text "SERVER_CERT_PEM") cert.
    read_step (reads_text_required "SERVER_KEY_PEM"). result_case (contents_of read_text "SERVER_KEY_PEM") key.
    read_step (reads_text_required "FLEET_CA_CERT_PEM"). result_case (contents_of read_text "FLEET_CA_CERT_PEM") ca.
    match goal with |- context [Async.run (_ ≫= ?f) ?en w] =>
      destruct (run_open_db (default "./ota.db" (vars "DB_PATH")) f en w) as [k' ->] end.
    destruct (opens _) as [[]|?|]; [|by intros []..]. rewrite run_serve_all. cbn.
    destruct (accepts _) as [[]|?|] eqn:Hacc; [|by intros []..]. intros _. cbn. by eauto 20.
  - unfold artifact_main. read_step (reads_var_or "LISTEN_ADDR" "[::]:9443").
    read_step (reads_var_or "DB_PATH" "./artifacts.db").
    read_step (reads_required "SERVER_CERT_PEM"). result_case (contents_of read_file "SERVER_CERT_PEM") cert.
    read_step (reads_required "SERVER_KEY_PEM"). result_case (contents_of read_file "SERVER_KEY_PEM") key.
    read_step (reads_required "FLEET_CA_CERT_PEM"). result_case (contents_of read_file "FLEET_CA_CERT_PEM") ca.
    read_step (reads_var_or "MINIO_ENDPOINT" "http://localhost:9000").
    read_step (reads_var_or "MINIO_ACCESS_KEY" "minioadmin").
    read_step (reads_var_or "MINIO_SECRET_KEY" "minioadmin").
    read_step (reads_var_or "MINIO_BUCKET" "robot-artifacts").
    match goal with |- context [Async.run (_ ≫= ?f) ?en w] =>
      destruct (run_open_db (default "./artifacts.db" (vars "DB_PATH")) f en w) as [k' ->] end.
    destruct (opens _) as [[]|?|]; [|by intros []..].
    read_step (reads_pure (ok_or (parse_socket_addr (default "[::]:9443" (vars "LISTEN_ADDR"))) (BadAddr "LISTEN_ADDR"))).
    destruct (parse_socket_addr _) as [a|]; [cbn [ok_or]|by intros []].
    rewrite run_serve_all. cbn.
    destruct (accepts _) as [[]|?|] eqn:Hacc; [|by intros []..]. intros _. cbn. by eauto 20.
Qed.
End host.
