(* ===== verification/DmsExamples.v ===== *)
(** * Worked examples of the device-management service

    The properties of [Lockout], [Lineage], [StoreClaims], [DmsClaims] and
    [ManifestClaims] at concrete stores and requests, over the toy PKI. *)

From S2P Require Import Prelude Paging Sqlite Async Pki DeviceStore DeviceStoreSpec Grpc DmsEffects.
From S2P Require Import Enrollment Provisioning Heartbeat DmsServer RustStr DmsMain.
From S2P Require Import DeviceStoreSqlite ToyPki Admission Lockout Lineage StoreClaims DmsClaims.
From S2P Require Import Suspension ManifestClaims.

Section examples.
#[local] Instance release : BuildProfile := false.
#[local] Existing Instance toy_pki.

Abbreviation toy_envs := (fun _ : nat => toy_env 100 "dev-1").

Definition toy_store : Mutex Tables := Sqlite_.new toy_tables.

(** ** Lockouts *)

(** The CSR of an otherwise good enrollment is garbage; the device tries again
    with a good one. *)
Definition enroll_with (csr : string) : Rpc :=
  BootstrapEnroll (Some [mkToyCert "SN-1" "device-ca" "k"])
    (mkBootstrapReq csr "humanoid-v2" "1.0.0" ∅ "SN-1").

Definition after_bad_csr : Mutex Tables :=
  (run (serve toy_text toy_status_text toy_service (BootstrapPort, enroll_with "bad")) toy_envs toy_store).2.

Definition retry : Pool DmsE (Mutex Tables) (Port * Rpc) (outcome Status Reply) :=
  exec (serve toy_text toy_status_text toy_service) after_bad_csr
    [Request (BootstrapPort, enroll_with "SN-1"); Resume 0 (toy_env 200 "u"); Answer 0].

Lemma failed_signing_locks_out_witness :
  replies retry = [(0, (BootstrapPort, enroll_with "SN-1"), Err (mkStatus AlreadyExists "SN-1"))] /\
  forall i j r, (i, j, r) ∈ replies retry -> ~ enrolled_as "SN-1" j r.
Proof.
  split; [reflexivity|].
  pose proof (failed_signing_locks_out toy_text toy_status_text toy_service None
    [mkToyCert "SN-1" "device-ca" "k"] (mkBootstrapReq "bad" "humanoid-v2" "1.0.0" ∅ "SN-1") "SN-1"
    (mkPreRow "humanoid-v2" 0) (DmsErr.Pki (PkiErr.Pem "malformed")) toy_envs toy_store) as Hlock.
  fold (enroll_with "bad") in Hlock.
  destruct (run (serve toy_text toy_status_text toy_service (BootstrapPort, enroll_with "bad"))
    toy_envs toy_store) as [r s'] eqn:Hrun.
  assert (s' = after_bad_csr) as -> by (unfold after_bad_csr; by rewrite Hrun).
  destruct Hlock as (_ & _ & Hlock).
  - split; reflexivity.
  - intros n x. reflexivity.
  - reflexivity.
  - reflexivity.
  - right. reflexivity.
  - reflexivity.
  - reflexivity.
  - reflexivity.
  - apply Hlock. apply exec_reachable.
Defined.

Definition provision_with (csr : string) : ProvisionDeviceRequest := mkProvisionReq "SN-1" csr "tok".

Definition after_bad_provision : Mutex Tables :=
  (run (serve toy_text toy_status_text toy_service (ProvisioningPort, ProvisionDevice (provision_with "bad")))
     toy_envs toy_store).2.

Definition provision_retry : Pool DmsE (Mutex Tables) (Port * Rpc) (outcome Status Reply) :=
  exec (serve toy_text toy_status_text toy_service) after_bad_provision
    [Request (ProvisioningPort, ProvisionDevice (provision_with "SN-1")); Resume 0 (toy_env 200 "u"); Answer 0].

Lemma bad_csr_spends_token_witness :
  (snd <$> replies provision_retry) = [Err (mkStatus AlreadyExists "SN-1")] /\
  forall i j r, (i, j, r) ∈ replies provision_retry -> ~ provisioned_as "SN-1" j r.
Proof.
  split; [reflexivity|].
  pose proof (bad_csr_spends_token toy_text toy_status_text toy_service None (provision_with "bad")
    (mkManifest "humanoid-v2" "tok" None) (PkiErr.Pem "malformed") toy_envs toy_store) as Hlock.
  destruct (run (serve toy_text toy_status_text toy_service
      (ProvisioningPort, ProvisionDevice (provision_with "bad"))) toy_envs toy_store) as [r s'] eqn:Hrun.
  assert (s' = after_bad_provision) as -> by (unfold after_bad_provision; by rewrite Hrun).
  destruct Hlock as (_ & Hlock).
  - split; reflexivity.
  - intros n x. reflexivity.
  - discriminate.
  - discriminate.
  - discriminate.
  - reflexivity.
  - reflexivity.
  - reflexivity.
  - reflexivity.
  - apply Hlock. apply exec_reachable.
Defined.

(** ** Lineage *)

Definition provision_and_enroll : list action :=
  [Request (ProvisioningPort, ProvisionDevice (provision_with "SN-1"));
   Resume 0 (toy_env 100 "u"); Resume 0 (toy_env 100 "u"); Answer 0;
   Request (BootstrapPort, enroll_with "SN-1");
   Resume 1 (toy_env 200 "dev-1"); Resume 1 (toy_env 200 "dev-1"); Resume 1 (toy_env 200 "dev-1");
   Resume 1 (toy_env 200 "dev-1"); Answer 1].

Definition manifest_store : Mutex Tables :=
  Sqlite_.new (set_manifest {["SN-1" := mkManifest "humanoid-v2" "tok" None]} empty_tables).

Definition provisioned : Pool DmsE (Mutex Tables) (Port * Rpc) (outcome Status Reply) :=
  exec (serve toy_text toy_status_text toy_service) manifest_store provision_and_enroll.

Definition new_device : DeviceRecord :=
  mkDevice "dev-1" "SN-1" "humanoid-v2" "1.0.0" "active" "SN-1|fleet-ca" 200 200.

Lemma devices_from_manifest_witness :
  devices (on_disk (shared provisioned)) !! "dev-1" = Some new_device /\
  manufactured "SN-1" "humanoid-v2" (on_disk (shared provisioned)).
Proof.
  split; [reflexivity|].
  refine (proj1 (devices_from_manifest toy_text toy_status_text toy_service None manifest_store provisioned
                   _ _ "dev-1" new_device _)).
  - split; [split|..].
    + intros i d Hi. change ((∅ : gmap string DeviceRecord) !! i = Some d) in Hi. by rewrite lookup_empty in Hi.
    + intros i1 i2 d1 d2 Hi. change ((∅ : gmap string DeviceRecord) !! i1 = Some d1) in Hi.
      by rewrite lookup_empty in Hi.
    + intros i d Hi. change ((∅ : gmap string DeviceRecord) !! i = Some d) in Hi. by rewrite lookup_empty in Hi.
    + intros sno row Hi. change ((∅ : gmap string PreRow) !! sno = Some row) in Hi.
      by rewrite lookup_empty in Hi.
  - apply exec_reachable.
  - reflexivity.
Defined.

(** ** The store *)

Lemma store_refines_spec_witness :
  let r := store_call (toy_env 100 "dev-1") (LookupAndClaim "SN-1") toy_store in
  idle r.2 /\ spec (toy_env 100 "dev-1") (LookupAndClaim "SN-1") toy_tables = (r.1, live (guarded r.2)).
Proof.
  intros r. destruct (store_refines_spec _ (LookupAndClaim "SN-1") (toy_env 100 "dev-1") toy_store r.1 r.2)
    as (Hidle & _ & Hspec).
  - split; reflexivity.
  - split; discriminate.
  - exact I.
  - reflexivity.
  - split; [exact Hidle|]. destruct Hspec as [Hspec|[[x Hx] _]]; [exact Hspec|]. by destruct Hx.
Defined.

(** The COMMIT of a claim fails. *)
Definition commit_fails : site -> fault := fun x => match x with AtCommit => StmtFault | _ => NoFault end.

Lemma store_crash_atomic_witness :
  let r := store_call (toy_env_f 100 "dev-1" commit_fails) (LookupAndClaim "SN-1") toy_store in
  durable (guarded r.2) = toy_tables \/
  exists a, spec (toy_env_f 100 "dev-1" commit_fails) (LookupAndClaim "SN-1") toy_tables =
    (Ok a, durable (guarded r.2)).
Proof.
  intros r.
  refine (proj1 (store_crash_atomic _ (LookupAndClaim "SN-1") (toy_env_f 100 "dev-1" commit_fails)
                   toy_store r.1 r.2 _)).
  reflexivity.
Defined.

(** After it, a claim fails although the engine works again. *)
Lemma failed_commit_wedges_store_witness :
  let env := toy_env_f 100 "dev-1" commit_fails in
  let s1 := (lookup_and_claim env "SN-1" toy_store).2 in
  exists e, (store_call (toy_env 200 "u") (LookupAndClaim "SN-1") s1).1 = Err (DmsErr.Db e).
Proof.
  intros env s1.
  pose proof (failed_commit_wedges_store "SN-1" (mkPreRow "humanoid-v2" 0) env toy_store) as Hw.
  destruct (lookup_and_claim env "SN-1" toy_store) as [r s1'] eqn:Hrun. subst s1. cbn [snd].
  destruct Hw as (_ & Hwedged & _ & Hlater).
  - split; reflexivity.
  - reflexivity.
  - reflexivity.
  - reflexivity.
  - intros x Hx. by destruct x.
  - destruct (store_call (toy_env 200 "u") (LookupAndClaim "SN-1") s1') as [r3 s3] eqn:H3.
    destruct (Hlater _ (LookupAndClaim "SN-1") (toy_env 200 "u") s1' r3 s3 Hwedged) as (_ & _ & He);
      [intros x; reflexivity|exact H3|]. exact (He eq_refl).
Defined.

(** ** Requests *)

Definition one_device : Mutex Tables :=
  Sqlite_.new (set_devices {["dev-1" := new_device]} empty_tables).

Lemma renew_cert_cases_witness :
  (run (serve toy_text toy_status_text toy_service (FleetPort, RenewCert (mkRenewReq "dev-1" "other")))
     toy_envs one_device).1 =
  Ok (RenewReply (mkRenewResp "other|fleet-ca" (at_seconds (100 + 30 * 86400)))).
Proof.
  pose proof (renew_cert_cases toy_text toy_status_text toy_service FleetPort (mkRenewReq "dev-1" "other")
    toy_envs one_device) as Hr.
  cbv zeta in Hr.
  destruct (run (serve toy_text toy_status_text toy_service (FleetPort, RenewCert (mkRenewReq "dev-1" "other")))
    toy_envs one_device) as [r s'].
  destruct Hr as (_ & _ & Hr).
  - discriminate.
  - split; reflexivity.
  - intros n x. reflexivity.
  - exact Hr.
Defined.

Lemma one_device_lookup i d :
  devices (visible one_device) !! i = Some d -> i = "dev-1" /\ d = new_device.
Proof.
  intros Hi. change (({["dev-1" := new_device]} : gmap string DeviceRecord) !! i = Some d) in Hi.
  by apply lookup_singleton_Some in Hi as [<- <-].
Qed.

Lemma device_listing_complete_witness :
  walk (device_page_at toy_text (toy_env 0 "") "" "active" 1 one_device) 2 None =
    Some [DmsServer.record_to_proto new_device].
Proof.
  refine (proj1 (device_listing_complete toy_text (toy_env 0 "") "" "active" 1 one_device _ _ _ _ _)).
  - split; reflexivity.
  - intros x. reflexivity.
  - split; reflexivity || discriminate.
  - split.
    + intros i d Hi. apply one_device_lookup in Hi as [-> ->]. reflexivity.
    + intros i1 i2 d1 d2 H1 H2 _. apply one_device_lookup in H1 as [-> _].
      apply one_device_lookup in H2 as [-> _]. reflexivity.
  - intros i d Hi. apply one_device_lookup in Hi as [_ ->]. discriminate.
Defined.

Definition beat : HeartbeatRequest := mkHeartbeatReq "dev-1" None 10 20 30 "ok" ∅.

(** Two heartbeats of the device. *)
Lemma heartbeat_stream_witness :
  let r := run (HandlerIn0 := logged_handler) (Heartbeat.handle toy_status_text [inl beat; inl beat])
             toy_envs (one_device, []) in
  healthy r.2.1 /\ r.2.2 = [Ok (mkHeartbeatResp false ""); Ok (mkHeartbeatResp false "")].
Proof.
  pose proof (heartbeat_stream toy_status_text beat [beat] toy_envs one_device) as Hb.
  cbv zeta in Hb |- *. destruct (run _ toy_envs (one_device, [])) as [u [s' sent]].
  destruct Hb as [Hh Hsent].
  - split; reflexivity.
  - intros n. split; [intros x|]; reflexivity.
  - split; [exact Hh|exact (proj1 Hsent)].
Defined.

(** The device is suspended, the process restarts, and the device asks for a
    certificate. *)
Definition suspend : Port * Rpc := (FleetPort, UpdateDeviceStatus (mkUpdateReq "dev-1" "suspended" "stolen")).
Definition renewal : Port * Rpc := (FleetPort, RenewCert (mkRenewReq "dev-1" "csr")).

Abbreviation toy_act := (act (serve toy_text toy_status_text toy_service)).

Definition suspending : Pool DmsE (Mutex Tables) (Port * Rpc) (outcome Status Reply) :=
  exec (serve toy_text toy_status_text toy_service) one_device [Request suspend].
Definition suspended : Pool DmsE (Mutex Tables) (Port * Rpc) (outcome Status Reply) :=
  toy_act suspending (Resume 0 (toy_env 100 "u")).
Definition restarted : Pool DmsE (Mutex Tables) (Port * Rpc) (outcome Status Reply) :=
  mkPool (run (store_ready None) toy_envs (reopen (shared suspended))).2 ∅ (replies suspended)
    (next_task suspended).
Definition refused : Pool DmsE (Mutex Tables) (Port * Rpc) (outcome Status Reply) :=
  fold_left toy_act [Request renewal; Resume 1 (toy_env 200 "u"); Answer 1] restarted.

Lemma only_suspending k : k <> 0 -> tasks suspending !! k = None.
Proof.
  intros Hk. change (tasks suspending !! k) with
    (<[0 := (suspend, serve toy_text toy_status_text toy_service suspend)]>
       (∅ : gmap nat (Port * Rpc * Task DmsE Status Reply)) !! k).
  rewrite lookup_insert_ne by (intros E; by destruct Hk). by rewrite lookup_empty.
Qed.

Lemma suspension_holds_witness :
  is_ok (run (serve toy_text toy_status_text toy_service renewal) toy_envs one_device).1 = true /\
  exists r, (1, renewal, r) ∈ replies refused /\ is_ok r = false.
Proof.
  split; [reflexivity|]. eexists. split; [apply list_elem_of_here|].
  refine (proj2 (suspension_holds toy_text toy_status_text toy_service None "dev-1" "suspended"
    one_device suspending 0 FleetPort "stolen" (toy_env 100 "u") refused _ _ _ _ _ _ _ _ _)
    1 renewal (mkRenewReq "dev-1" "csr") _ _ _ _ _ _).
  - apply exec_reachable.
  - split; reflexivity.
  - discriminate.
  - discriminate.
  - split; discriminate.
  - reflexivity.
  - intros k' j t Hk Hne. exfalso. discriminate (eq_trans (eq_sym Hk) (only_suspending k' Hne)).
  - reflexivity.
  - eapply rtc_l; [apply (limited_restart _ _ _ _ suspended (shared restarted))|].
    { exists toy_envs. split; [intros n; split; discriminate|reflexivity]. }
    eapply rtc_l; [by apply (limited_request _ _ _ _ _ renewal)|].
    eapply rtc_l; [eapply (limited_resume _ _ _ _ _ 1 _ _ _ _ (toy_env 200 "u"))|].
    { split; discriminate. }
    { reflexivity. }
    { reflexivity. }
    eapply rtc_l; [eapply (limited_reply _ _ _ _ _ 1); reflexivity|]. apply rtc_refl.
  - reflexivity.
  - reflexivity.
  - apply list_elem_of_here.
  - apply not_elem_of_nil.
  - intros j' t Hk. exfalso. discriminate (eq_trans (eq_sym Hk) (only_suspending 1 ltac:(discriminate))).
Defined.

Lemma reported_expiry_witness :
  exists params ca key cert,
    signed_by (PkiLib := toy_pki) params 100000000000 (100000000000 + 30 * 86400 * 1000000000) ca key = Ok cert /\
    cert_pem (PkiLib := toy_pki) cert = "csr|fleet-ca".
Proof.
  destruct (@reported_expiry toy_pki toy_pki_spec (enrollment (fleet_svc toy_service)) 100000000000 200000000000
    "csr" "csr|fleet-ca") as (params & ca & key & cert & Hsig & Hpem & _).
  - reflexivity.
  - discriminate.
  - exists params, ca, key, cert. split; [exact Hsig|exact Hpem].
Defined.

(** ** The factory manifest *)

Definition entries : list ManifestEntry :=
  [mkEntry "SN-1" "new-token" "humanoid-v2"; mkEntry "SN-2" "tok-2" "Alpha Wheeled"].

Lemma manifest_round_trip_witness : parse_manifest (render_manifest entries) = entries.
Proof. apply manifest_round_trip. apply (bool_decide_unpack _). exact I. Defined.

(** The configured manifest gives a stored serial a new token. *)
Lemma startup_seeds_witness :
  let s' := (run (store_ready (Some (render_manifest entries))) toy_envs toy_store).2 in
  factory_manifest (visible s') =
    factory_manifest toy_tables ∪ entry_rows entries /\
  (m_token <$> (factory_manifest (visible s') !! "SN-1")) = Some "tok".
Proof.
  pose proof (startup_seeds (Some (render_manifest entries)) toy_envs toy_store) as Hseed.
  cbv zeta in Hseed |- *. split; [|reflexivity].
  destruct (run (store_ready (Some (render_manifest entries))) toy_envs toy_store) as [[count enrolled] s'].
  destruct Hseed as (_ & Hv & _).
  - split; reflexivity.
  - intros n x. reflexivity.
  - cbn [snd]. rewrite Hv. reflexivity.
Defined.
End examples.
