(* ===== verification/AgentLife.v ===== *)
(** * Lemmas on the boot of the agent

    How the agent's world evolves ([world_step]: boots, boots that are cut
    short, requests of others, restarts of the service), and the rules by which
    the phases of [main] are run in it. *)

From S2P Require Import Prelude Sqlite Async Pki DeviceStore DeviceStoreSpec Grpc DmsEffects.
From S2P Require Import Enrollment Provisioning Heartbeat DmsServer RustStr DmsMain Admission Lockout.
From S2P Require Import AgentBoot AgentWorld.

#[local] Arguments awp : simpl never.

Definition succeeded {E A} (r : outcome E A) : Prop := exists a, r = Ok a.

Section life.
Context `{PkiLib, BuildProfile} {S : Type} `{DeviceStoreSpec S}.
Context (rt : RusqliteError -> string) (stx : Status -> string) (svc : Service).
Context (vars : string -> option string) (umask : Z) (manifest : option string).

#[export] Instance agent_world : HandlerIn AgentEnv AgentE World :=
  agent_handler rt stx svc vars umask.

(** Where the agent keeps its files. *)
Definition data_dir : string := default "/root/.robot-agent" (vars "AGENT_DATA_DIR").
Definition path (name : string) : string := join data_dir name.

(** What phase 3 is given, from the files of a disk. *)
Definition creds_of (d : Disk) : option (string * Identity) :=
  cert ← contents <$> d !! path "operational.pem";
  key ← contents <$> d !! path "operational.key";
  i ← contents <$> d !! path "device-id";
  Some (i, (cert, key)).

(** One event in the life of a device: a boot, a boot that stops after some
    effects, a request of another client, a restart of the service. *)
Inductive world_step : World -> World -> Prop :=
| boot envs w : world_step w (Async.run agent_main envs w).2
| boot_cut_short n envs w : world_step w (crash_after n agent_main envs w)
| other_request j envs w :
    world_step w (mkWorld (disk w) (Async.run (serve rt stx svc j) envs (service w)).2)
| service_restart s' w :
    process_restart manifest (service w) s' -> world_step w (mkWorld (disk w) s').

(** An invariant that boots, cut short or not, and the service keep. *)
Lemma world_invariant (I : World -> Prop) w w' :
  (forall w, I w -> awp (fun _ => True) agent_main I (fun _ => I) w) ->
  (forall j envs w, I w ->
     I (mkWorld (disk w) (Async.run (serve rt stx svc j) envs (service w)).2)) ->
  (forall s' w, process_restart manifest (service w) s' -> I w -> I (mkWorld (disk w) s')) ->
  rtc world_step w w' -> I w -> I w'.
Proof using Type.
  intros Hboot Hserve Hre. induction 1 as [|w1 w2 w3 Hstep _ IH]; [done|]. intros HI. apply IH.
  destruct Hstep as [envs w|n envs w|j envs w|s' w Hs']; [..|eauto|eauto].
  - by apply (awp_run (fun _ => True) agent_main I (fun _ => I) envs w); [|apply Hboot].
  - by apply (awp_crash (fun _ => True) agent_main I (fun _ => I) envs w n); [|apply Hboot].
Qed.

(** ** Rules for the steps of [main] *)

Context (good : AgentEnv -> Prop).
Implicit Types (I : World (S := S) -> Prop).

Lemma awp_env_var {E} key I (Q : outcome E (option string) -> World -> Prop) w :
  I w -> Q (Ok (vars key)) w -> awp good (get E (EnvVar key)) I Q w.
Proof using Type. intros HI HQ. apply awp_get; [done|]. by intros env x w' _ [= <- <-]. Qed.

Lemma awp_env_required key I Q w :
  I w -> Q (ok_or (vars key) (MissingVar key)) w -> awp good (env_required key) I Q w.
Proof using Type.
  intros HI HQ. apply awp_task_bind, awp_env_var; [done|]. by apply awp_done.
Qed.

Lemma awp_env_or key fallback I Q w :
  I w -> Q (Ok (default fallback (vars key))) w -> awp good (env_or key fallback) I Q w.
Proof using Type.
  intros HI HQ. apply awp_task_bind, awp_env_var; [done|]. by apply awp_done.
Qed.

Lemma awp_exists {E} p I (Q : outcome E bool -> World -> Prop) w :
  I w -> Q (Ok (dec (is_Some (disk w !! p)))) w -> awp good (get E (PathExists p)) I Q w.
Proof using Type. intros HI HQ. apply awp_get; [done|]. by intros env x w' _ [= <- <-]. Qed.

(** Effects that leave the world as it is. *)
Lemma awp_create_dir p I (Q : outcome string unit -> World -> Prop) w :
  I w -> (forall env, good env -> Q (io_result env) w) -> awp good (call (CreateDirAll p)) I Q w.
Proof using Type. intros HI HQ. apply awp_trigger; [done|]. intros env x w' Hg [= <- <-]. auto. Qed.

Lemma awp_connect addr ca identity I (Q : outcome AgentErr.Error unit -> World -> Prop) w :
  I w ->
  (forall env, good env ->
     Q (match net env with Delivered => Ok tt | _ => Err (AgentErr.Transport "transport error") end) w) ->
  awp good (call (Connect addr ca identity)) I Q w.
Proof using Type. intros HI HQ. apply awp_trigger; [done|]. intros env x w' Hg [= <- <-]. auto. Qed.

(** A read gives the contents, or it fails. *)
Lemma awp_read p I (Q : outcome AgentErr.Error string -> World -> Prop) w :
  I w ->
  (forall r, (forall c, r = Ok c -> contents <$> disk w !! p = Some c) ->
     ((forall env, good env -> io_result env = Ok tt) -> is_Some (disk w !! p) -> succeeded r) ->
     Q r w) ->
  awp good (read_to_string p) I Q w.
Proof using Type.
  intros HI HQ. apply awp_map_err, awp_trigger; [done|].
  intros env x w' Hg [= <- <-]. split; [done|]. apply HQ.
  - intros c Hc. destruct (io_result env), (disk w !! p); cbn in Hc; naive_solver.
  - intros Hok [f Hf]. rewrite Hf, (Hok _ Hg). by eexists.
Qed.

(** *** Files that an invariant does not depend on *)

Definition ignores (I : World (S := S) -> Prop) (p : string) : Prop :=
  forall (w : World (S := S)) (d : Disk), I w -> (forall q, q <> p -> d !! q = disk w !! q) -> I (with_disk d w).

Lemma ignores_host {X} I p (e : Csr.HostE X) env w x w' :
  ignores I p ->
  match e with Csr.KeyGen => True | Csr.OpenCreateTruncate q _ | Csr.WriteAll q _ => q = p end ->
  host_effect umask env e w = (x, w') -> I w -> I w'.
Proof using Type.
  intros Hig He Hh HI. destruct e as [|q m|q s]; cbn in Hh; simplify_eq; [done|..].
  - destruct (io_result env); [|done..]. apply Hig; [done|]. intros q Hq. by apply lookup_insert_ne.
  - apply Hig; [done|]. intros q Hq. by apply lookup_alter_ne.
Qed.

Lemma awp_fs_write p s I (Q : outcome AgentErr.Error unit -> World -> Prop) w :
  ignores I p -> I w -> (forall r w', I w' -> Q r w') -> awp good (fs_write p s) I Q w.
Proof using Type.
  intros Hig HI HQ.
  apply awp_task_bind, awp_map_err, awp_trigger; [done|]. intros env x w1 _ Hh.
  assert (I w1) as HI1 by (by eapply (ignores_host I p); [..|exact Hh|]). split; [done|].
  destruct x as [?|?|]; cbn [Prelude.map_err]; auto.
  apply awp_map_err, awp_trigger; [done|]. intros env' x' w2 _ Hh'.
  assert (I w2) as HI2 by (by eapply (ignores_host I p); [..|exact Hh'|]). auto.
Qed.

Lemma awp_generate_csr cn p I (Q : outcome AgentErr.Error string -> World -> Prop) w :
  ignores I p -> I w -> (forall r w', I w' -> Q r w') -> awp good (generate_csr cn p) I Q w.
Proof using Type.
  intros Hig HI HQ. apply awp_map_err.
  apply awp_task_bind, awp_map_err, awp_trigger; [done|]. intros env x w1 _ Hh.
  assert (I w1) as HI1 by (by eapply (ignores_host I p); [..|exact Hh|]). split; [done|].
  destruct x as [k|?|]; cbn [Prelude.map_err]; auto.
  apply awp_task_bind, awp_map_err, awp_trigger; [done|]. intros env' x' w2 _ Hh'.
  assert (I w2) as HI2 by (by eapply (ignores_host I p); [..|exact Hh'|]). split; [done|].
  destruct x' as [?|?|]; cbn [Prelude.map_err]; auto.
  apply awp_task_bind, awp_map_err, awp_trigger; [done|]. intros env'' x'' w3 _ Hh''.
  assert (I w3) as HI3 by (by eapply (ignores_host I p); [..|exact Hh''|]). split; [done|].
  destruct x'' as [?|?|]; cbn [Prelude.map_err]; auto.
  apply awp_task_bind, awp_done; [done|].
  destruct (serialize_request cn k) as [csr|?|]; cbn [Prelude.map_err]; [|auto..].
  apply awp_done; [done|]. destruct (csr_pem_of csr); cbn [Prelude.map_err]; auto.
Qed.
End life.

(** ** Requests to the service *)

Section requests.
Context `{PkiLib, BuildProfile} {S : Type} `{DeviceStoreSpec S}.
Context (rt : RusqliteError -> string) (stx : Status -> string) (svc : Service).

(** A request leaves the disk of the agent alone, the service keeps its
    invariants, and a reply that arrives is the service's. *)
Lemma rpc_spec {A} env p r (unpack : Reply -> option A) (w : World (S := S)) x w' (J : S -> Prop) :
  rpc rt stx svc env p r unpack w = (x, w') ->
  (forall envs s, J s -> J (Async.run (serve rt stx svc (p, r)) envs s).2) ->
  J (service w) ->
  disk w' = disk w /\ J (service w') /\
  (forall a, x = Ok a -> exists reply,
     (Async.run (serve rt stx svc (p, r)) (fun _ => service_env env) (service w)).1 = Ok reply /\
     unpack reply = Some a).
Proof using Type.
  intros Hr HJ Hs. unfold rpc in Hr. specialize (HJ (fun _ => service_env env) _ Hs).
  destruct (Async.run _ _ (service w)) as [res s'].
  destruct (net env); [|by simplify_eq|by simplify_eq].
  destruct res as [reply|e|]; [|by simplify_eq|by simplify_eq].
  destruct (unpack reply) eqn:Hu; simplify_eq; [|done].
  split; [done|]. split; [done|]. intros a' [= ->]. eauto.
Qed.
End requests.
