(* ===== verification/AgentClaims.v ===== *)
(** * What a device can lose

    The agent decides which phase it is in by the existence of two files, and
    each right it uses is given once.  These theorems state which accidents
    leave a device that can never come online again. *)

From S2P Require Import Prelude Sqlite Async Pki DeviceStore DeviceStoreSpec Grpc DmsEffects.
From S2P Require Import Enrollment Provisioning Heartbeat DmsServer RustStr DmsMain Admission Lockout.
From S2P Require Import AgentBoot AgentWorld AgentLife.

#[local] Arguments awp : simpl never.

Section claims.
Context `{PkiLib, BuildProfile} {S : Type} `{DeviceStoreSpec S}.
Context (rt : RusqliteError -> string) (stx : Status -> string) (svc : Service).
Context (vars : string -> option string) (umask : Z) (manifest : option string).

Abbreviation W := (World (S := S)).
#[local] Instance here : HandlerIn AgentEnv AgentE W := agent_handler rt stx svc vars umask.
Abbreviation path := (path vars).
Abbreviation any := (fun _ : AgentEnv => True).

Implicit Types (I : W -> Prop).

Lemma path_inj a b : path a = path b -> a = b.
Proof. unfold AgentLife.path, join. intros Hp. by apply String.app_inj in Hp; apply String.app_inj in Hp. Qed.

Lemma awp_configure good I (Q : outcome MainErr (EnrollmentManager * string) -> W -> Prop) w :
  I w ->
  (forall r, (forall m ca, r = Ok (m, ca) ->
                cert_dir m = data_dir vars /\ vars "DEVICE_SERIAL" = Some (serial m)) -> Q r w) ->
  awp good configure I Q w.
Proof.
  intros HI HQ. apply awp_task_bind, awp_env_or; [done|].
  apply awp_task_bind, awp_map_err, awp_map_err, awp_create_dir; [done|]. intros env _.
  destruct (io_result env) as [?|?|]; cbn [Prelude.map_err]; [|by apply HQ..].
  apply awp_task_bind, awp_env_required; [done|].
  destruct (vars "DEVICE_SERIAL") as [serial|] eqn:Hser; cbn [ok_or]; [|by apply HQ].
  apply awp_task_bind, awp_env_required; [done|].
  destruct (vars "FLEET_CA_CERT_PEM"); cbn [ok_or]; [|by apply HQ].
  apply awp_task_bind, awp_map_err, awp_read; [done|]. intros r _ _.
  destruct r as [ca|?|]; cbn [Prelude.map_err]; [|by apply HQ..].
  apply awp_task_bind, awp_env_or; [done|]. apply awp_task_bind, awp_env_or; [done|].
  apply awp_done; [done|]. apply HQ. intros m ca' [= <- <-]. done.
Qed.

(** An invariant of every event under which no boot succeeds. *)
Lemma locked_out I w w' envs :
  (forall w, I w -> awp any agent_main I (fun r w => I w /\ ~ succeeded r) w) ->
  (forall j envs w, I w -> I (mkWorld (disk w) (Async.run (serve rt stx svc j) envs (service w)).2)) ->
  (forall s' w, process_restart manifest (service w) s' -> I w -> I (mkWorld (disk w) s')) ->
  I w -> rtc (world_step rt stx svc vars umask manifest) w w' ->
  ~ succeeded (Async.run agent_main envs w').1.
Proof.
  intros Hboot Hserve Hre HI Hrtc. assert (I w') as HI'.
  { apply (world_invariant rt stx svc vars umask manifest I w w'); [..|done|done]; [|done|done].
    intros w1 HI1. eapply awp_mono, Hboot, HI1. naive_solver. }
  apply (awp_run any agent_main I (fun r w => I w /\ ~ succeeded r) envs w'); [done|by apply Hboot].
Qed.

(** A phase that fails, in an invariant. *)
Lemma failed {E A} I (r : outcome E A) w : I w -> is_ok r = false -> I w /\ ~ succeeded r.
Proof. intros HI Hr. split; [done|]. intros [a ->]. done. Qed.

(** ** A lost provisioning reply *)

Definition token_gone sno w : Prop :=
  disk w !! path "device.pem" = None /\ Admission.is_provisioned sno (on_disk (service w)).

Lemma awp_phase1_no_token sno m ca w :
  cert_dir m = data_dir vars -> serial m = sno -> token_gone sno w ->
  awp any (phase1 m ca) (token_gone sno) (fun r w => token_gone sno w /\ ~ succeeded r) w.
Proof.
  intros Hdir Hser HI.
  apply awp_task_bind, awp_map_err, awp_exists; [done|]. cbn [Prelude.map_err].
  unfold device_cert_path. rewrite Hdir.
  replace (disk w !! _) with (None : option File) by (symmetry; apply HI).
  rewrite bool_decide_false by (by intros [? ?]).
  apply awp_task_bind, awp_env_required; [done|].
  destruct (vars "PROVISION_TOKEN") as [token|]; cbn [ok_or]; [|by apply failed].
  apply awp_task_bind, awp_env_required; [done|].
  destruct (vars "PROVISIONING_ADDR") as [addr|]; cbn [ok_or]; [|by apply failed].
  apply awp_map_err, awp_task_bind.
  assert (ignores (token_gone sno) (path "device.key")) as Hkey.
  { intros w' d [Hd Hs] Hq. split; [|done]. cbn. rewrite Hq; [done|]. by intros ?%path_inj. }
  apply awp_generate_csr; [done..|]. intros r w1 HI1.
  destruct r as [csr|?|]; [|by apply failed|by apply failed].
  apply awp_task_bind, awp_connect; [done|]. intros env _.
  destruct (net env); [|by apply failed..].
  apply awp_task_bind, awp_map_err, awp_trigger; [done|].
  intros env' x w2 _ Hh. destruct HI1 as [Hd1 Hs1].
  destruct (rpc_spec rt stx svc env' _ _ _ _ _ _ (fun s => Admission.is_provisioned sno (on_disk s)) Hh)
    as (Hd & Hs & Hx); [intros; by apply provisioned_run|done|].
  assert (token_gone sno w2) as HI2 by (split; [by rewrite Hd|done]). split; [done|].
  destruct x as [a|?|]; [exfalso|by apply failed|by apply failed].
  destruct (Hx a eq_refl) as (reply & Hr & _).
  edestruct (provisioned_run rt stx svc sno
    (ProvisioningPort, ProvisionDevice (mkProvisionReq (serial m) csr token))
    (fun _ => service_env env') (service w1) Hs1) as [Hno _].
  apply Hno. rewrite Hr. by split.
Qed.

(** A device whose provisioning reply is lost can never be provisioned.
    Once the manufacturing token of its serial is used and the device holds no
    [device.pem] (the reply was lost, or the agent stopped before writing it),
    no boot of the agent ever reaches normal operation, whatever the network,
    the disk and the clock do, however often it is restarted, and whatever else
    the service does. *)
Lemma lost_provisioning_reply sno w w' envs :
  vars "DEVICE_SERIAL" = Some sno ->
  disk w !! path "device.pem" = None ->
  Admission.is_provisioned sno (on_disk (service w)) ->
  rtc (world_step rt stx svc vars umask manifest) w w' ->
  ~ succeeded (Async.run agent_main envs w').1.
Proof.
  intros Hsno Hpem Hprov Hrtc.
  assert (forall w, token_gone sno w ->
    awp any agent_main (token_gone sno) (fun r w => token_gone sno w /\ ~ succeeded r) w) as Hboot.
  { intros w1 HI. apply awp_task_bind, awp_configure; [done|]. intros r Hr.
    destruct r as [[m ca]|e|]; [|by split; [|intros [? ?]]..].
    destruct (Hr m ca eq_refl) as [Hdir Hser]. apply awp_task_bind.
    eapply awp_mono, awp_phase1_no_token; [|done|congruence|done].
    intros [[]|e|] w2 _ [HI2 Hno]; [by destruct Hno; eexists|by split; [|intros [? ?]]..]. }
  apply (locked_out (token_gone sno)) with w; [done|..|done|done].
  - intros j envs' w1 [Hd Hs]. split; [done|]. by apply provisioned_run.
  - intros s' w1 Hre [Hd Hs]. split; [done|]. cbn.
    apply (restart_keeps manifest (Admission.is_provisioned sno)) with (service w1); [|done|done].
    intros X env e s3 x s4. apply provisioned_stays.
Qed.

(** ** A lost enrollment reply *)

Lemma awp_phase1_done good m ca I (Q : outcome MainErr unit -> W -> Prop) w :
  cert_dir m = data_dir vars -> is_Some (disk w !! path "device.pem") -> I w ->
  Q (Ok tt) w -> awp good (phase1 m ca) I Q w.
Proof.
  intros Hdir Hpem HI HQ. apply awp_task_bind, awp_map_err, awp_exists; [done|].
  cbn [Prelude.map_err]. unfold device_cert_path. rewrite Hdir.
  rewrite bool_decide_true by done. by apply awp_done.
Qed.

Definition claim_gone sno cert w : Prop :=
  disk w !! path "operational.pem" = None /\
  contents <$> disk w !! path "device.pem" = Some cert /\
  is_claimed sno (on_disk (service w)).

Lemma claim_gone_ignores sno cert name :
  name <> "operational.pem" -> name <> "device.pem" -> ignores (claim_gone sno cert) (path name).
Proof.
  intros Hn1 Hn2 w d (Hop & Hd & Hs) Hq. split; [|split; [|done]]; cbn.
  - rewrite Hq; [done|]. intros Hp%path_inj. congruence.
  - rewrite Hq; [done|]. intros Hp%path_inj. congruence.
Qed.

(** The request that [enroll] makes fails, and so does [enroll]. *)
Lemma awp_enroll_no_claim sno cert certs m addr key w :
  Mtls.certs_from_pem cert = Ok certs -> Mtls.extract_serial certs = Ok sno ->
  cert_dir m = data_dir vars -> claim_gone sno cert w ->
  awp any (enroll m addr (cert, key)) (claim_gone sno cert)
    (fun r w => claim_gone sno cert w /\ is_ok r = false) w.
Proof.
  intros Hcerts Hcn Hdir HI. apply awp_task_bind. unfold operational_key_path. rewrite Hdir.
  apply awp_generate_csr; [by apply claim_gone_ignores|done|]. intros r w1 HI1.
  destruct r as [csr|?|]; [|done..].
  apply awp_task_bind, awp_map_err, awp_trigger; [done|].
  intros env x w2 _ Hh. unfold Async.handle, here, agent_handler, handshake in Hh.
  cbn [client_ca_root] in Hh. rewrite Hcerts in Hh.
  destruct (Mtls.verify_signed_by certs _); [|by simplify_eq..].
  destruct HI1 as (Hop & Hd1 & Hs1).
  destruct (rpc_spec rt stx svc env _ _ _ _ _ _ (fun s => is_claimed sno (on_disk s)) Hh)
    as (Hd & Hs & Hx); [intros; by apply claimed_run|done|].
  assert (claim_gone sno cert w2) as HI2 by (unfold claim_gone; by rewrite Hd). split; [done|].
  destruct x as [resp|?|]; [exfalso|done..].
  destruct (Hx resp eq_refl) as (reply & Hr & _).
  edestruct (claimed_run rt stx svc sno) as [Hno _]; [exact Hs1|]. apply Hno. rewrite Hr. by split.
Qed.

Lemma awp_phase2_no_claim sno cert certs m ca w :
  Mtls.certs_from_pem cert = Ok certs -> Mtls.extract_serial certs = Ok sno ->
  cert_dir m = data_dir vars -> claim_gone sno cert w ->
  awp any (phase2 m ca) (claim_gone sno cert) (fun r w => claim_gone sno cert w /\ ~ succeeded r) w.
Proof.
  intros Hcerts Hcn Hdir HI. assert (HI' := HI). destruct HI' as (Hop & Hd & Hs). unfold AgentLife.path in Hop, Hd.
  apply awp_task_bind, awp_map_err, awp_exists; [done|].
  cbn [Prelude.map_err]. unfold operational_cert_path. rewrite Hdir, Hop.
  rewrite bool_decide_false by (by intros [? ?]).
  apply awp_task_bind, awp_map_err, awp_task_bind. unfold device_cert_path, device_key_path.
  rewrite Hdir. apply awp_read; [done|]. intros r Hr _.
  destruct r as [cert'|?|]; [|by apply failed..].
  specialize (Hr cert' eq_refl). rewrite Hd in Hr. simplify_eq.
  apply awp_task_bind, awp_read; [done|]. intros r _ _.
  destruct r as [key|?|]; [|by apply failed..].
  apply awp_done; [done|]. cbn [Prelude.map_err].
  apply awp_task_bind, awp_env_required; [done|].
  destruct (vars "BOOTSTRAP_ADDR") as [addr|]; cbn [ok_or]; [|by apply failed].
  apply awp_task_bind, awp_map_err, awp_connect; [done|]. intros env _.
  destruct (net env); cbn [Prelude.map_err]; [|by apply failed..].
  apply awp_map_err. eapply awp_mono, awp_enroll_no_claim; [|done..].
  intros r w1 _ [HI1 Hr']. apply failed; [done|]. by destruct r.
Qed.

(** C22: a device whose enrollment reply is lost can never enroll.  Once the
    serial named by the device's own certificate is claimed and the device
    holds no [operational.pem] (the reply was lost, signing failed, or the
    agent stopped before writing it), no boot ever reaches normal operation,
    whatever the network, the disk, the service's other clients and restarts
    do. *)
Theorem lost_enrollment_reply sno cert certs w w' envs :
  Mtls.certs_from_pem cert = Ok certs -> Mtls.extract_serial certs = Ok sno ->
  contents <$> disk w !! path "device.pem" = Some cert ->
  disk w !! path "operational.pem" = None ->
  is_claimed sno (on_disk (service w)) ->
  rtc (world_step rt stx svc vars umask manifest) w w' ->
  ~ succeeded (Async.run agent_main envs w').1.
Proof.
  intros Hcerts Hcn Hd Hop Hcl Hrtc.
  apply (locked_out (claim_gone sno cert)) with w; [..|done|done].
  - intros w1 HI. apply awp_task_bind, awp_configure; [done|]. intros r Hr.
    destruct r as [[m ca]|e|]; [|by apply failed..]. destruct (Hr m ca eq_refl) as [Hdir _].
    apply awp_task_bind, awp_phase1_done; [done| |done|].
    { destruct HI as (_ & Hd1 & _). apply fmap_Some in Hd1 as (f & Hf & _). by eexists. }
    apply awp_task_bind. eapply awp_mono, awp_phase2_no_claim; [|done..].
    intros [[]|e|] w2 _ [HI2 Hno]; [by destruct Hno; eexists|by apply failed..].
  - intros j envs' w1 (Hop1 & Hd1 & Hs1). split; [done|]. split; [done|]. by apply claimed_run.
  - intros s' w1 Hre (Hop1 & Hd1 & Hs1). split; [done|]. split; [done|]. cbn.
    apply (restart_keeps manifest (is_claimed sno)) with (service w1); [|done|done].
    intros X env e s3 x s4. apply claimed_stays.
Qed.

(** ** Boots after enrollment *)

Definition resumed (w0 : W) (r : outcome MainErr Online) (w : W) : Prop :=
  w = w0 /\ forall o, r = Ok o -> creds_of vars (disk w0) = Some (on_device_id o, on_identity o).

Lemma awp_phase3 good m ca w0 :
  cert_dir m = data_dir vars ->
  awp good (phase3 m ca) (eq w0) (resumed w0) w0.
Proof.
  intros Hdir. apply awp_task_bind, awp_map_err, awp_task_bind.
  unfold operational_cert_path, operational_key_path. rewrite Hdir.
  apply awp_read; [done|]. intros r Hr1 _. destruct r as [cert|?|]; [|done..].
  apply awp_task_bind, awp_read; [done|]. intros r Hr2 _. destruct r as [key|?|]; [|done..].
  apply awp_done; [done|]. cbn [Prelude.map_err].
  apply awp_task_bind, awp_map_err. unfold load_device_id, device_id_path. rewrite Hdir.
  apply awp_read; [done|]. intros r Hr3 _. destruct r as [i|?|]; [|done..]. cbn [Prelude.map_err].
  apply awp_task_bind, awp_env_required; [done|].
  destruct (vars "FLEET_SERVICE_ADDR"); [|done]. cbn [ok_or].
  apply awp_task_bind, awp_env_or; [done|].
  apply awp_task_bind, awp_map_err, awp_connect; [done|]. intros env _.
  destruct (net env); [|done..]. cbn [Prelude.map_err].
  apply awp_task_bind, awp_map_err, awp_connect; [done|]. intros env' _.
  destruct (net env'); [|done..]. cbn [Prelude.map_err].
  apply awp_done; [done|]. split; [done|]. intros o [= <-]. unfold creds_of, AgentLife.path.
  by rewrite (Hr1 cert eq_refl), (Hr2 key eq_refl); cbn; rewrite (Hr3 i eq_refl).
Qed.

(** C21: an enrolled device keeps its identity, and a device without one is
    stuck.  When [device.pem] and [operational.pem] exist, a boot changes
    neither the disk nor the service, wherever it is cut short, and if it comes
    online it does so with exactly the certificate, key and device id on its
    disk.  So an agent that stopped between writing [operational.pem] and
    [device-id] never comes online again, and never asks for another
    certificate. *)
Theorem enrolled_boot w w' envs n :
  is_Some (disk w !! path "device.pem") -> is_Some (disk w !! path "operational.pem") ->
  crash_after n agent_main envs w = w /\
  (Async.run agent_main envs w).2 = w /\
  (forall o, (Async.run agent_main envs w).1 = Ok o ->
     creds_of vars (disk w) = Some (on_device_id o, on_identity o)) /\
  (disk w !! path "device-id" = None ->
   rtc (world_step rt stx svc vars umask manifest) w w' -> ~ succeeded (Async.run agent_main envs w').1).
Proof.
  assert (forall w, is_Some (disk w !! path "device.pem") -> is_Some (disk w !! path "operational.pem") ->
    awp any agent_main (eq w) (resumed w) w) as Hboot.
  { intros w1 Hd Hop. apply awp_task_bind, awp_configure; [done|]. intros r Hr.
    destruct r as [[m ca]|e|]; [|done..]. destruct (Hr m ca eq_refl) as [Hdir _].
    apply awp_task_bind, awp_phase1_done; [done..|].
    apply awp_task_bind. apply awp_task_bind, awp_map_err, awp_exists; [done|].
    cbn [Prelude.map_err]. unfold operational_cert_path. rewrite Hdir.
    rewrite bool_decide_true by done. apply awp_done; [done|]. by apply awp_phase3. }
  intros Hd Hop. split; [|split; [|split]].
  - symmetry. by apply (awp_crash any agent_main (eq w) (resumed w) envs w n); [|apply Hboot].
  - by apply (awp_run any agent_main (eq w) (resumed w) envs w); [|apply Hboot].
  - by apply (awp_run any agent_main (eq w) (resumed w) envs w); [|apply Hboot].
  - intros Hid Hrtc.
    set (I (w : W) := is_Some (disk w !! path "device.pem") /\ is_Some (disk w !! path "operational.pem") /\
                disk w !! path "device-id" = None).
    apply (locked_out I) with w; [..|by split|done].
    + intros w1 (Hd1 & Hop1 & Hid1).
      eapply awp_weaken_inv, awp_mono, Hboot; [by intros ? <-| |done..].
      intros r w2 _ [-> Ho]. split; [done|]. intros [o ->]. specialize (Ho o eq_refl).
      unfold creds_of in Ho. rewrite Hid1 in Ho.
      by destruct (disk w1 !! path "operational.pem"), (disk w1 !! path "operational.key").
    + intros j envs' w1 HI. exact HI.
    + intros s' w1 _ HI. exact HI.
Qed.
End claims.
