(* ===== verification/FirstBoot.v ===== *)
(** * The first boot of a device

    The whole path of a factory-fresh device, from its manufacturing token to
    normal operation, through the agent's phases, its files, the ports of the
    service and the service's store. *)

From S2P Require Import Prelude Sqlite Async Pki DeviceStore DeviceStoreSpec Grpc DmsEffects.
From S2P Require Import Enrollment Provisioning Heartbeat DmsServer RustStr DmsMain Admission Lockout.
From S2P Require Import AgentBoot AgentWorld AgentLife.

#[local] Arguments awp : simpl never.

(** A complete write of a file. *)
Definition put_file (umask : Z) (p : string) (m : Z) (s : string) (d : Disk) : Disk :=
  <[p := mkFile s (match d !! p with Some f => mode f | None => Z.ldiff m umask end)]> d.

Lemma substring_all s : String.substring 0 (String.length s) s = s.
Proof. induction s as [|a s IH]; [done|]. cbn. by rewrite IH. Qed.

Lemma put_file_write umask p m s d :
  write_at_start p s (String.length s) (open_truncate umask p m d) = put_file umask p m s d.
Proof.
  unfold write_at_start, open_truncate, put_file. rewrite alter_insert_eq. cbn.
  by rewrite substring_all.
Qed.

Section first.
Context `{PkiLib, BuildProfile} {S : Type} `{DeviceStoreSpec S}.
Context (rt : RusqliteError -> string) (stx : Status -> string) (svc : Service).
(** ** What the service answers when nothing fails *)

Lemma provision_calm env s req row cert :
  healthy s -> no_fault env ->
  pd_serial req <> "" -> pd_csr_pem req <> "" -> pd_provision_token req <> "" ->
  factory_manifest (visible s) !! pd_serial req = Some row ->
  m_token row = pd_provision_token req -> provisioned_at row = None ->
  Csr.sign_csr (clock env) (pd_csr_pem req)
    (device_ca_cert_pem (provisioning_svc svc)) (device_ca_key_pem (provisioning_svc svc)) 365 = Ok cert ->
  exists s', Async.run (serve rt stx svc (ProvisioningPort, ProvisionDevice req)) (fun _ => env) s =
      (Ok (ProvisionReply (mkProvisionResp cert)), s') /\
    healthy s' /\
    visible s' = (spec env (ClaimManifestEntry (pd_serial req) (pd_provision_token req)) (visible s)).2.
Proof.
  intros Hs Hf Hn1 Hn2 Hn3 Hrow Htok Hprov Hsign. unfold serve, provision_device. cbn.
  rewrite bool_decide_false by naive_solver. cbn.
  destruct (store_call_calm (ClaimManifestEntry (pd_serial req) (pd_provision_token req))
    env s Hs Hf I) as (s' & Hc & Hs' & Hv').
  cbn in Hc. rewrite Hc. cbn in Hv'. rewrite Hrow in Hv' |- *.
  rewrite decide_False in Hv' |- * by congruence.
  rewrite decide_False in Hv' |- * by (rewrite Hprov; by intros [? ?]). cbn in *.
  rewrite Hsign. cbn. by exists s'.
Qed.

Lemma enroll_calm env s certs req sno row op :
  healthy s -> no_fault env ->
  Mtls.extract_serial certs = Ok sno ->
  Mtls.verify_signed_by certs (device_ca_pem (bootstrap_svc svc)) = Ok tt ->
  be_serial req = sno ->
  pre_enrollment (visible s) !! sno = Some row -> claimed row = 0%Z ->
  device_with_serial sno (visible s) = None -> devices (visible s) !! fresh_uuid env = None ->
  sign (enrollment (bootstrap_svc svc)) (clock env) (be_csr_pem req) = Ok op ->
  let now := unix_timestamp (clock env) in
  let d := mkDevice (fresh_uuid env) sno (p_model row) (be_firmware req) "active" op now now in
  exists s' chain exp, Async.run (serve rt stx svc (BootstrapPort, BootstrapEnroll (Some certs) req)) (fun _ => env) s =
      (Ok (BootstrapReply (mkBootstrapResp (fresh_uuid env) op chain exp)), s') /\
    healthy s' /\
    visible s' = set_devices (<[fresh_uuid env := d]> (devices (visible s)))
      (set_pre (<[sno := mkPreRow (p_model row) 1]> (pre_enrollment (visible s))) (visible s)).
Proof.
  intros Hs Hf Hcn Hv Hreq Hrow Hcl Hdev Hid Hsign now d. unfold serve. cbn.
  rewrite Hcn. cbn. rewrite bool_decide_false by naive_solver. rewrite Hv. cbn.
  destruct (store_call_calm (LookupAndClaim sno) env s Hs Hf I) as (s1 & Hc & Hs1 & Hv1).
  cbn in Hc. rewrite Hc. cbn in Hv1. rewrite Hrow, decide_True in Hv1 |- * by done. cbn in *.
  rewrite Hsign. cbn.
  destruct (store_call_calm (CreateDevice (mkNewDevice sno (p_model row) (be_firmware req) op)) env s1 Hs1 Hf I)
    as (s2 & Hc2 & Hs2 & Hv2).
  cbn in Hc2. cbn. rewrite Hc2. cbn in Hv2.
  rewrite decide_False in Hv2 |- *.
  2, 3: rewrite Hv1; cbn; rewrite Hid; unfold device_with_serial, device_rows in *; cbn; rewrite Hdev;
    by intros [[? ?]|[? ?]].
  cbn. exists s2. do 2 eexists. split; [done|]. split; [done|]. by rewrite Hv2, Hv1.
Qed.
Context (vars : string -> option string) (umask : Z).

Abbreviation W := (World (S := S)).
#[local] Instance here : HandlerIn AgentEnv AgentE W := agent_handler rt stx svc vars umask.
Abbreviation path := (path vars).

Context (sno tok : string).

(** A certificate request that the service's CAs turn into certificates, the
    device certificate naming [sno]. *)
Definition issuable (now : Z) (pem : string) : Prop :=
  (exists cert certs,
     Csr.sign_csr now pem (device_ca_cert_pem (provisioning_svc svc))
       (device_ca_key_pem (provisioning_svc svc)) 365 = Ok cert /\
     Mtls.certs_from_pem cert = Ok certs /\ Mtls.extract_serial certs = Ok sno /\
     Mtls.verify_signed_by certs (device_ca_pem (bootstrap_svc svc)) = Ok tt) /\
  (exists op, sign (enrollment (bootstrap_svc svc)) now pem = Ok op).

(** Nothing fails while the agent boots. *)
Record fair_weather (good : AgentEnv -> Prop) := {
  fair_io env : good env -> io_result env = Ok tt;
  fair_net env : good env -> net env = Delivered;
  fair_store env : good env -> no_fault (service_env env);
  fair_keys env : good env -> exists k csr pem,
    new_key env = Ok k /\ serialize_request sno k = Ok csr /\ csr_pem_of csr = Ok pem /\ pem <> "" /\
    forall env', good env' -> issuable (clock (service_env env')) pem
}.

(** How the device and the service are set up at the factory. *)
Record factory_fresh (w : W) (row : ManifestRow) := {
  ff_serial : sno <> "";
  ff_token : tok <> "";
  ff_store : healthy (service w);
  ff_manifest : factory_manifest (visible (service w)) !! sno = Some row;
  ff_row_token : m_token row = tok;
  ff_unused : provisioned_at row = None;
  ff_unclaimed : forall r, pre_enrollment (visible (service w)) !! sno = Some r -> claimed r = 0%Z;
  ff_no_device : device_with_serial sno (visible (service w)) = None;
  ff_no_device_pem : disk w !! path "device.pem" = None;
  ff_no_operational_pem : disk w !! path "operational.pem" = None
}.

Context (good : AgentEnv -> Prop) (fair : fair_weather good).

Abbreviation always := (fun _ : W => True).

Lemma awp_write_calm p s (Q : outcome AgentErr.Error unit -> W -> Prop) w :
  Q (Ok tt) (with_disk (put_file umask p everyone s (disk w)) w) ->
  awp good (fs_write p s) always Q w.
Proof using fair.
  intros HQ. apply awp_task_bind, awp_map_err, awp_trigger; [done|].
  intros env x w1 Hg Hh. unfold Async.handle, here, agent_handler, host_effect in Hh.
  rewrite (fair_io _ fair env Hg) in Hh. injection Hh as <- <-. split; [done|]. cbn [Prelude.map_err].
  apply awp_map_err, awp_trigger; [done|].
  intros env' x w2 Hg' Hh. unfold Async.handle, here, agent_handler, host_effect in Hh.
  rewrite (fair_io _ fair env' Hg') in Hh. injection Hh as <- <-. split; [done|].
  cbn [Prelude.map_err]. unfold with_disk in *. cbn. by rewrite put_file_write.
Qed.

Lemma awp_csr_calm p (Q : outcome AgentErr.Error string -> W -> Prop) w :
  (forall k pem, pem <> "" -> (forall env, good env -> issuable (clock (service_env env)) pem) ->
     Q (Ok pem) (with_disk (put_file umask p Csr.owner_only (key_serialize_pem k) (disk w)) w)) ->
  awp good (generate_csr sno p) always Q w.
Proof using fair.
  intros HQ. apply awp_map_err.
  apply awp_task_bind, awp_map_err, awp_trigger; [done|]. intros env x w1 Hg Hh.
  destruct (fair_keys _ fair env Hg) as (k & csr & pem & Hk & Hcsr & Hpem & Hne & Hissue).
  unfold Async.handle, here, agent_handler, host_effect in Hh. rewrite Hk in Hh.
  injection Hh as <- <-. split; [done|]. cbn [Prelude.map_err].
  apply awp_task_bind, awp_map_err, awp_trigger; [done|].
  intros env' x w1 Hg' Hh. unfold Async.handle, here, agent_handler, host_effect in Hh.
  rewrite (fair_io _ fair env' Hg') in Hh. injection Hh as <- <-. split; [done|]. cbn [Prelude.map_err].
  apply awp_task_bind, awp_map_err, awp_trigger; [done|].
  intros env'' x w2 Hg'' Hh. unfold Async.handle, here, agent_handler, host_effect in Hh.
  rewrite (fair_io _ fair env'' Hg'') in Hh. injection Hh as <- <-. split; [done|]. cbn [Prelude.map_err].
  rewrite Hcsr. apply awp_task_bind, awp_done; [done|]. cbn [Prelude.map_err].
  rewrite Hpem. apply awp_done; [done|]. cbn [Prelude.map_err].
  unfold with_disk in *. cbn. rewrite put_file_write. by apply HQ.
Qed.

Lemma awp_connect_calm addr ca identity (Q : outcome AgentErr.Error unit -> W -> Prop) w :
  Q (Ok tt) w -> awp good (call (Connect addr ca identity)) always Q w.
Proof using fair.
  intros HQ. apply awp_connect; [done|]. intros env Hg. by rewrite (fair_net _ fair env Hg).
Qed.

Lemma awp_read_calm p f (Q : outcome AgentErr.Error string -> W -> Prop) w :
  disk w !! p = Some f -> Q (Ok (contents f)) w -> awp good (read_to_string p) always Q w.
Proof using fair.
  intros Hf HQ. apply awp_read; [done|]. intros r Hr Hok.
  destruct Hok as [c ->]; [intros env; apply fair_io, fair|by eexists|].
  specialize (Hr c eq_refl). rewrite Hf in Hr. cbn in Hr. by simplify_eq.
Qed.

(** ** The phases *)

(** What phase 1 leaves. *)
Definition provisioned_world (w0 w : W) : Prop :=
  exists k cert certs,
    disk w = put_file umask (path "device.pem") everyone cert
               (put_file umask (path "device.key") Csr.owner_only (key_serialize_pem k) (disk w0)) /\
    Mtls.certs_from_pem cert = Ok certs /\ Mtls.extract_serial certs = Ok sno /\
    Mtls.verify_signed_by certs (device_ca_pem (bootstrap_svc svc)) = Ok tt /\
    healthy (service w) /\
    devices (visible (service w)) = devices (visible (service w0)) /\
    (exists r, pre_enrollment (visible (service w)) !! sno = Some r /\ claimed r = 0%Z) /\
    Admission.is_provisioned sno (visible (service w)).

Lemma phase1_calm m ca row w Q :
  factory_fresh w row -> cert_dir m = data_dir vars -> serial m = sno ->
  vars "PROVISION_TOKEN" = Some tok -> is_Some (vars "PROVISIONING_ADDR") ->
  (forall w', provisioned_world w w' -> Q (Ok tt) w') ->
  awp good (phase1 m ca) always Q w.
Proof using fair.
  intros Hff Hdir Hser Htok [addr Haddr] HQ.
  apply awp_task_bind, awp_map_err, awp_exists; [done|]. cbn [Prelude.map_err].
  unfold device_cert_path. rewrite Hdir. fold (path "device.pem").
  rewrite (ff_no_device_pem _ _ Hff), bool_decide_false by (by intros [? ?]).
  apply awp_task_bind, awp_env_required; [done|]. rewrite Htok. cbn [ok_or].
  apply awp_task_bind, awp_env_required; [done|]. rewrite Haddr. cbn [ok_or]. rewrite Hser.
  fold (path "device.key"). apply awp_map_err, awp_task_bind, awp_csr_calm. intros k pem Hne Hissue.
  apply awp_task_bind, awp_connect_calm.
  apply awp_task_bind, awp_map_err, awp_trigger; [done|]. intros env x w1 Hg Hh.
  destruct (Hissue env Hg) as [(cert & certs & Hsign & Hcerts & Hcn & Hver) _].
  destruct (provision_calm (service_env env) (service w) (mkProvisionReq sno pem tok) row cert)
    as (s' & Hrun & Hs' & Hv'); try apply Hff; try done; [by apply (fair_store _ fair)|].
  unfold Async.handle, here, agent_handler, rpc in Hh. cbn [service with_disk disk] in Hh.
  rewrite Hrun, (fair_net _ fair env Hg) in Hh. cbn [provision_reply] in Hh. injection Hh as <- <-.
  split; [done|]. cbn [Prelude.map_err]. apply awp_write_calm. cbn [Prelude.map_err]. apply HQ.
  exists k, cert, certs. split; [done|]. split; [done|]. split; [done|]. split; [done|]. split; [done|].
  cbn [service with_disk]. rewrite Hv'. cbn. rewrite (ff_manifest _ _ Hff).
  rewrite decide_False by (rewrite (ff_row_token _ _ Hff); tauto).
  rewrite decide_False by (rewrite (ff_unused _ _ Hff); by intros [? ?]). cbn.
  pose proof (ff_unclaimed _ _ Hff) as Hun.
  split; [by case_match|]. split.
  - destruct (pre_enrollment _ !! sno) as [r|] eqn:Hr; cbn; [by eauto|].
    eexists. by rewrite lookup_insert_eq.
  - eexists. case_match; cbn; by rewrite lookup_insert_eq.
Qed.

(** What phase 2 leaves. *)
Definition enrolled_world (w1 w : W) (d : DeviceRecord) : Prop :=
  exists k chain,
    disk w = put_file umask (path "device-id") everyone (id d)
              (put_file umask (path "fleet-ca-chain.pem") everyone chain
                (put_file umask (path "operational.pem") everyone (operational_cert_pem d)
                  (put_file umask (path "operational.key") Csr.owner_only (key_serialize_pem k) (disk w1)))) /\
    healthy (service w) /\
    devices (visible (service w)) = <[id d := d]> (devices (visible (service w1))) /\
    DeviceStore.serial d = sno /\ status d = "active" /\
    is_claimed sno (visible (service w)) /\
    factory_manifest (visible (service w)) = factory_manifest (visible (service w1)).

Lemma put_file_ne p q m s d : p <> q -> put_file umask p m s d !! q = d !! q.
Proof. intros Hpq. by apply lookup_insert_ne. Qed.

Lemma path_ne a b : a <> b -> path a <> path b.
Proof.
  intros Hab Hp. unfold AgentLife.path, join in Hp. by apply String.app_inj, String.app_inj in Hp.
Qed.

Lemma awp_enroll_calm m addr cert key certs w Q :
  cert_dir m = data_dir vars -> serial m = sno ->
  Mtls.certs_from_pem cert = Ok certs -> Mtls.extract_serial certs = Ok sno ->
  Mtls.verify_signed_by certs (device_ca_pem (bootstrap_svc svc)) = Ok tt ->
  healthy (service w) -> device_with_serial sno (visible (service w)) = None ->
  (exists r, pre_enrollment (visible (service w)) !! sno = Some r /\ claimed r = 0%Z) ->
  (forall env, good env -> devices (visible (service w)) !! fresh_uuid (service_env env) = None) ->
  (forall w' d, enrolled_world w w' d -> Q (Ok tt) w') ->
  awp good (enroll m addr (cert, key)) always Q w.
Proof using fair.
  intros Hdir Hser Hcerts Hcn Hver Hs Hdev (r & Hpre & Hcl) Hfresh HQ.
  unfold enroll, operational_key_path, operational_cert_path, fleet_ca_path, device_id_path.
  rewrite Hdir, Hser. fold (path "operational.key"). apply awp_task_bind, awp_csr_calm.
  intros k pem _ Hissue. apply awp_task_bind, awp_map_err, awp_trigger; [done|]. intros env x w1 Hg Hh.
  destruct (Hissue env Hg) as [_ [op Hsign]].
  destruct (enroll_calm (service_env env) (service w) certs
    (mkBootstrapReq pem (model m) (firmware m) ∅ sno) sno r op) as (s' & chain & exp & Hrun & Hs' & Hv');
    [done|by apply (fair_store _ fair)|done..|by apply Hfresh|done|].
  unfold Async.handle, here, agent_handler, handshake, rpc in Hh. cbn [client_ca_root] in Hh.
  rewrite Hcerts, Hver in Hh. cbn [service with_disk disk] in Hh.
  rewrite Hrun, (fair_net _ fair env Hg) in Hh. cbn [bootstrap_reply] in Hh. injection Hh as <- <-.
  split; [done|]. cbn [Prelude.map_err]. apply awp_task_bind, awp_write_calm.
  apply awp_task_bind, awp_write_calm. apply awp_write_calm.
  set (now := unix_timestamp (clock (service_env env))).
  apply (HQ _ (mkDevice (fresh_uuid (service_env env)) sno (p_model r) (firmware m) "active" op now now)).
  exists k, chain. split; [done|]. cbn [service with_disk]. rewrite Hv'. split; [done|].
  split; [done|]. split; [done|]. split; [done|]. split; [|done]. eexists. cbn. by rewrite lookup_insert_eq.
Qed.

Lemma phase2_calm m ca row w0 w Q :
  factory_fresh w0 row -> provisioned_world w0 w ->
  cert_dir m = data_dir vars -> serial m = sno -> is_Some (vars "BOOTSTRAP_ADDR") ->
  (forall env, good env -> devices (visible (service w0)) !! fresh_uuid (service_env env) = None) ->
  (forall w' d, enrolled_world w w' d -> Q (Ok tt) w') ->
  awp good (phase2 m ca) always Q w.
Proof using fair.
  intros Hff (k & cert & certs & Hd & Hcerts & Hcn & Hver & Hs & Hdevs & Hpre & _) Hdir Hser [addr Haddr] Hfresh HQ.
  apply awp_task_bind, awp_map_err, awp_exists; [done|]. cbn [Prelude.map_err].
  unfold operational_cert_path. rewrite Hdir. fold (path "operational.pem").
  assert (disk w !! path "operational.pem" = None) as Hop.
  { rewrite Hd, !put_file_ne by (by apply path_ne). apply Hff. }
  rewrite Hop, bool_decide_false by (by intros [? ?]).
  apply awp_task_bind, awp_map_err, awp_task_bind. unfold device_cert_path, device_key_path.
  rewrite Hdir. fold (path "device.pem") (path "device.key").
  eapply awp_read_calm; [rewrite Hd; apply lookup_insert_eq|].
  apply awp_task_bind. eapply awp_read_calm.
  { rewrite Hd, put_file_ne by (by apply path_ne). apply lookup_insert_eq. }
  apply awp_done; [done|]. cbn [Prelude.map_err].
  apply awp_task_bind, awp_env_required; [done|]. rewrite Haddr. cbn [ok_or].
  apply awp_task_bind, awp_map_err, awp_connect_calm. cbn [Prelude.map_err].
  apply awp_map_err. apply (awp_enroll_calm m addr cert _ certs); try done.
  - unfold device_with_serial, device_rows. rewrite Hdevs. apply (ff_no_device _ _ Hff).
  - by rewrite Hdevs.
Qed.

Lemma phase3_calm m ca cert key i w (Q : outcome MainErr Online -> W -> Prop) fleet :
  cert_dir m = data_dir vars ->
  disk w !! path "operational.pem" = Some cert -> disk w !! path "operational.key" = Some key ->
  disk w !! path "device-id" = Some i -> vars "FLEET_SERVICE_ADDR" = Some fleet ->
  Q (Ok (mkOnline (contents i) (contents cert, contents key) fleet
           (default fleet (vars "OTA_SERVICE_ADDR")))) w ->
  awp good (phase3 m ca) always Q w.
Proof using fair.
  intros Hdir Hcert Hkey Hi Hfleet HQ. apply awp_task_bind, awp_map_err, awp_task_bind.
  unfold operational_cert_path, operational_key_path. rewrite Hdir.
  eapply awp_read_calm; [exact Hcert|]. apply awp_task_bind. eapply awp_read_calm; [exact Hkey|].
  apply awp_done; [done|]. cbn [Prelude.map_err].
  apply awp_task_bind, awp_map_err. unfold load_device_id, device_id_path. rewrite Hdir.
  eapply awp_read_calm; [exact Hi|]. cbn [Prelude.map_err].
  apply awp_task_bind, awp_env_required; [done|]. rewrite Hfleet. cbn [ok_or].
  apply awp_task_bind, awp_env_or; [done|].
  apply awp_task_bind, awp_map_err, awp_connect_calm. cbn [Prelude.map_err].
  apply awp_task_bind, awp_map_err, awp_connect_calm. cbn [Prelude.map_err].
  by apply awp_done.
Qed.

Lemma configure_calm ca_path ca (Q : outcome MainErr (EnrollmentManager * string) -> W -> Prop) w :
  vars "DEVICE_SERIAL" = Some sno -> vars "FLEET_CA_CERT_PEM" = Some ca_path ->
  disk w !! ca_path = Some ca ->
  (forall m, cert_dir m = data_dir vars -> serial m = sno -> Q (Ok (m, contents ca)) w) ->
  awp good configure always Q w.
Proof using fair.
  intros Hser Hca Hfile HQ. apply awp_task_bind, awp_env_or; [done|].
  apply awp_task_bind, awp_map_err, awp_map_err, awp_create_dir; [done|]. intros env Hg.
  rewrite (fair_io _ fair env Hg). cbn [Prelude.map_err].
  apply awp_task_bind, awp_env_required; [done|]. rewrite Hser. cbn [ok_or].
  apply awp_task_bind, awp_env_required; [done|]. rewrite Hca. cbn [ok_or].
  apply awp_task_bind, awp_map_err. eapply awp_read_calm; [exact Hfile|]. cbn [Prelude.map_err].
  apply awp_task_bind, awp_env_or; [done|]. apply awp_task_bind, awp_env_or; [done|].
  apply awp_done; [done|]. by apply HQ.
Qed.
End first.

(** ** The whole boot *)

Section boot.
Context `{PkiLib, BuildProfile} {S : Type} `{DeviceStoreSpec S}.
Context (rt : RusqliteError -> string) (stx : Status -> string) (svc : Service).
Context (vars : string -> option string) (umask : Z) (sno tok : string).

Abbreviation W := (World (S := S)).
#[local] Instance here' : HandlerIn AgentEnv AgentE W := agent_handler rt stx svc vars umask.
Abbreviation path := (path vars).

(** The agent's variables are set, and the CA certificate it ships with is
    there. *)
Record configured (fleet : string) (w : W) := {
  cf_serial : vars "DEVICE_SERIAL" = Some sno;
  cf_token : vars "PROVISION_TOKEN" = Some tok;
  cf_ca : exists p ca, vars "FLEET_CA_CERT_PEM" = Some p /\ disk w !! p = Some ca;
  cf_provisioning : is_Some (vars "PROVISIONING_ADDR");
  cf_bootstrap : is_Some (vars "BOOTSTRAP_ADDR");
  cf_fleet : vars "FLEET_SERVICE_ADDR" = Some fleet
}.

Definition agent_files : list string :=
  ["device.key"; "device.pem"; "operational.key"; "operational.pem"; "fleet-ca-chain.pem"; "device-id"].

(** What a boot from [w0] has done when it comes online. *)
Definition online (fleet : string) (w0 : W) (r : outcome MainErr Online) (w : W) : Prop :=
  exists d key,
    r = Ok (mkOnline (id d) (operational_cert_pem d, key) fleet (default fleet (vars "OTA_SERVICE_ADDR"))) /\
    creds_of vars (disk w) = Some (id d, (operational_cert_pem d, key)) /\
    is_Some (disk w !! path "device.pem") /\
    devices (visible (service w)) = <[id d := d]> (devices (visible (service w0))) /\
    DeviceStore.serial d = sno /\ status d = "active" /\
    is_claimed sno (visible (service w)) /\ Admission.is_provisioned sno (visible (service w)) /\
    (forall name, name ∈ ["device.key"; "operational.key"] -> disk w0 !! path name = None ->
       mode <$> disk w !! path name = Some (Z.ldiff Csr.owner_only umask)) /\
    (forall p, p ∉ path <$> agent_files -> disk w !! p = disk w0 !! p).

Lemma worlds_online fleet w0 w1 w d cert key i :
  provisioned_world svc vars umask sno w0 w1 -> enrolled_world vars umask sno w1 w d ->
  disk w !! path "operational.pem" = Some cert -> disk w !! path "operational.key" = Some key ->
  disk w !! path "device-id" = Some i ->
  online fleet w0 (Ok (mkOnline (contents i) (contents cert, contents key) fleet
                     (default fleet (vars "OTA_SERVICE_ADDR")))) w.
Proof.
  intros (k & dcert & certs & Hd1 & _ & _ & _ & _ & Hdevs1 & _ & Hprov)
    (k2 & chain & Hd & _ & Hdevs & Hser & Hst & Hcl & Hman) Hcert Hkey Hi.
  assert (contents cert = operational_cert_pem d) as Ec.
  { rewrite Hd, !put_file_ne in Hcert by (by apply path_ne).
    unfold put_file in Hcert at 1. rewrite lookup_insert_eq in Hcert. by simplify_eq. }
  assert (contents i = id d) as Ei.
  { rewrite Hd in Hi. unfold put_file in Hi at 1. rewrite lookup_insert_eq in Hi. by simplify_eq. }
  exists d, (contents key). rewrite Ec, Ei. split; [done|].
  split; [unfold creds_of; rewrite Hcert, Hkey, Hi; cbn; by rewrite Ec, Ei|].
  split.
  { rewrite Hd, !put_file_ne, Hd1 by (by apply path_ne). unfold put_file at 1.
    rewrite lookup_insert_eq. by eexists. }
  split; [by rewrite Hdevs, Hdevs1|]. split; [done|]. split; [done|]. split; [done|].
  split; [unfold Admission.is_provisioned in *; by rewrite Hman|]. split.
  - intros name Hname Hnew. rewrite Hd. rewrite !elem_of_cons in Hname.
    destruct Hname as [->|[->|[]%not_elem_of_nil]].
    + rewrite !put_file_ne, Hd1, put_file_ne by (by apply path_ne).
      unfold put_file. by rewrite lookup_insert_eq, Hnew.
    + rewrite !put_file_ne by (by apply path_ne). unfold put_file at 1.
      rewrite lookup_insert_eq, Hd1, !put_file_ne, Hnew by (by apply path_ne). done.
  - intros p Hp. rewrite Hd, !put_file_ne, Hd1, !put_file_ne; [done|set_solver..].
Qed.

(** C3: the first boot brings a factory-fresh device online.  When nothing
    fails, the agent's variables are set, the service's CAs issue certificates
    that name the subject of the request and verify, and the serial is in the
    factory manifest with its token unused, [main] runs through all three
    phases: the token is spent, the serial is claimed, the service has one new
    device, active and of this serial, and the agent comes online with that
    device's id and certificate, which are also on its disk, so that later
    boots need no phase 1 or 2.  Private keys that the boot creates are
    readable by their owner only, and no other file changes. *)
Theorem first_boot row fleet envs w :
  factory_fresh vars sno tok w row -> configured fleet w ->
  fair_weather svc sno (fun env => exists n, env = envs n) ->
  (forall n, devices (visible (service w)) !! fresh_uuid (service_env (envs n)) = None) ->
  online fleet w (Async.run agent_main envs w).1 (Async.run agent_main envs w).2.
Proof.
  intros Hff Hcf fair Hfresh. destruct (cf_ca _ _ Hcf) as (ca_path & ca & Hca & Hfile).
  apply (awp_run (fun env => exists n, env = envs n) agent_main (fun _ => True)); [by eauto|].
  apply awp_task_bind. eapply configure_calm; [done|apply Hcf|exact Hca|exact Hfile|].
  intros m Hdir Hser. apply awp_task_bind.
  eapply phase1_calm; [done|done|done|done|apply Hcf|apply Hcf|]. intros w1 Hw1.
  apply awp_task_bind. eapply phase2_calm; [done|done|done|done|done|apply Hcf| |].
  { intros env [n ->]. apply Hfresh. }
  intros w2 d Hw2. assert (Hw2' := Hw2). destruct Hw2' as (k & chain & Hd & _).
  assert (is_Some (disk w2 !! path "operational.pem")) as [cert Hcert].
  { rewrite Hd, !put_file_ne by (by apply path_ne). unfold put_file at 1. rewrite lookup_insert_eq. by eexists. }
  assert (is_Some (disk w2 !! path "operational.key")) as [key Hkey].
  { rewrite Hd, !put_file_ne by (by apply path_ne). unfold put_file at 1. rewrite lookup_insert_eq. by eexists. }
  assert (is_Some (disk w2 !! path "device-id")) as [i Hi].
  { rewrite Hd. unfold put_file at 1. rewrite lookup_insert_eq. by eexists. }
  eapply phase3_calm; [done|done|exact Hcert|exact Hkey|exact Hi|apply Hcf|].
  by eapply worlds_online.
Qed.
End boot.
