(* ===== verification/Impersonation.v ===== *)
(** * Whose certificate a token buys

    The provisioning handler checks the token of the serial that a request
    names, but signs the certificate request as it comes, whatever name it
    carries; and enrollment goes by the name in the certificate.  So a token
    for one serial admits a device under another. *)

From S2P Require Import Prelude Sqlite Async Pki DeviceStore DeviceStoreSpec Grpc DmsEffects.
From S2P Require Import Enrollment Provisioning Heartbeat DmsServer RustStr DmsMain Admission Lockout.
From S2P Require FirstBoot.

Section impersonation.
Context `{PkiLib, BuildProfile} {S : Type} `{DeviceStoreSpec S}.
Context (rt : RusqliteError -> string) (stx : Status -> string) (svc : Service).

(** A certificate request that names [victim]: signed by the Device CA at
    [now], it becomes a certificate with that common name that verifies against
    the Device CA. *)
Definition names (victim csr_pem : string) (now : Z) (cert : string) (certs : list CertificateDer) : Prop :=
  Csr.sign_csr now csr_pem (device_ca_cert_pem (provisioning_svc svc))
    (device_ca_key_pem (provisioning_svc svc)) 365 = Ok cert /\
  Mtls.certs_from_pem cert = Ok certs /\ Mtls.extract_serial certs = Ok victim /\
  Mtls.verify_signed_by certs (device_ca_pem (bootstrap_svc svc)) = Ok tt.

(** Waiting for its first enrollment. *)
Definition waiting (sno : string) (t : Tables) : Prop :=
  (exists row, pre_enrollment t !! sno = Some row /\ claimed row = 0%Z) /\
  device_with_serial sno t = None.

Lemma claim_entry_devices env serial tok t :
  devices (spec env (ClaimManifestEntry serial tok) t).2 = devices t.
Proof. cbn. repeat case_match; done. Qed.

(** Spending one token leaves the other serials waiting. *)
Lemma waiting_after_claim env serial tok sno t :
  serial <> sno -> waiting sno t -> waiting sno (spec env (ClaimManifestEntry serial tok) t).2.
Proof.
  intros Hne [Hrow Hd]. split.
  - cbn. destruct (factory_manifest t !! serial) as [m|]; [|done].
    repeat (case_decide; [done|]).
    destruct (pre_enrollment t !! serial); cbn; [done|]. by rewrite lookup_insert_ne.
  - unfold device_with_serial, device_rows in *. by rewrite claim_entry_devices.
Qed.

(** C5: a manufacturing token for one serial enrolls another.  Whoever holds the
    unused token of [mine] can send a certificate request that names [victim],
    a device that waits for its first enrollment.  Without faults, the provisioning
    port answers with a device certificate for [victim]; on the bootstrap port
    that certificate enrolls, under a certificate request of the holder's
    choice; the fleet now stores [victim] as the holder's device, and no
    enrollment of the real device ever succeeds, in any interleaving and across
    restarts. *)
Theorem token_enrolls_another (manifest : option string) mine victim tok row csr cert certs csr2 op firmware
    env1 env2 (s : S) :
  healthy s -> no_fault env1 -> no_fault env2 ->
  mine <> victim -> mine <> "" -> tok <> "" -> csr <> "" ->
  factory_manifest (visible s) !! mine = Some row -> m_token row = tok -> provisioned_at row = None ->
  waiting victim (visible s) -> devices (visible s) !! fresh_uuid env2 = None ->
  names victim csr (clock env1) cert certs ->
  sign (enrollment (bootstrap_svc svc)) (clock env2) csr2 = Ok op ->
  let enroll := (BootstrapPort, BootstrapEnroll (Some certs) (mkBootstrapReq csr2 "" firmware ∅ victim)) in
  let provisioned := Async.run (serve rt stx svc (ProvisioningPort, ProvisionDevice (mkProvisionReq mine csr tok)))
                       (fun _ => env1) s in
  let enrolled := Async.run (serve rt stx svc enroll) (fun _ => env2) provisioned.2 in
  provisioned.1 = Ok (ProvisionReply (mkProvisionResp cert)) /\
  enrolled_as victim enroll enrolled.1 /\
  (exists d, devices (visible enrolled.2) !! fresh_uuid env2 = Some d /\
     DeviceStore.serial d = victim /\ DeviceStore.operational_cert_pem d = op) /\
  forall p, reachable (F := DmsE) (serve rt stx svc) (process_restart manifest) enrolled.2 p ->
    forall i j r, (i, j, r) ∈ replies p -> ~ enrolled_as victim j r.
Proof.
  intros Hs Hf1 Hf2 Hne Hn1 Hn2 Hn3 Hrow Htok Hprov Hwait Hid (Hsign & Hcerts & Hcn & Hver) Hsign2 enroll.
  destruct (FirstBoot.provision_calm rt stx svc env1 s (mkProvisionReq mine csr tok) row cert)
    as (s1 & Hr1 & Hs1 & Hv1); [done..|].
  cbn [pd_serial pd_provision_token] in Hv1. rewrite Hr1. cbn zeta. cbn [fst snd].
  apply (waiting_after_claim env1 mine tok) in Hwait; [|done].
  rewrite <- (claim_entry_devices env1 mine tok) in Hid. rewrite <- Hv1 in Hwait, Hid.
  destruct Hwait as [(prow & Hpre & Hcl) Hdev].
  destruct (FirstBoot.enroll_calm rt stx svc env2 s1 certs (mkBootstrapReq csr2 "" firmware ∅ victim) victim prow op)
    as (s2 & chain & exp & Hr2 & Hs2 & Hv2); [done..|].
  unfold enroll. rewrite Hr2. cbn [fst snd]. split; [done|]. split; [by repeat eexists|]. split.
  - eexists. rewrite Hv2. cbn. rewrite lookup_insert_eq. done.
  - intros p. apply claimed_forever. rewrite healthy_on_disk, Hv2 by done.
    eexists. cbn. by rewrite lookup_insert_eq.
Qed.
End impersonation.
