(* ===== verification/LoopClaims.v ===== *)
(** * The agent's periodic work

    The backoff of the loops that reconnect, the readings of a heartbeat, and
    the acknowledgement of telemetry frames. *)

From Stdlib Require Import Reals Lra.
From S2P Require Import Prelude F64 F64Bounds Sqlite Async Pki Grpc RustStr AgentBoot AgentOta.
From S2P Require Import AgentHeartbeat.
From S2P Require Import DmsTelemetry.

(** ** Reconnecting *)

Definition backoff_after (n : nat) : Z := Z.min (2 ^ Z.of_nat n) MAX_BACKOFF.

Lemma backoff_next n : Z.min (backoff_after n * 2) MAX_BACKOFF = backoff_after (S n).
Proof.
  unfold backoff_after, MAX_BACKOFF. rewrite Nat2Z.inj_succ, Z.pow_succ_r by lia.
  pose proof (Z.pow_pos_nonneg 2 (Z.of_nat n)). lia.
Qed.

(** The first [n] waits of a loop whose streams fail, in milliseconds. *)
Definition waits (n : nat) : list Z := (fun i => backoff_after i * 1000)%Z <$> seq 0 n.

(** A loop whose streams keep failing in the states of [I] never returns, and
    sleeps a bounded time after each; [slept] are the sleeps so far. *)
Lemma reconnecting_fails {En W} {F : Type -> Type} `{!HandlerIn En F W} (sleep : Z -> F unit) (slept : W -> list Z)
    (I : W -> Prop) (good : En -> Prop) stream n k envs w :
  (forall envs w, (forall i, good (envs i)) -> I w ->
     exists e w', Async.run stream envs w = (Err e, w') /\ slept w' = slept w /\ I w') ->
  (forall env w ms, I w -> exists w', Async.handle env (sleep ms) w = (tt, w') /\ I w' /\
     slept w' = slept w ++ [ms]) ->
  (forall i, good (envs i)) -> I w ->
  exists w', Async.run (reconnecting sleep stream n (backoff_after k)) envs w = (None, w') /\ I w' /\
    slept w' = slept w ++ ((fun i => backoff_after i * 1000)%Z <$> seq k n).
Proof.
  intros Hfail Hsleep. revert k envs w. induction n as [|n IH]; intros k envs w Hg Hw.
  { exists w. split; [done|]. split; [done|]. by rewrite app_nil_r. }
  cbn [reconnecting].
  match goal with |- context [async_bind ?t ?f] => destruct (run_bind t f envs w) as [m Hm] end.
  destruct (Hfail envs w Hg Hw) as (e & w1 & Hrun & Hs1 & Hw1). rewrite Hm, Hrun. cbn.
  destruct (Hsleep (envs (m + 0)) w1 (backoff_after k * 1000)%Z Hw1) as (w2 & -> & Hw2 & Hs2).
  rewrite backoff_next. destruct (IH (Datatypes.S k) (fun i => envs (m + Datatypes.S i)) w2)
    as (w3 & Hrun3 & Hw3 & Hs3); [intros i; apply Hg|done|].
  exists w3. split; [exact Hrun3|]. split; [done|]. rewrite Hs3, Hs2, Hs1. cbn. by rewrite <- app_assoc.
Qed.

(** ** Readings *)

Section readings.
Context `{BuildProfile}.

(** Texts are not evaluated in these proofs. *)
#[local] Strategy opaque [lines split_whitespace parse_u64 f64_of_Z f64_div f64_mul f64_sub].

Definition sum_Z (l : list Z) : Z := foldr Z.add 0%Z l.
Definition cpu_numbers (stat : string) : list Z :=
  omap parse_u64 (drop 1 (split_whitespace (default "" (head (lines stat))))).

Lemma parse_u64_bounds s n : parse_u64 s = Some n -> (0 <= n <= u64_max)%Z.
Proof using Type. intros Hs. apply (parse_unsigned_bounds _ s n); [done|exact Hs]. Qed.

Lemma cpu_numbers_nonneg stat : Forall (fun n => 0 <= n)%Z (cpu_numbers stat).
Proof using Type.
  unfold cpu_numbers. generalize (drop 1 (split_whitespace (default "" (head (lines stat))))) as l.
  intros l. apply Forall_forall. intros n Hn. apply list_elem_of_omap in Hn as (s & _ & Hs).
  exact (proj1 (parse_u64_bounds s n Hs)).
Qed.

Lemma sum_Z_nonneg l : Forall (fun n => 0 <= n)%Z l -> (0 <= sum_Z l)%Z.
Proof using Type. induction 1; cbn; [lia|unfold sum_Z in *; lia]. Qed.

Lemma sum_Z_elem l n : Forall (fun n => 0 <= n)%Z l -> n ∈ l -> (n <= sum_Z l)%Z.
Proof using Type.
  induction 1 as [|m l Hm Hl IH]; [by intros ?%not_elem_of_nil|].
  intros [->|Hn]%elem_of_cons; cbn; [apply sum_Z_nonneg in Hl|specialize (IH Hn)]; unfold sum_Z in *; lia.
Qed.

Lemma sum_u64_exact l acc :
  Forall (fun n => 0 <= n)%Z l -> (0 <= acc)%Z -> (acc + sum_Z l <= u64_max)%Z ->
  foldl (fun acc x => a ← acc; u64_arith (a + x)) (Ok acc : outcome unit Z) l = Ok (acc + sum_Z l)%Z.
Proof using Type.
  revert acc. induction l as [|x l IH]; cbn; intros acc Hl Hacc Hmax; [f_equal; lia|].
  apply Forall_cons in Hl as [Hx Hl]. pose proof (sum_Z_nonneg l Hl). unfold sum_Z in *.
  rewrite u64_arith_in by (unfold in_u64; lia). rewrite IH by (done || lia). f_equal. lia.
Qed.

Lemma meminfo_bounds ls acc :
  (0 <= acc.1 <= u64_max)%Z -> (0 <= acc.2 <= u64_max)%Z ->
  let '(total, available) := foldl meminfo_line acc ls in
  (0 <= total <= u64_max)%Z /\ (0 <= available <= u64_max)%Z.
Proof using Type.
  revert acc. induction ls as [|l ls IH]; intros [t a] Ht Ha; cbn; [done|].
  assert (0 <= second_number l <= u64_max)%Z as Hn.
  { unfold second_number. destruct (_ ≫= _) as [n|] eqn:Hp; cbn; [|done].
    apply bind_Some in Hp as (s & _ & Hp). by apply parse_u64_bounds in Hp. }
  apply IH; unfold meminfo_line; by repeat case_match.
Qed.

(** C37: the readings of a heartbeat are percentages, as the doubles that
    are sent.  When the counters of the first line of [/proc/stat] add up to at
    most a [u64], the CPU reading is a double between 0 and 100 within [10^-13]
    of a hundred times the part of the sum that the fourth counter (idle)
    leaves, and 0.0 when there are fewer than four counters or all are 0.  The
    memory reading is a double between 0 and 100 within [10^-13] of a hundred
    times the part of the memory that is not available, and 0.0 when there is
    none.  When [/proc/meminfo] reports more memory available than there is,
    the subtraction panics in a debug build; in a release build it wraps, and
    the reading is at least 100, a hundred times the wrapped share up to a
    relative error of [10^-15]. *)
Theorem readings_are_shares stat info total available
    (nums := cpu_numbers stat) (sum := sum_Z nums) :
  (sum <= u64_max)%Z ->
  foldl meminfo_line (0, 0)%Z (lines info) = (total, available) ->
  (exists x, read_cpu_usage (Some stat) = Ok x /\
     match nums !! 3 with
     | Some idle =>
         if decide (sum = 0%Z) then x = f64_of_Z 0 else percentage x (1 - IZR idle / IZR sum)
     | None => x = f64_of_Z 0
     end) /\
  ((available <= total)%Z -> exists x, read_memory_usage (Some info) = Ok x /\
     if decide (total = 0%Z) then x = f64_of_Z 0
     else percentage x (IZR (total - available) / IZR total)) /\
  ((0 < total < available)%Z ->
     if overflow_checks then read_memory_usage (Some info) = Panic
     else exists x, read_memory_usage (Some info) = Ok x /\
       let wrapped := (100 * (IZR (2 ^ 64 + total - available) / IZR total))%R in
       finite x /\ (100 <= to_R x)%R /\ (Rabs (to_R x - wrapped) <= / 10 ^ 15 * wrapped)%R).
Proof.
  intros Hsum Hmem. pose proof (cpu_numbers_nonneg stat) as Hnn. fold nums in Hnn.
  pose proof (meminfo_bounds (lines info) (0, 0)%Z) as Hb. rewrite Hmem in Hb.
  destruct Hb as [Ht Ha]; [done..|]. split; [|split].
  - unfold read_cpu_usage. fold (cpu_numbers stat) nums. case_decide as Hlen.
    { eexists. split; [done|]. by rewrite lookup_ge_None_2 by lia. }
    destruct (lookup_lt_is_Some_2 nums 3) as [idle Hi]; [lia|]. rewrite Hi.
    unfold sum_u64. rewrite (sum_u64_exact _ 0) by (done || lia). cbn [mbind outcome_bind default].
    rewrite Z.add_0_l. fold sum. pose proof (sum_Z_nonneg _ Hnn) as Hs0. fold sum in Hs0.
    destruct (Z.eqb_spec sum 0) as [Hz|Hz]; eexists; (split; [done|]); case_decide; try done.
    assert (idle ∈ nums) as Hin by (by eapply list_elem_of_lookup_2).
    pose proof (sum_Z_elem _ _ Hnn Hin) as Hle. fold sum in Hle.
    rewrite Forall_forall in Hnn. specialize (Hnn idle Hin). apply percentage_of_rest; lia.
  - intros Hle. unfold read_memory_usage. rewrite Hmem.
    destruct (Z.eqb_spec total 0) as [Hz|Hz]; [eexists; split; [done|]; by case_decide|].
    rewrite u64_arith_in by (unfold in_u64, u64_max in *; lia).
    eexists. split; [done|]. case_decide; [done|]. apply percentage_of_counters; lia.
  - intros Hlt. unfold read_memory_usage. rewrite Hmem.
    destruct (Z.eqb_spec total 0) as [Hz|Hz]; [lia|]. unfold u64_arith.
    replace (in_u64 (total - available)) with false by (symmetry; unfold in_u64; lia).
    destruct overflow_checks; [done|]. eexists. split; [done|].
    replace (wrap_u64 (total - available)) with (2 ^ 64 + total - available)%Z.
    2: { unfold wrap_u64, u64_max in *. rewrite <- (Z_mod_plus_full _ 1), Z.mod_small by lia. lia. }
    destruct (percent_of_counters (2 ^ 64 + total - available) total) as (Hf & _ & _ & H100 & He);
      [unfold u64_max in *; lia..|].
    split; [exact Hf|]. split; [apply H100; unfold u64_max in *; lia|]. etrans; [exact He|].
    apply Rmult_le_compat_r; [|rewrite half_ulp_value, ten_pow_15; lra].
    apply Rmult_le_pos; [lra|]. apply Rlt_le, Rdiv_lt_0_compat; apply IZR_lt; unfold u64_max in *; lia.
Qed.
End readings.

(** ** Acknowledging telemetry *)

Section acks.
Context `{BuildProfile} (status_text : Status -> string).
#[local] Existing Instance ack_handler.

(** The acknowledgements of frames [n + 1] to [n + k]. *)
Definition acks_from (n : Z) (k : nat) : list (outcome Status TelemetryAck) :=
  (fun i => Ok (mkTelemetryAck (n + 1 + Z.of_nat i) false)) <$> seq 0 k.

Definition stream_end (stream_rest : list (TelemetryFrame + Status)) : list (outcome Status TelemetryAck) :=
  match stream_rest with
  | inr e :: _ => [Err (mkStatus Internal (status_text e))]
  | _ => []
  end.

Lemma acks_from_S n k :
  acks_from n (S k) = Ok (mkTelemetryAck (n + 1) false) :: acks_from (n + 1) k.
Proof using Type.
  unfold acks_from. cbn. rewrite Z.add_0_r. f_equal. rewrite <- fmap_S_seq, <- list_fmap_compose.
  apply list_fmap_ext. intros i x _. cbn. do 2 f_equal. lia.
Qed.

Lemma stream_telemetry_acks n frames rest envs log :
  (forall i, peer_alive (envs i) = true) ->
  (0 <= n)%Z -> (n + Z.of_nat (length frames) <= u64_max)%Z ->
  match rest with inl _ :: _ => False | _ => True end ->
  (Async.run (stream_telemetry status_text n ((inl <$> frames) ++ rest)) envs log).2 =
  log ++ acks_from n (length frames) ++ stream_end rest.
Proof using Type.
  revert n envs log. induction frames as [|f frames IH]; intros n envs log Hal Hn Hmax Hrest.
  - destruct rest as [|[|e] rest]; cbn; [by rewrite app_nil_r|done|]. by rewrite Hal.
  - cbn [fmap list_fmap app stream_telemetry length] in *.
    unfold acknowledge. rewrite acks_from_S, u64_arith_in by (unfold in_u64; lia). cbn. rewrite Hal.
    rewrite IH by (done || lia). by rewrite <- app_assoc.
Qed.

(** Telemetry frames are acknowledged in order.  While the client takes
    the answers, the server answers the [i]-th frame of a stream with the
    number [i], none of them is dropped or asks for a slower rate, and a stream
    that fails is answered with one [Internal] status and nothing more. *)
Lemma frames_acknowledged frames rest envs :
  (forall i, peer_alive (envs i) = true) ->
  (Z.of_nat (length frames) <= u64_max)%Z ->
  match rest with inl _ :: _ => False | _ => True end ->
  (Async.run (stream_telemetry status_text 0 ((inl <$> frames) ++ rest)) envs []).2 =
  acks_from 0 (length frames) ++ stream_end rest.
Proof. intros. by apply stream_telemetry_acks. Qed.
End acks.
