(* ===== verification/AgentOtaClaims.v ===== *)
(** * What the agent installs and acknowledges

    The update loop in a host that records what the agent does: downloads,
    archives written, archives unpacked, scripts run, acknowledgements sent. *)

From Stdlib Require Import Init.Byte.
From S2P Require Import Prelude Sqlite Async Pki Grpc AgentBoot AgentOta LoopClaims.

#[local] Arguments awp : simpl never.

(** ** The host *)

(** What an effect answers, if it is of this kind: an error, or a result. *)
Record OtaEnv := mkOtaEnv {
  tmp_dir : string + string;
  http : string + unit;
  body : string + list byte;
  file_io : string + unit;
  tar : string + bool;
  present : bool;
  script : string + option Z;
  watch_reply : Status + list (UpdateCommand + Status);
  ack_reply : Status + unit
}.

Inductive event :=
| Fetched (url : string)
| Archived (path : string) (bytes : list byte)
| Extracted (archive dir : string)
| RanScript (path : string) (status : string + option Z)
| Streamed (items : list (UpdateCommand + Status))
| Acked (req : AckUpdateRequest)
| Slept (ms : Z).

Definition answer {E A} (r : E + A) : outcome E A :=
  match r with inl e => Err e | inr a => Ok a end.

#[export] Instance ota_host : HandlerIn OtaEnv OtaAgentE (list event) :=
  fun X env e log =>
    match e in OtaAgentE X return X * list event with
    | TempDir => (answer (tmp_dir env), log)
    | HttpGet url => (answer (http env), log ++ [Fetched url])
    | BodyBytes => (answer (body env), log)
    | WriteBytes path bytes =>
        (answer (file_io env), match file_io env with inr _ => log ++ [Archived path bytes] | _ => log end)
    | MakeDirs _ => (answer (file_io env), log)
    | RunTar archive dir => (answer (tar env), log ++ [Extracted archive dir])
    | FileExists _ => (present env, log)
    | RunScript path => (answer (script env), log ++ [RanScript path (script env)])
    | WatchUpdatesRpc _ =>
        (answer (watch_reply env), match watch_reply env with inr items => log ++ [Streamed items] | _ => log end)
    | AckUpdateRpc req => (answer (ack_reply env), log ++ [Acked req])
    | OtaSleepMs ms => (tt, log ++ [Slept ms])
    end.

(** ** One update *)

Section updates.
Context `{Sha256Lib}.

(** What an update that runs to the end does. *)
Definition install_log (url dir : string) (bytes : list byte) (status : string + option Z) : list event :=
  [Fetched url; Archived (join dir "artifact.tar.gz") bytes;
   Extracted (join dir "artifact.tar.gz") (join dir "staging");
   RanScript (join (join dir "staging") "install.sh") status].

(** [l] is what an update to [url] with digest [sha] did, and [r] how it
    ended. *)
Definition attempt (url sha : string) (r : outcome AgentErr.Error unit) (l : list event) : Prop :=
  exists dir bytes status,
    l `prefix_of` install_log url dir bytes status /\
    (1 < length l -> sha = "" \/ sha256_hex bytes = sha) /\
    (r = Ok tt <-> l = install_log url dir bytes status /\ status = inr (Some 0%Z)) /\
    (forall x a, r = Err (AgentErr.Checksum x a) ->
       x = sha /\ a = sha256_hex bytes /\ sha <> "" /\ a <> sha /\ l = [Fetched url]) /\
    r <> Panic.

Lemma attempt_stopped url sha dir bytes status e l :
  l `prefix_of` install_log url dir bytes status ->
  (1 < length l -> sha = "" \/ sha256_hex bytes = sha) ->
  l <> install_log url dir bytes status \/ status <> inr (Some 0%Z) ->
  (forall x a, e <> AgentErr.Checksum x a) ->
  attempt url sha (Err e) l.
Proof.
  intros Hp Hv Hne He. exists dir, bytes, status. split; [done|]. split; [done|].
  split; [naive_solver|]. split; [|done]. intros x a [= ->]. by destruct (He x a).
Qed.

Lemma attempt_refused (dir url sha : string) (bytes : list byte) :
  sha <> "" /\ sha256_hex bytes <> sha ->
  attempt url sha (Err (AgentErr.Checksum sha (sha256_hex bytes))) [Fetched url].
Proof.
  intros [Hne Hsha]. exists dir, bytes, (inl ""). split; [by eexists|]. cbn. split; [lia|].
  split; [naive_solver|]. split; [|done]. by intros x a [= <- <-].
Qed.

Context (int_text : Z -> string) (error_text : AgentErr.Error -> string).

Abbreviation any := (fun _ : OtaEnv => True).
Abbreviation always := (fun _ : list event => True).

(** An effect and its answer. *)
Lemma awp_effect {E X} (e : OtaAgentE (outcome E X)) (Q : outcome E X -> list event -> Prop) log :
  (forall env, let '(x, log') := Async.handle env e log in Q x log') ->
  awp any (call e) always Q log.
Proof using Type.
  intros HQ. apply awp_trigger; [done|]. intros env x log' _ Hh. split; [done|].
  specialize (HQ env). by rewrite Hh in HQ.
Qed.

Lemma awp_io {X} (e : OtaAgentE (outcome string X)) (Q : outcome AgentErr.Error X -> list event -> Prop) log :
  (forall env, let '(x, log') := Async.handle env e log in Q (Prelude.map_err AgentErr.Io x) log') ->
  awp any (io e) always Q log.
Proof using Type. intros HQ. by apply awp_map_err, awp_effect. Qed.

Ltac host :=
  cbn [Async.handle ota_host answer Prelude.map_err negb]; rewrite <- ?app_assoc; cbn [app].
(** The log is a strict prefix of that of an update that runs to the end. *)
Ltac stopped :=
  try (by eexists); try (by left); try done; try (cbn; lia).

Lemma awp_apply_update url sha (Q : outcome AgentErr.Error unit -> list event -> Prop) log :
  (forall r l, attempt url sha r l -> Q r (log ++ l)) ->
  awp any (apply_update int_text url sha) always Q log.
Proof using Type.
  intros HQ.
  assert (forall l dir bytes status e,
    l `prefix_of` install_log url dir bytes status ->
    (1 < length l -> sha = "" \/ sha256_hex bytes = sha) ->
    l <> install_log url dir bytes status \/ status <> inr (Some 0%Z) ->
    (forall x a, e <> AgentErr.Checksum x a) -> Q (Err e) (log ++ l)) as stop.
  { intros. apply HQ. by eapply attempt_stopped. }
  apply awp_task_bind, awp_io. intros env. host.
  destruct (tmp_dir env) as [e|dir]; host.
  { rewrite <- (app_nil_r log). apply (stop [] "" [] (inl "")); stopped. }
  apply awp_task_bind, awp_map_err, awp_effect. clear env. intros env. host.
  destruct (http env) as [e|[]]; host.
  { apply (stop [_] dir [] (inl "")); stopped. }
  apply awp_task_bind, awp_map_err, awp_effect. clear env. intros env. host.
  destruct (body env) as [e|bytes]; host.
  { apply (stop [_] dir [] (inl "")); stopped. }
  destruct (dec (sha <> "" /\ sha256_hex bytes <> sha)) eqn:Hsha.
  { apply bool_decide_eq_true in Hsha. apply awp_done; [done|]. by apply HQ, (attempt_refused dir). }
  apply bool_decide_eq_false in Hsha.
  assert (sha = "" \/ sha256_hex bytes = sha) as Hok
    by (destruct (decide (sha = "")); [by left|right; by destruct (decide (sha256_hex bytes = sha)); [|tauto]]).
  apply awp_task_bind, awp_io. clear env. intros env. host.
  destruct (file_io env) as [e|[]]; host.
  { apply (stop [_] dir bytes (inl "")); stopped. }
  apply awp_task_bind, awp_io. clear env. intros env. host.
  destruct (file_io env) as [e|[]]; host.
  { apply (stop [_; _] dir bytes (inl "")); stopped. }
  apply awp_task_bind, awp_io. clear env. intros env. host.
  destruct (tar env) as [e|[]]; host.
  { apply (stop [_; _; _] dir bytes (inl "")); stopped. }
  2: { apply awp_done; [done|]. apply (stop [_; _; _] dir bytes (inl "")); stopped. }
  apply awp_task_bind, awp_get; [done|]. clear env. intros env x log' _ [= <- <-]. split; [done|].
  destruct (present env); host.
  2: { apply awp_done; [done|]. apply (stop [_; _; _] dir bytes (inl "")); stopped. }
  apply awp_task_bind, awp_io. clear env. intros env. host.
  destruct (script env) as [e|status]; host.
  { apply (stop [_; _; _; _] dir bytes (inl e)); stopped. by right. }
  destruct (decide (status = Some 0%Z)) as [->|Hst].
  - rewrite bool_decide_true by done. apply awp_done; [done|]. apply HQ.
    exists dir, bytes, (inr (Some 0%Z)). by split.
  - rewrite bool_decide_false by done. apply awp_done; [done|].
    apply (stop [_; _; _; _] dir bytes (inr status)); stopped. right. congruence.
Qed.

(** C15: an update runs only what it was told to run.  Whatever the host and the
    network answer, [apply_update] downloads, stores, unpacks and runs in this
    order and stops at the first failure; nothing is stored, unpacked or run
    unless the digest of the downloaded bytes is the expected one, or none is
    expected; it succeeds exactly if [install.sh] was run and exited with 0;
    and a digest that differs is reported, after the download only. *)
Theorem update_verified url sha envs :
  let '(r, l) := Async.run (apply_update int_text url sha) envs [] in attempt url sha r l.
Proof.
  pose proof (awp_run any (apply_update int_text url sha) always (attempt url sha) envs []) as Hrun.
  destruct (Async.run _ _ _) as [r l]. apply Hrun; [done|]. by apply awp_apply_update.
Qed.

(** ** A stream of commands *)

(** What the agent does for commands that it handles: each is tried, and then
    acknowledged once with the outcome. *)
Inductive session (device_id : string) : list UpdateCommand -> list event -> Prop :=
| session_nil : session device_id [] []
| session_cons cmd cmds r l l' :
    attempt (uc_artifact_url cmd) (uc_sha256 cmd) r l ->
    session device_id cmds l' ->
    session device_id (cmd :: cmds) (l ++ Acked (ack_of error_text device_id cmd r) :: l').

Lemma awp_handle_commands device_id stream (Q : outcome AgentErr.Error unit -> list event -> Prop) log :
  (forall r cmds l, session device_id cmds l -> (inl <$> cmds) `prefix_of` stream ->
     (r = Ok tt -> stream = inl <$> cmds) -> r <> Panic -> Q r (log ++ l)) ->
  awp any (handle_commands int_text error_text device_id stream) always Q log.
Proof using Type.
  revert log Q. induction stream as [|[cmd|s] stream IH]; intros log Q HQ.
  - apply awp_done; [done|]. rewrite <- (app_nil_r log). apply (HQ _ []); try done. constructor.
  - apply awp_bind. apply awp_apply_update. intros r l Hl.
    assert (r <> Panic) as Hr by (by destruct Hl as (? & ? & ? & _ & _ & _ & _ & ?)).
    assert (awp any (_ ← task_map_err AgentErr.Grpc (call (AckUpdateRpc (ack_of error_text device_id cmd r)));
                     handle_commands int_text error_text device_id stream) always Q (log ++ l)) as Hack.
    { apply awp_task_bind, awp_map_err, awp_effect. intros env.
      cbn [Async.handle ota_host answer Prelude.map_err]. rewrite <- app_assoc.
      destruct (ack_reply env) as [e|[]]; cbn [answer Prelude.map_err].
      - apply (HQ (Err (AgentErr.Grpc e)) [cmd] (l ++ [_])); [by repeat constructor| |done..]. by eexists.
      - apply IH. intros r' cmds l' Hs Hp Hok Hnp. rewrite <- !app_assoc.
        apply (HQ r' (cmd :: cmds)); [by constructor| |by intros ->%Hok|done].
        by apply prefix_cons. }
    by destruct r.
  - apply awp_done; [done|]. rewrite <- (app_nil_r log). apply (HQ _ []); try done; [constructor|].
    apply prefix_nil.
Qed.

(** What the agent does for one stream: nothing if the service refuses it, and
    otherwise it tries and acknowledges the first commands of the stream, in
    order; these are all its commands if the stream ends well. *)
Inductive one_stream (device_id : string) : outcome AgentErr.Error unit -> list event -> Prop :=
| stream_refused s : one_stream device_id (Err (AgentErr.Grpc s)) []
| stream_served items cmds r l :
    session device_id cmds l -> (inl <$> cmds) `prefix_of` items ->
    (r = Ok tt -> items = inl <$> cmds) -> r <> Panic ->
    one_stream device_id r (Streamed items :: l).

Lemma awp_run_stream device_id (Q : outcome AgentErr.Error unit -> list event -> Prop) log :
  (forall r l, one_stream device_id r l -> Q r (log ++ l)) ->
  awp any (run_stream int_text error_text device_id) always Q log.
Proof using Type.
  intros HQ. apply awp_task_bind, awp_map_err, awp_effect. intros env.
  cbn [Async.handle ota_host answer Prelude.map_err].
  destruct (watch_reply env) as [s|items]; cbn [answer Prelude.map_err].
  - rewrite <- (app_nil_r log). apply HQ. constructor.
  - apply awp_handle_commands. intros r cmds l Hs Hp Hok Hnp. rewrite <- app_assoc. apply HQ.
    by econstructor.
Qed.

(** What the update loop does from its [k]-th failure on: streams that fail,
    each followed by its wait, until one ends well. *)
Inductive turns (device_id : string) : nat -> option (outcome AgentErr.Error unit) -> list event -> Prop :=
| turns_go_on k : turns device_id k None []
| turns_failed k e l r l' :
    one_stream device_id (Err e) l -> turns device_id (S k) r l' ->
    turns device_id k r (l ++ Slept (backoff_after k * 1000) :: l')
| turns_ended k l :
    one_stream device_id (Ok tt) l -> turns device_id k (Some (Ok tt)) l.

Lemma awp_reconnecting device_id fuel k (Q : option (outcome AgentErr.Error unit) -> list event -> Prop) log :
  (forall r l, turns device_id k r l -> Q r (log ++ l)) ->
  awp any (reconnecting OtaSleepMs (run_stream int_text error_text device_id) fuel (backoff_after k)) always Q log.
Proof using Type.
  revert k Q log. induction fuel as [|fuel IH]; intros k Q log HQ.
  - apply awp_done; [done|]. rewrite <- (app_nil_r log). apply HQ. constructor.
  - apply awp_bind, awp_run_stream. intros r l Hl. destruct r as [[]|e|].
    + apply awp_done; [done|]. by apply HQ, turns_ended.
    + apply awp_bind, awp_trigger; [done|]. intros env [] log' _ [= <-]. split; [done|].
      rewrite backoff_next. apply IH. intros r l' Hl'. rewrite <- !app_assoc. apply HQ.
      by eapply turns_failed.
    + by inversion Hl.
Qed.

(** C24: every update command is tried once and answered once, over the life of
    the update loop.  Whatever the host and the network answer, and however
    many streams the loop opens: for each stream it tries and acknowledges the
    first commands in order, each acknowledgement naming the job and carrying
    the outcome of its own update; after a stream that fails it waits, twice as
    long as the time before and at most a minute; a stream that ends well was
    answered completely, and ends the loop.  The loop never panics. *)
Theorem commands_answered device_id fuel envs :
  let '(r, l) := Async.run (AgentOta.run int_text error_text device_id fuel) envs [] in
  turns device_id 0 r l.
Proof.
  pose proof (awp_run any (AgentOta.run int_text error_text device_id fuel) always
    (turns device_id 0) envs []) as Hrun.
  destruct (Async.run _ _ _) as [r l]. apply Hrun; [done|].
  by apply (awp_reconnecting device_id fuel 0).
Qed.
End updates.
