(* ===== verification/OtaCycle.v ===== *)
(** * The life of an update job

    The acknowledgement of a job on every branch, and the whole cycle of an
    update through the service and the agent: dispatched, streamed, tried,
    acknowledged, and the device free for the next one. *)

From S2P Require Import Prelude Sqlite Async Grpc OtaStore OtaDispatcher OtaServer OtaJobs OtaClaims OtaStreams.
From S2P Require Import AgentBoot AgentOta AgentOtaClaims.

Section acks.
Context `{SqlOrder, BuildProfile, BroadcastSpec UpdateCommand} (rt : RusqliteError -> string).

Lemma update_status_calm env i st error s :
  settled s -> poisoned s = false -> (forall x, sql_fault env x = NoFault) ->
  JobStore.update_status env i st error s =
    match live (guarded s) !! i with
    | Some row => (Ok tt, mkMutex (open_conn (<[i := acked_row env st error row]> (live (guarded s)))) false)
    | None => (Err (OtaErr.NotFound i), s)
    end.
Proof.
  intros Hs Hp Hf. destruct (JobStore.update_status env i st error s) as [r s'] eqn:Hrun.
  destruct (post_run _ _ _ _ _ Hrun (update_status_post env i st error s Hs)) as
    [Hs' [(_ & ? & _)|[Hp' Ho]]]; [congruence|].
  assert (~ faulty env) as Hnf by (intros [x Hx]; by rewrite Hf in Hx).
  destruct s as [[t sv] po], s' as [[t' sv'] po']. unfold settled in *. cbn in *. subst.
  destruct r as [[]|[j| |d|e|sst|]|]; cbn in Ho; try done.
  - by destruct Ho as (row & -> & ->).
  - by destruct Ho as (-> & -> & ->).
  - naive_solver.
Qed.

(** The status an acknowledgement sets. *)
Definition ack_status (req : AckUpdateRequest) : JobStatus.t :=
  if au_success req then JobStatus.Completed else JobStatus.Failed.

Lemma ack_calm req envs s :
  settled (ota_store s) -> poisoned (ota_store s) = false -> calm_envs envs ->
  let i := au_update_job_id req in
  let t := live (guarded (ota_store s)) in
  Async.run (ack_update rt req) envs s =
    match t !! i with
    | Some row =>
        (Ok (mkAckResp true),
         mkOta (mkMutex (open_conn (<[i := acked_row (envs 0) (ack_status req)
                  (non_empty (au_error_message req)) row]> t)) false) (dispatcher s))
    | None => (Err (mkStatus NotFound i), s)
    end.
Proof.
  intros Hs Hp Hcalm. cbn. rewrite update_status_calm by done.
  destruct (live (guarded (ota_store s)) !! _) as [row|]; cbn; [done|]. by destruct s.
Qed.

(** C29: what an acknowledgement does.  Without faults: a job that is not stored
    is [NotFound] and nothing changes; a stored job becomes completed or failed
    with the given error text, whatever its status was and whichever device
    the request names, and no other job and no stream changes. *)
Theorem ack_update_cases req envs s :
  settled (ota_store s) -> poisoned (ota_store s) = false -> calm_envs envs ->
  let i := au_update_job_id req in
  let t := live (guarded (ota_store s)) in
  let '(r, s') := Async.run (ack_update rt req) envs s in
  dispatcher s' = dispatcher s /\ settled (ota_store s') /\ poisoned (ota_store s') = false /\
  match t !! i with
  | None => r = Err (mkStatus NotFound i) /\ s' = s
  | Some row =>
      r = Ok (mkAckResp true) /\
      live (guarded (ota_store s')) =
        <[i := mkJobRow (r_device_id row) (r_target_version row) (r_artifact_url row) (r_sha256 row)
                 (r_size_bytes row) (JobStatus.as_str (ack_status req))
                 (non_empty (au_error_message req)) (r_created_at row) (sql_now (envs 0))]> t
  end.
Proof.
  intros Hs Hp Hcalm i t. rewrite ack_calm by done. fold i t.
  by destruct (t !! i) as [row|].
Qed.

(** ** The cycle *)

Lemma not_busy_acked (t : Jobs) i env st error row :
  one_active t -> t !! i = Some row -> active row ->
  st = JobStatus.Completed \/ st = JobStatus.Failed ->
  ~ busy (r_device_id row) (<[i := acked_row env st error row]> t).
Proof.
  intros Ht Hi Ha Hst (i' & r & Hr & Hd & Har).
  rewrite lookup_insert in Hr. case_decide as Hii.
  - simplify_eq. by destruct (terminal_not_active st (acked_row env st error row) Hst eq_refl).
  - destruct Hii. by apply (Ht i i' row r).
Qed.

Context `{Sha256Lib} (int_text : Z -> string) (error_text : AgentErr.Error -> string).

Definition acks_sent (l : list event) : list AckUpdateRequest :=
  omap (fun e => match e with Acked req => Some req | _ => None end) l.

Lemma attempt_no_ack url sha r l : attempt url sha r l -> acks_sent l = [].
Proof.
  intros (dir & bytes & status & [k Hk] & _).
  assert (acks_sent (install_log url dir bytes status) = []) as Hn by done.
  rewrite Hk in Hn. unfold acks_sent in *. rewrite omap_app in Hn.
  by apply app_eq_nil in Hn as [? _].
Qed.

(** The agent's side: a command it is streamed is acknowledged once. *)
Lemma one_command_acked device_id cmd hosts :
  exists r, acks_sent (Async.run (handle_commands int_text error_text device_id [inl cmd]) hosts []).2 =
    [ack_of error_text device_id cmd r] /\ r <> Panic.
Proof.
  apply (awp_run (fun _ => True) (handle_commands int_text error_text device_id [inl cmd]) (fun _ => True)
    (fun _ l => exists r, acks_sent l = [ack_of error_text device_id cmd r] /\ r <> Panic) hosts []); [done|].
  apply awp_bind, awp_apply_update. intros r l Hl.
  assert (r <> Panic) as Hr by (by destruct Hl as (? & ? & ? & _ & _ & _ & _ & ?)).
  apply attempt_no_ack in Hl.
  assert (forall q, acks_sent (([] ++ l) ++ [Acked q]) = [q]) as Hq.
  { intros q. unfold acks_sent in *. cbn. by rewrite omap_app, Hl. }
  destruct r as [[]|e|]; [| |done].
  all: apply awp_task_bind, awp_map_err, awp_effect; intros env; cbn [Async.handle ota_host answer map_err].
  all: destruct (ack_reply env); cbn [answer map_err]; [|apply awp_done; [done|]]; eexists; by rewrite Hq.
Qed.

(** Wrapping a reply does not change a run. *)
Lemma run_ota_reply {A} (f : A -> OtaReply) (t : Task OtaE Status A) envs s :
  Async.run (ota_reply f t) envs s =
    (let '(r, s') := Async.run t envs s in
     (match r with Ok a => Ok (f a) | Err e => Err e | Panic => Panic end, s')).
Proof.
  revert envs s. induction t as [r|X e k IH]; intros envs s; [by destruct r|].
  cbn. destruct (handle (envs 0) e s) as [x s']. apply IH.
Qed.

Lemma run_poll d rx envs s :
  Async.run (ota_serve rt (PollStream d rx)) envs s =
    (let '(item, m) := poll_recv d rx (dispatcher s) in
     (Ok (StreamItem (stream_item item)), mkOta (ota_store s) m)).
Proof. cbn. by destruct (poll_recv d rx (dispatcher s)). Qed.

#[local] Arguments ota_serve : simpl never.

(** A dispatch to an idle device with an open stream. *)
Lemma dispatch_calm req envs s :
  settled (ota_store s) -> poisoned (ota_store s) = false -> capacities (dispatcher s) ->
  calm_envs envs ->
  let i := fresh_uuid (envs 0) in
  let t := live (guarded (ota_store s)) in
  t !! i = None -> ~ busy (du_device_id req) t ->
  backlogs (du_device_id req) (dispatcher s) <> ∅ ->
  exists resp m, Async.run (dispatch_update rt req) envs s =
      (Ok resp, mkOta (mkMutex (open_conn (<[i := new_row (envs 0) (job_of req)]> t)) false) m) /\
    capacities m /\
    backlogs (du_device_id req) m =
      push CHANNEL_CAPACITY (mkCommand i (du_target_version req) "" "" 0 (du_apply_by req))
        <$> backlogs (du_device_id req) (dispatcher s).
Proof.
  intros Hs Hp Hcap Hcalm i t Hi Hb Hne. cbn.
  change (mkNewJob (du_device_id req) (du_target_version req) "" "" 0) with (job_of req).
  rewrite (create_job_calm (envs 0) (job_of req) (ota_store s)) by done. cbn.
  destruct (decide (busy _ _)) as [Hb'|_]; [by destruct Hb|]. cbn.
  destruct (dispatch _ _ _) as [r m] eqn:Hd.
  destruct (dispatch_spec _ _ _ _ _ Hd Hcap) as [Hcap' [(Hnone & _)|(_ & -> & Hbk & _)]]; [done|].
  cbn. eexists _, m. split; [done|]. by split.
Qed.

(** C17: the cycle of an update.  Without faults on the service, for an idle
    device with one stream that has nothing waiting: a dispatch succeeds; the
    stream yields its command; whatever happens on the robot, the agent
    answers the command with exactly one acknowledgement; the service accepts
    it, which leaves the job completed or failed as the agent reports it; and
    the device is idle again, so that the next dispatch succeeds. *)
Theorem update_cycle req next rx hosts e1 e2 e3 e4 s :
  store_inv (ota_store s) -> poisoned (ota_store s) = false -> capacities (dispatcher s) ->
  calm_envs e1 -> calm_envs e3 -> calm_envs e4 ->
  let d := du_device_id req in
  let i := fresh_uuid (e1 0) in
  live (guarded (ota_store s)) !! i = None ->
  live (guarded (ota_store s)) !! fresh_uuid (e4 0) = None -> fresh_uuid (e4 0) <> i ->
  ~ busy d (live (guarded (ota_store s))) ->
  backlogs d (dispatcher s) !! rx = Some (0, []) ->
  du_device_id next = d ->
  let '(r1, s1) := Async.run (ota_serve rt (DispatchUpdate req)) e1 s in
  let '(r2, s2) := Async.run (ota_serve rt (PollStream d rx)) e2 s1 in
  is_ok r1 = true /\
  exists cmd ack, r2 = Ok (StreamItem (Some cmd)) /\ uc_target_version cmd = du_target_version req /\
    acks_sent (Async.run (handle_commands int_text error_text d [inl cmd]) hosts []).2 = [ack] /\
    let '(r3, s3) := Async.run (ota_serve rt (AckUpdate ack)) e3 s2 in
    r3 = Ok (AckReply (mkAckResp true)) /\
    r_status <$> live (guarded (ota_store s3)) !! i = Some (JobStatus.as_str (ack_status ack)) /\
    ~ busy d (live (guarded (ota_store s3))) /\
    is_ok (Async.run (ota_serve rt (DispatchUpdate next)) e4 s3).1 = true.
Proof.
  intros [Hs Hone] Hp Hcap Hc1 Hc3 Hc4 d i Hi Hi' Hne Hidle Hrx Hnext.
  assert (backlogs d (dispatcher s) <> ∅) as Hsub by (intros E; by rewrite E, lookup_empty in Hrx).
  change (ota_serve rt (DispatchUpdate req)) with (ota_reply DispatchReply (dispatch_update rt req)).
  rewrite run_ota_reply.
  destruct (dispatch_calm req e1 s) as (resp & m1 & -> & Hcap1 & Hb1); try done.
  fold d i in Hb1 |- *. set (t1 := <[i := new_row (e1 0) (job_of req)]> (live (guarded (ota_store s)))).
  assert (backlogs d m1 !! rx = Some (0, [mkCommand i (du_target_version req) "" "" 0 (du_apply_by req)]))
    as Hrx1 by (by rewrite Hb1, lookup_fmap, Hrx).
  destruct (poll_same d rx m1 _ _ Hcap1 Hrx1) as (item & m2 & Hpoll & Hcap2 & -> & Hrx2).
  rewrite run_poll. cbn. rewrite Hpoll. cbn. split; [done|].
  set (cmd := mkCommand i _ _ _ _ _) in *.
  destruct (one_command_acked d cmd hosts) as (r & Hack & Hr).
  exists cmd, (ack_of error_text d cmd r). split; [done|]. split; [done|]. split; [done|].
  assert (au_update_job_id (ack_of error_text d cmd r) = i) as Eid by (by destruct r).
  set (ack := ack_of error_text d cmd r) in *.
  change (ota_serve rt (AckUpdate ack)) with (ota_reply AckReply (ack_update rt ack)).
  rewrite run_ota_reply, ack_calm by done. cbn. rewrite Eid. unfold t1 at 1.
  rewrite lookup_insert_eq. cbn.
  set (row := acked_row _ _ _ _).
  assert (one_active t1) as Hone1 by (by apply one_active_insert).
  assert (~ busy d (<[i := row]> t1)) as Hfree.
  { apply (not_busy_acked t1 i _ _ _ (new_row (e1 0) (job_of req))); [done| |by left|].
    - by apply lookup_insert_eq.
    - unfold ack_status. destruct (au_success ack); [by left|by right]. }
  split; [done|]. split; [by rewrite lookup_insert_eq|]. split; [done|].
  change (ota_serve rt (DispatchUpdate next)) with (ota_reply DispatchReply (dispatch_update rt next)).
  rewrite run_ota_reply.
  destruct (dispatch_calm next e4 (mkOta (mkMutex (open_conn (<[i := row]> t1)) false) m2))
    as (resp2 & m3 & -> & _); try done; cbn.
  - unfold t1. by rewrite !lookup_insert_ne.
  - by rewrite Hnext.
  - rewrite Hnext. intros E. by rewrite E, lookup_empty in Hrx2.
Qed.
End acks.
