(* ===== verification/CycleExamples.v ===== *)
(** * Worked examples of the cycle of an update *)

From Stdlib Require Import Init.Byte.
From S2P Require Import Prelude Sqlite Async Grpc OtaStore OtaDispatcher OtaServer OtaJobs.
From S2P Require Import AgentBoot AgentOta AgentOtaClaims OtaCycle OtaExamples ToyPki.

Section examples.
#[local] Instance release : BuildProfile := false.
#[local] Existing Instance stable_order.
#[local] Instance queues : BroadcastLib UpdateCommand := queue_broadcast UpdateCommand.
#[local] Instance queues_spec : BroadcastSpec UpdateCommand := queue_broadcast_spec UpdateCommand.
(** A digest that names the length of the text. *)
#[local] Instance digest : Sha256Lib := fun bytes => if decide (bytes = []) then "empty" else "data".

Definition calm (uuid : string) (_ : nat) : Env := toy_env 100 uuid.

(** A robot on which everything works, and one that cannot download. *)
Definition good_host (_ : nat) : OtaEnv :=
  mkOtaEnv (inr "/tmp/x") (inr tt) (inr [x00]) (inr tt) (inr true) true (inr (Some 0%Z)) (inr []) (inr tt).

Definition connected : OtaState := mkOta (JobStore.new ∅) (subscribe "dev-1" ∅).2.

Definition toy_int (z : Z) : string := "".
Definition toy_error : AgentErr.Error -> string := AgentErr.to_string (fun s => message s).

Lemma ack_update_cases_witness :
  let req := mkAckReq "another device" "job-1" "" false "boom" in
  (Async.run (ack_update toy_text req) (calm "u") stuck).1 = Ok (mkAckResp true).
Proof.
  intros req. pose proof (ack_update_cases toy_text req (calm "u") stuck) as Ha. cbv zeta in Ha.
  destruct (Async.run (ack_update toy_text req) (calm "u") stuck) as [r s'].
  destruct Ha as (_ & _ & _ & Ha).
  - reflexivity.
  - reflexivity.
  - intros n x. reflexivity.
  - exact (proj1 Ha).
Defined.

Lemma update_cycle_witness :
  let '(r1, s1) :=
    Async.run (ota_serve toy_text (DispatchUpdate (update_request "v2"))) (calm "job-1") connected in
  let '(r2, s2) := Async.run (ota_serve toy_text (PollStream "dev-1" 0)) (calm "u") s1 in
  exists cmd ack, r2 = Ok (StreamItem (Some cmd)) /\
    acks_sent (Async.run (handle_commands toy_int toy_error "dev-1" [inl cmd]) good_host []).2 = [ack] /\
    is_ok (Async.run (ota_serve toy_text (DispatchUpdate (update_request "v3"))) (calm "job-2")
             (Async.run (ota_serve toy_text (AckUpdate ack)) (calm "u") s2).2).1 = true.
Proof.
  pose proof (update_cycle toy_text toy_int toy_error (update_request "v2") (update_request "v3") 0 good_host
    (calm "job-1") (calm "u") (calm "u") (calm "job-2") connected) as Hc.
  cbv zeta in Hc.
  destruct (Async.run (ota_serve toy_text (DispatchUpdate (update_request "v2"))) (calm "job-1") connected)
    as [r1 s1].
  change (du_device_id (update_request "v2")) with "dev-1" in Hc.
  destruct (Async.run (ota_serve toy_text (PollStream "dev-1" 0)) (calm "u") s1) as [r2 s2].
  destruct Hc as (_ & cmd & ack & H2 & _ & Hack & Hrest).
  - split; [reflexivity|]. intros i1 i2 a1 a2 Hi. change ((∅ : Jobs) !! i1 = Some a1) in Hi.
    by rewrite lookup_empty in Hi.
  - reflexivity.
  - intros d c Hc. unfold connected, dispatcher in Hc.
    destruct (decide (d = "dev-1")) as [->|Hd].
    + injection Hc as <-. reflexivity.
    + change ((<["dev-1" := (chan_subscribe (channel CHANNEL_CAPACITY)).2]> (∅ : gmap string Chan))
                !! d = Some c) in Hc.
      by rewrite lookup_insert_ne, lookup_empty in Hc.
  - intros n x. reflexivity.
  - intros n x. reflexivity.
  - intros n x. reflexivity.
  - reflexivity.
  - reflexivity.
  - discriminate.
  - intros (i & r & Hi & _). change ((∅ : Jobs) !! i = Some r) in Hi. by rewrite lookup_empty in Hi.
  - reflexivity.
  - reflexivity.
  - exists cmd, ack. split; [exact H2|]. split; [exact Hack|].
    destruct (Async.run (ota_serve toy_text (AckUpdate ack)) (calm "u") s2) as [r3 s3].
    exact (proj2 (proj2 (proj2 Hrest))).
Defined.
End examples.
