(* ===== verification/AgentOnline.v ===== *)
(** * The agent's streams in their world

    The loops of [AgentLoops] on a host and in front of the service's own
    handlers: what the agent's tasks send is the stream that
    [telemetry.rs] and [heartbeat/mod.rs] of the service read, and what those
    answer is the stream the agent reads. *)

From Stdlib Require Import Init.Byte.
From S2P Require Import Prelude F64 Bytes Sqlite Async Pki DeviceStore DeviceStoreSpec Grpc DmsEffects.
From S2P Require Heartbeat.
From S2P Require Import DmsTelemetry AgentBoot AgentOta AgentHeartbeat AgentTelemetry AgentLoops.

(** What one effect of a loop meets. *)
Record LoopEnv := mkLoopEnv {
  le_io : outcome string unit;          (** of a file or socket operation *)
  le_sim : list byte;                   (** what the simulator sends on its connection *)
  le_up : bool;                         (** the service answers the stream *)
  le_room : nat;                        (** sends that the request channel takes *)
  le_ticks : Ticks;
  le_proc : nat -> ProcFs;
  le_service : nat -> Env               (** of the service's handler *)
}.

Section world.
Context `{BuildProfile, TrigLib} {S : Type} `{DeviceStore S} (stx : Status -> string).

Record LoopWorld := mkLoopWorld {
  socket_file : bool;                   (** a file exists at the socket path *)
  listening : nat;                      (** how often a listener was bound *)
  slept : list Z;                       (** the sleeps of the agent, in order *)
  reboots : nat;
  frames_seen : list TelemetryFrame;    (** by the telemetry service *)
  acks_sent : list (outcome Status TelemetryAck);
  dms_store : S
}.

(** The status a client sees when the connection fails. *)
Definition stream_lost : Status := mkStatus Unavailable "transport error".

(** A message of the service as an item of the client's stream. *)
Definition item_of {A} (m : outcome Status A) : A + Status :=
  match m with Ok a => inl a | Err e => inr e | Panic => inr stream_lost end.

Definition telemetry_session (env : LoopEnv) (frames : list TelemetryFrame) :
  list (outcome Status TelemetryAck) :=
  (Async.run (HandlerIn0 := ack_handler) (stream_telemetry stx 0 (inl <$> frames))
     (le_service env) []).2.

Definition heartbeat_session_of (env : LoopEnv) (reqs : list HeartbeatRequest) (s : S) :
  S * list (outcome Status HeartbeatResponse) :=
  (Async.run (HandlerIn0 := logged_handler) (Heartbeat.handle stx (inl <$> reqs))
     (le_service env) (s, [])).2.

Definition loop_handler : HandlerIn LoopEnv LoopE LoopWorld := fun X env e w =>
  match e in LoopE X return X * LoopWorld with
  | SocketExists _ => (socket_file w, w)
  | RemoveFile _ =>
      (le_io env,
       match le_io env with
       | Ok _ => mkLoopWorld false (listening w) (slept w) (reboots w) (frames_seen w) (acks_sent w)
                   (dms_store w)
       | _ => w
       end)
  | BindUnix _ =>
      (le_io env,
       match le_io env with
       | Ok _ => mkLoopWorld true (Datatypes.S (listening w)) (slept w) (reboots w) (frames_seen w)
                   (acks_sent w) (dms_store w)
       | _ => w
       end)
  | AcceptSim => (_ ← le_io env; Ok (le_sim env), w)
  | StreamTelemetryRpc sender =>
      if le_up env then
        let frames := sender (le_ticks env) (le_room env) in
        let acks := telemetry_session env frames in
        (Ok (item_of <$> acks),
         mkLoopWorld (socket_file w) (listening w) (slept w) (reboots w) (frames_seen w ++ frames)
           (acks_sent w ++ acks) (dms_store w))
      else (Err stream_lost, w)
  | StreamHeartbeatRpc sender =>
      if le_up env then
        let '(s, answers) := heartbeat_session_of env (sender (le_proc env) (le_room env)) (dms_store w) in
        (Ok (item_of <$> answers),
         mkLoopWorld (socket_file w) (listening w) (slept w) (reboots w) (frames_seen w) (acks_sent w) s)
      else (Err stream_lost, w)
  | RunReboot =>
      (Ok (Some 0%Z),
       mkLoopWorld (socket_file w) (listening w) (slept w) (Datatypes.S (reboots w)) (frames_seen w)
         (acks_sent w) (dms_store w))
  | SleepMs ms =>
      (tt, mkLoopWorld (socket_file w) (listening w) (slept w ++ [ms]) (reboots w) (frames_seen w)
             (acks_sent w) (dms_store w))
  end.
End world.
Arguments LoopWorld S : clear implicits.
Arguments mkLoopWorld {S} _ _ _ _ _ _ _.
