(* ===== verification/OnlineClaims.v ===== *)
(** * Properties of the agent online

    A telemetry session from the simulator's bytes to the service's
    acknowledgements and the end of the agent, the mode the agent is in on a
    fresh host, heartbeat sessions, and how long the agent waits between
    streams. *)

From Stdlib Require Import Init.Byte.
From S2P Require Import Prelude F64 Bytes Sqlite Async Pki DeviceStore DeviceStoreSpec Grpc DmsEffects.
From S2P Require Import Lockout DmsClaims DmsTelemetry AgentBoot AgentOta AgentHeartbeat AgentTelemetry.
From S2P Require Import TelemetryClaims LoopClaims AgentOtaClaims AgentLoops AgentOnline.

Section claims.
Context `{BuildProfile, TrigLib} {S : Type} `{DeviceStore S} (stx : Status -> string).
#[local] Instance online_handler : HandlerIn LoopEnv LoopE (LoopWorld S) := loop_handler stx.

(** Texts, doubles and frames are not evaluated in these proofs. *)
#[local] Strategy opaque [reader f64_bits lines split_whitespace].
#[local] Arguments reader : simpl never.
#[local] Arguments sine_wave : simpl never.
#[local] Arguments beats : simpl never.
#[local] Arguments stream_telemetry : simpl never.

(** ** Streams that ask for nothing *)

Lemma quiet_acks acks :
  Forall (fun a => ta_throttle a = false) acks -> handle_acks (inl <$> acks) = Done (Ok tt).
Proof using Type. induction 1 as [|a acks Ha _ IH]; [done|]. cbn. by rewrite Ha, IH. Qed.

Lemma quiet_directives n d :
  d <> "reboot" -> handle_directives (inl <$> replicate n (mkHeartbeatResp false d)) = Done (Ok tt).
Proof using Type. intros Hd. induction n as [|n IH]; [done|]. cbn. by rewrite bool_decide_eq_false_2. Qed.

Definition ack_numbers (n : nat) : list TelemetryAck :=
  (fun i => mkTelemetryAck (1 + Z.of_nat i) false) <$> seq 0 n.

(** The service acknowledges every frame with its number. *)
Lemma telemetry_session_acks env frames :
  (forall i, peer_alive (le_service env i) = true) -> (Z.of_nat (length frames) <= u64_max)%Z ->
  telemetry_session stx env frames = Ok <$> ack_numbers (length frames).
Proof using Type.
  intros Hal Hn. unfold telemetry_session. rewrite <- (app_nil_r (inl <$> frames)).
  rewrite stream_telemetry_acks by (done || lia). cbn. rewrite app_nil_r. unfold acks_from, ack_numbers.
  by rewrite <- list_fmap_compose.
Qed.

Lemma session_quiet env frames :
  (forall i, peer_alive (le_service env i) = true) -> (Z.of_nat (length frames) <= u64_max)%Z ->
  handle_acks (item_of <$> telemetry_session stx env frames) = Done (Ok tt).
Proof using Type.
  intros Hal Hn. rewrite telemetry_session_acks by done. rewrite <- list_fmap_compose.
  apply (quiet_acks (ack_numbers (length frames))). unfold ack_numbers. apply Forall_fmap, Forall_true. done.
Qed.

(** ** A session with the simulator *)

(** C10: a telemetry session from end to end, and how it ends.  On a host where
    the socket path exists, when nothing fails: the agent replaces the file by
    its own listener, and of the length-prefixed payloads that the simulator
    sends before it closes, the service receives exactly the frames that parse,
    in order and with the agent's device id, and acknowledges them with the
    numbers from 1 on; the agent never waits.  But the end of the simulator's
    connection is the end of the telemetry task, of its reconnecting loop, and
    through [select!] of the whole agent, which exits successfully. *)
Theorem simulator_session device_id path payloads tail fuel envs w :
  socket_file w = true ->
  Forall (fun p => 0 < Z.of_nat (length p) <= max_payload)%Z payloads -> stops tail ->
  let frames := parsed device_id payloads in
  (Z.of_nat (length frames) <= u64_max)%Z ->
  (forall n, le_io (envs n) = Ok tt /\ le_up (envs n) = true /\
     le_sim (envs n) = concat (on_wire <$> payloads) ++ tail /\
     length frames <= le_room (envs n) /\ forall i, peer_alive (le_service (envs n) i) = true) ->
  let '(result, w') := Async.run (telemetry_run device_id (Some path) (Datatypes.S fuel)) envs w in
  result = Some (Ok tt) /\
  frames_seen w' = frames_seen w ++ frames /\
  acks_sent w' = acks_sent w ++ (Ok <$> ack_numbers (length frames)) /\
  slept w' = slept w /\ listening w' = Datatypes.S (listening w) /\ dms_store w' = dms_store w /\
  select_end [TelemetryEnded (Ok tt)] = Some (Ok tt).
Proof.
  intros Hsock Hps Htail frames Hn He. unfold telemetry_run. cbn. rewrite Hsock. cbn. rewrite Hsock. cbn.
  rewrite (proj1 (He 2)). cbn. rewrite (proj1 (He 3)). cbn. rewrite (proj1 (He 4)). cbn.
  destruct (He 4) as (_ & _ & Hsim & _). destruct (He 5) as (_ & Hup & _ & Hroom & Hal).
  rewrite Hup. cbn. rewrite Hsim, reader_delivers_frames by done. rewrite take_ge by done.
  rewrite session_quiet by done. cbn. rewrite telemetry_session_acks by done. done.
Qed.

(** ** Without the socket file *)

(** A frame that the sine wave can have made: the six joints, and a time that
    is not negative and whose nanoseconds are less than a second. *)
Definition sine_like (device_id : string) (f : TelemetryFrame) : Prop :=
  tf_device_id f = device_id /\ js_name <$> tf_joints f = JOINT_NAMES /\
  tf_sensors f = [] /\
  exists s ns, tf_recorded_at f = Some (mkTimestamp s ns) /\ (0 <= ns < 1000000000)%Z.

Lemma sine_frame_like device_id start turn : sine_like device_id (sine_frame device_id start turn).
Proof using Type.
  split; [done|]. split; [done|]. split; [done|]. eexists _, _. split; [done|].
  pose proof (Z.mod_pos_bound (Z.max 0 turn.2) 1000000000). unfold wrap_i32.
  rewrite Z.mod_small by lia. lia.
Qed.

Lemma sine_wave_like device_id ticks room : Forall (sine_like device_id) (sine_wave device_id ticks room).
Proof using Type. unfold sine_wave. apply Forall_fmap, Forall_true. intros i. apply sine_frame_like. Qed.

(** What the sine-wave mode does to its world. *)
Definition sine_effect (device_id : string) : forall X, LoopE X -> Prop := fun X e =>
  match e with
  | SleepMs _ => True
  | StreamTelemetryRpc sender => sender = sine_wave device_id
  | _ => False
  end.

Definition never_listens (device_id : string) (n : nat) (seen : list TelemetryFrame)
    (w : LoopWorld S) : Prop :=
  socket_file w = false /\ listening w = n /\
  exists more, frames_seen w = seen ++ more /\ Forall (sine_like device_id) more.

Lemma sine_effect_inv device_id n seen X env (e : LoopE X) w x w' :
  sine_effect device_id X e -> handle env e w = (x, w') ->
  never_listens device_id n seen w -> never_listens device_id n seen w'.
Proof using Type.
  intros Hok Hh (Hs & Hl & more & Hseen & Hmore). destruct e; cbn in Hok, Hh; try done; simplify_eq.
  - destruct (le_up env); simplify_eq; (split; [done|]; split; [done|]); [|by exists more]. cbn.
    exists (more ++ sine_wave device_id (le_ticks env) (le_room env)).
    rewrite Hseen, app_assoc. split; [done|]. apply Forall_app. split; [done|]. apply sine_wave_like.
  - split; [done|]. split; [done|]. by exists more.
Qed.

Lemma run_sine_only device_id : only (sine_effect device_id) (run_sine_wave device_id).
Proof using Type.
  unfold run_sine_wave. apply only_task_bind; [by apply only_map_err|]. intros acks.
  induction acks as [|[a|s] acks IH]; cbn; [done| |done]. by destruct (ta_throttle a).
Qed.

#[local] Arguments run_sine_wave : simpl never.

Lemma sine_turn device_id n seen socket_path envs w :
  never_listens device_id n seen w ->
  never_listens device_id n seen (Async.run (telemetry_stream device_id socket_path) envs w).2.
Proof using Type.
  intros Hw. destruct socket_path as [path|].
  - cbn. rewrite (proj1 Hw). apply (run_invariant (sine_effect device_id)); [|apply run_sine_only|done].
    intros ??????. apply sine_effect_inv.
  - apply (run_invariant (sine_effect device_id)); [|apply run_sine_only|done].
    intros ??????. apply sine_effect_inv.
Qed.

(** On a fresh host the agent never listens for a simulator.  As long as no
    file exists at the socket path, however many streams the telemetry loop
    opens and whatever fails, it binds no listener, and every frame the service
    sees is one of the sine wave: six joints, under the agent's device id, with
    a valid timestamp.  A simulator that waits for the agent to listen before
    it connects waits for ever. *)
Lemma never_listens_without_socket device_id socket_path fuel envs w :
  socket_file w = false ->
  let w' := (Async.run (telemetry_run device_id socket_path fuel) envs w).2 in
  socket_file w' = false /\ listening w' = listening w /\
  exists more, frames_seen w' = frames_seen w ++ more /\ Forall (sine_like device_id) more.
Proof.
  intros Hs w'. subst w'. unfold telemetry_run. generalize 1%Z as backoff. intros backoff.
  assert (never_listens device_id (listening w) (frames_seen w) w) as Hw.
  { split; [done|]. split; [done|]. exists []. by rewrite app_nil_r. }
  revert Hw. generalize (listening w) (frames_seen w). intros n seen Hw. change (never_listens device_id n seen
    (Async.run (reconnecting SleepMs (telemetry_stream device_id socket_path) fuel backoff) envs w).2).
  clear Hs. revert backoff envs w Hw. induction fuel as [|fuel IH]; intros backoff envs w Hw; [done|].
  cbn [reconnecting]. match goal with |- context [async_bind ?t ?f] => destruct (run_bind t f envs w) as [k Hk] end.
  rewrite Hk. pose proof (sine_turn device_id n seen socket_path envs w Hw) as Ht.
  destruct (Async.run (telemetry_stream device_id socket_path) envs w) as [[u|e|] w1]; cbn in Ht |- *; [done| |done].
  apply IH. destruct Ht as (? & ? & ?). done.
Qed.

(** ** Waiting *)

Lemma loop_sleeps (env : LoopEnv) (w : LoopWorld S) ms :
  exists w', Async.handle env (SleepMs ms) w = (tt, w') /\ slept w' = slept w ++ [ms] /\
    reboots w' = reboots w /\ dms_store w' = dms_store w.
Proof using Type. by eexists. Qed.

(** The service does not answer, and the host's operations do not panic. *)
Definition service_down (env : LoopEnv) : Prop := le_up env = false /\ le_io env <> Panic.

(** An operation of the host fails, and with it the stream, or it succeeds. *)
Ltac io_case Hd :=
  let Hio := fresh "Hio" in
  pose proof (proj2 Hd) as Hio; revert Hio;
  match goal with |- le_io ?env <> _ -> _ => destruct (le_io env) as [[]|?|] end;
  intros Hio; [|by cbn; eauto|done]; clear Hio; cbn.

Lemma socket_fails device_id path envs w :
  (forall i, service_down (envs i)) ->
  exists e w', Async.run (run_from_socket device_id path) envs w = (Err e, w') /\ slept w' = slept w.
Proof using Type.
  intros Hd. unfold run_from_socket. cbn. destruct (socket_file w); cbn.
  - io_case (Hd 1). io_case (Hd 2). io_case (Hd 3). rewrite (proj1 (Hd 4)). by eauto.
  - io_case (Hd 1). io_case (Hd 2). rewrite (proj1 (Hd 3)). by eauto.
Qed.

Lemma telemetry_fails device_id socket_path envs w :
  (forall i, service_down (envs i)) ->
  exists e w', Async.run (telemetry_stream device_id socket_path) envs w = (Err e, w') /\ slept w' = slept w.
Proof using Type.
  intros Hd.
  assert (forall envs w, (forall i, service_down (envs i)) -> exists e w',
    Async.run (run_sine_wave device_id) envs w = (Err e, w') /\ slept w' = slept w) as Hsine.
  { clear envs w Hd. intros envs w Hd. unfold run_sine_wave. cbn. rewrite (proj1 (Hd 0)). cbn. by eauto. }
  destruct socket_path as [path|]; [|by apply Hsine]. cbn. destruct (socket_file w).
  - apply socket_fails. intros i. apply Hd.
  - apply Hsine. intros i. apply Hd.
Qed.

(** The sleeps in the update loop's log. *)
Definition slept_in (l : list event) : list Z :=
  omap (fun e => match e with Slept ms => Some ms | _ => None end) l.

(** C38: how long a disconnected agent waits.  While the services do not
    answer, the telemetry loop (in either mode, whatever the socket does), the
    heartbeat loop and the update loop never return: for every [n] they open
    [n] streams and sleep 1, 2, 4, ... seconds after them, and 60 from the
    seventh on.  The wait only depends on how many streams have failed since
    the loop began. *)
Theorem reconnect_waits `{Sha256Lib} int_text error_text device_id socket_path n envs ota_envs
    (w : LoopWorld S) :
  (forall i, service_down (envs i)) -> (forall i, exists s, watch_reply (ota_envs i) = inl s) ->
  (exists w', Async.run (telemetry_run device_id socket_path n) envs w = (None, w') /\
     slept w' = slept w ++ waits n) /\
  (exists w', Async.run (heartbeat_run device_id n) envs w = (None, w') /\
     slept w' = slept w ++ waits n) /\
  Async.run (AgentOta.run int_text error_text device_id n) ota_envs [] = (None, Slept <$> waits n) /\
  (forall i, (0 < backoff_after i <= 60)%Z /\ (6 <= i -> backoff_after i = 60%Z)).
Proof.
  intros Hd Ho. split; [|split; [|split]].
  - destruct (reconnecting_fails SleepMs slept (fun _ => True) service_down
      (telemetry_stream device_id socket_path) n 0 envs w) as (w' & Hrun & _ & Hs); [|by eauto|done..|by eauto].
    intros envs' w' Hd' _. destruct (telemetry_fails device_id socket_path envs' w' Hd') as (e & w2 & ? & ?).
    by exists e, w2.
  - destruct (reconnecting_fails SleepMs slept (fun _ => True) service_down
      (run_heartbeat_stream device_id) n 0 envs w) as (w' & Hrun & _ & Hs); [|by eauto|done..|by eauto].
    intros envs' w' Hd' _. unfold run_heartbeat_stream. cbn. rewrite (proj1 (Hd' 0)). cbn. by eauto.
  - destruct (reconnecting_fails OtaSleepMs slept_in (fun l => l = Slept <$> slept_in l)
      (fun env => exists s, watch_reply env = inl s) (run_stream int_text error_text device_id) n 0
      ota_envs []) as (l & Hrun & Hl & Hs); [| |done..|].
    + intros envs' l Ho' Hl. destruct (Ho' 0) as [s Hs]. cbn. rewrite Hs. by eauto.
    + intros env l ms Hl. eexists. split; [done|]. unfold slept_in in *. rewrite omap_app, fmap_app. cbn.
      by rewrite <- Hl.
    + etrans; [exact Hrun|]. rewrite Hs in Hl. by rewrite Hl.
  - intros i. unfold backoff_after, MAX_BACKOFF. pose proof (Z.pow_pos_nonneg 2 (Z.of_nat i)).
    split; [lia|]. intros Hi. assert (2 ^ 6 <= 2 ^ Z.of_nat i)%Z by (apply Z.pow_le_mono_r; lia). lia.
Qed.
End claims.

Section heartbeats.
Context `{BuildProfile} {S : Type} `{DeviceStoreSpec S} (stx : Status -> string).
#[local] Existing Instance online_handler.

#[local] Strategy opaque [f64_bits lines split_whitespace].
#[local] Arguments Heartbeat.handle : simpl never.

(** The requests of a session all carry the agent's id. *)
Lemma beats_id id proc i room : Forall (fun b => hb_device_id b = id) (beats id proc i room).
Proof using Type.
  revert i. induction room as [|room IH]; intros i; cbn; [constructor|].
  destruct (read_cpu_usage _); [|constructor..]. destruct (read_memory_usage _); [|constructor..].
  by constructor.
Qed.

(** Nothing fails, and the service answers. *)
Definition service_up (env : LoopEnv) : Prop :=
  le_up env = true /\ forall n, no_fault (le_service env n) /\ peer_alive (le_service env n) = true.

(** One session of the agent's requests with the service's handler. *)
Lemma session_spec env id reqs s :
  service_up env -> healthy s -> reqs <> [] -> Forall (fun b => hb_device_id b = id) reqs ->
  let '(s', answers) := heartbeat_session_of stx env reqs s in
  healthy s' /\
  match devices (visible s) !! id with
  | Some d =>
      answers = replicate (length reqs) (Ok (mkHeartbeatResp false "")) /\
      exists t, visible s' = set_devices (<[id := Sqlite_.with_last_seen t d]> (devices (visible s))) (visible s)
  | None =>
      answers = [Err (mkStatus NotFound ("device " +:+ id +:+ " not found"))] /\ visible s' = visible s
  end.
Proof using Type.
  intros [_ He] Hs Hne Hids. destruct reqs as [|first rest]; [done|].
  apply Forall_cons in Hids as [Hid _]. pose proof (heartbeat_stream stx first rest (le_service env) s Hs He) as Hb.
  cbv zeta in Hb. rewrite Hid in Hb. unfold heartbeat_session_of.
  destruct (Async.run _ _ _) as [u [s' answers]]. destruct Hb as [Hs' Hb]. split; [done|].
  destruct (devices (visible s) !! id) as [d|]; [|done]. destruct Hb as (Ha & n & Hv). split; [done|]. by eexists.
Qed.

(** C14: a heartbeat session from the agent's host to the stored device.  When
    nothing fails and the host can be read: if the agent's id is stored, all its
    beats are answered, the agent neither reboots nor waits, and all that
    changes in the service is the last-seen time of that device; when the
    sender stops, because the service dropped its stream or because a reading
    panicked, the loop returns and the agent ends.  If the id is not stored, no
    beat is recorded, and the agent tries for ever, waiting longer each time. *)
Theorem heartbeat_session id fuel envs w :
  (forall i, service_up (envs i)) -> healthy (dms_store w) ->
  (forall i, beats id (le_proc (envs i)) 0 (le_room (envs i)) <> []) ->
  let reqs := beats id (le_proc (envs 0)) 0 (le_room (envs 0)) in
  let before := visible (dms_store w) in
  let '(result, w') :=
    Async.run (HandlerIn0 := online_handler stx) (heartbeat_run id (Datatypes.S fuel)) envs w in
  reboots w' = reboots w /\ healthy (dms_store w') /\
  match devices before !! id with
  | Some d =>
      result = Some (Ok tt) /\ slept w' = slept w /\
      (heartbeat_session_of stx (envs 0) reqs (dms_store w)).2 =
        replicate (length reqs) (Ok (mkHeartbeatResp false "")) /\
      (exists t, visible (dms_store w') = set_devices (<[id := Sqlite_.with_last_seen t d]> (devices before)) before) /\
      select_end [HeartbeatEnded (Ok tt)] = Some (Ok tt)
  | None =>
      result = None /\ slept w' = slept w ++ waits (Datatypes.S fuel) /\ visible (dms_store w') = before
  end.
Proof.
  intros Hup Hs Hne reqs before. unfold heartbeat_run.
  destruct (devices before !! id) as [d|] eqn:Hd.
  - pose proof (session_spec (envs 0) id reqs (dms_store w) (Hup 0) Hs (Hne 0) (beats_id _ _ _ _)) as Hsess.
    fold before in Hsess. rewrite Hd in Hsess. cbn -[beats]. rewrite (proj1 (Hup 0)). fold reqs.
    destruct (heartbeat_session_of _ _ _ _) as [s' answers]. destruct Hsess as (Hs' & -> & t & Hv). cbn.
    assert (forall n, item_of <$> replicate n (Ok (mkHeartbeatResp false "")) =
                      inl <$> replicate n (mkHeartbeatResp false "")) as Hitems.
    { intros n. by rewrite !fmap_replicate. }
    rewrite Hitems, quiet_directives by done. cbn. by eauto 10.
  - pose (I w' := reboots w' = reboots w /\ healthy (dms_store w') /\ visible (dms_store w') = before).
    destruct (reconnecting_fails (HandlerIn0 := online_handler stx) SleepMs slept I
      (fun env => service_up env /\ beats id (le_proc env) 0 (le_room env) <> [])
      (run_heartbeat_stream id) (Datatypes.S fuel) 0 envs w) as (w' & Hrun & (Hr & Hs' & Hv) & Hsl);
      [|by eauto|done|done|].
    + intros envs' w1 Hg (Hr1 & Hs1 & Hv1). destruct (Hg 0) as [Hup0 Hne0].
      pose proof (session_spec (envs' 0) id _ (dms_store w1) Hup0 Hs1 Hne0 (beats_id _ _ _ _)) as Hsess.
      rewrite Hv1, Hd in Hsess. unfold run_heartbeat_stream. cbn -[beats]. rewrite (proj1 Hup0).
      destruct (heartbeat_session_of _ _ _ _) as [s' answers]. destruct Hsess as (Hs' & -> & Hv'). cbn.
      by eexists _, _.
    + change 1%Z with (backoff_after 0). rewrite Hrun. by repeat split.
Qed.
End heartbeats.
