(* ===== verification/AgentSelect.v ===== *)
(** * The agent's three tasks at once

    Phase 3 of [src/robot-agent/src/main.rs] spawns the heartbeat, update and
    telemetry loops and waits with [select!] for the first of them to return or
    for Ctrl-C.  The tasks run interleaved, at every [.await], on the same host
    and against the same services. *)

From Stdlib Require Import Init.Byte.
From Equations Require Import Equations.
From S2P Require Import Prelude F64 Bytes Sqlite Async Pki DeviceStore DeviceStoreSpec Grpc DmsEffects.
From S2P Require Heartbeat.
From S2P Require Import DmsTelemetry AgentBoot AgentOta AgentHeartbeat AgentTelemetry AgentLoops AgentOnline.
From S2P Require Import LoopClaims AgentOtaClaims TelemetryClaims OnlineClaims.

(** ** The agent *)

Section agent.
Context `{BuildProfile, TrigLib, Sha256Lib} {S : Type} `{DeviceStore S} (stx : Status -> string).
Context (int_text : Z -> string) (error_text : AgentErr.Error -> string).

Abbreviation Ended := (option (outcome AgentErr.Error unit)).

(** The join handles: what each task has still to do. *)
Record AgentTasks := mkTasks {
  heartbeat : async LoopE Ended;
  ota : async OtaAgentE Ended;
  telemetry : async LoopE Ended
}.

(** The three [tokio::spawn], each loop for at most [fuel] streams. *)
Definition spawn_tasks (device_id : string) (socket_path : option string) (fuel : nat) : AgentTasks :=
  mkTasks (heartbeat_run device_id fuel) (AgentOta.run int_text error_text device_id fuel)
    (telemetry_run device_id socket_path fuel).

(** The agent waits for its tasks, or [main] has returned. *)
Inductive Agent :=
| Online (tasks : AgentTasks)
| Exited (result : outcome MainErr unit).

(** What the loops and the services have done, and what the update loop has. *)
Record OnlineWorld := mkOnlineWorld { loops : LoopWorld S; updates : list event }.

(** A branch of [select!] that is ready. *)
Definition happened (t : AgentTasks) (ev : AgentEvent) : Prop :=
  match ev with
  | CtrlC => True
  | HeartbeatEnded r => heartbeat t = Done (Some r)
  | OtaEnded r => ota t = Done (Some r)
  | TelemetryEnded r => telemetry t = Done (Some r)
  end.

#[local] Instance loops_host : HandlerIn LoopEnv LoopE (LoopWorld S) := loop_handler stx.

(** One step, in environments that are allowed.  A task that is dropped when
    [main] returns takes no further step. *)
Inductive agent_step (loop_ok : LoopEnv -> Prop) (ota_ok : OtaEnv -> Prop) :
  Agent * OnlineWorld -> Agent * OnlineWorld -> Prop :=
| step_heartbeat t w env X (e : LoopE X) k x w' :
    heartbeat t = Await e k -> loop_ok env -> Async.handle env e (loops w) = (x, w') ->
    agent_step loop_ok ota_ok (Online t, w)
      (Online (mkTasks (k x) (ota t) (telemetry t)), mkOnlineWorld w' (updates w))
| step_ota t w env X (e : OtaAgentE X) k x l :
    ota t = Await e k -> ota_ok env -> Async.handle env e (updates w) = (x, l) ->
    agent_step loop_ok ota_ok (Online t, w)
      (Online (mkTasks (heartbeat t) (k x) (telemetry t)), mkOnlineWorld (loops w) l)
| step_telemetry t w env X (e : LoopE X) k x w' :
    telemetry t = Await e k -> loop_ok env -> Async.handle env e (loops w) = (x, w') ->
    agent_step loop_ok ota_ok (Online t, w)
      (Online (mkTasks (heartbeat t) (ota t) (k x)), mkOnlineWorld w' (updates w))
| step_select t w ev r :
    happened t ev -> select_end [ev] = Some r ->
    agent_step loop_ok ota_ok (Online t, w) (Exited r, w).
End agent.
Arguments OnlineWorld S : clear implicits.
Arguments mkOnlineWorld {S} _ _.

(** ** What a task keeps whatever the others do *)

(** Every end of [t], in allowed environments and in any state at every effect,
    satisfies [Q]. *)
Section ends.
Context {En W : Type} {F : Type -> Type} `{!HandlerIn En F W} (good : En -> Prop).

Fixpoint ends_in {A} (Q : A -> Prop) (t : async F A) : Prop :=
  match t with
  | Done a => Q a
  | Await e k => forall env w x w', good env -> Async.handle env e w = (x, w') -> ends_in Q (k x)
  end.

Lemma ends_in_bind {A B} (Q : B -> Prop) (R : A -> Prop) (t : async F A) (f : A -> async F B) :
  ends_in R t -> (forall a, R a -> ends_in Q (f a)) -> ends_in Q (async_bind t f).
Proof using Type.
  intros Ht Hf. induction t as [a|X e k IH]; cbn in *; [by apply Hf|].
  intros env w x w' Hg Hh. by eapply IH, Ht.
Qed.

(** A loop whose streams all fail never returns. *)
Lemma ends_in_reconnecting (sleep : Z -> F unit) stream fuel backoff :
  ends_in (fun r => exists e, r = Err e) stream ->
  ends_in (fun r => r = None) (reconnecting sleep stream fuel backoff).
Proof using Type.
  intros Hs. revert backoff. induction fuel as [|fuel IH]; intros backoff; [done|].
  cbn [reconnecting]. eapply ends_in_bind; [exact Hs|]. intros r [e ->] env w x w' _ _. apply IH.
Qed.
End ends.

Lemma only_reconnecting {F : Type -> Type} (ok : forall X, F X -> Prop) (sleep : Z -> F unit)
    (stream : Task F AgentErr.Error unit) fuel backoff :
  (forall b, (0 < b <= MAX_BACKOFF)%Z -> ok unit (sleep (b * 1000)%Z)) -> only ok stream ->
  (0 < backoff <= MAX_BACKOFF)%Z -> only ok (reconnecting sleep stream fuel backoff).
Proof.
  intros Hsl Hst. revert backoff. induction fuel as [|fuel IH]; intros backoff Hb; [done|].
  cbn [reconnecting]. apply only_bind; [done|]. intros [?|?|]; [done| |done].
  split; [by apply Hsl|]. intros []. apply IH. unfold MAX_BACKOFF in *. lia.
Qed.

(** ** The agent only speaks for itself *)

(** At most the last-seen time of one device differs. *)
Definition last_seen_only (device_id : string) (t t' : Tables) : Prop :=
  t' = t \/
  exists d n, devices t !! device_id = Some d /\
    t' = set_devices (<[device_id := Sqlite_.with_last_seen n d]> (devices t)) t.

Lemma last_seen_again id t t' n :
  last_seen_only id t t' ->
  forall d, devices t' !! id = Some d ->
  last_seen_only id t (set_devices (<[id := Sqlite_.with_last_seen n d]> (devices t')) t').
Proof.
  intros [->|(d0 & m & Hd0 & ->)] d Hd; right; [by eauto|]. exists d0, n. split; [done|].
  cbn in Hd |- *. rewrite lookup_insert_eq in Hd. simplify_eq. unfold set_devices. cbn.
  by rewrite insert_insert_eq.
Qed.

Section own.
Context `{BuildProfile, TrigLib} (id : string).

Lemma parse_frame_own payload frame : parse_frame id payload = Ok frame -> tf_device_id frame = id.
Proof using Type.
  unfold parse_frame. case_match; [done|]. intros Hp.
  repeat match type of Hp with
    | (_ ≫= _) = Ok _ => apply outcome_bind_Ok in Hp as (? & _ & Hp)
    | (if ?b then _ else _) = Ok _ => destruct b; [done|]
    end.
  by injection Hp as <-.
Qed.

Lemma reader_own bytes room : Forall (fun f => tf_device_id f = id) (reader id bytes room).
Proof using Type.
  funelim (reader id bytes room); rewrite <- ?Heqcall; try done; try constructor; try done.
  by eapply parse_frame_own.
Qed.
End own.

Section claims.
Context `{BuildProfile, TrigLib, Sha256Lib} {S : Type} `{DeviceStoreSpec S} (stx : Status -> string).
Context (int_text : Z -> string) (error_text : AgentErr.Error -> string) (id : string).
#[local] Instance own_host : HandlerIn LoopEnv LoopE (LoopWorld S) := loop_handler stx.

#[local] Strategy opaque [reader f64_bits lines split_whitespace].
#[local] Arguments reader : simpl never.
#[local] Arguments sine_wave : simpl never.
#[local] Arguments beats : simpl never.

(** Streams whose messages carry the agent's id, and sleeps of at most a
    minute. *)
Definition own_loop : forall X, LoopE X -> Prop := fun X e =>
  match e with
  | StreamTelemetryRpc sender =>
      forall ticks room, Forall (fun f => tf_device_id f = id) (sender ticks room)
  | StreamHeartbeatRpc sender =>
      forall proc room, Forall (fun b => hb_device_id b = id) (sender proc room)
  | SleepMs ms => (0 < ms <= 60000)%Z
  | _ => True
  end.

Lemma heartbeat_own fuel : only own_loop (heartbeat_run id fuel).
Proof using Type.
  apply only_reconnecting; [|apply only_task_bind|done]; [cbn; unfold MAX_BACKOFF; lia| |].
  - apply only_map_err. split; [|done]. intros proc room. apply beats_id.
  - intros stream. induction stream as [|[resp|s] rest IH]; cbn; [done| |done].
    case_match; [split; [done|]; intros ?|]; apply IH.
Qed.

Lemma acks_own stream : only own_loop (handle_acks stream).
Proof using Type.
  induction stream as [|[ack|s] rest IH]; cbn; [done| |done].
  destruct (ta_throttle ack); cbn; [split; [lia|]; intros ?|]; apply IH.
Qed.

Lemma sine_own : only own_loop (run_sine_wave id).
Proof using Type.
  apply only_task_bind; [|apply acks_own]. apply only_map_err. split; [|done].
  intros ticks room. unfold sine_wave. by apply Forall_fmap, Forall_true.
Qed.

Lemma telemetry_own socket_path fuel : only own_loop (telemetry_run id socket_path fuel).
Proof using Type.
  apply only_reconnecting; [cbn; unfold MAX_BACKOFF; lia| |done].
  destruct socket_path as [path|]; [|apply sine_own].
  apply only_task_bind; [done|]. intros []; [|apply sine_own].
  apply only_task_bind; [done|]. intros exists_. apply only_task_bind; [by destruct exists_|]. intros [].
  apply only_task_bind; [done|]. intros []. apply only_task_bind; [done|]. intros bytes.
  apply only_task_bind; [|apply acks_own]. apply only_map_err. split; [|done].
  intros ticks room. apply reader_own.
Qed.

(** What the agent leaves behind: in the services its own frames, and no change
    of the stored tables but the last-seen time of its device; sleeps of at
    most a minute. *)
Definition keeps_to_itself (w0 w : LoopWorld S) : Prop :=
  (exists more, slept w = slept w0 ++ more /\ Forall (fun ms => 0 < ms <= 60000)%Z more) /\
  (exists more, frames_seen w = frames_seen w0 ++ more /\ Forall (fun f => tf_device_id f = id) more) /\
  last_seen_only id (on_disk (dms_store w0)) (on_disk (dms_store w)).

(** The service's side of a heartbeat stream, under any fault. *)
Lemma session_touches t0 env reqs s :
  Forall (fun b => hb_device_id b = id) reqs -> last_seen_only id t0 (on_disk s) ->
  last_seen_only id t0 (on_disk (heartbeat_session_of stx env reqs s).1).
Proof using Type.
  intros Hids Hs. unfold heartbeat_session_of.
  apply (run_invariant (HandlerIn0 := logged_handler)
    (fun X (e : DmsE X) => match e with
                           | Store (TouchLastSeen i) => i = id
                           | Store _ => False
                           | _ => True
                           end)
    (fun w => last_seen_only id t0 (on_disk w.1))); [| |done].
  - intros X env' e [s1 log] x [s2 log'] Hok Hh Hs1. destruct e as [A c| |m|m]; cbn in Hh; [|by simplify_eq..].
    destruct (store_call env' c s1) as [r s'] eqn:Hc. simplify_eq. cbn in *.
    destruct (disk_atomic _ c env' s1 x s2 Hc) as [->|[a Ha]]; [done|].
    destruct c; try done. subst. cbn in Ha.
    destruct (devices (on_disk s1) !! id) as [d|] eqn:Hd; [|done]. injection Ha as _ <-.
    by apply last_seen_again.
  - destruct reqs as [|b reqs]; [done|]. cbn -[Heartbeat.handle_loop].
    apply Forall_cons in Hids as [-> _]. clear.
    match goal with |- only _ (Heartbeat.handle_loop _ ?l) => generalize l end. intros l.
    induction l as [|[b'|s] l IH]; cbn; [done| |done]. split; [done|].
    intros [[]|[]|]; cbn; try done; (split; [done|]); intros sent; by destruct sent.
Qed.

Lemma own_loop_keeps w0 X env (e : LoopE X) w x w' :
  own_loop X e -> Async.handle env e w = (x, w') -> keeps_to_itself w0 w -> keeps_to_itself w0 w'.
Proof using Type.
  intros Hok Hh Hw. assert (Hw' := Hw). destruct Hw' as ((zs & Hsl & Hzs) & (more & Hseen & Hmore) & Hst).
  unfold Async.handle, own_host in Hh. destruct e; cbn in Hok, Hh.
  1-4: injection Hh as _ <-; try destruct (le_io env); exact Hw.
  3: injection Hh as _ <-; exact Hw.
  - destruct (le_up env); injection Hh as _ <-; [|exact Hw].
    split; [by exists zs|]. split; [|exact Hst]. cbn. eexists.
    rewrite Hseen, <- app_assoc. split; [done|]. by apply Forall_app.
  - destruct (le_up env); [|by injection Hh as _ <-].
    pose proof (session_touches _ env _ _ (Hok (le_proc env) (le_room env)) Hst) as Hs.
    destruct (heartbeat_session_of _ _ _ _) as [s answers]. injection Hh as _ <-.
    split; [by exists zs|]. split; [by exists more|exact Hs].
  - injection Hh as _ <-. split; [|split; [by exists more|exact Hst]]. cbn. eexists.
    rewrite Hsl, <- app_assoc. split; [done|]. apply Forall_app. split; [done|].
    by apply Forall_singleton.
Qed.

(** *** The update loop *)

Definition own_ota : forall X, OtaAgentE X -> Prop := fun X e =>
  match e with
  | WatchUpdatesRpc req => wu_device_id req = id
  | AckUpdateRpc req => au_device_id req = id
  | OtaSleepMs ms => (0 < ms <= 60000)%Z
  | _ => True
  end.

(** What the update loop may have done. *)
Definition own_event (ev : event) : Prop :=
  match ev with Acked req => au_device_id req = id | Slept ms => (0 < ms <= 60000)%Z | _ => True end.

Lemma apply_update_own url sha : only own_ota (apply_update int_text url sha).
Proof using Type.
  unfold apply_update, io, call, get, trigger. only_tac; cbn; repeat (split; [done|]); try done;
    intros ?; only_tac; done.
Qed.

Lemma ota_own fuel : only own_ota (AgentOta.run int_text error_text id fuel).
Proof using Type.
  apply only_reconnecting; [cbn; unfold MAX_BACKOFF; lia| |done].
  apply only_task_bind; [by apply only_map_err|]. intros items.
  induction items as [|[cmd|s] items IH]; cbn -[apply_update]; [done| |done].
  apply only_bind; [apply apply_update_own|]. intros r.
  assert (only own_ota (_ ← task_map_err AgentErr.Grpc (call (AckUpdateRpc (ack_of error_text id cmd r)));
            handle_commands int_text error_text id items)) as Hack.
  { apply only_task_bind; [|done]. apply only_map_err. split; [|done]. by destruct r. }
  by destruct r.
Qed.

Lemma own_ota_keeps X env (e : OtaAgentE X) l x l' :
  own_ota X e -> Async.handle env e l = (x, l') -> Forall own_event l -> Forall own_event l'.
Proof using Type.
  intros Hok Hh Hl. destruct e; cbn in Hok, Hh; simplify_eq; repeat case_match; try done;
    apply Forall_app; (split; [done|]); by apply Forall_singleton.
Qed.

(** *** Any interleaving *)

Abbreviation any_loop := (fun _ : LoopEnv => True).
Abbreviation any_ota := (fun _ : OtaEnv => True).
Abbreviation step := (agent_step stx).

Definition own_inv (w0 : LoopWorld S) (c : Agent * OnlineWorld S) : Prop :=
  keeps_to_itself w0 (loops c.2) /\ Forall own_event (updates c.2) /\
  match c.1 with
  | Online t =>
      only own_loop (heartbeat t) /\ only own_loop (telemetry t) /\ only own_ota (ota t) /\
      awp any_ota (ota t) (fun _ => True) (turns error_text id 0) (updates c.2)
  | Exited r => r = Ok tt
  end.

Lemma own_inv_step w0 c c' : step any_loop any_ota c c' -> own_inv w0 c -> own_inv w0 c'.
Proof using Type.
  intros Hstep (Hw & Hl & Hc). destruct Hstep as
    [t w env X e k x w' Ht _ Hh|t w env X e k x l Ht _ Hh|t w env X e k x w' Ht _ Hh|t w ev r _ Hr]; cbn in *.
  - destruct Hc as (Hhb & Hc). rewrite Ht in Hhb. destruct Hhb as [He Hk].
    split; [by eapply own_loop_keeps|]. split; [done|]. by split; [apply Hk|].
  - destruct Hc as (Hhb & Htel & Hota & Hawp). rewrite Ht in Hota, Hawp. destruct Hota as [He Hk].
    destruct Hawp as [_ Hawp]. split; [done|]. split; [by eapply own_ota_keeps|].
    split; [done|]. split; [done|]. split; [apply Hk|]. by eapply Hawp.
  - destruct Hc as (Hhb & Htel & Hc). rewrite Ht in Htel. destruct Htel as [He Hk].
    split; [by eapply own_loop_keeps|]. split; [done|]. split; [done|]. by split; [apply Hk|].
  - split; [done|]. split; [done|]. by injection Hr as <-.
Qed.

(** C11: an agent only speaks for itself.  In every interleaving of its three
    tasks, whatever the host, the network, the services and the simulator
    answer, and with any faults in the service's store: every frame that the
    telemetry service sees from the agent carries its device id, and so does
    every acknowledgement of an update; the only thing that changes in the
    stored tables is the last-seen time of this device; the update loop has
    done for its streams what it does when it runs alone; no sleep is longer
    than a minute; and when the agent exits, it exits successfully. *)
Theorem agent_speaks_for_itself socket_path fuel (w0 : LoopWorld S) a w :
  rtc (step any_loop any_ota)
    (Online (spawn_tasks int_text error_text id socket_path fuel), mkOnlineWorld w0 []) (a, w) ->
  keeps_to_itself w0 (loops w) /\ Forall own_event (updates w) /\
  match a with
  | Online t => forall r, ota t = Done r -> turns error_text id 0 r (updates w)
  | Exited r => r = Ok tt
  end.
Proof.
  intros Hr. assert (own_inv w0 (a, w)) as (Hw & Hl & Hc).
  { apply (rtc_keeps _ (own_inv w0) _ _ (own_inv_step w0) Hr).
    split; [|split; [constructor|]].
    - split; [exists []|split; [exists []|by left]]; by rewrite app_nil_r.
    - split; [apply heartbeat_own|]. split; [apply telemetry_own|]. split; [apply ota_own|].
      apply (awp_reconnecting int_text error_text id fuel 0). by intros r l Hl. }
  split; [exact Hw|]. split; [exact Hl|]. destruct a as [t|r]; [|exact Hc].
  intros r Ht. destruct Hc as (_ & _ & _ & Hawp). rewrite Ht in Hawp. apply Hawp.
Qed.

(** ** Outages *)

(** The OTA service refuses the stream. *)
Definition ota_down (env : OtaEnv) : Prop := exists s, watch_reply env = inl s.

Definition fails (r : outcome AgentErr.Error unit) : Prop := exists e, r = Err e.

Lemma heartbeat_ends fuel : ends_in service_down (fun r => r = None) (heartbeat_run id fuel).
Proof using Type.
  apply ends_in_reconnecting. intros env w x w' [Hd _] Hh. cbn in Hh. rewrite Hd in Hh.
  injection Hh as <- <-. by eexists.
Qed.

Lemma sine_ends : ends_in service_down fails (run_sine_wave id).
Proof using Type.
  intros env w x w' [Hd _] Hh. cbn in Hh. rewrite Hd in Hh. injection Hh as <- <-. by eexists.
Qed.

(** An operation of the host, and the rest of the stream. *)
Lemma io_ends {A B} (e : LoopE (outcome string A)) (f : A -> Loop B) (Q : outcome AgentErr.Error B -> Prop) :
  (forall env w x w', service_down env -> Async.handle env e w = (x, w') -> x <> Panic) ->
  (forall err, Q (Err err)) -> (forall a, ends_in service_down Q (f a)) ->
  ends_in service_down Q (a ← loop_io e; f a).
Proof using Type.
  intros He HQ Hf env w x w' Hd Hh. specialize (He env w x w' Hd Hh). destruct x as [a|err|]; cbn; [|by apply HQ|done].
  apply Hf.
Qed.

Lemma telemetry_ends socket_path fuel : ends_in service_down (fun r => r = None) (telemetry_run id socket_path fuel).
Proof using Type.
  apply ends_in_reconnecting. destruct socket_path as [path|]; [|apply sine_ends].
  intros env w x w' _ _. cbn. destruct x; [|apply sine_ends].
  intros env2 w2 x w2' _ _. cbn.
  assert (forall env w x w', service_down env -> Async.handle env (BindUnix path) w = (x, w') -> x <> Panic) as Hbind.
  { intros env3 w3 y w3' [_ Hio] [= <- _]. exact Hio. }
  assert (ends_in service_down fails (_ ← loop_io (BindUnix path); bytes ← loop_io AcceptSim;
    resp_stream ← task_map_err AgentErr.Grpc
       (call (StreamTelemetryRpc (fun _ room => reader id bytes room))); handle_acks resp_stream)) as Hrest.
  { apply io_ends; [exact Hbind|by eexists|]. intros []. apply io_ends; [|by eexists|].
    - intros env3 w3 y w3' [_ Hio] [= <- _]. by destruct (le_io env3).
    - intros bytes env3 w3 y w3' [Hd _] Hh. cbn in Hh. rewrite Hd in Hh. injection Hh as <- <-. by eexists. }
  destruct x; [|exact Hrest]. apply io_ends; [|by eexists|by intros []].
  intros env3 w3 y w3' [_ Hio] [= <- _]. exact Hio.
Qed.

(** The waits of the update loop so far. *)
Definition waited (l : list event) : Prop := exists n, l = Slept <$> waits n.

Lemma ota_awp_down fuel k l :
  l = Slept <$> waits k ->
  awp ota_down (reconnecting OtaSleepMs (run_stream int_text error_text id) fuel (backoff_after k)) waited
    (fun r _ => r = None) l.
Proof using Type.
  revert k l. induction fuel as [|fuel IH]; intros k l Hl.
  - apply awp_done; [by exists k|done].
  - cbn [reconnecting]. apply awp_bind. split; [by exists k|].
    intros env x l' [s Hs] Hh. cbn in Hh. rewrite Hs in Hh. injection Hh as <- <-.
    split; [by exists k|]. cbn. split; [by exists k|]. intros env2 [] l2 _ [= <-].
    rewrite backoff_next. apply IH. rewrite Hl. unfold waits. by rewrite seq_S, !fmap_app.
Qed.

Definition outage_inv (w0 : LoopWorld S) (c : Agent * OnlineWorld S) : Prop :=
  frames_seen (loops c.2) = frames_seen w0 /\ acks_sent (loops c.2) = acks_sent w0 /\
  dms_store (loops c.2) = dms_store w0 /\ waited (updates c.2) /\
  match c.1 with
  | Online t =>
      ends_in service_down (fun r => r = None) (heartbeat t) /\
      ends_in service_down (fun r => r = None) (telemetry t) /\
      awp ota_down (ota t) waited (fun r _ => r = None) (updates c.2)
  | Exited _ => True
  end.

(** Without the service, the effects of the loops stay on the host. *)
Lemma outage_local env X (e : LoopE X) (w : LoopWorld S) x w' :
  service_down env -> Async.handle env e w = (x, w') ->
  frames_seen w' = frames_seen w /\ acks_sent w' = acks_sent w /\ dms_store w' = dms_store w.
Proof using Type.
  intros [Hd _] Hh. unfold Async.handle, own_host in Hh. destruct e; cbn in Hh; rewrite ?Hd in Hh.
  all: injection Hh as _ <-; try destruct (le_io env); cbn; by repeat split.
Qed.

Lemma outage_step w0 c c' : step service_down ota_down c c' -> outage_inv w0 c -> outage_inv w0 c'.
Proof using Type.
  intros Hstep (Hf & Ha & Hs & Hl & Hc). destruct Hstep as
    [t w env X e k x w' Ht Hg Hh|t w env X e k x l Ht Hg Hh|t w env X e k x w' Ht Hg Hh|t w ev r _ Hr]; cbn in *.
  - destruct (outage_local env X e _ _ _ Hg Hh) as (Ef & Ea & Es). destruct Hc as (Hhb & Hc).
    rewrite Ht in Hhb. do 3 (split; [cbn; congruence|]). split; [done|]. split; [|done]. by eapply Hhb.
  - destruct Hc as (Hhb & Htel & Hota). rewrite Ht in Hota. destruct Hota as [_ Hota].
    specialize (Hota _ _ _ Hg Hh). do 3 (split; [done|]). split; [|done].
    by destruct (k x); destruct Hota.
  - destruct (outage_local env X e _ _ _ Hg Hh) as (Ef & Ea & Es). destruct Hc as (Hhb & Htel & Hc).
    rewrite Ht in Htel. do 3 (split; [cbn; congruence|]). split; [done|]. split; [done|]. split; [|done].
    by eapply Htel.
  - done.
Qed.

(** C12: the agent outlives an outage.  While neither service answers a stream,
    in every interleaving of the three tasks and however long it lasts, no task
    returns, so that nothing but Ctrl-C can end the agent; the services see
    nothing of it and their store does not change; and all the update loop has
    done is to wait 1, 2, 4, ... and then 60 seconds. *)
Theorem outage_outlived socket_path fuel (w0 : LoopWorld S) a w :
  rtc (step service_down ota_down)
    (Online (spawn_tasks int_text error_text id socket_path fuel), mkOnlineWorld w0 []) (a, w) ->
  (forall t ev, a = Online t -> happened t ev -> ev = CtrlC) /\
  frames_seen (loops w) = frames_seen w0 /\ acks_sent (loops w) = acks_sent w0 /\
  dms_store (loops w) = dms_store w0 /\ exists n, updates w = Slept <$> waits n.
Proof.
  intros Hr. assert (outage_inv w0 (a, w)) as (Hf & Ha & Hs & Hl & Hc).
  { apply (rtc_keeps _ (outage_inv w0) _ _ (outage_step w0) Hr).
    do 3 (split; [done|]). split; [by exists 0|]. split; [apply heartbeat_ends|].
    split; [apply telemetry_ends|]. by apply (ota_awp_down fuel 0). }
  split; [|done]. intros t ev -> Hev. destruct Hc as (Hhb & Htel & Hota).
  destruct ev as [|r|r|r]; [done|..]; cbn in Hev.
  - by rewrite Hev in Hhb.
  - rewrite Hev in Hota. by destruct Hota.
  - by rewrite Hev in Htel.
Qed.
End claims.
