(* ===== verification/AgentExamples.v ===== *)
(** * Worked examples of the agent

    The properties of [AgentClaims], [FirstBoot] and [LoopClaims] for a device
    that boots against the toy PKI and a service whose factory manifest lists
    it. *)

From Stdlib Require Import Reals.
From S2P Require Import Prelude F64 F64Bounds Sqlite Async Pki DeviceStore DeviceStoreSpec Grpc DmsEffects.
From S2P Require Import Enrollment Provisioning Heartbeat DmsServer RustStr DmsMain.
From S2P Require Import DeviceStoreSqlite ToyPki Admission Lockout AgentBoot AgentHeartbeat AgentWorld.
From S2P Require Import DmsTelemetry AgentLife AgentClaims FirstBoot LoopClaims DmsExamples.

Section examples.
#[local] Instance release : BuildProfile := false.
#[local] Existing Instance toy_pki.

Definition toy_vars (key : string) : option string :=
  if decide (key = "AGENT_DATA_DIR") then Some "/data"
  else if decide (key = "DEVICE_SERIAL") then Some "SN-1"
  else if decide (key = "PROVISION_TOKEN") then Some "tok"
  else if decide (key = "FLEET_CA_CERT_PEM") then Some "/ca.pem"
  else if decide (key = "PROVISIONING_ADDR") then Some "https://dms:8445"
  else if decide (key = "BOOTSTRAP_ADDR") then Some "https://dms:8444"
  else if decide (key = "FLEET_SERVICE_ADDR") then Some "https://dms:8443"
  else None.

Abbreviation W := (World (S := Mutex Tables)).
#[local] Instance toy_agent : HandlerIn AgentEnv AgentE W :=
  agent_handler toy_text toy_status_text toy_service toy_vars 18.

Definition agent_env (n : Net) : AgentEnv := mkAgentEnv _ (toy_env 100 "dev-1") (Ok tt) 0 (Ok "k") n.

(** Nothing fails, except that the reply to the [n]-th effect is lost. *)
Definition calm_envs (_ : nat) : AgentEnv := agent_env Delivered.
Definition lost_at (n : nat) (i : nat) : AgentEnv :=
  agent_env (if decide (i = n) then ReplyLost else Delivered).

Definition ca_disk : Disk := {["/ca.pem" := mkFile "fleet-ca" 420]}.
Definition fresh_world : W := mkWorld ca_disk manifest_store.

Definition toy_online : Online :=
  mkOnline "dev-1" ("SN-1|fleet-ca", "k") "https://dms:8443" "https://dms:8443".

Lemma fair_calm : fair_weather toy_service "SN-1" (fun env => exists n, env = calm_envs n).
Proof.
  split; try (intros env [n ->]; reflexivity).
  - intros env [n ->] x. reflexivity.
  - intros env [n ->]. exists "k", "SN-1", "SN-1". split; [reflexivity|]. split; [reflexivity|].
    split; [reflexivity|]. split; [discriminate|]. intros env' [n' ->]. split.
    + exists "SN-1|device-ca", [mkToyCert "SN-1" "device-ca" "SN-1|device-ca"]. by repeat split.
    + by exists "SN-1|fleet-ca".
Qed.

Lemma first_boot_witness :
  let r := Async.run agent_main calm_envs fresh_world in
  r.1 = Ok toy_online /\
  online toy_vars 18 "SN-1" "https://dms:8443" fresh_world r.1 r.2.
Proof.
  intros r. split; [reflexivity|].
  apply (first_boot toy_text toy_status_text toy_service toy_vars 18 "SN-1" "tok"
           (mkManifest "humanoid-v2" "tok" None)).
  - split; try reflexivity; try discriminate.
    split; reflexivity.
  - split; try reflexivity.
    + exists "/ca.pem", (mkFile "fleet-ca" 420). by split.
    + by eexists.
    + by eexists.
  - apply fair_calm.
  - intros n. reflexivity.
Defined.

(** The reply to the provisioning request, the fifteenth effect, is lost. *)
Definition unprovisioned : W := (Async.run agent_main (lost_at 14) fresh_world).2.

Lemma lost_provisioning_reply_witness :
  (Async.run agent_main calm_envs unprovisioned).1 =
    Err (Failed (AgentErr.Grpc (mkStatus AlreadyExists "SN-1"))) /\
  forall envs, ~ succeeded (Async.run agent_main envs unprovisioned).1.
Proof.
  split; [reflexivity|]. intros envs.
  apply (lost_provisioning_reply toy_text toy_status_text toy_service toy_vars 18 None "SN-1"
           unprovisioned unprovisioned envs).
  - reflexivity.
  - reflexivity.
  - exists (mkManifest "humanoid-v2" "tok" (Some 100%Z)). split; [reflexivity|]. by eexists.
  - apply rtc_refl.
Defined.

(** The reply to the enrollment request is lost. *)
Definition device_certs : list (@CertificateDer toy_pki) :=
  [mkToyCert "SN-1" "device-ca" "SN-1|device-ca"].
Definition unenrolled : W := (Async.run agent_main (lost_at 25) fresh_world).2.

Lemma lost_enrollment_reply_witness :
  (Async.run agent_main calm_envs unenrolled).1 =
    Err (Failed (AgentErr.Grpc (mkStatus AlreadyExists "SN-1"))) /\
  forall envs, ~ succeeded (Async.run agent_main envs unenrolled).1.
Proof.
  split; [reflexivity|]. intros envs.
  apply (lost_enrollment_reply toy_text toy_status_text toy_service toy_vars 18 None "SN-1"
           "SN-1|device-ca" device_certs unenrolled unenrolled envs).
  - reflexivity.
  - reflexivity.
  - reflexivity.
  - reflexivity.
  - exists (mkPreRow "humanoid-v2" 1). by split.
  - apply rtc_refl.
Defined.

(** The agent stops after it wrote [operational.pem]. *)
Definition half_enrolled : W := crash_after 28 agent_main calm_envs fresh_world.

Lemma enrolled_boot_witness :
  (Async.run agent_main calm_envs half_enrolled).1 =
    Err (Failed (AgentErr.Io "No such file or directory")) /\
  (Async.run agent_main calm_envs half_enrolled).2 = half_enrolled /\
  forall envs, ~ succeeded (Async.run agent_main envs half_enrolled).1.
Proof.
  assert (is_Some (disk half_enrolled !! "/data/device.pem")) as Hd
    by (exists (mkFile "SN-1|device-ca" 420); reflexivity).
  assert (is_Some (disk half_enrolled !! "/data/operational.pem")) as Hop
    by (exists (mkFile "SN-1|fleet-ca" 420); reflexivity).
  split; [reflexivity|]. split.
  - apply (enrolled_boot toy_text toy_status_text toy_service toy_vars 18 None half_enrolled half_enrolled
             calm_envs 0 Hd Hop).
  - intros envs.
    apply (enrolled_boot toy_text toy_status_text toy_service toy_vars 18 None half_enrolled half_enrolled
             envs 0 Hd Hop); [reflexivity|apply rtc_refl].
Defined.

(** ** Readings and acknowledgements *)

Definition stat_text : string := "cpu 10 20 30 40".
Definition meminfo_text : string := "MemTotal: 16".

Lemma readings_are_shares_witness :
  (exists x, read_cpu_usage (Some stat_text) = Ok x /\ percentage x (1 - 40 / 100)%R) /\
  (exists x, read_memory_usage (Some meminfo_text) = Ok x /\ percentage x (16 / 16)%R) /\
  option_map f64_bits (ok_opt (read_cpu_usage (Some stat_text))) = Some (f64_bits (f64_of_Z 60)).
Proof.
  destruct (readings_are_shares stat_text meminfo_text 16 0) as (Hcpu & Hmem & _).
  - vm_compute. discriminate.
  - vm_compute. reflexivity.
  - split; [exact Hcpu|]. split; [apply Hmem; discriminate|vm_compute; reflexivity].
Defined.

Definition empty_frame : TelemetryFrame := mkFrame "dev-1" None [] [] ∅.

Lemma frames_acknowledged_witness :
  (Async.run (HandlerIn0 := ack_handler)
     (stream_telemetry toy_status_text 0 ((inl <$> [empty_frame; empty_frame]) ++ []))
     (fun _ => toy_env 0 "u") []).2 =
  [Ok (mkTelemetryAck 1 false); Ok (mkTelemetryAck 2 false)].
Proof.
  apply (frames_acknowledged toy_status_text [empty_frame; empty_frame] [] (fun _ => toy_env 0 "u")).
  - intros i. reflexivity.
  - discriminate.
  - exact I.
Defined.
End examples.
