(* ===== verification/Testing.v ===== *)
(** * Running the repository's tests on the model

    A test is a program in the effects of what it tests, with assertions; it
    fails by a panic.  The [*Tests] files translate the tests of the Rust
    modules and prove that they pass in every environment without faults,
    whatever the clock, the ids that are drawn and, where the code is generic,
    the implementation of the store. *)

From stdpp Require Import pretty.
From S2P Require Import Prelude Sqlite Async DeviceStore DeviceStoreSpec DmsEffects Lockout DmsClaims.

(** ** The language of the tests *)

Definition Test (F : Type -> Type) (A : Type) : Type := Task F Empty_set A.

Definition unwrap {F E A} (t : Task F E A) : Test F A :=
  async_bind t (fun r => Done (match r with Ok a => Ok a | _ => Panic end)).
Definition unwrap_err {F E A} (t : Task F E A) : Test F E :=
  async_bind t (fun r => Done (match r with Err e => Ok e | _ => Panic end)).
(** [Option::unwrap]. *)
Definition unwrap_some {F A} (o : option A) : Test F A :=
  Done (match o with Some a => Ok a | None => Panic end).
Definition assert {F} (b : bool) : Test F unit := Done (if b then Ok tt else Panic).

Definition is_some {A} (o : option A) : bool := match o with Some _ => true | None => false end.

Notation "'assert_eq!' x y" := (assert (bool_decide (x = y))) (at level 10, x at level 9, y at level 9).

(** [for x in xs { body }], with the results of the body. *)
Fixpoint for_each {F A B} (xs : list A) (body : A -> Test F B) : Test F (list B) :=
  match xs with
  | [] => mret []
  | x :: xs => b ← body x; bs ← for_each xs body; mret (b :: bs)
  end.

(** [format!("{i:03}")]. *)
Definition pad3 (i : nat) : string :=
  let s := pretty i in
  match String.length s with 1 => "00" +:+ s | 2 => "0" +:+ s | _ => s end.

(** [tokio::join!] of two tasks, which run interleaved at their [.await]s: the
    schedule says whether the first one goes on, as long as both can. *)
Fixpoint join {F A B} (schedule : list bool) (t1 : async F A) (t2 : async F B) : async F (A * B) :=
  match schedule, t1, t2 with
  | true :: schedule, Await e k, _ => Await e (fun x => join schedule (k x) t2)
  | false :: schedule, _, Await e k => Await e (fun x => join schedule t1 (k x))
  | _, _, _ => let! a := t1 in let! b := t2 in Done (a, b)
  end.

Lemma join_done {F A B} schedule a b : join (F := F) (A := A) (B := B) schedule (Done a) (Done b) = Done (a, b).
Proof. by destruct schedule as [|[]]. Qed.

(** ** When a test passes *)

Section passes.
Context {En : Type} {F : Type -> Type} {S : Type} `{!HandlerIn En F S}.

Definition passes {A} (t : Test F A) (envs : nat -> En) (s : S) : Prop :=
  exists a, (Async.run t envs s).1 = Ok a.

(** An effect, and the rest of the test. *)
Lemma passes_await {X A} (e : F X) (k : X -> Test F A) envs s x s' :
  handle (envs 0) e s = (x, s') -> passes (k x) (fun n => envs (Datatypes.S n)) s' ->
  passes (Await e k) envs s.
Proof using Type. unfold passes. cbn. by intros ->. Qed.

Lemma passes_done {A} (a : A) envs s : passes (Done (Ok a) : Test F A) envs s.
Proof using Type. by exists a. Qed.
End passes.

(** ** Environments in which nothing fails *)

(** No fault, and each UUID drawn is new. *)
Record good_run (envs : nat -> Env) : Prop := {
  run_no_fault n : no_fault (envs n);
  run_fresh n m : fresh_uuid (envs n) = fresh_uuid (envs m) -> n = m;
  run_peer n : peer_alive (envs n) = true
}.

Lemma good_run_next envs : good_run envs -> good_run (fun n => envs (Datatypes.S n)).
Proof. intros [Hf Hu Hp]. split; [intros n; apply Hf|intros n m [=]%Hu; done|intros n; apply Hp]. Qed.

(** A fresh id is none of those drawn before. *)
Ltac fresh_ids :=
  cbn; repeat match goal with
    | |- _ ∉ _ :: _ => apply not_elem_of_cons; split
    | |- _ ∉ [] => apply not_elem_of_nil
    end;
  match goal with Hg : good_run _ |- _ <> _ => intros Hid%(run_fresh _ Hg); discriminate end.

(** ** A device store as the list of its rows *)

Section rows.
Context {S : Type} `{DeviceStoreSpec S}.

(** The stored devices are [ds], the pre-enrolled serials [pre]. *)
Record stores (s : S) (ds : list DeviceRecord) (pre : gmap string PreRow) : Prop := {
  st_healthy : healthy s;
  st_rows : device_rows (visible s) ≡ₚ ds;
  st_lookup i d : devices (visible s) !! i = Some d <-> d ∈ ds /\ id d = i;
  st_ids : NoDup (id <$> ds);
  st_serials : NoDup (serial <$> ds);
  st_pre : pre_enrollment (visible s) = pre
}.

Lemma stores_none s ds pre i :
  stores s ds pre -> i ∉ id <$> ds -> devices (visible s) !! i = None.
Proof using Type.
  intros Hs Hi. destruct (devices (visible s) !! i) as [d|] eqn:Hd; [|done].
  apply (st_lookup _ _ _ Hs) in Hd as [Hin <-]. destruct Hi. by apply list_elem_of_fmap_2.
Qed.

Lemma stores_serial s ds pre x :
  stores s ds pre -> x ∉ serial <$> ds -> device_with_serial x (visible s) = None.
Proof using Type.
  intros Hs Hx. apply device_with_serial_None. intros i d Hd Hser. apply Hx.
  apply (st_lookup _ _ _ Hs) in Hd as [Hin _]. subst x. by apply list_elem_of_fmap_2.
Qed.

Lemma stores_matching s ds pre m st c :
  stores s ds pre -> matching m st c (visible s) ≡ₚ filter (matches m st c) ds.
Proof using Type.
  intros Hs. unfold matching. by rewrite merge_sort_Permutation, (st_rows _ _ _ Hs).
Qed.

Lemma stores_empty s : healthy s -> visible s = empty_tables -> stores s [] ∅.
Proof using Type.
  intros Hh Hv. split; rewrite ?Hv; [done|done| |constructor|constructor|done].
  intros i d. cbn. rewrite lookup_empty. set_solver.
Qed.

Lemma stores_count s ds pre m st c :
  stores s ds pre -> length (matching m st c (visible s)) = length (List.filter (matches_b m st c) ds).
Proof using Type.
  intros Hs. rewrite (stores_matching _ _ _ _ _ _ Hs). clear Hs. induction ds as [|d ds IH]; [done|].
  rewrite filter_cons. cbn. pose proof (matches_b_spec m st c d). case_decide; case_match; cbn; naive_solver.
Qed.

Lemma stores_wf s ds pre : stores s ds pre -> Sqlite_.wf (visible s).
Proof using Type.
  intros Hs. pose proof (st_serials _ _ _ Hs) as Hnd. split.
  - intros i d Hd. by apply (st_lookup _ _ _ Hs) in Hd as [_ ?].
  - intros i1 i2 d1 d2 H1 H2 Hser. apply (st_lookup _ _ _ Hs) in H1 as [H1 <-], H2 as [H2 <-].
    apply list_elem_of_lookup in H1 as [n1 H1], H2 as [n2 H2].
    enough (n1 = n2) as -> by congruence.
    eapply NoDup_lookup; [exact Hnd|..]; rewrite list_lookup_fmap; [by rewrite H1|by rewrite H2, Hser].
Qed.

(** A row that is added. *)
Lemma stores_insert s s' ds pre d :
  stores s ds pre -> id d ∉ id <$> ds -> serial d ∉ serial <$> ds -> healthy s' ->
  visible s' = set_devices (<[id d := d]> (devices (visible s))) (visible s) ->
  stores s' (d :: ds) pre.
Proof using Type.
  intros Hs Hd Hser Hh Hv. pose proof (stores_none _ _ _ _ Hs Hd) as Hnone.
  split; [done|rewrite ?Hv; cbn..].
  - unfold device_rows. cbn. rewrite map_to_list_insert by done. cbn. apply Permutation_skip, (st_rows _ _ _ Hs).
  - intros i d'. rewrite lookup_insert. case_decide as Hi.
    + subst i. split; [intros [= <-]; split; [left|done]|]. intros [[->|Hin]%elem_of_cons Hid]; [done|].
      destruct Hd. rewrite <- Hid. by apply list_elem_of_fmap_2.
    + rewrite (st_lookup _ _ _ Hs), elem_of_cons. naive_solver.
  - constructor; [done|apply (st_ids _ _ _ Hs)].
  - constructor; [done|apply (st_serials _ _ _ Hs)].
  - apply (st_pre _ _ _ Hs).
Qed.

(** A row that is changed in place. *)
Definition at_id (i : string) (f : DeviceRecord -> DeviceRecord) (d : DeviceRecord) : DeviceRecord :=
  if decide (id d = i) then f d else d.

Lemma at_id_eq i f d : id d = i -> at_id i f d = f d.
Proof using Type. intros ?. unfold at_id. by rewrite decide_True. Qed.
Lemma at_id_ne i f d : id d <> i -> at_id i f d = d.
Proof using Type. intros ?. unfold at_id. by rewrite decide_False. Qed.

Lemma stores_update s s' ds pre i d f :
  stores s ds pre -> d ∈ ds -> id d = i ->
  (forall d, id (f d) = id d) -> (forall d, serial (f d) = serial d) -> healthy s' ->
  visible s' = set_devices (<[i := f d]> (devices (visible s))) (visible s) ->
  stores s' (at_id i f <$> ds) pre.
Proof using Type.
  intros Hs Hin Hid Hf Hser Hh Hv. pose proof (st_ids _ _ _ Hs) as Hids.
  assert (forall d', id (at_id i f d') = id d') as Hat by (intros d'; unfold at_id; by case_decide).
  assert (forall j d', devices (visible s') !! j = Some d' <-> d' ∈ at_id i f <$> ds /\ id d' = j) as Hlook.
  { intros j d'. rewrite Hv. cbn. rewrite lookup_insert. case_decide as Hj.
    - subst j. split.
      + intros [= <-]. split; [|by rewrite Hf]. apply list_elem_of_fmap. exists d. split; [|done].
        unfold at_id. by rewrite decide_True.
      + intros [(d2 & -> & Hd2)%list_elem_of_fmap E]. rewrite Hat in E. unfold at_id. rewrite decide_True by done.
        do 2 f_equal. apply list_elem_of_lookup in Hin as [n1 H1], Hd2 as [n2 H2].
        enough (n1 = n2) as -> by congruence.
        eapply NoDup_lookup; [exact Hids|..]; rewrite list_lookup_fmap; [by rewrite H1|].
        rewrite H2. cbn. congruence.
    - rewrite (st_lookup _ _ _ Hs), list_elem_of_fmap. split.
      + intros [Hd' E]. split; [|done]. exists d'. split; [|done]. unfold at_id. rewrite decide_False; congruence.
      + intros [(d2 & -> & Hd2) E]. rewrite Hat in E. unfold at_id in *. rewrite decide_False by congruence. done. }
  split; [done| |done| | |rewrite Hv; apply (st_pre _ _ _ Hs)].
  2: { rewrite <- list_fmap_compose. by rewrite (list_fmap_ext _ id) by (intros; apply Hat). }
  2: { rewrite <- list_fmap_compose. rewrite (list_fmap_ext _ serial); [apply (st_serials _ _ _ Hs)|].
       intros n d' _. cbn. unfold at_id. by case_decide. }
  apply NoDup_Permutation.
  - unfold device_rows. apply (NoDup_fmap_1 id). rewrite <- list_fmap_compose.
    rewrite (list_fmap_ext _ fst); [apply NoDup_fst_map_to_list|].
    intros n [j e] He. cbn. apply list_elem_of_lookup_2, elem_of_map_to_list in He. by apply Hlook in He as [_ ?].
  - apply (NoDup_fmap_1 id). rewrite <- list_fmap_compose. by rewrite (list_fmap_ext _ id) by (intros; apply Hat).
  - intros e. unfold device_rows. rewrite list_fmap_snd_map_to_list_elem. split.
    + intros [j Hj]. by apply Hlook in Hj as [? _].
    + intros He. exists (id e). by apply Hlook.
Qed.
(** *** Calls *)

(** A call without faults, and the rest of the test. *)
Lemma passes_store {A B} (c : StoreCall A) (k : outcome Error A -> Test DmsE B) envs s ds pre :
  stores s ds pre -> no_fault (envs 0) -> call_ok c ->
  (forall s', healthy s' -> visible s' = (spec (envs 0) c (visible s)).2 ->
     passes (k (spec (envs 0) c (visible s)).1) (fun n => envs (Datatypes.S n)) s') ->
  passes (Await (Store c) k) envs s.
Proof using Type.
  intros Hs Hf Hc Hk. destruct (store_call_calm c (envs 0) s (st_healthy _ _ _ Hs) Hf Hc) as (s' & Hrun & Hs' & Hv).
  eapply passes_await; [exact Hrun|]. by apply Hk.
Qed.

(** The row that a creation stores. *)
Definition created (env : Env) (d : NewDevice) : DeviceRecord :=
  let now := unix_timestamp (clock env) in
  mkDevice (fresh_uuid env) (nd_serial d) (nd_model d) (nd_firmware d) "active"
    (nd_operational_cert_pem d) now now.

Context {B : Type} (envs : nat -> Env) (s : S) (ds : list DeviceRecord) (pre : gmap string PreRow).
Context (Hs : stores s ds pre) (Hf : no_fault (envs 0)).
Abbreviation later := (fun n => envs (Datatypes.S n)).

Lemma passes_create d (k : outcome Error DeviceRecord -> Test DmsE B) :
  fresh_uuid (envs 0) ∉ id <$> ds -> nd_serial d ∉ serial <$> ds ->
  (forall s', stores s' (created (envs 0) d :: ds) pre -> passes (k (Ok (created (envs 0) d))) later s') ->
  passes (Await (Store (CreateDevice d)) k) envs s.
Proof using All.
  intros Hid Hser Hk. eapply passes_store; [done..|]. cbn. intros s' Hh Hv.
  rewrite decide_False in Hv |- *.
  2, 3: rewrite (stores_none _ _ _ _ Hs Hid), (stores_serial _ _ _ _ Hs Hser); by intros [[? ?]|[? ?]].
  apply Hk. by eapply (stores_insert s).
Qed.

Lemma passes_create_again d (k : outcome Error DeviceRecord -> Test DmsE B) :
  nd_serial d ∈ serial <$> ds ->
  (forall s', stores s' ds pre -> passes (k (Err (DmsErr.AlreadyEnrolled (nd_serial d)))) later s') ->
  passes (Await (Store (CreateDevice d)) k) envs s.
Proof using All.
  intros Hser Hk. eapply passes_store; [done..|]. cbn. intros s' Hh Hv.
  rewrite decide_True in Hv |- *.
  2, 3: right; destruct (device_with_serial (nd_serial d) (visible s)) as [|] eqn:Hd; [done|];
    apply list_elem_of_fmap in Hser as (d' & E & Hin); rewrite device_with_serial_None in Hd;
    destruct (Hd (id d') d'); [by apply (st_lookup _ _ _ Hs)|done].
  apply Hk. cbn in Hv. destruct Hs. split; by rewrite ?Hv.
Qed.

Lemma passes_get d (k : outcome Error DeviceRecord -> Test DmsE B) i :
  d ∈ ds -> id d = i ->
  (forall s', stores s' ds pre -> passes (k (Ok d)) later s') ->
  passes (Await (Store (GetDevice i)) k) envs s.
Proof using All.
  intros Hd Hi Hk. eapply passes_store; [done..|]. cbn. intros s' Hh Hv.
  rewrite (proj2 (st_lookup _ _ _ Hs i d)) by done. apply Hk. destruct Hs. split; by rewrite ?Hv.
Qed.

Lemma passes_get_none (k : outcome Error DeviceRecord -> Test DmsE B) i :
  i ∉ id <$> ds ->
  (forall s', stores s' ds pre -> passes (k (Err (DmsErr.NotFound i))) later s') ->
  passes (Await (Store (GetDevice i)) k) envs s.
Proof using All.
  intros Hi Hk. eapply passes_store; [done..|]. cbn. intros s' Hh Hv.
  rewrite (stores_none _ _ _ _ Hs Hi). apply Hk. destruct Hs. split; by rewrite ?Hv.
Qed.

Lemma passes_by_serial d (k : outcome Error DeviceRecord -> Test DmsE B) x :
  d ∈ ds -> serial d = x ->
  (forall s', stores s' ds pre -> passes (k (Ok d)) later s') ->
  passes (Await (Store (GetBySerial x)) k) envs s.
Proof using All.
  intros Hd Hx Hk. eapply passes_store; [done..|]. cbn. intros s' Hh Hv.
  assert (device_with_serial x (visible s) = Some d) as ->.
  { destruct (device_with_serial x (visible s)) as [d'|] eqn:Hd'.
    - apply device_with_serial_Some in Hd' as [E [i Hi]]. f_equal.
      apply (st_lookup _ _ _ Hs) in Hi as [Hin _]. pose proof (st_serials _ _ _ Hs) as Hnd.
      apply list_elem_of_lookup in Hd as [n1 H1], Hin as [n2 H2]. enough (n1 = n2) as -> by congruence.
      eapply NoDup_lookup; [exact Hnd|..]; rewrite list_lookup_fmap; [by rewrite H1|rewrite H2; cbn; congruence].
    - rewrite device_with_serial_None in Hd'. destruct (Hd' (id d) d); [|done]. by apply (st_lookup _ _ _ Hs). }
  apply Hk. destruct Hs. split; by rewrite ?Hv.
Qed.

Lemma passes_update_status d i st reason (k : outcome Error unit -> Test DmsE B) :
  d ∈ ds -> id d = i ->
  (forall s', stores s' (at_id i (Sqlite_.with_status st) <$> ds) pre -> passes (k (Ok tt)) later s') ->
  passes (Await (Store (UpdateStatus i st reason)) k) envs s.
Proof using All.
  intros Hd Hi Hk. eapply passes_store; [done..|]. cbn. intros s' Hh Hv.
  rewrite (proj2 (st_lookup _ _ _ Hs i d)) in Hv |- * by done. apply Hk. by eapply (stores_update s).
Qed.

Lemma passes_touch d i (k : outcome Error unit -> Test DmsE B) :
  d ∈ ds -> id d = i ->
  (forall s', stores s' (at_id i (Sqlite_.with_last_seen (unix_timestamp (clock (envs 0)))) <$> ds) pre ->
     passes (k (Ok tt)) later s') ->
  passes (Await (Store (TouchLastSeen i)) k) envs s.
Proof using All.
  intros Hd Hi Hk. eapply passes_store; [done..|]. cbn. intros s' Hh Hv.
  rewrite (proj2 (st_lookup _ _ _ Hs i d)) in Hv |- * by done. apply Hk. by eapply (stores_update s).
Qed.

Lemma passes_touch_none i (k : outcome Error unit -> Test DmsE B) :
  i ∉ id <$> ds ->
  (forall s', stores s' ds pre -> passes (k (Err (DmsErr.NotFound i))) later s') ->
  passes (Await (Store (TouchLastSeen i)) k) envs s.
Proof using All.
  intros Hi Hk. eapply passes_store; [done..|]. cbn. intros s' Hh Hv.
  rewrite (stores_none _ _ _ _ Hs Hi) in Hv |- *. apply Hk. destruct Hs. split; by rewrite ?Hv.
Qed.

(** A page that holds everything. *)
Lemma passes_list m st limit c (k : outcome Error Page -> Test DmsE B) :
  (0 <= limit < i64_max)%Z ->
  (forall s' p, stores s' ds pre -> p = page_of (Z.to_nat limit) (matching m st c (visible s)) ->
     visible s' = visible s -> passes (k (Ok p)) later s') ->
  passes (Await (Store (ListDevices m st limit c)) k) envs s.
Proof using All.
  intros Hl Hk. eapply passes_store; [done..|]. cbn. intros s' Hh Hv. cbn in Hv.
  apply Hk; [destruct Hs; split; by rewrite ?Hv|done..].
Qed.

Lemma passes_register x m (k : outcome Error unit -> Test DmsE B) :
  pre !! x = None ->
  (forall s', stores s' ds (<[x := mkPreRow m 0]> pre) -> passes (k (Ok tt)) later s') ->
  passes (Await (Store (RegisterSerial x m)) k) envs s.
Proof using All.
  intros Hx Hk. eapply passes_store; [done..|]. cbn. intros s' Hh Hv.
  rewrite (st_pre _ _ _ Hs), Hx in Hv |- *. cbn in *. apply Hk. destruct Hs. by split; rewrite ?Hv.
Qed.

Lemma passes_claim x row (k : outcome Error PreEnrollmentRecord -> Test DmsE B) :
  pre !! x = Some row -> claimed row = 0%Z ->
  (forall s', stores s' ds (<[x := mkPreRow (p_model row) 1]> pre) ->
     passes (k (Ok (mkPre x (p_model row)))) later s') ->
  passes (Await (Store (LookupAndClaim x)) k) envs s.
Proof using All.
  intros Hx Hc Hk. eapply passes_store; [done..|]. cbn. intros s' Hh Hv.
  rewrite (st_pre _ _ _ Hs), Hx, decide_True in Hv |- * by done. cbn in *. apply Hk.
  destruct Hs. by split; rewrite ?Hv.
Qed.

Lemma passes_claim_unknown x (k : outcome Error PreEnrollmentRecord -> Test DmsE B) :
  pre !! x = None ->
  (forall s', stores s' ds pre -> passes (k (Err (DmsErr.NotPreEnrolled x))) later s') ->
  passes (Await (Store (LookupAndClaim x)) k) envs s.
Proof using All.
  intros Hx Hk. eapply passes_store; [done..|]. cbn. intros s' Hh Hv.
  rewrite (st_pre _ _ _ Hs), Hx in Hv |- *. cbn in *. apply Hk. destruct Hs. by split; rewrite ?Hv.
Qed.

Lemma passes_claim_again x row (k : outcome Error PreEnrollmentRecord -> Test DmsE B) :
  pre !! x = Some row -> claimed row <> 0%Z ->
  (forall s', stores s' ds pre -> passes (k (Err (DmsErr.SerialAlreadyClaimed x))) later s') ->
  passes (Await (Store (LookupAndClaim x)) k) envs s.
Proof using All.
  intros Hx Hc Hk. eapply passes_store; [done..|]. cbn. intros s' Hh Hv.
  rewrite (st_pre _ _ _ Hs), Hx, decide_False in Hv |- * by done. cbn in *. apply Hk.
  destruct Hs. by split; rewrite ?Hv.
Qed.
End rows.

(** ** Running a test *)

(** Calls of the store one by one; what is left are assertions that do not
    evaluate. *)
Ltac no_fault_tac :=
  match goal with Hg : good_run _ |- no_fault _ => intros x; apply (run_no_fault _ Hg) end.
Ltac pick_row := constructor 1 + (constructor 2; pick_row).
Ltac on_row rule :=
  once (eapply rule; [eassumption|no_fault_tac|pick_row| |]; [reflexivity|]).
Ltac new_serial := cbn; rewrite ?not_elem_of_cons; repeat split; try discriminate; apply not_elem_of_nil.
Ltac call_rule :=
  match goal with
  | |- passes (Await (Store ?c) _) _ _ =>
      match c with
      | CreateDevice _ =>
          first [ eapply passes_create; [eassumption|no_fault_tac|fresh_ids|new_serial|]
                | eapply passes_create_again; [eassumption|no_fault_tac|cbn; pick_row|] ]
      | GetDevice _ =>
          first [ on_row passes_get
                | eapply passes_get_none; [eassumption|no_fault_tac|new_serial|] ]
      | GetBySerial _ => on_row passes_by_serial
      | UpdateStatus _ _ _ => on_row passes_update_status
      | TouchLastSeen _ =>
          first [ on_row passes_touch
                | eapply passes_touch_none; [eassumption|no_fault_tac|new_serial|] ]
      | RegisterSerial _ _ => eapply passes_register; [eassumption|no_fault_tac|reflexivity|]
      | LookupAndClaim _ =>
          first [ eapply passes_claim; [eassumption|no_fault_tac|reflexivity|reflexivity|]
                | eapply passes_claim_unknown; [eassumption|no_fault_tac|reflexivity|]
                | eapply passes_claim_again; [eassumption|no_fault_tac|reflexivity|discriminate|] ]
      end
  end.
(** Two ids that were drawn differ. *)
Ltac ids_differ :=
  cbn; match goal with Hg : good_run _ |- _ <> _ => intros Hid%(run_fresh _ Hg); discriminate end.
Ltac store_step :=
  call_rule; let s := fresh "s" in let Hs := fresh "Hs" in intros s Hs; cbn;
  cbn [fmap list_fmap] in Hs;
  repeat first [rewrite at_id_eq in Hs by reflexivity | rewrite at_id_ne in Hs by ids_differ].
Ltac call_step :=
  lazymatch goal with
  | |- passes (Await NowUtc _) _ _ => eapply passes_await; [reflexivity|]; cbn
  | |- passes (Await (Send _) _) _ _ =>
      eapply passes_await; [reflexivity|]; cbn;
      match goal with Hg : good_run _ |- _ => rewrite (run_peer _ Hg) end; cbn
  | _ => store_step
  end.
(** An assertion that holds. *)
Ltac check := rewrite bool_decide_eq_true_2 by (reflexivity || lia); cbn.
(** The calls and assertions of a test that need nothing else. *)
Ltac run_test := cbn; repeat first [rewrite join_done; cbn | check | call_step]; apply passes_done.
