(* ===== verification/StoreTests.v ===== *)
(** * The tests of the device store

    The test module of [src/device-management-service/src/store/mod.rs], test
    by test, and the theorem that they pass for every implementation of the
    store that meets the contract. *)

From S2P Require Import Prelude Sqlite Async DeviceStore DeviceStoreSpec DeviceStoreSqlite DmsEffects Lockout Paging DmsClaims Testing.

(** ** The tests *)

Module Store.
Definition new_device (serial : string) : NewDevice := mkNewDevice serial "humanoid-v2" "1.0.0" "fake-cert".

Definition is_already_enrolled (e : Error) : bool :=
  match e with DmsErr.AlreadyEnrolled _ => true | _ => false end.
Definition is_not_found (e : Error) : bool := match e with DmsErr.NotFound _ => true | _ => false end.
Definition is_not_pre_enrolled (e : Error) : bool :=
  match e with DmsErr.NotPreEnrolled _ => true | _ => false end.
Definition is_already_claimed (e : Error) : bool :=
  match e with DmsErr.SerialAlreadyClaimed _ => true | _ => false end.

Definition create_and_get_device : Test DmsE unit :=
  rec ← unwrap (store (CreateDevice (new_device "SN-001")));
  _ ← assert_eq! (serial rec) "SN-001";
  _ ← assert_eq! (status rec) "active";
  fetched ← unwrap (store (GetDevice (id rec)));
  assert_eq! (serial fetched) "SN-001".

Definition get_by_serial : Test DmsE unit :=
  _ ← unwrap (store (CreateDevice (new_device "SN-002")));
  rec ← unwrap (store (GetBySerial "SN-002"));
  assert_eq! (serial rec) "SN-002".

Definition create_duplicate_serial_returns_already_enrolled : Test DmsE unit :=
  _ ← unwrap (store (CreateDevice (new_device "SN-003")));
  err ← unwrap_err (store (CreateDevice (new_device "SN-003")));
  assert (is_already_enrolled err).

Definition get_not_found : Test DmsE unit :=
  err ← unwrap_err (store (GetDevice "no-such-id"));
  assert (is_not_found err).

Definition update_status_and_touch_last_seen : Test DmsE unit :=
  rec ← unwrap (store (CreateDevice (new_device "SN-004")));
  _ ← unwrap (store (UpdateStatus (id rec) "suspended" "maintenance"));
  updated ← unwrap (store (GetDevice (id rec)));
  _ ← assert_eq! (status updated) "suspended";
  _ ← unwrap (store (TouchLastSeen (id rec)));
  touched ← unwrap (store (GetDevice (id rec)));
  assert (bool_decide (last_seen_at rec <= last_seen_at touched)%Z).

Definition list_devices_with_filters : Test DmsE unit :=
  _ ← unwrap (store (CreateDevice (new_device "SN-010")));
  _ ← unwrap (store (CreateDevice (new_device "SN-011")));
  _ ← unwrap (store (CreateDevice (mkNewDevice "SN-012" "arm-v1" "0.1.0" "cert")));
  '(all, _) ← unwrap (store (ListDevices None None 10 None));
  _ ← assert_eq! (length all) 3;
  '(filtered, _) ← unwrap (store (ListDevices (Some "humanoid-v2") None 10 None));
  assert_eq! (length filtered) 2.

Definition list_devices_pagination : Test DmsE unit :=
  _ ← for_each (seq 0 5) (fun i =>
        unwrap (store (CreateDevice (new_device ("SN-PAG-" +:+ pad3 i)))));
  '(page1, cursor) ← unwrap (store (ListDevices None None 3 None));
  _ ← assert_eq! (length page1) 3;
  _ ← assert (is_some cursor);
  '(page2, cursor2) ← unwrap (store (ListDevices None None 3 cursor));
  _ ← assert_eq! (length page2) 2;
  assert (negb (is_some cursor2)).

Definition register_and_claim_serial : Test DmsE unit :=
  _ ← unwrap (store (RegisterSerial "SN-100" "humanoid-v2"));
  rec ← unwrap (store (LookupAndClaim "SN-100"));
  _ ← assert_eq! (pre_serial rec) "SN-100";
  assert_eq! (pre_model rec) "humanoid-v2".

Definition claim_unknown_serial_returns_not_pre_enrolled : Test DmsE unit :=
  err ← unwrap_err (store (LookupAndClaim "SN-GHOST"));
  assert (is_not_pre_enrolled err).

Definition claim_already_claimed_serial_returns_error : Test DmsE unit :=
  _ ← unwrap (store (RegisterSerial "SN-200" "humanoid-v2"));
  _ ← unwrap (store (LookupAndClaim "SN-200"));
  err ← unwrap_err (store (LookupAndClaim "SN-200"));
  assert (is_already_claimed err).

(** The two spawned tasks, interleaved in some way. *)
Definition concurrent_claim_only_one_succeeds (schedule : list bool) : Test DmsE unit :=
  _ ← unwrap (store (RegisterSerial "SN-RACE" "humanoid-v2"));
  let! rs := join schedule (store (LookupAndClaim "SN-RACE")) (store (LookupAndClaim "SN-RACE")) in
  let results := [rs.1; rs.2] in
  let successes := length (filter (fun r => is_ok r = true) results) in
  let failures := length (filter (fun r => is_ok r = false) results) in
  _ ← assert_eq! successes 1;
  assert_eq! failures 1.

(** The tests, each on a store of its own. *)
Definition tests (schedule : list bool) : list (Test DmsE unit) :=
  [create_and_get_device; get_by_serial; create_duplicate_serial_returns_already_enrolled;
   get_not_found; update_status_and_touch_last_seen; list_devices_with_filters;
   list_devices_pagination; register_and_claim_serial;
   claim_unknown_serial_returns_not_pre_enrolled; claim_already_claimed_serial_returns_error;
   concurrent_claim_only_one_succeeds schedule].
End Store.

(** ** They pass *)

Section pass.
Context {S : Type} `{DeviceStoreSpec S} (envs : nat -> Env) (Hg : good_run envs).
Context (Hclock : forall n m, n <= m -> (clock (envs n) <= clock (envs m))%Z).

Abbreviation fresh_store s := (stores s [] ∅).

Lemma simple_tests_pass (s : S) :
  fresh_store s ->
  Forall (fun t => passes t envs s)
    [Store.create_and_get_device; Store.get_by_serial;
     Store.create_duplicate_serial_returns_already_enrolled; Store.get_not_found;
     Store.register_and_claim_serial; Store.claim_unknown_serial_returns_not_pre_enrolled;
     Store.claim_already_claimed_serial_returns_error].
Proof using All.
  intros Hs. repeat constructor; cbv delta [
    Store.create_and_get_device Store.get_by_serial
     Store.create_duplicate_serial_returns_already_enrolled Store.get_not_found
     Store.register_and_claim_serial Store.claim_unknown_serial_returns_not_pre_enrolled
     Store.claim_already_claimed_serial_returns_error]; run_test.
Qed.

(** Two tasks with one effect each have two interleavings. *)
Lemma concurrent_claim_passes schedule (s : S) :
  fresh_store s -> passes (Store.concurrent_claim_only_one_succeeds schedule) envs s.
Proof using All.
  intros Hs. cbv delta [Store.concurrent_claim_only_one_succeeds]. cbn. call_step.
  destruct schedule as [|[|] [|[|] schedule]]; run_test.
Qed.

Lemma update_status_and_touch_last_seen_passes (s : S) :
  fresh_store s -> passes Store.update_status_and_touch_last_seen envs s.
Proof using All.
  intros Hs. cbv delta [Store.update_status_and_touch_last_seen]. cbn.
  do 5 (try check; call_step).
  rewrite bool_decide_eq_true_2; [apply passes_done|]. cbn. unfold unix_timestamp.
  apply Z.div_le_mono; [done|]. apply Hclock. lia.
Qed.

Lemma list_devices_with_filters_passes (s : S) :
  fresh_store s -> passes Store.list_devices_with_filters envs s.
Proof using All.
  intros Hs. cbv delta [Store.list_devices_with_filters]. cbn. do 3 call_step.
  eapply passes_list; [eassumption|no_fault_tac|done|]. intros s3 p3 Hs3 -> Hv3. cbn.
  rewrite length_take, (stores_count _ _ _ _ _ _ Hs2). check.
  eapply passes_list; [eassumption|no_fault_tac|done|]. intros s4 p4 Hs4 -> Hv4. cbn.
  rewrite length_take, (stores_count _ _ _ _ _ _ Hs3). check. apply passes_done.
Qed.

(** A page and the next of five rows. *)
Lemma list_devices_pagination_passes (s : S) :
  fresh_store s -> passes Store.list_devices_pagination envs s.
Proof using All.
  intros Hs. cbv delta [Store.list_devices_pagination]. cbn. do 5 call_step.
  eapply passes_list; [eassumption|no_fault_tac|done|]. intros s5 p5 Hs5 -> Hv5. cbn.
  pose proof (stores_count _ _ _ None None None Hs4) as Hlen.
  pose proof (matching_ordered None None _ (stores_wf _ _ _ Hs4)) as Hord.
  pose proof (fun k => matching_after None None k (visible s4)) as Hafter.
  destruct (matching None None None (visible s4)) as [|a [|b [|c [|d [|e [|]]]]]]; try done. cbn.
  change (Pos.to_nat 3) with 3. cbn.
  eapply passes_list; [eassumption|no_fault_tac|done|]. intros s6 p6 Hs6 -> Hv6.
  rewrite decide_True by lia. change (Z.to_nat 3) with 3. cbn -[matching page_of]. rewrite Hv5, Hafter.
  change ([a; b; c; d; e]) with (([a; b] ++ [c]) ++ [d; e]).
  rewrite (after_prefix id str_lt) by done. cbn. apply passes_done.
Qed.

(** They pass for every implementation of the store that keeps the trait's
    contract. *)
Lemma contract_passes_store_tests schedule (s : S) :
  healthy s -> visible s = empty_tables -> Forall (fun t => passes t envs s) (Store.tests schedule).
Proof using All.
  intros Hh Hv. pose proof (stores_empty s Hh Hv) as Hs.
  pose proof (simple_tests_pass s Hs) as Hsimple. unfold Store.tests.
  repeat (apply Forall_cons in Hsimple as [? Hsimple]). repeat constructor; try done.
  - by apply update_status_and_touch_last_seen_passes.
  - by apply list_devices_with_filters_passes.
  - by apply list_devices_pagination_passes.
  - by apply concurrent_claim_passes.
Qed.
End pass.

(** C39: the repository's tests of the device store pass on a new, empty SQLite
    store, [SqliteDeviceStore::new(":memory:")], its SQL statements included,
    in every environment in which nothing fails, new ids are new and the clock
    does not run backwards: their outcome depends neither on the time nor on
    the ids that are drawn, nor on how two concurrent claims interleave. *)
Theorem device_store_tests_pass `{BuildProfile} (envs : nat -> Env) schedule :
  good_run envs -> (forall n m, n <= m -> (clock (envs n) <= clock (envs m))%Z) ->
  Forall (fun t => passes t envs (Sqlite_.new empty_tables)) (Store.tests schedule).
Proof. intros Hg Hclock. by apply contract_passes_store_tests. Qed.
