(* ===== verification/DmsTests.v ===== *)
(** * The unit tests of the device-management handlers

    The test modules of [src/device-management-service/src/enrollment/mod.rs],
    [server/mod.rs] and [heartbeat/mod.rs], on mock stores.  The certificates
    that the tests make with rcgen are given by what the tests rely on. *)

From S2P Require Import Prelude Sqlite Async Pki DeviceStore DeviceStoreSpec Grpc DmsEffects.
From S2P Require Import Enrollment Heartbeat DmsServer Testing StoreTests.

(** ** [MockDeviceStore] *)

(** The expectations that a test sets; a call without one panics. *)
Record Mock := mkMock {
  expect_create_device : option (NewDevice -> outcome Error DeviceRecord);
  expect_get_device : option (string -> outcome Error DeviceRecord);
  expect_update_status : option (string -> string -> string -> outcome Error unit);
  expect_touch_last_seen : option (string -> outcome Error unit);
  expect_list_devices : option (outcome Error Page);
  expect_lookup_and_claim : option (string -> outcome Error PreEnrollmentRecord)
}.

Definition mock_new : Mock := mkMock None None None None None None.

(** The state counts the calls of [touch_last_seen]. *)
Definition mock_call {A} (touches : nat) (e : option (outcome Error A)) : ST nat Error A :=
  fun n => (default Panic e, touches + n).

Definition mock_store (m : Mock) : DeviceStore nat := {|
  create_device _ d := mock_call 0 (expect_create_device m ≫= fun f => Some (f d));
  DeviceStore.get_device _ i := mock_call 0 (expect_get_device m ≫= fun f => Some (f i));
  get_by_serial _ _ := mock_call 0 None;
  update_status _ i st r := mock_call 0 (expect_update_status m ≫= fun f => Some (f i st r));
  touch_last_seen _ i := mock_call 1 (expect_touch_last_seen m ≫= fun f => Some (f i));
  DeviceStore.list_devices _ _ _ _ _ := mock_call 0 (expect_list_devices m);
  register_serial _ _ _ := mock_call 0 None;
  lookup_and_claim _ s := mock_call 0 (expect_lookup_and_claim m ≫= fun f => Some (f s));
  count_devices _ := mock_call 0 None;
  seed_manifest _ _ _ _ := mock_call 0 None;
  claim_manifest_entry _ _ _ := mock_call 0 None
|}.

(** A test on a mock store. *)
Definition mock_passes {A} (m : Mock) (t : Test DmsE A) (envs : nat -> Env) : Prop :=
  passes (HandlerIn0 := dms_handler (H := mock_store m)) t envs 0.

(** [s.contains(needle)]. *)
Definition contains (needle s : string) : bool := is_some (String.index 0 needle s).

(** ** Enrollment *)

Module Enroll.
Section tests.
Context `{PkiLib} (fleet_ca_pem fleet_ca_key csr : string).

Definition leaf_der (leaf_pem : string) : Test DmsE (list CertificateDer) :=
  for_each (pemfile_certs leaf_pem) (fun r => unwrap (pure_code r)).

Definition svc : EnrollmentService := mkEnrollmentService fleet_ca_pem fleet_ca_key 30.

Definition mock_success : Mock :=
  mkMock
    (Some (fun d => Ok (mkDevice "dev-uuid-1" (nd_serial d) (nd_model d) (nd_firmware d) "active"
                          (nd_operational_cert_pem d) 0 0)))
    None None None None
    (Some (fun s => Ok (mkPre s "humanoid-v2"))).

Definition bootstrap_enroll_success (device_ca_pem leaf_pem : string) : Test DmsE unit :=
  certs ← leaf_der leaf_pem;
  result ← unwrap (Enrollment.bootstrap_enroll svc "" csr "1.0.0" certs device_ca_pem);
  _ ← assert_eq! (device_id result) "dev-uuid-1";
  assert (contains "CERTIFICATE" (er_operational_cert_pem result)).

Definition is_serial_mismatch (e : Error) : bool :=
  match e with DmsErr.SerialMismatch _ _ => true | _ => false end.
Definition is_cert_verification (e : Error) : bool :=
  match e with DmsErr.CertVerification _ => true | _ => false end.
Definition is_not_active (e : Error) : bool :=
  match e with DmsErr.DeviceNotActive _ => true | _ => false end.

Definition bootstrap_enroll_serial_mismatch_rejected (device_ca_pem leaf_pem : string) : Test DmsE unit :=
  certs ← leaf_der leaf_pem;
  err ← unwrap_err (Enrollment.bootstrap_enroll svc "SN-WRONG" csr "1.0.0" certs device_ca_pem);
  assert (is_serial_mismatch err).

Definition bootstrap_enroll_wrong_ca_rejected (wrong_ca_pem leaf_pem : string) : Test DmsE unit :=
  certs ← leaf_der leaf_pem;
  err ← unwrap_err (Enrollment.bootstrap_enroll svc "" csr "1.0.0" certs wrong_ca_pem);
  assert (is_cert_verification err).

Definition mock_suspended : Mock :=
  mkMock None
    (Some (fun id => Ok (mkDevice id "SN-X" "humanoid-v2" "1.0.0" "suspended" "cert" 0 0)))
    None None None None.

Definition renew_cert_inactive_device_rejected : Test DmsE unit :=
  err ← unwrap_err (Enrollment.renew_cert svc "dev-id" csr);
  assert (is_not_active err).
End tests.
End Enroll.

(** ** The server *)

Module Server.
Section tests.
Context `{PkiLib} (rt : RusqliteError -> string) (fleet_ca_pem fleet_ca_key : string).

Definition server : DeviceManagementServer :=
  new_server fleet_ca_pem fleet_ca_key "fake-device-ca" 30.

Definition sample_record (id : string) : DeviceRecord :=
  mkDevice id "SN-TEST" "humanoid-v2" "1.0.0" "active" "cert" 0 0.

Definition mock_get : Mock :=
  mkMock None (Some (fun id => Ok (sample_record id))) None None None None.

Definition get_device_returns_device_info : Test DmsE unit :=
  resp ← unwrap (DmsServer.get_device rt (mkGetReq "dev-abc"));
  _ ← assert_eq! (di_device_id resp) "dev-abc";
  assert_eq! (di_status resp) "active".

Definition mock_ghost : Mock :=
  mkMock None (Some (fun id => Err (DmsErr.NotFound id))) None None None None.

Definition get_device_not_found_returns_not_found_status : Test DmsE unit :=
  err ← unwrap_err (DmsServer.get_device rt (mkGetReq "ghost"));
  assert_eq! (code err) NotFound.

Definition mock_update : Mock :=
  mkMock None (Some (fun id => Ok (Sqlite_.with_status "suspended" (sample_record id))))
    (Some (fun _ _ _ => Ok tt)) None None None.

Definition update_device_status_returns_updated_device : Test DmsE unit :=
  resp ← unwrap (DmsServer.update_device_status rt (mkUpdateReq "dev-1" "suspended" "maintenance"));
  device ← unwrap_some (ur_device resp);
  assert_eq! (di_status device) "suspended".

Definition mock_list : Mock :=
  mkMock None None None None (Some (Ok ([sample_record "d1"; sample_record "d2"], None))) None.

Definition list_devices_returns_records : Test DmsE unit :=
  resp ← unwrap (DmsServer.list_devices rt (mkListReq "" "" 10 ""));
  assert_eq! (length (lr_devices resp)) 2.
End tests.
End Server.

(** ** Heartbeats *)

Module Beats.
Section tests.
Context (status_text : Status -> string).

(** The readings as the bits of the doubles 40.0 and 80.0. *)
Definition make_request (cpu : Z) : HeartbeatRequest :=
  mkHeartbeatReq "dev-1" None cpu 4630826316843712512 4635329916471083008 "ok" ∅.

(** What the handler leaves for [rx] and in the mock. *)
Definition handled (m : Mock) (stream : list Item) (envs : nat -> Env) :
  nat * list (outcome Status HeartbeatResponse) :=
  (Async.run (HandlerIn0 := logged_handler (H := mock_store m)) (Heartbeat.handle status_text stream)
     envs (0, [])).2.

Definition mock_touch : Mock := mkMock None None None (Some (fun _ => Ok tt)) None None.

(** The doubles 10.0, 20.0 and 30.0; [times(3)] is checked when the mock is
    dropped. *)
Definition heartbeat_touch_last_seen_called_per_message (envs : nat -> Env) : bool :=
  let '(touches, responses) :=
    handled mock_touch (inl <$> [make_request 4621819117588971520; make_request 4626322717216342016;
                                 make_request 4629137466983448576]) envs in
  bool_decide (length responses = 3) && forallb is_ok responses && bool_decide (touches = 3).

Definition mock_ghost : Mock := mkMock None None None (Some (fun id => Err (DmsErr.NotFound id))) None None.

(** The double 50.0. *)
Definition heartbeat_not_found_closes_stream_with_error (envs : nat -> Env) : bool :=
  let '(_, responses) := handled mock_ghost [inl (make_request 4632233691727265792)] envs in
  match head responses with
  | Some (Err e) => bool_decide (code e = NotFound)
  | _ => false
  end.
End tests.
End Beats.

(** ** They pass *)

Section pass.
Context `{PkiLib, BuildProfile} (rt : RusqliteError -> string) (stx : Status -> string) (envs : nat -> Env).

(** The names for which the tests make certificates. *)
Definition named : list string := ["SN-ENROLL-001"; "SN-REAL"; "SN-WRONGCA"].

(** What rcgen gives the tests: for each name a Device CA and a leaf signed
    by it, another CA, and a Fleet CA that signs the request to a PEM text. *)
Record rcgen_made (device_ca leaf : string -> string) (certs : string -> list CertificateDer)
    (other_ca fleet_ca_pem fleet_ca_key csr : string) : Prop := {
  made_leaf serial : serial ∈ named -> pemfile_certs (leaf serial) = Ok <$> certs serial;
  made_name serial : serial ∈ named -> Mtls.extract_serial (certs serial) = Ok serial;
  made_signed serial : serial ∈ named -> Mtls.verify_signed_by (certs serial) (device_ca serial) = Ok tt;
  made_other serial : serial ∈ named -> exists e, Mtls.verify_signed_by (certs serial) other_ca = Err e;
  made_cert n : exists op, sign (Enroll.svc fleet_ca_pem fleet_ca_key) (clock (envs n)) csr = Ok op /\
    contains "CERTIFICATE" op = true
}.

Lemma leaf_der_made pem certs :
  pemfile_certs pem = Ok <$> certs -> Enroll.leaf_der pem = Done (Ok certs).
Proof using Type.
  unfold Enroll.leaf_der. intros ->. induction certs as [|c certs IH]; [done|].
  cbn in *. by rewrite IH.
Qed.

#[local] Opaque contains.
#[local] Arguments Enroll.leaf_der : simpl never.
#[local] Arguments sign : simpl never.

(** The repository's unit tests of the handlers pass.  On the mock stores
    that the tests set up, with certificates as rcgen makes them, at any time:
    enrollment takes the device id from the store and rejects a serial that
    differs and a certificate of another CA before it calls the store (whose
    mock would panic); renewal rejects a suspended device; the server's reads,
    updates and listings translate rows and errors; and a heartbeat stream
    touches the device once per message and ends with [NotFound] for an unknown
    one. *)
Theorem dms_unit_tests_pass device_ca leaf certs other_ca fleet_ca_pem fleet_ca_key csr :
  rcgen_made device_ca leaf certs other_ca fleet_ca_pem fleet_ca_key csr ->
  (forall n, peer_alive (envs n) = true) ->
  mock_passes Enroll.mock_success
    (Enroll.bootstrap_enroll_success fleet_ca_pem fleet_ca_key csr
       (device_ca "SN-ENROLL-001") (leaf "SN-ENROLL-001")) envs /\
  mock_passes mock_new
    (Enroll.bootstrap_enroll_serial_mismatch_rejected fleet_ca_pem fleet_ca_key csr
       (device_ca "SN-REAL") (leaf "SN-REAL")) envs /\
  mock_passes mock_new
    (Enroll.bootstrap_enroll_wrong_ca_rejected fleet_ca_pem fleet_ca_key csr other_ca (leaf "SN-WRONGCA")) envs /\
  mock_passes Enroll.mock_suspended
    (Enroll.renew_cert_inactive_device_rejected fleet_ca_pem fleet_ca_key csr) envs /\
  mock_passes Server.mock_get (Server.get_device_returns_device_info rt) envs /\
  mock_passes Server.mock_ghost (Server.get_device_not_found_returns_not_found_status rt) envs /\
  mock_passes Server.mock_update (Server.update_device_status_returns_updated_device rt) envs /\
  mock_passes Server.mock_list (Server.list_devices_returns_records rt) envs /\
  Beats.heartbeat_touch_last_seen_called_per_message stx envs = true /\
  Beats.heartbeat_not_found_closes_stream_with_error stx envs = true.
Proof using Type.
  intros [Hleaf Hcn Hver Hother Hcert] Hpeer. split; [|split; [|split]].
  - destruct (Hcert 1) as (op & Hsign & Hop). unfold mock_passes, passes, Enroll.bootstrap_enroll_success.
    rewrite (leaf_der_made _ _ (Hleaf "SN-ENROLL-001" ltac:(pick_row))). cbn.
    rewrite Hcn by pick_row. cbn. rewrite Hver by pick_row. cbn.
    rewrite bool_decide_eq_false_2 by naive_solver. cbn. rewrite Hsign. cbn. rewrite Hop. by eexists.
  - unfold mock_passes, passes, Enroll.bootstrap_enroll_serial_mismatch_rejected.
    rewrite (leaf_der_made _ _ (Hleaf "SN-REAL" ltac:(pick_row))). cbn. rewrite Hcn by pick_row. cbn.
    rewrite bool_decide_eq_true_2 by done. by eexists.
  - destruct (Hother "SN-WRONGCA" ltac:(pick_row)) as [e He].
    unfold mock_passes, passes, Enroll.bootstrap_enroll_wrong_ca_rejected.
    rewrite (leaf_der_made _ _ (Hleaf "SN-WRONGCA" ltac:(pick_row))). cbn. rewrite Hcn by pick_row. cbn.
    rewrite bool_decide_eq_false_2 by naive_solver. cbn. rewrite He. by eexists.
  - do 5 (split; [eexists; reflexivity|]).
    unfold Beats.heartbeat_touch_last_seen_called_per_message, Beats.heartbeat_not_found_closes_stream_with_error.
    unfold Beats.handled. cbn. by repeat (rewrite !Hpeer; cbn).
Qed.
End pass.
