(* ===== verification/GrpcTests.v ===== *)
(** * The integration tests of the device-management service

    [src/device-management-service/tests/grpc_integration.rs]: a server on a
    port that trusts the Device CA, an empty store, and clients that enroll,
    read, list, renew and send heartbeats.  The certificates that the tests
    make with rcgen are given by what the tests rely on; the transport delivers
    requests and hands the client's certificates to the server. *)

From S2P Require Import Prelude Sqlite Async Pki DeviceStore DeviceStoreSpec Grpc DmsEffects.
From S2P Require Import Enrollment Provisioning Heartbeat DmsServer Lockout Paging DmsClaims Testing DmsTests.

(** ** Clients *)

(** A handler with the messages that its response stream took. *)
Fixpoint collect {A} (t : async DmsE A) (sent : list (outcome Status HeartbeatResponse)) :
  async DmsE (list (outcome Status HeartbeatResponse)) :=
  match t with
  | Done _ => Done sent
  | Await e k =>
      let go x sent := collect (k x) sent in
      match e in DmsE X return (X -> _ -> async DmsE (list (outcome Status HeartbeatResponse))) -> _ with
      | Store c => fun go => Await (Store c) (fun r => go r sent)
      | NowUtc => fun go => Await NowUtc (fun n => go n sent)
      | Send m => fun go => Await (Send m) (fun ok : bool => go ok (if ok then sent ++ [m] else sent))
      | Ack m => fun go => Await (Ack m) (fun ok => go ok sent)
      end go
  end.

Module Grpc_.
Section tests.
Context `{PkiLib, BuildProfile} (rt : RusqliteError -> string) (stx : Status -> string).
(** [build_test_certs], the leaf certificate of each serial, and the requests
    that successive calls of [make_csr] make. *)
Context (fleet_ca_cert_pem fleet_ca_key_pem device_ca_cert_pem : string).
Context (certs : string -> list CertificateDer) (make_csr : string -> nat -> string).

(** [start_server] with the Device CA as the root of client certificates. *)
Definition start_server : Service :=
  start_service fleet_ca_cert_pem fleet_ca_key_pem device_ca_cert_pem "" 30.

Definition request (r : Rpc) : Task DmsE Status Reply := serve rt stx start_server (BootstrapPort, r).

(** The calls of the client, whose channel presents the leaf of [serial]. *)
Definition client_enroll (serial : string) : Task DmsE Status BootstrapEnrollResponse :=
  reply ← request (BootstrapEnroll (Some (certs serial))
            (mkBootstrapReq (make_csr serial 0) "humanoid-v2" "1.0.0" ∅ serial));
  match reply with BootstrapReply r => mret r | _ => Done Panic end.
Definition client_get (device_id : string) : Task DmsE Status DeviceInfo :=
  reply ← request (GetDeviceRpc (mkGetReq device_id));
  match reply with DeviceReply r => mret r | _ => Done Panic end.
Definition client_list (req : ListDevicesRequest) : Task DmsE Status ListDevicesResponse :=
  reply ← request (ListDevicesRpc req);
  match reply with ListReply r => mret r | _ => Done Panic end.
Definition client_renew (req : RenewCertRequest) : Task DmsE Status RenewCertResponse :=
  reply ← request (RenewCert req);
  match reply with RenewReply r => mret r | _ => Done Panic end.
Definition client_heartbeats (pings : list HeartbeatRequest) :
  Test DmsE (list (outcome Status HeartbeatResponse)) :=
  let stream : list Item := inl <$> pings in
  let! sent := collect (stream_heartbeat stx stream) [] in Done (Ok sent).

Definition bootstrap_enroll_full_flow : Test DmsE unit :=
  _ ← unwrap (store (RegisterSerial "SN-INT-001" "humanoid-v2"));
  resp ← unwrap (client_enroll "SN-INT-001");
  _ ← assert (negb (bool_decide (br_device_id resp = "")));
  _ ← assert (contains "CERTIFICATE" (br_operational_cert_pem resp));
  assert (contains "CERTIFICATE" (br_fleet_ca_chain_pem resp)).

Definition bootstrap_enroll_replay_rejected : Test DmsE unit :=
  _ ← unwrap (store (RegisterSerial "SN-INT-REPLAY" "humanoid-v2"));
  _ ← unwrap (client_enroll "SN-INT-REPLAY");
  err ← unwrap_err (client_enroll "SN-INT-REPLAY");
  assert_eq! (code err) AlreadyExists.

(** The two requests, interleaved in some way. *)
Definition concurrent_bootstrap_enroll_only_one_wins (schedule : list bool) : Test DmsE unit :=
  _ ← unwrap (store (RegisterSerial "SN-INT-RACE" "humanoid-v2"));
  let! rs := join schedule (client_enroll "SN-INT-RACE") (client_enroll "SN-INT-RACE") in
  let results := [is_ok rs.1; is_ok rs.2] in
  assert_eq! (length (List.filter (fun b => b) results)) 1.

Definition get_device_after_enroll : Test DmsE unit :=
  _ ← unwrap (store (RegisterSerial "SN-INT-GET" "humanoid-v2"));
  enroll_resp ← unwrap (client_enroll "SN-INT-GET");
  device ← unwrap (client_get (br_device_id enroll_resp));
  _ ← assert_eq! (di_device_id device) (br_device_id enroll_resp);
  _ ← assert_eq! (di_serial device) "SN-INT-GET";
  assert_eq! (di_status device) "active".

Definition update_status_and_list_devices : Test DmsE unit :=
  _ ← for_each (seq 0 3) (fun i => unwrap (store (RegisterSerial ("SN-LIST-" +:+ pad3 i) "humanoid-v2")));
  enrolled_ids ← for_each (seq 0 3) (fun i =>
                   resp ← unwrap (client_enroll ("SN-LIST-" +:+ pad3 i));
                   mret (br_device_id resp));
  first ← unwrap_some (head enrolled_ids);
  _ ← unwrap (request (UpdateDeviceStatus (mkUpdateReq first "suspended" "test")));
  all ← unwrap (client_list (mkListReq "humanoid-v2" "" 10 ""));
  _ ← assert_eq! (length (lr_devices all)) 3;
  active_only ← unwrap (client_list (mkListReq "" "active" 10 ""));
  assert_eq! (length (lr_devices active_only)) 2.

Definition renew_cert_after_enroll : Test DmsE unit :=
  _ ← unwrap (store (RegisterSerial "SN-INT-RENEW" "humanoid-v2"));
  enroll_resp ← unwrap (client_enroll "SN-INT-RENEW");
  renew_resp ← unwrap (client_renew (mkRenewReq (br_device_id enroll_resp) (make_csr "SN-INT-RENEW" 1)));
  _ ← assert (contains "CERTIFICATE" (rr_operational_cert_pem renew_resp));
  assert (negb (bool_decide (rr_operational_cert_pem renew_resp = br_operational_cert_pem enroll_resp))).

(** The doubles 0.0, 10.0 and 20.0; 50.0 and 90.0; 1.0 and 100.0. *)
Definition ping (device_id : string) (cpu : Z) : HeartbeatRequest :=
  mkHeartbeatReq device_id None cpu 4632233691727265792 4636033603912859648 "ok" ∅.

Definition stream_heartbeat_updates_last_seen : Test DmsE unit :=
  _ ← unwrap (store (RegisterSerial "SN-INT-HB" "humanoid-v2"));
  enroll_resp ← unwrap (client_enroll "SN-INT-HB");
  let device_id := br_device_id enroll_resp in
  before ← unwrap (store (GetDevice device_id));
  responses ← client_heartbeats (ping device_id <$> [0; 4621819117588971520; 4626322717216342016]%Z);
  _ ← assert (forallb is_ok (take 3 responses));
  _ ← assert_eq! (length (take 3 responses)) 3;
  after ← unwrap (store (GetDevice device_id));
  assert (bool_decide (last_seen_at before <= last_seen_at after)%Z).

Definition stream_heartbeat_unknown_device_returns_not_found : Test DmsE unit :=
  _ ← unwrap (store (RegisterSerial "SN-INT-HB-GHOST-AUTH" "humanoid-v2"));
  _ ← unwrap (client_enroll "SN-INT-HB-GHOST-AUTH");
  responses ← client_heartbeats
    [mkHeartbeatReq "ghost-device-id" None 4607182418800017408 4607182418800017408 4636737291354636288 "ok" ∅];
  first ← unwrap_some (head responses);
  err ← unwrap_err (pure_code first);
  assert_eq! (code err) NotFound.

Definition tests (schedule : list bool) : list (Test DmsE unit) :=
  [bootstrap_enroll_full_flow; bootstrap_enroll_replay_rejected;
   concurrent_bootstrap_enroll_only_one_wins schedule; get_device_after_enroll;
   update_status_and_list_devices; renew_cert_after_enroll; stream_heartbeat_updates_last_seen;
   stream_heartbeat_unknown_device_returns_not_found].
End tests.
End Grpc_.

(** ** They pass *)

Section pass.
Context `{PkiLib, BuildProfile} {S : Type} `{DeviceStoreSpec S} (rt : RusqliteError -> string) (stx : Status -> string).
Context (fleet_ca_cert_pem fleet_ca_key_pem device_ca_cert_pem : string).
Context (certs : string -> list CertificateDer) (make_csr : string -> nat -> string).
Context (envs : nat -> Env) (issued : nat -> string -> nat -> string).

(** What the tests rely on of rcgen and of the UUIDs: leaves that carry their
    serial and verify, a Fleet CA that signs requests to PEM texts, and other
    texts for other requests. *)
Record harness : Prop := {
  h_name serial : serial <> "" -> Mtls.extract_serial (certs serial) = Ok serial;
  h_signed serial : Mtls.verify_signed_by (certs serial) device_ca_cert_pem = Ok tt;
  h_cert n serial k :
    sign (mkEnrollmentService fleet_ca_cert_pem fleet_ca_key_pem 30) (clock (envs n)) (make_csr serial k) =
      Ok (issued n serial k);
  h_pem n serial k : contains "CERTIFICATE" (issued n serial k) = true;
  h_ca : contains "CERTIFICATE" fleet_ca_cert_pem = true;
  h_distinct n m serial : issued n serial 1 <> issued m serial 0;
  h_uuid n : fresh_uuid (envs n) <> "" /\ fresh_uuid (envs n) <> "ghost-device-id"
}.

Context (Hh : harness) (Hg : good_run envs).
Context (Hclock : forall n m, n <= m -> (clock (envs n) <= clock (envs m))%Z).

#[local] Opaque contains.
#[local] Arguments Mtls.extract_serial : simpl never.
#[local] Arguments Mtls.verify_signed_by : simpl never.
#[local] Arguments sign : simpl never.

Abbreviation T f := (f rt stx fleet_ca_cert_pem fleet_ca_key_pem device_ca_cert_pem certs make_csr).
Abbreviation fresh_store s := (stores s [] ∅).

(** The answers of the PKI, and the calls and assertions of a test. *)
Ltac pki :=
  first [ rewrite (h_name Hh) by discriminate; cbn; rewrite bool_decide_eq_false_2 by naive_solver; cbn
        | rewrite (h_signed Hh); cbn | rewrite (h_cert Hh); cbn | rewrite (h_pem Hh); cbn
        | rewrite (h_ca Hh); cbn
        | rewrite bool_decide_eq_false_2 by (apply (h_uuid Hh) || apply (h_distinct Hh) || naive_solver); cbn
        | rewrite join_done; cbn ].
Ltac one_step :=
  lazymatch goal with
  | |- passes (Await _ _) _ _ => call_step
  | |- passes _ _ _ => first [check | pki]
  end.
Ltac steps := cbn; repeat one_step.

Ltac run_grpc := steps; apply (passes_done tt).

Lemma simple_grpc_tests_pass (s : S) :
  fresh_store s ->
  Forall (fun t => passes t envs s)
    [T Grpc_.bootstrap_enroll_full_flow; T Grpc_.bootstrap_enroll_replay_rejected;
     T Grpc_.get_device_after_enroll; T Grpc_.renew_cert_after_enroll;
     T Grpc_.stream_heartbeat_unknown_device_returns_not_found].
Proof using All.
  intros Hs. repeat constructor;
    cbv delta [Grpc_.bootstrap_enroll_full_flow Grpc_.bootstrap_enroll_replay_rejected
      Grpc_.get_device_after_enroll Grpc_.renew_cert_after_enroll
      Grpc_.stream_heartbeat_unknown_device_returns_not_found].
  all: steps; try apply (passes_done tt).
  eapply passes_touch_none; [eassumption|no_fault_tac| |].
  { cbn. rewrite not_elem_of_cons. split; [|apply not_elem_of_nil]. intros E. by apply (h_uuid Hh 4). }
  intros s3 Hs3. cbn. call_step. check. apply (passes_done tt).
Qed.

(** The readings of the clock are in the order of the effects. *)
Lemma stream_heartbeat_passes (s : S) :
  fresh_store s -> passes (T Grpc_.stream_heartbeat_updates_last_seen) envs s.
Proof using All.
  intros Hs. cbv delta [Grpc_.stream_heartbeat_updates_last_seen]. steps.
  rewrite bool_decide_eq_true_2; [apply (passes_done tt)|]. unfold unix_timestamp.
  apply Z.div_le_mono; [done|]. apply Hclock. lia.
Qed.

(** A page that holds all the rows that match. *)
Ltac list_step :=
  eapply passes_list; [eassumption|no_fault_tac|done|];
  let s := fresh "s" in let p := fresh "p" in let Hs := fresh "Hs" in let Hv := fresh "Hv" in
  intros s p Hs -> Hv; cbn; rewrite length_fmap, length_take;
  match goal with Hst : stores ?s _ _ |- context [visible ?s] => rewrite (stores_count _ _ _ _ _ _ Hst) end;
  check.

Lemma update_status_and_list_passes (s : S) :
  fresh_store s -> passes (T Grpc_.update_status_and_list_devices) envs s.
Proof using All.
  intros Hs. cbv delta [Grpc_.update_status_and_list_devices]. steps. do 2 list_step.
  apply (passes_done tt).
Qed.

(** The next choice of a schedule, and what follows up to the one after. *)
Ltac interleave :=
  match goal with |- context [join ?schedule _ _] => destruct schedule as [|[|] schedule] end;
  steps; try apply (passes_done tt).

(** The first request that claims the serial wins, whatever runs in between. *)
Lemma concurrent_enroll_passes schedule (s : S) :
  fresh_store s -> passes (T Grpc_.concurrent_bootstrap_enroll_only_one_wins schedule) envs s.
Proof using All.
  intros Hs. cbv delta [Grpc_.concurrent_bootstrap_enroll_only_one_wins]. steps. repeat interleave.
Qed.

(** C40: the repository's integration tests of the device-management service pass
    on every implementation of the store that keeps the trait's contract, from
    an empty store, whatever the ids that are drawn, whatever the time as long
    as the clock does not run backwards, and however two concurrent enrollments
    interleave: a device enrolls once, of two concurrent enrollments exactly one
    wins, and an enrolled device can be read, suspended, listed, renewed and
    kept alive by heartbeats. *)
Theorem grpc_tests_pass schedule (s : S) :
  healthy s -> visible s = empty_tables ->
  Forall (fun t => passes t envs s) (T Grpc_.tests schedule).
Proof using All.
  intros Hhe Hv. pose proof (stores_empty s Hhe Hv) as Hs.
  pose proof (simple_grpc_tests_pass s Hs) as Hsimple. unfold Grpc_.tests.
  repeat (apply Forall_cons in Hsimple as [? Hsimple]). repeat constructor; try done.
  - by apply concurrent_enroll_passes.
  - by apply update_status_and_list_passes.
  - by apply stream_heartbeat_passes.
Qed.
End pass.
