(* ===== verification/OnlineExamples.v ===== *)
(** * Worked examples of startup, of the agent online and of termination *)

From Stdlib Require Import Init.Byte.
From S2P Require Import Prelude F64 Bytes Sqlite Async Termination Pki DeviceStore DeviceStoreSpec Grpc DmsEffects.
From S2P Require Import Enrollment Provisioning Heartbeat DmsServer RustStr RustNet DmsMain Startup StartupClaims.
From S2P Require Import DeviceStoreSqlite ToyPki Admission DmsExamples AgentBoot AgentOta AgentOtaClaims AgentHeartbeat.
From S2P Require AgentWorld.
From S2P Require Import AgentTelemetry TelemetryClaims TelemetryExamples LoopClaims AgentLoops AgentOnline.
From S2P Require Import Lockout OnlineClaims AgentSelect OtaStore OtaDispatcher OtaServer ArtifactStore.
From S2P Require Import Progress Impersonation.

Section examples.
#[local] Instance release : BuildProfile := false.
#[local] Existing Instance toy_pki.
#[local] Instance toy_trig : TrigLib := {| f64_sin x := x; f64_cos x := x |}.

(** ** The agent online *)

(** A host that can be read, and a service that answers if [up]. *)
Definition loop_env (up : bool) (sim : list byte) : LoopEnv :=
  mkLoopEnv (Ok tt) sim up 3 (mkTicks 0 (fun i => (Z.of_nat i, 500000000)%Z))
    (fun _ => mkProc (Some "cpu 10 20 30 40") (Some "MemTotal: 16")) (fun _ => toy_env 300 "u").

Definition world_at (socket : bool) : LoopWorld (Mutex Tables) :=
  mkLoopWorld socket 0 [] 0 [] [] one_device.

Definition sim_bytes : list byte := concat (on_wire <$> [two_joints; [x00]; two_joints]) ++ [].

Abbreviation telemetry w up n :=
  (Async.run (HandlerIn0 := loop_handler toy_status_text) (telemetry_run "dev-1" (Some "/tmp/s") n)
     (fun _ => loop_env up sim_bytes) w).

(** Two of three payloads parse; both are acknowledged, and the agent ends. *)
Lemma simulator_session_witness :
  (telemetry (world_at true) true 1).1 = Some (Ok tt) /\
  length (frames_seen (telemetry (world_at true) true 1).2) = 2 /\
  acks_sent (telemetry (world_at true) true 1).2 = [Ok (mkTelemetryAck 1 false); Ok (mkTelemetryAck 2 false)].
Proof.
  pose proof (simulator_session toy_status_text "dev-1" "/tmp/s" [two_joints; [x00]; two_joints] [] 0
    (fun _ => loop_env true sim_bytes) (world_at true)) as Hs.
  cbv zeta in Hs. unfold online_handler in Hs. destruct (telemetry (world_at true) true 1) as [r w'].
  destruct Hs as (Hr & Hf & Ha & _).
  - reflexivity.
  - repeat constructor; discriminate || reflexivity.
  - exact I.
  - discriminate.
  - intros n. split; [reflexivity|]. split; [reflexivity|]. split; [reflexivity|].
    split; [vm_compute; lia|]. intros i. reflexivity.
  - cbn [fst snd]. rewrite Hr, Hf, Ha. split; [reflexivity|]. split; vm_compute; reflexivity.
Defined.

(** Without the file the agent sends its sine wave and does not listen. *)
Lemma never_listens_without_socket_witness :
  listening (telemetry (world_at false) true 1).2 = 0 /\
  (tf_recorded_at <$> frames_seen (telemetry (world_at false) true 1).2) =
    replicate 3 (Some (mkTimestamp 0 500000000)).
Proof.
  split; [|reflexivity].
  apply (never_listens_without_socket toy_status_text "dev-1" (Some "/tmp/s") 1
           (fun _ => loop_env true sim_bytes) (world_at false)). reflexivity.
Defined.

#[local] Instance toy_sha : Sha256Lib := fun _ => "00".

(** A network without the OTA service. *)
Definition no_ota_service (_ : nat) : OtaEnv :=
  mkOtaEnv (inr "/tmp/x") (inr tt) (inr []) (inr tt) (inr true) true (inr (Some 0%Z))
    (inl (mkStatus Unavailable "transport error")) (inr tt).

Abbreviation updates n :=
  (Async.run (AgentOta.run (fun _ => "") (fun _ => "") "dev-1" n) no_ota_service []).

Lemma reconnect_waits_witness :
  (exists w', telemetry (world_at true) false 8 = (None, w') /\
    slept w' = [1000; 2000; 4000; 8000; 16000; 32000; 60000; 60000]%Z) /\
  updates 3 = (None, [Slept 1000; Slept 2000; Slept 4000]).
Proof.
  split.
  - destruct (reconnect_waits toy_status_text (fun _ => "") (fun _ => "") "dev-1" (Some "/tmp/s") 8
      (fun _ => loop_env false sim_bytes) no_ota_service (world_at true)) as ((w' & Hrun & Hs) & _).
    + intros i. split; [reflexivity|discriminate].
    + intros i. by eexists.
    + exists w'. split; [exact Hrun|]. rewrite Hs. reflexivity.
  - destruct (reconnect_waits toy_status_text (fun _ => "") (fun _ => "") "dev-1" (Some "/tmp/s") 3
      (fun _ => loop_env false sim_bytes) no_ota_service (world_at true)) as (_ & _ & Hota & _).
    + intros i. split; [reflexivity|discriminate].
    + intros i. by eexists.
    + rewrite Hota. reflexivity.
Defined.

Abbreviation heartbeats id :=
  (Async.run (HandlerIn0 := loop_handler toy_status_text) (heartbeat_run id 1)
     (fun _ => loop_env true []) (world_at false)).

(** Three beats of a stored device, and of one that is not stored. *)
Lemma heartbeat_session_witness :
  (heartbeats "dev-1").1 = Some (Ok tt) /\ (heartbeats "dev-9").1 = None /\
  slept (heartbeats "dev-9").2 = [1000%Z].
Proof.
  pose proof (heartbeat_session toy_status_text "dev-1" 0 (fun _ => loop_env true []) (world_at false)) as H1.
  pose proof (heartbeat_session toy_status_text "dev-9" 0 (fun _ => loop_env true []) (world_at false)) as H9.
  cbv zeta in H1, H9. unfold online_handler in H1, H9.
  assert (forall i : nat, service_up ((fun _ => loop_env true []) i)) as Hup.
  { intros i. split; [reflexivity|]. intros n. split; [intros x|]; reflexivity. }
  destruct (heartbeats "dev-1") as [r1 w1]. destruct (heartbeats "dev-9") as [r9 w9].
  destruct H1 as (_ & _ & H1); [exact Hup|split; reflexivity|intros i; discriminate|].
  destruct H9 as (_ & _ & H9); [exact Hup|split; reflexivity|intros i; discriminate|].
  split; [exact (proj1 H1)|]. split; [exact (proj1 H9)|]. exact (proj1 (proj2 H9)).
Defined.

(** ** Startup *)

Definition host_vars (key : string) : option string :=
  if decide (key = "FACTORY_MANIFEST") then Some "SN-7:tok7"
  else if decide (key = "PROVISIONING_ADDR") then Some "127.0.0.1:8445"
  else if decide (key ∈ ["SERVER_CERT_PEM"; "SERVER_KEY_PEM"; "FLEET_CA_CERT_PEM"; "FLEET_CA_KEY_PEM";
                         "DEVICE_CA_CERT_PEM"; "DEVICE_CA_KEY_PEM"])
  then Some key else None.

(** The same with a bootstrap address that does not parse. *)
Definition bad_vars (key : string) : option string :=
  if decide (key = "BOOTSTRAP_ADDR") then Some "localhost" else host_vars key.

Definition host_files : gmap string string :=
  {["SERVER_CERT_PEM" := "cert"; "SERVER_KEY_PEM" := "key"; "FLEET_CA_CERT_PEM" := "fleet-ca";
    "FLEET_CA_KEY_PEM" := "fleet-key"; "DEVICE_CA_CERT_PEM" := "device-ca";
    "DEVICE_CA_KEY_PEM" := "device-key"]}.

Definition before_start : Started (S := Mutex Tables) := mkStarted toy_store [] false.

Abbreviation starting vars t :=
  (Async.run (HandlerIn0 := start_handler vars host_files (fun _ => Ok tt) (fun _ => Ok tt) (Ok tt)) t
     (fun _ => toy_env 100 "u") before_start).

(** All three ports open, with the manifest seeded; with the bad address none
    opens, but the manifest is seeded all the same. *)
Lemma dms_ports_open_witness :
  (tls_client_ca_root ∘ l_tls <$> st_ports (starting host_vars dms_main).2) =
    [Some "fleet-ca"; Some "device-ca"; None] /\
  process_restart (Some "SN-7:tok7") toy_store (st_store (starting host_vars dms_main).2) /\
  (starting bad_vars dms_main).1 = Err (BadAddr "BOOTSTRAP_ADDR") /\
  process_restart (Some "SN-7:tok7") toy_store (st_store (starting bad_vars dms_main).2).
Proof.
  split; [reflexivity|].
  pose proof (dms_ports_open host_vars host_files (fun _ => Ok tt) (fun _ => Ok tt) (Ok tt)
    (fun _ => toy_env 100 "u") before_start) as Hgood.
  pose proof (dms_ports_open bad_vars host_files (fun _ => Ok tt) (fun _ => Ok tt) (Ok tt)
    (fun _ => toy_env 100 "u") before_start) as Hbad.
  cbv zeta in Hgood, Hbad.
  assert (st_ports (starting host_vars dms_main).2 <> []) as Hopen by (vm_compute; discriminate).
  destruct (starting host_vars dms_main) as [r w']. destruct (starting bad_vars dms_main) as [rb wb].
  destruct Hgood as (_ & Hgood & _), Hbad as (_ & _ & Hbad).
  split; [exact (proj1 (Hgood Hopen))|].
  destruct (Hbad (mkSettings "[::]:8443" "localhost" "127.0.0.1:8445" "./fleet.db" 30 "cert" "key" "fleet-ca"
    "fleet-key" "device-ca" "device-key") (BadAddr "BOOTSTRAP_ADDR")) as (Hr & _ & Hre);
    [vm_compute; reflexivity..|].
  split; [exact Hr|exact Hre].
Defined.

Lemma single_ports_mutual_tls_witness :
  st_ports (starting host_vars ota_main).2 =
    [mkListener (V6 (replicate 8 0%Z) 0 9444) (mkTls ("cert", "key") (Some "fleet-ca")) [OtaSvc]] /\
  exists a cert key ca minio,
    st_ports (starting host_vars artifact_main).2 = [mkListener a (mkTls (cert, key) (Some ca)) [minio]].
Proof.
  split; [vm_compute; reflexivity|].
  pose proof (single_ports_mutual_tls host_vars host_files (fun _ => Ok tt) (fun _ => Ok tt) (Ok tt)
    (fun _ => toy_env 100 "u") before_start) as [_ Hart].
  assert (st_ports (starting host_vars artifact_main).2 <> []) as Hopen by (vm_compute; discriminate).
  destruct (starting host_vars artifact_main) as [r w'].
  destruct (Hart Hopen) as (a & cert & key & ca & minio & _ & _ & _ & _ & _ & _ & Hp).
  exists a, cert, key, ca, minio. exact Hp.
Defined.

(** ** Termination *)

#[local] Existing Instance stable_order.
#[local] Instance queues : BroadcastLib UpdateCommand := queue_broadcast UpdateCommand.
#[local] Instance signing : ObjectStore unit := {
  presign_upload _ key _ := Ok ("put " +:+ key);
  presign_download _ key _ := Ok ("get " +:+ key);
  object_exists _ _ := Ok true
}.

Abbreviation provision_request := (ProvisioningPort, ProvisionDevice (provision_with "SN-1")).

(** A provisioning request among others; its two effects are enough. *)
Example request_answered :
  exists r, (1, provision_request, r) ∈
    replies (exec (serve toy_text toy_status_text toy_service) manifest_store
      ([Request (FleetPort, GetDeviceRpc (mkGetReq "dev-9")); Resume 0 (toy_env 90 "u")] ++
       Request provision_request ::
       [Resume 1 (toy_env 100 "u"); Answer 0; Request provision_request; Resume 2 (toy_env 101 "u");
        Resume 1 (toy_env 102 "u"); Disconnect 2] ++ [Answer 1])).
Proof.
  destruct (requests_end (S := Mutex Tables)
    (HandlerIn0 := AgentWorld.agent_handler toy_text toy_status_text toy_service (fun _ => None) 18)
    (fun _ => tt) toy_text toy_status_text toy_service) as [Hdms _].
  apply (Hdms provision_request manifest_store
    [Request (FleetPort, GetDeviceRpc (mkGetReq "dev-9")); Resume 0 (toy_env 90 "u")]).
  - repeat constructor.
  - vm_compute. constructor.
Qed.

(** A robot that never closes its stream, and one that closes it after two
    heartbeats. *)
Definition beats_for_ever (k : nat) : option Item := Some (inl DmsExamples.beat).
Definition two_beats (k : nat) : option Item := [inl DmsExamples.beat; inl DmsExamples.beat] !! k.

Lemma stream_tasks_end_witness :
  (forall n, (Z.of_nat n <= u64_max)%Z ->
     ~ is_Some (Async.run (heartbeat_task toy_status_text beats_for_ever n)
                  (fun _ => toy_env 100 "u") one_device).1) /\
  is_Some (Async.run (heartbeat_task toy_status_text two_beats 3) (fun _ => toy_env 100 "u") one_device).1.
Proof.
  split.
  - intros n Hn Hend.
    destruct (stream_tasks_end toy_status_text DmsExamples.beat beats_for_ever (fun _ => None) n
      (fun _ => toy_env 100 "u") one_device []) as [Hb _].
    + reflexivity.
    + split; reflexivity.
    + intros k. split; discriminate.
    + exact Hn.
    + apply Hb in Hend as (k & _ & [Hk|Hk]); [discriminate..|]. by eexists.
  - destruct (stream_tasks_end toy_status_text DmsExamples.beat two_beats (fun _ => None) 3
      (fun _ => toy_env 100 "u") one_device []) as [Hb _].
    + reflexivity.
    + split; reflexivity.
    + intros k. split; discriminate.
    + discriminate.
    + apply Hb; [by eexists|]. exists 2. split; [lia|left; reflexivity].
Defined.

(** ** The three tasks at once *)

Abbreviation toy_step := (agent_step toy_status_text).
Abbreviation toy_tasks := (spawn_tasks (fun _ => "") (fun _ => "") "dev-1" (Some "/tmp/s") 1).

(** The service answers the heartbeats and closes their stream; [select!] ends
    the agent before the other two tasks have started. *)
Definition after_beats : OnlineWorld (Mutex Tables) := mkOnlineWorld (heartbeats "dev-1").2 [].

Lemma agent_speaks_for_itself_witness :
  rtc (toy_step (fun _ => True) (fun _ => True))
    (Online toy_tasks, mkOnlineWorld (world_at false) []) (Exited (Ok tt), after_beats) /\
  keeps_to_itself "dev-1" (world_at false) (loops after_beats) /\
  last_seen_at <$> devices (on_disk (dms_store (loops after_beats))) !! "dev-1" = Some 300%Z.
Proof.
  assert (rtc (toy_step (fun _ => True) (fun _ => True))
    (Online toy_tasks, mkOnlineWorld (world_at false) []) (Exited (Ok tt), after_beats)) as HR.
  { eapply rtc_l.
    { eapply (step_heartbeat _ _ _ _ _ (loop_env true []) _ _ _ _ (heartbeats "dev-1").2);
        [reflexivity|exact I|reflexivity]. }
    eapply rtc_l; [|apply rtc_refl]. by apply (step_select _ _ _ _ _ (HeartbeatEnded (Ok tt))). }
  split; [exact HR|]. split; [|vm_compute; reflexivity].
  apply (agent_speaks_for_itself toy_status_text (fun _ => "") (fun _ => "") "dev-1" (Some "/tmp/s") 1
           (world_at false) _ _ HR).
Defined.

(** In an outage the update loop and the telemetry loop fail and wait. *)
Definition during_outage : OnlineWorld (Mutex Tables) :=
  mkOnlineWorld (mkLoopWorld false 0 [1000%Z] 0 [] [] one_device) [Slept 1000].
Definition waiting_tasks : AgentTasks :=
  mkTasks (AgentSelect.heartbeat toy_tasks) (Done None) (Done None).

Lemma outage_outlived_witness :
  rtc (toy_step service_down ota_down)
    (Online toy_tasks, mkOnlineWorld (world_at false) []) (Online waiting_tasks, during_outage) /\
  forall ev, happened waiting_tasks ev -> ev = CtrlC.
Proof.
  assert (rtc (toy_step service_down ota_down)
    (Online toy_tasks, mkOnlineWorld (world_at false) []) (Online waiting_tasks, during_outage)) as HR.
  { assert (service_down (loop_env false [])) as Hd by (split; [reflexivity|discriminate]).
    assert (ota_down (no_ota_service 0)) as Ho by (by eexists).
    eapply rtc_l; [by eapply (step_ota _ _ _ _ _ (no_ota_service 0))|].
    eapply rtc_l; [by eapply (step_telemetry _ _ _ _ _ (loop_env false []))|].
    eapply rtc_l; [by eapply (step_ota _ _ _ _ _ (no_ota_service 0))|].
    eapply rtc_l; [by eapply (step_telemetry _ _ _ _ _ (loop_env false []))|].
    eapply rtc_l; [by eapply (step_telemetry _ _ _ _ _ (loop_env false []))|]. apply rtc_refl. }
  split; [exact HR|]. intros ev.
  by apply (outage_outlived toy_status_text (fun _ => "") (fun _ => "") "dev-1" (Some "/tmp/s") 1
              (world_at false) _ _ HR).
Defined.

(** ** Impersonation *)

(** Two serials of the factory manifest, neither enrolled; someone holds the
    token of the first. *)
Definition two_waiting : Tables :=
  set_pre {["SN-1" := mkPreRow "humanoid-v2" 0; "SN-2" := mkPreRow "humanoid-v2" 0]}
    (set_manifest {["SN-1" := mkManifest "humanoid-v2" "tok-1" None;
                    "SN-2" := mkManifest "humanoid-v2" "tok-2" None]} empty_tables).

Abbreviation toy_serve := (serve toy_text toy_status_text toy_service).

Definition holder_provisions : Port * Rpc :=
  (ProvisioningPort, ProvisionDevice (mkProvisionReq "SN-1" "SN-2" "tok-1")).

Definition holder_certs : list (@CertificateDer toy_pki) :=
  [mkToyCert "SN-2" "device-ca" "SN-2|device-ca"].

Definition holder_enrolls : Port * Rpc :=
  (BootstrapPort, BootstrapEnroll (Some holder_certs)
                    (mkBootstrapReq "holder" "" "1.0.0" ∅ "SN-2")).

Definition after_impersonation : Mutex Tables :=
  (Async.run (toy_serve holder_enrolls) (fun _ => toy_env 200 "dev-9")
     (Async.run (toy_serve holder_provisions) (fun _ => toy_env 100 "u") (Sqlite_.new two_waiting)).2).2.

Lemma token_enrolls_another_witness :
  (exists d, devices (visible after_impersonation) !! "dev-9" = Some d /\ DeviceStore.serial d = "SN-2" /\
     DeviceStore.operational_cert_pem d = "holder|fleet-ca") /\
  forall acts i j r, (i, j, r) ∈ replies (exec toy_serve after_impersonation acts) -> ~ enrolled_as "SN-2" j r.
Proof.
  destruct (token_enrolls_another toy_text toy_status_text toy_service None "SN-1" "SN-2" "tok-1"
    (mkManifest "humanoid-v2" "tok-1" None) "SN-2" "SN-2|device-ca"
    holder_certs "holder" "holder|fleet-ca" "1.0.0"
    (toy_env 100 "u") (toy_env 200 "dev-9") (Sqlite_.new two_waiting)) as (_ & _ & Hd & Hlock).
  1-14: try reflexivity; try discriminate.
  - split; reflexivity.
  - intros x. reflexivity.
  - intros x. reflexivity.
  - split; [|reflexivity]. eexists. split; reflexivity.
  - repeat split; reflexivity.
  - split; [exact Hd|]. intros acts. apply Hlock. apply exec_reachable.
Defined.
End examples.
