(* ===== verification/OtaTests.v ===== *)
(** * The unit tests of the OTA service

    The test modules of [src/ota-service/src/store/mod.rs] and
    [src/ota-service/src/dispatcher/mod.rs], and the theorem that they pass
    whatever the ids, the time and the channels are. *)

From S2P Require Import Prelude Sqlite Async Grpc OtaStore OtaDispatcher OtaServer OtaJobs OtaClaims OtaStreams.
From S2P Require Import OtaCycle Lockout Testing.

(** ** The tests of the job store *)

Module JobTests.
Definition jobs {A} (c : JobCall A) : Task OtaE OtaErr.Error A := call (JobE c).

Definition new_job (device_id version : string) : NewJob :=
  mkNewJob device_id version "http://example.com/artifact.tar.gz" "abc123" 1024.

Definition is_already_pending (e : OtaErr.Error) : bool :=
  match e with OtaErr.AlreadyPending => true | _ => false end.
Definition is_not_found (e : OtaErr.Error) : bool :=
  match e with OtaErr.NotFound _ => true | _ => false end.

Definition create_and_get_job : Test OtaE unit :=
  job ← unwrap (jobs (CreateJob (new_job "dev-1" "v2.0.0")));
  _ ← assert_eq! (job_status job) JobStatus.Pending;
  _ ← assert_eq! (job_device_id job) "dev-1";
  assert_eq! (job_target_version job) "v2.0.0".

Definition create_job_blocks_second_pending : Test OtaE unit :=
  _ ← unwrap (jobs (CreateJob (new_job "dev-1" "v2.0.0")));
  err ← unwrap_err (jobs (CreateJob (new_job "dev-1" "v2.1.0")));
  assert (is_already_pending err).

Definition create_job_allowed_after_completion : Test OtaE unit :=
  job ← unwrap (jobs (CreateJob (new_job "dev-1" "v2.0.0")));
  _ ← unwrap (jobs (UpdateJobStatus (job_id job) JobStatus.Completed None));
  job2 ← unwrap (jobs (CreateJob (new_job "dev-1" "v2.1.0")));
  assert_eq! (job_target_version job2) "v2.1.0".

Definition create_job_allowed_after_failure : Test OtaE unit :=
  job ← unwrap (jobs (CreateJob (new_job "dev-1" "v2.0.0")));
  _ ← unwrap (jobs (UpdateJobStatus (job_id job) JobStatus.Failed (Some "install failed")));
  job2 ← unwrap (jobs (CreateJob (new_job "dev-1" "v2.1.0")));
  assert_eq! (job_status job2) JobStatus.Pending.

Definition get_pending_for_device_returns_active_job : Test OtaE unit :=
  job ← unwrap (jobs (CreateJob (new_job "dev-1" "v2.0.0")));
  pending ← unwrap (jobs (GetPending "dev-1"));
  _ ← assert (is_some pending);
  found ← unwrap_some pending;
  assert_eq! (job_id found) (job_id job).

Definition get_pending_for_device_returns_none_when_completed : Test OtaE unit :=
  job ← unwrap (jobs (CreateJob (new_job "dev-1" "v2.0.0")));
  _ ← unwrap (jobs (UpdateJobStatus (job_id job) JobStatus.Completed None));
  pending ← unwrap (jobs (GetPending "dev-1"));
  assert (negb (is_some pending)).

Definition update_status_returns_not_found_for_missing_id : Test OtaE unit :=
  err ← unwrap_err (jobs (UpdateJobStatus "no-such-id" JobStatus.Completed None));
  assert (is_not_found err).

Definition list_for_device_returns_jobs_in_desc_order : Test OtaE unit :=
  _ ← unwrap (jobs (CreateJob (new_job "dev-1" "v1.0.0")));
  j2 ← unwrap (jobs (CreateJob (new_job "dev-2" "v2.0.0")));
  '(found, cursor) ← unwrap (jobs (ListForDevice "dev-2" 10 None));
  _ ← assert_eq! (length found) 1;
  first ← unwrap_some (head found);
  _ ← assert_eq! (job_id first) (job_id j2);
  assert (negb (is_some cursor)).

Definition already_pending_guard_independent_per_device : Test OtaE unit :=
  _ ← unwrap (jobs (CreateJob (new_job "dev-1" "v2.0.0")));
  job ← unwrap (jobs (CreateJob (new_job "dev-2" "v2.0.0")));
  assert_eq! (job_device_id job) "dev-2".

Definition tests : list (Test OtaE unit) :=
  [create_and_get_job; create_job_blocks_second_pending; create_job_allowed_after_completion;
   create_job_allowed_after_failure; get_pending_for_device_returns_active_job;
   get_pending_for_device_returns_none_when_completed; update_status_returns_not_found_for_missing_id;
   list_for_device_returns_jobs_in_desc_order; already_pending_guard_independent_per_device].
End JobTests.

(** ** The tests of the dispatcher *)

Module DispatchTests.
Definition subscribed (d : string) : Test OtaE nat := get Empty_set (SubscribeE d).
Definition dispatched (d : string) (c : UpdateCommand) : Task OtaE OtaErr.Error Z := call (DispatchE d c).
Definition dropped (d : string) (rx : nat) : Test OtaE unit := get Empty_set (DropE d rx).

(** [rx.recv().await]; with nothing to receive these tests would wait for
    ever, which is not passing them. *)
Definition recv (d : string) (rx : nat) : Task OtaE nat UpdateCommand :=
  let! item := trigger (PollE d rx) in Done (default Panic item).

Definition cmd (version : string) : UpdateCommand :=
  mkCommand "job-1" version "http://example.com/v.tar.gz" "abc" 0 None.

Definition is_no_active_subscribers (e : OtaErr.Error) : bool :=
  match e with OtaErr.NoActiveSubscribers _ => true | _ => false end.

Definition subscribe_and_dispatch_delivers_command : Test OtaE unit :=
  rx ← subscribed "dev-1";
  count ← unwrap (dispatched "dev-1" (cmd "v2.0.0"));
  _ ← assert_eq! count 1%Z;
  received ← unwrap (recv "dev-1" rx);
  assert_eq! (uc_target_version received) "v2.0.0".

Definition dispatch_with_no_subscribers_returns_error : Test OtaE unit :=
  err ← unwrap_err (dispatched "dev-ghost" (cmd "v2.0.0"));
  assert (is_no_active_subscribers err).

Definition dispatch_after_receiver_dropped_returns_error : Test OtaE unit :=
  rx ← subscribed "dev-1";
  _ ← dropped "dev-1" rx;
  err ← unwrap_err (dispatched "dev-1" (cmd "v2.0.0"));
  assert (is_no_active_subscribers err).

Definition multiple_subscribers_all_receive : Test OtaE unit :=
  rx1 ← subscribed "dev-1";
  rx2 ← subscribed "dev-1";
  count ← unwrap (dispatched "dev-1" (cmd "v2.0.0"));
  _ ← assert_eq! count 2%Z;
  m1 ← unwrap (recv "dev-1" rx1);
  _ ← assert_eq! (uc_target_version m1) "v2.0.0";
  m2 ← unwrap (recv "dev-1" rx2);
  assert_eq! (uc_target_version m2) "v2.0.0".

Definition dispatch_is_independent_per_device : Test OtaE unit :=
  rx1 ← subscribed "dev-1";
  _ ← subscribed "dev-2";
  _ ← unwrap (dispatched "dev-1" (cmd "v2.0.0"));
  let! received := recv "dev-1" rx1 in
  _ ← assert (is_ok received);
  err ← unwrap_err (dispatched "dev-99" (cmd "v2.0.0"));
  assert (is_no_active_subscribers err).

Definition subscribe_creates_channel_on_first_call : Test OtaE unit :=
  _ ← subscribed "new-device";
  let! result := dispatched "new-device" (cmd "v1.0.0") in
  assert (is_ok result).

Definition tests : list (Test OtaE unit) :=
  [subscribe_and_dispatch_delivers_command; dispatch_with_no_subscribers_returns_error;
   dispatch_after_receiver_dropped_returns_error; multiple_subscribers_all_receive;
   dispatch_is_independent_per_device; subscribe_creates_channel_on_first_call].
End DispatchTests.

(** ** The job store as the list of its rows *)

Section jobs.
Context `{SqlOrder, BuildProfile, BroadcastSpec UpdateCommand}.

Record holds (s : OtaState) (js : list (string * JobRow)) : Prop := {
  held_settled : settled (ota_store s);
  held_sound : poisoned (ota_store s) = false;
  held_rows : live (guarded (ota_store s)) = list_to_map js;
  held_ids : NoDup js.*1
}.

Lemma empty_jobs_hold m : holds (mkOta (JobStore.new ∅) m) [].
Proof using Type. by split; try constructor. Qed.

(** The rows that a query selects. *)
Lemma holds_filter s js (P : string * JobRow -> Prop) `{forall r, Decision (P r)} :
  holds s js -> filter P (map_to_list (live (guarded (ota_store s)))) ≡ₚ filter P js.
Proof using Type.
  intros Hs. rewrite (held_rows _ _ Hs). by rewrite map_to_list_to_map by apply (held_ids _ _ Hs).
Qed.

Lemma busy_rows d js :
  NoDup js.*1 -> filter (active_for d) js = [] <-> ~ busy d (list_to_map js).
Proof using Type.
  intros Hnd. rewrite <- count_active_0, length_zero_iff_nil.
  pose proof (map_to_list_to_map js Hnd) as Hp. split; intros E.
  - apply Permutation_nil_r. by rewrite Hp, E.
  - apply Permutation_nil_r. by rewrite <- Hp, E.
Qed.

Context {B : Type} (envs : nat -> Env) (s : OtaState) (js : list (string * JobRow)).
Context (Hs : holds s js) (Hf : no_fault (envs 0)).
Abbreviation later := (fun n => envs (Datatypes.S n)).
Abbreviation passes := (passes (S := OtaState)).

Lemma passes_create_job job (k : outcome OtaErr.Error JobRecord -> Test OtaE B) :
  filter (active_for (nj_device_id job)) js = [] -> fresh_uuid (envs 0) ∉ js.*1 ->
  (forall s', holds s' ((fresh_uuid (envs 0), new_row (envs 0) job) :: js) ->
     passes (k (Ok (row_to_record (fresh_uuid (envs 0), new_row (envs 0) job)))) later s') ->
  passes (Await (JobE (CreateJob job)) k) envs s.
Proof using All.
  destruct Hs as [Hst Hp Hr Hnd]. intros Hb Hu Hk.
  assert (live (guarded (ota_store s)) !! fresh_uuid (envs 0) = None) as Hn.
  { rewrite Hr. by apply not_elem_of_list_to_map_1. }
  eapply passes_await; [cbn; rewrite create_job_calm by done|].
  { rewrite decide_False; [done|]. rewrite Hr. by apply busy_rows. }
  apply Hk. split; cbn; [done|done|by rewrite Hr|by constructor].
Qed.

Lemma passes_create_job_again job (k : outcome OtaErr.Error JobRecord -> Test OtaE B) :
  filter (active_for (nj_device_id job)) js <> [] -> fresh_uuid (envs 0) ∉ js.*1 ->
  (forall s', holds s' js -> passes (k (Err OtaErr.AlreadyPending)) later s') ->
  passes (Await (JobE (CreateJob job)) k) envs s.
Proof using All.
  destruct Hs as [Hst Hp Hr Hnd]. intros Hb Hu Hk.
  assert (live (guarded (ota_store s)) !! fresh_uuid (envs 0) = None) as Hn.
  { rewrite Hr. by apply not_elem_of_list_to_map_1. }
  eapply passes_await; [cbn; rewrite create_job_calm by done|].
  { rewrite decide_True; [done|]. rewrite Hr. apply dec_stable. by rewrite <- busy_rows. }
  apply Hk. by split.
Qed.

Lemma passes_update_job i row js' st error (k : outcome OtaErr.Error unit -> Test OtaE B) :
  js = (i, row) :: js' ->
  (forall s', holds s' ((i, acked_row (envs 0) st error row) :: js') -> passes (k (Ok tt)) later s') ->
  passes (Await (JobE (UpdateJobStatus i st error)) k) envs s.
Proof using All.
  destruct Hs as [Hst Hp Hr Hnd]. intros -> Hk.
  eapply passes_await; [cbn; rewrite update_status_calm by done|].
  { rewrite Hr. cbn. by rewrite lookup_insert_eq. }
  apply Hk. split; cbn; [done|done| |done]. try rewrite Hr; cbn. apply insert_insert_eq.
Qed.

Lemma passes_update_job_none i st error (k : outcome OtaErr.Error unit -> Test OtaE B) :
  i ∉ js.*1 ->
  (forall s', holds s' js -> passes (k (Err (OtaErr.NotFound i))) later s') ->
  passes (Await (JobE (UpdateJobStatus i st error)) k) envs s.
Proof using All.
  destruct Hs as [Hst Hp Hr Hnd]. intros Hi Hk.
  eapply passes_await; [cbn; rewrite update_status_calm by done|].
  { rewrite Hr. by rewrite not_elem_of_list_to_map_1. }
  apply Hk. by split.
Qed.

(** A query with at most one row has one order. *)
Lemma one_row env n (R : relation (string * JobRow)) `{!RelDecision R} (P : string * JobRow -> Prop)
    `{forall r, Decision (P r)} (o : option (string * JobRow)) :
  filter P js = option_list o ->
  order_by env n R (filter P (map_to_list (live (guarded (ota_store s))))) = option_list o.
Proof using All.
  intros E. pose proof (holds_filter _ _ P Hs) as Hp. rewrite E in Hp.
  pose proof (order_by_perm env n R (filter P (map_to_list (live (guarded (ota_store s)))))) as Ho.
  rewrite Hp in Ho at 2. clear Hp; rename Ho into Hp. destruct o as [r|]; cbn in *.
  - by apply Permutation_singleton_r in Hp.
  - by apply Permutation_nil_r in Hp.
Qed.

Lemma passes_get_pending d o (k : outcome OtaErr.Error (option JobRecord) -> Test OtaE B) :
  filter (active_for d) js = option_list o ->
  (forall s', holds s' js -> passes (k (Ok (row_to_record <$> o))) later s') ->
  passes (Await (JobE (GetPending d)) k) envs s.
Proof using All.
  intros Ho Hk. pose proof (one_row (envs 0) 0 oldest_first _ _ Ho) as E.
  eapply passes_await; [|by apply Hk]. cbn.
  unfold JobStore.get_pending_for_device, JobStore.locked, with_lock, JobStore.db, st_map_err, query, statement.
  rewrite (held_sound _ _ Hs). cbn. rewrite Hf. cbn. unfold mbind, ST_bind; cbn; rewrite E.
  destruct s as [[[t sv] po] m], Hs as [Hst Hp Hr Hnd]. cbn in *. subst. by destruct o as [r|].
Qed.

(** A page that holds everything. *)
Lemma passes_list_jobs d o (k : outcome OtaErr.Error (list JobRecord * option string) -> Test OtaE B) :
  filter (older_for d None) js = option_list o ->
  (forall s', holds s' js -> passes (k (Ok (row_to_record <$> option_list o, None))) later s') ->
  passes (Await (JobE (ListForDevice d 10 None)) k) envs s.
Proof using All.
  intros Ho Hk. pose proof (one_row (envs 0) 1 newest_first _ _ Ho) as E.
  eapply passes_await; [|by apply Hk]. cbn.
  unfold JobStore.list_for_device, JobStore.locked, with_lock, JobStore.db, st_map_err, query_map, prepare, query, statement.
  rewrite (held_sound _ _ Hs). unfold mbind, ST_bind. cbn. rewrite !Hf. cbn. rewrite E.
  change (i64_arith (10 + 1)) with (Ok (E := OtaErr.Error) 11%Z). cbn -[wrap_i64 wrap_u64].
  destruct s as [[[t sv] po] m], Hs as [Hst Hp Hr Hnd]. cbn in *. subst.
  change (Z.to_nat 11) with 11. destruct o as [r|]; cbn; rewrite !Hf; done.
Qed.
End jobs.

(** ** The dispatcher as the receivers of each device *)

Section channels.
Context `{SqlOrder, BuildProfile, BroadcastSpec UpdateCommand}.
Abbreviation Receivers := (list (nat * Backlog UpdateCommand)).

Record hears (m : gmap string Chan) (f : string -> Receivers) : Prop := {
  heard_capacities : capacities m;
  heard_backlogs d : backlogs d m = list_to_map (f d);
  heard_ids d : NoDup (f d).*1
}.

Lemma no_channel_hears : hears ∅ (fun _ => []).
Proof using Type.
  split; [by intros d c; rewrite lookup_empty| |constructor].
  intros d. unfold backlogs. by rewrite lookup_empty.
Qed.

Definition at_device (d : string) (l : Receivers) (f : string -> Receivers) : string -> Receivers :=
  fun d' => if decide (d' = d) then l else f d'.

Lemma at_device_eq d l f : at_device d l f d = l.
Proof using Type. unfold at_device. by rewrite decide_True. Qed.
Lemma at_device_ne d d' l f : d' <> d -> at_device d l f d' = f d'.
Proof using Type. intros ?. unfold at_device. by rewrite decide_False. Qed.

Lemma hears_at m m' f d l :
  hears m f -> capacities m' -> NoDup l.*1 -> backlogs d m' = list_to_map l ->
  (forall d', d' <> d -> backlogs d' m' = backlogs d' m) -> hears m' (at_device d l f).
Proof using Type.
  intros [Hc Hb Hn] Hc' Hl Hd Ho. split; [done|..]; intros d'; unfold at_device; case_decide; subst; auto.
  by rewrite Ho.
Qed.

Context {B : Type} (envs : nat -> Env) (s : OtaState) (f : string -> Receivers).
Context (Hs : hears (dispatcher s) f).
Abbreviation later := (fun n => envs (Datatypes.S n)).
Abbreviation passes := (passes (S := OtaState)).

Lemma passes_subscribe d (k : nat -> Test OtaE B) :
  (forall rx s', rx ∉ (f d).*1 -> hears (dispatcher s') (at_device d ((rx, (0, [])) :: f d) f) ->
     passes (k rx) later s') ->
  passes (Await (SubscribeE d) k) envs s.
Proof using All.
  intros Hk. destruct (subscribe d (dispatcher s)) as [rx m'] eqn:E.
  destruct (subscribe_spec _ _ _ _ E (heard_capacities _ _ Hs)) as (Hn & Hb & Ho & Hc).
  rewrite (heard_backlogs _ _ Hs) in Hn, Hb. apply not_elem_of_list_to_map_2 in Hn.
  eapply passes_await; [cbn; by rewrite E|]. apply Hk; [done|]. cbn.
  eapply hears_at; try done. constructor; [done|apply (heard_ids _ _ Hs)].
Qed.

Lemma passes_dispatch d l c (k : outcome OtaErr.Error Z -> Test OtaE B) :
  f d = l -> l <> [] ->
  (forall s', hears (dispatcher s') (at_device d (prod_map (fun x => x) (push CHANNEL_CAPACITY c) <$> l) f) ->
     passes (k (Ok (Z.of_nat (length l)))) later s') ->
  passes (Await (DispatchE d c) k) envs s.
Proof using All.
  intros <- Hne Hk. destruct (dispatch d c (dispatcher s)) as [r m'] eqn:E.
  destruct (dispatch_spec _ _ _ _ _ E (heard_capacities _ _ Hs)) as [Hc [(Hnone & _)|(_ & -> & Hb & Ho)]].
  { rewrite (heard_backlogs _ _ Hs) in Hnone. by destruct (f d) as [|[? ?] ?]; [|cbn in Hnone; apply insert_non_empty in Hnone]. }
  eapply passes_await; [cbn; by rewrite E|]. rewrite (heard_backlogs _ _ Hs) in Hb |- *.
  rewrite map_size_list_to_map by apply (heard_ids _ _ Hs). apply Hk. cbn.
  pose proof (heard_ids _ _ Hs d) as Hnd.
  eapply hears_at; try done.
  - by rewrite <- list_fmap_compose.
  - by rewrite Hb, list_to_map_fmap.
Qed.

Lemma passes_dispatch_none d c (k : outcome OtaErr.Error Z -> Test OtaE B) :
  f d = [] ->
  (forall s', hears (dispatcher s') f -> passes (k (Err (OtaErr.NoActiveSubscribers d))) later s') ->
  passes (Await (DispatchE d c) k) envs s.
Proof using All.
  intros Hd Hk. destruct (dispatch d c (dispatcher s)) as [r m'] eqn:E.
  destruct (dispatch_spec _ _ _ _ _ E (heard_capacities _ _ Hs)) as [Hc [(_ & -> & ->)|(Hne & _)]].
  - eapply passes_await; [cbn; by rewrite E|]. by apply Hk.
  - by rewrite (heard_backlogs _ _ Hs), Hd in Hne.
Qed.

(** One receiver among those of its device. *)
Lemma receiver_among (l1 l2 : Receivers) rx b :
  NoDup (l1 ++ (rx, b) :: l2).*1 ->
  (forall b' : Backlog UpdateCommand, NoDup (l1 ++ (rx, b') :: l2).*1 /\
    list_to_map (M := gmap nat _) (l1 ++ (rx, b') :: l2) = <[rx := b']> (list_to_map (l1 ++ l2))) /\
  NoDup (l1 ++ l2).*1 /\ list_to_map (M := gmap nat (Backlog UpdateCommand)) (l1 ++ l2) !! rx = None.
Proof using Type.
  intros Hnd. assert (forall b', (l1 ++ (rx, b') :: l2) ≡ₚ (rx, b') :: l1 ++ l2) as Hp
    by (intros b'; by rewrite Permutation_middle).
  assert (NoDup (rx :: (l1 ++ l2).*1)) as Hnd2.
  { eapply NoDup_Permutation_proper; [|exact Hnd]. by rewrite (Hp b). }
  assert (forall b', NoDup (l1 ++ (rx, b') :: l2).*1) as Hnd3.
  { intros b'. eapply NoDup_Permutation_proper; [by rewrite (Hp b')|exact Hnd2]. }
  apply NoDup_cons in Hnd2 as [Hin Hnd2]. split; [intros b'; split; [apply Hnd3|]|split; [done|]].
  - by rewrite (list_to_map_proper _ _ (Hnd3 b') (Hp b')).
  - by apply not_elem_of_list_to_map_1.
Qed.

Lemma passes_poll l1 l2 d rx c held (k : option (outcome nat UpdateCommand) -> Test OtaE B) :
  f d = l1 ++ (rx, (0, c :: held)) :: l2 ->
  (forall s', hears (dispatcher s') (at_device d (l1 ++ (rx, (0, held)) :: l2) f) ->
     passes (k (Some (Ok c))) later s') ->
  passes (Await (PollE d rx) k) envs s.
Proof using All.
  intros Hd Hk. pose proof (heard_ids _ _ Hs d) as Hnd. pose proof (heard_backlogs _ _ Hs d) as Hb.
  rewrite Hd in Hnd, Hb. destruct (receiver_among _ _ _ _ Hnd) as (Hset & _ & _).
  rewrite (proj2 (Hset _)) in Hb. pose proof (heard_capacities _ _ Hs) as Hcap.
  unfold backlogs in Hb. destruct (dispatcher s !! d) as [ch|] eqn:Hch; cbn in Hb.
  2: { symmetry in Hb. by apply insert_non_empty in Hb. }
  destruct (recv_message rx ch c held) as (ch' & Hr & Hb' & Hc'); [by rewrite Hb, lookup_insert_eq|].
  eapply passes_await; [cbn; unfold poll_recv; by rewrite Hch, Hr|]. apply Hk. cbn.
  eapply hears_at; [done|apply capacities_insert; [done|]|apply Hset|rewrite (proj2 (Hset _))|].
  - rewrite Hc'. by eapply Hcap.
  - by rewrite backlogs_insert, decide_True, Hb', Hb, insert_insert_eq.
  - intros d' Hne. rewrite backlogs_insert. by rewrite decide_False.
Qed.

Lemma passes_drop l1 l2 d rx b (k : unit -> Test OtaE B) :
  f d = l1 ++ (rx, b) :: l2 ->
  (forall s', hears (dispatcher s') (at_device d (l1 ++ l2) f) -> passes (k tt) later s') ->
  passes (Await (DropE d rx) k) envs s.
Proof using All.
  intros Hd Hk. pose proof (heard_ids _ _ Hs d) as Hnd. pose proof (heard_backlogs _ _ Hs d) as Hb.
  rewrite Hd in Hnd, Hb. destruct (receiver_among _ _ _ _ Hnd) as (Hset & Hnd' & Hn).
  rewrite (proj2 (Hset _)) in Hb. pose proof (heard_capacities _ _ Hs) as Hcap.
  unfold backlogs in Hb. destruct (dispatcher s !! d) as [ch|] eqn:Hch; cbn in Hb.
  2: { symmetry in Hb. by apply insert_non_empty in Hb. }
  destruct (drop_backlog rx ch) as [Hb' Hc'].
  eapply passes_await; [reflexivity|]. apply Hk. cbn. unfold drop_recv.
  assert (alter (chan_drop rx) d (dispatcher s) = <[d := chan_drop rx ch]> (dispatcher s)) as ->.
  { apply map_eq. intros j. rewrite lookup_alter, lookup_insert. case_decide; [by subst; rewrite Hch|done]. }
  eapply hears_at; [done|apply capacities_insert; [done|]|done| |].
  - rewrite Hc'. by eapply Hcap.
  - rewrite backlogs_insert, decide_True, Hb', Hb by done. by rewrite delete_insert_id.
  - intros d' Hne. rewrite backlogs_insert. by rewrite decide_False.
Qed.
End channels.

(** ** They pass *)

Section pass.
Context `{SqlOrder, BuildProfile, BroadcastSpec UpdateCommand} (envs : nat -> Env) (Hg : good_run envs).

Ltac job_call :=
  match goal with
  | |- Testing.passes (Await (JobE ?c) _) _ _ =>
      match c with
      | CreateJob _ =>
          first [ eapply passes_create_job; [eassumption|no_fault_tac|reflexivity|fresh_ids|]
                | eapply passes_create_job_again; [eassumption|no_fault_tac|discriminate|fresh_ids|] ]
      | UpdateJobStatus _ _ _ =>
          first [ eapply passes_update_job; [eassumption|no_fault_tac|reflexivity|]
                | eapply passes_update_job_none; [eassumption|no_fault_tac|apply not_elem_of_nil|] ]
      | GetPending _ =>
          first [ refine (passes_get_pending _ _ _ _ _ _ None _ _ _); [eassumption|no_fault_tac|reflexivity|]
                | refine (passes_get_pending _ _ _ _ _ _ (Some _) _ _ _); [eassumption|no_fault_tac|reflexivity|] ]
      | ListForDevice _ _ _ =>
          refine (passes_list_jobs _ _ _ _ _ _ (Some _) _ _ _); [eassumption|no_fault_tac|reflexivity|]
      end; let s := fresh "s" in let Hs := fresh "Hs" in intros s Hs; cbn
  end.

Lemma job_store_tests_pass m :
  Forall (fun t => passes t envs (mkOta (JobStore.new ∅) m)) JobTests.tests.
Proof using All.
  pose proof (empty_jobs_hold m) as Hs. unfold JobTests.tests. repeat constructor.
  all: cbv delta [JobTests.create_and_get_job JobTests.create_job_blocks_second_pending
    JobTests.create_job_allowed_after_completion JobTests.create_job_allowed_after_failure
    JobTests.get_pending_for_device_returns_active_job
    JobTests.get_pending_for_device_returns_none_when_completed
    JobTests.update_status_returns_not_found_for_missing_id
    JobTests.list_for_device_returns_jobs_in_desc_order
    JobTests.already_pending_guard_independent_per_device].
  all: cbn; repeat first [job_call|check]; try apply passes_done.
Qed.

Ltac receivers := rewrite ?at_device_eq, ?at_device_ne by discriminate; reflexivity.
Ltac channel_call :=
  match goal with
  | |- Testing.passes (Await (SubscribeE _) _) _ _ =>
      eapply passes_subscribe; [eassumption|]; let rx := fresh "rx" in intros rx
  | |- Testing.passes (Await (DispatchE _ _) _) _ _ =>
      first [ eapply passes_dispatch_none; [eassumption|receivers|]
            | eapply passes_dispatch; [eassumption|receivers|discriminate|] ]
  | |- Testing.passes (Await (PollE _ _) _) _ _ =>
      first [ refine (passes_poll _ _ _ _ [] _ _ _ _ _ _ _ _); [eassumption|receivers|]
            | refine (passes_poll _ _ _ _ [_] _ _ _ _ _ _ _ _); [eassumption|receivers|] ]
  | |- Testing.passes (Await (DropE _ _) _) _ _ =>
      refine (passes_drop _ _ _ _ [] _ _ _ _ _ _ _); [eassumption|receivers|]
  end; let s := fresh "s" in let Hs := fresh "Hs" in
  first [intros s ? Hs | intros s Hs]; cbn -[CHANNEL_CAPACITY at_device].

Lemma dispatcher_tests_pass st :
  Forall (fun t => passes t envs (mkOta st ∅)) DispatchTests.tests.
Proof using All.
  pose proof (no_channel_hears : hears (dispatcher (mkOta st ∅)) _) as Hs.
  unfold DispatchTests.tests. repeat constructor.
  all: cbv delta [DispatchTests.subscribe_and_dispatch_delivers_command
    DispatchTests.dispatch_with_no_subscribers_returns_error
    DispatchTests.dispatch_after_receiver_dropped_returns_error
    DispatchTests.multiple_subscribers_all_receive DispatchTests.dispatch_is_independent_per_device
    DispatchTests.subscribe_creates_channel_on_first_call].
  all: cbn -[CHANNEL_CAPACITY]; repeat first [channel_call|check]; apply passes_done.
Qed.

(** The repository's tests of the job store and of the dispatcher pass, each
    on an empty service, whatever ids are drawn as long as they differ,
    whatever the creation times, whatever order the engine gives to rows with
    equal keys, and for every implementation of the broadcast channels that
    behaves as documented. *)
Theorem ota_unit_tests_pass :
  Forall (fun t => passes t envs (mkOta (JobStore.new ∅) ∅)) (JobTests.tests ++ DispatchTests.tests).
Proof using All.
  apply Forall_app. split; [apply job_store_tests_pass|apply dispatcher_tests_pass].
Qed.
End pass.
