(* ===== verification/ArtifactTests.v ===== *)
(** * The unit tests of the artifact store

    The test modules of [src/artifact-store/src/registry/mod.rs] and
    [src/artifact-store/src/server/mod.rs], and the theorem that they pass. *)

From Stdlib Require Import Ascii.
From S2P Require Import Prelude Sqlite Async Grpc RustStr ArtifactStore ArtifactServer ArtifactClaims.
From S2P Require Import Lockout Testing DmsTests.

(** ** The tests of the registry *)

Module RegistryTests.
Definition registry {A} (c : RegistryCall A) : Task ArtE ArtErr.Error A := call (RegistryE c).

Definition new_artifact (model version : string) : NewArtifact :=
  mkNewArtifact model version "abc123" 1024 "stable" (upload_key model version) "https://example.com/fw".

Definition is_not_found (e : ArtErr.Error) : bool :=
  match e with ArtErr.NotFound _ => true | _ => false end.
Definition is_version_conflict (e : ArtErr.Error) : bool :=
  match e with ArtErr.VersionConflict _ _ => true | _ => false end.

Definition create_and_get : Test ArtE unit :=
  record ← unwrap (registry (Create (new_artifact "humanoid-v2" "1.0.0")));
  _ ← assert (negb (bool_decide (art_id record = "")));
  fetched ← unwrap (registry (Get (art_id record)));
  _ ← assert_eq! (art_version fetched) "1.0.0";
  assert_eq! (art_model fetched) "humanoid-v2".

Definition get_not_found : Test ArtE unit :=
  err ← unwrap_err (registry (Get "nonexistent-id"));
  assert (is_not_found err).

Definition version_conflict : Test ArtE unit :=
  _ ← unwrap (registry (Create (new_artifact "humanoid-v2" "1.0.0")));
  err ← unwrap_err (registry (Create (new_artifact "humanoid-v2" "1.0.0")));
  assert (is_version_conflict err).

(** The sleep of 1.1 seconds between the two calls is in the clock. *)
Definition get_latest_returns_most_recent : Test ArtE unit :=
  _ ← unwrap (registry (Create (new_artifact "humanoid-v2" "1.0.0")));
  _ ← unwrap (registry (Create (new_artifact "humanoid-v2" "2.0.0")));
  latest ← unwrap (registry (GetLatest "humanoid-v2" "stable"));
  assert_eq! (art_version latest) "2.0.0".

Definition list_filtered_by_model_and_channel : Test ArtE unit :=
  _ ← unwrap (registry (Create (new_artifact "humanoid-v2" "1.0.0")));
  _ ← unwrap (registry (Create (new_artifact "humanoid-v2" "2.0.0")));
  _ ← unwrap (registry (Create (mkNewArtifact "arm-v1" "1.0.0" "def456" 512 "stable" "arm/1.0.0/fw"
                                  "https://example.com/arm")));
  results ← unwrap (registry (ListCall "humanoid-v2" "stable" 10));
  _ ← assert_eq! (length results) 2;
  assert (forallb (fun a => bool_decide (art_model a = "humanoid-v2")) results).

Definition tests : list (Test ArtE unit) :=
  [create_and_get; get_not_found; version_conflict; get_latest_returns_most_recent;
   list_filtered_by_model_and_channel].
End RegistryTests.

(** ** The tests of the server *)

(** [MockObjectStore] with what [presign_upload] answers, if it is expected. *)
Definition MockObjectStore : Type := option (string -> Z -> outcome ArtErr.Error string).
#[export] Instance mock_object_store : ObjectStore MockObjectStore := {
  presign_upload m key secs := default Panic (m ≫= fun f => Some (f key secs));
  presign_download _ _ _ := Panic;
  object_exists _ _ := Panic
}.

Module ServerTests.
Section tests.
Context (rt : RusqliteError -> string).

Definition publish_returns_artifact_meta : Test ArtE unit :=
  resp ← unwrap (publish_artifact rt
           (mkPublishReq "humanoid-v2" "1.0.0" "deadbeef" 2048 "stable" "humanoid-v2/1.0.0/fw.bin" ∅));
  meta ← unwrap_some (pr_artifact resp);
  _ ← assert_eq! (am_version meta) "1.0.0";
  assert (negb (bool_decide (am_artifact_id meta = ""))).

Definition publish_rejects_empty_sha256 : Test ArtE unit :=
  err ← unwrap_err (publish_artifact rt (mkPublishReq "humanoid-v2" "1.0.0" "" 0 "" "" ∅));
  assert_eq! (code err) InvalidArgument.

(** The mock of the third test. *)
Definition storage : MockObjectStore := Some (fun _ _ => Ok "https://minio.example.com/presigned").

Definition generate_upload_url_calls_storage : Test ArtE unit :=
  resp ← unwrap (generate_upload_url rt (mkUploadReq "humanoid-v2" "2.0.0" "application/octet-stream"));
  assert (contains "presigned" (upload_url resp)).
End tests.
End ServerTests.

(** ** The registry as the list of its rows *)

Section rows.
Context `{SqlOrder} {O : Type} `{ObjectStore O} (storage : Env -> O).
#[local] Instance handler : Handler ArtE (Mutex Artifacts) := art_handler storage.

Record holds (s : Mutex Artifacts) (l : list ArtifactRecord) : Prop := {
  held_idle : idle s;
  held_rows : artifact_rows (rows s) ≡ₚ l;
  held_lookup i a : rows s !! i = Some a <-> a ∈ l /\ art_id a = i
}.

Lemma empty_registry_holds : holds (SqliteRegistry.new ∅) [].
Proof using Type.
  split; [done|done|]. intros i a. unfold rows. cbn. rewrite lookup_empty. set_solver.
Qed.

Context {B : Type} (envs : nat -> Env) (s : Mutex Artifacts) (l : list ArtifactRecord).
Context (Hs : holds s l) (Hf : no_fault (envs 0)).
Abbreviation later := (fun n => envs (Datatypes.S n)).
Abbreviation passes := (passes (S := Mutex Artifacts)).

(** The next effect of a run without faults. *)
Lemma passes_registry {A} (c : RegistryCall A) r s' (k : outcome ArtErr.Error A -> Test ArtE B) :
  registry_call (envs 0) c s = (r, s') -> passes (k r) later s' ->
  passes (Await (RegistryE c) k) envs s.
Proof using Type. intros E Hk. by eapply passes_await. Qed.

Lemma passes_create_artifact a (k : outcome ArtErr.Error ArtifactRecord -> Test ArtE B) :
  fresh_uuid (envs 0) ∉ art_id <$> l -> Forall (fun b => ~ same_version (na_model a) (na_version a) b) l ->
  (forall s', holds s' (SqliteRegistry.record_of (envs 0) a :: l) ->
     passes (k (Ok (SqliteRegistry.record_of (envs 0) a))) later s') ->
  passes (Await (RegistryE (Create a)) k) envs s.
Proof using All.
  intros Hu Hv Hk. destruct Hs as [[Hst Hp] Hr Hl].
  destruct (SqliteRegistry.create (envs 0) a s) as [r s'] eqn:Hc.
  destruct (post_run _ _ _ _ _ Hc (create_post _ a s Hst)) as (Hst' & Hp' & [(_ & ? & _)|Ho]); [congruence|].
  assert (rows s !! fresh_uuid (envs 0) = None) as Hn.
  { destruct (rows s !! _) as [b|] eqn:Hb; [|done]. apply Hl in Hb as [Hb Hnamed].
    destruct Hu. rewrite <- Hnamed. by apply list_elem_of_fmap_2. }
  assert (~ faulty (envs 0)) as Hnf by (intros [x Hx]; by rewrite Hf in Hx).
  assert (r = Ok (SqliteRegistry.record_of (envs 0) a) /\
    rows s' = <[fresh_uuid (envs 0) := SqliteRegistry.record_of (envs 0) a]> (rows s)) as [-> Hrows].
  { destruct r as [rec|[|m v|e| |]|]; cbn in Ho; try done; [naive_solver| |naive_solver].
    destruct Ho as (-> & -> & _ & [[b Hb]|(i & b & Hb & Hsame)]); [congruence|].
    apply Hl in Hb as [Hb _]. rewrite Forall_forall in Hv. by destruct (Hv b Hb). }
  eapply passes_registry; [exact Hc|]. apply Hk. split; [by split; [|congruence]|..]; rewrite Hrows.
  - unfold artifact_rows. rewrite map_to_list_insert by done. cbn. by apply Permutation_skip.
  - intros i b. rewrite lookup_insert. case_decide as Hi.
    + subst i. split; [intros [= <-]; split; [left|done]|]. intros [[->|Hin]%elem_of_cons Hnamed]; [done|].
      destruct Hu. rewrite <- Hnamed. by apply list_elem_of_fmap_2.
    + rewrite Hl, elem_of_cons. split; [naive_solver|]. intros [[->|?] ?]; [done|naive_solver].
Qed.

Lemma passes_create_conflict a (k : outcome ArtErr.Error ArtifactRecord -> Test ArtE B) :
  Exists (same_version (na_model a) (na_version a)) l ->
  (forall s', holds s' l -> passes (k (Err (ArtErr.VersionConflict (na_model a) (na_version a)))) later s') ->
  passes (Await (RegistryE (Create a)) k) envs s.
Proof using All.
  intros Hv Hk. destruct Hs as [[Hst Hp] Hr Hl].
  destruct (SqliteRegistry.create (envs 0) a s) as [r s'] eqn:Hc.
  destruct (post_run _ _ _ _ _ Hc (create_post _ a s Hst)) as (Hst' & Hp' & [(_ & ? & _)|Ho]); [congruence|].
  assert (~ faulty (envs 0)) as Hnf by (intros [x Hx]; by rewrite Hf in Hx).
  apply Exists_exists in Hv as (b & Hb & Hsame).
  assert (rows s !! art_id b = Some b) as Hlook by (by apply Hl).
  assert (r = Err (ArtErr.VersionConflict (na_model a) (na_version a)) /\ rows s' = rows s) as [-> Hrows].
  { destruct r as [rec|[|m v|e| |]|]; cbn in Ho; try done; naive_solver. }
  eapply passes_registry; [exact Hc|]. apply Hk. split; [by split; [|congruence]|..]; by rewrite Hrows.
Qed.

Lemma passes_get_artifact a i (k : outcome ArtErr.Error ArtifactRecord -> Test ArtE B) :
  a ∈ l -> art_id a = i ->
  (forall s', holds s' l -> passes (k (Ok a)) later s') ->
  passes (Await (RegistryE (Get i)) k) envs s.
Proof using All.
  intros Ha Hi Hk. eapply passes_registry; [cbn; by rewrite (get_calm i _ s (held_idle _ _ Hs) Hf)|].
  rewrite (proj2 (held_lookup _ _ Hs i a)) by done. by apply Hk.
Qed.

Lemma passes_get_artifact_none i (k : outcome ArtErr.Error ArtifactRecord -> Test ArtE B) :
  i ∉ art_id <$> l ->
  (forall s', holds s' l -> passes (k (Err (ArtErr.NotFound i))) later s') ->
  passes (Await (RegistryE (Get i)) k) envs s.
Proof using All.
  intros Hi Hk. eapply passes_registry; [cbn; by rewrite (get_calm i _ s (held_idle _ _ Hs) Hf)|].
  destruct (rows s !! i) as [a|] eqn:Ha; [|by apply Hk].
  apply (held_lookup _ _ Hs) in Ha as [Ha <-]. destruct Hi. by apply list_elem_of_fmap_2.
Qed.

Lemma held_sorted env n m ch :
  SqliteRegistry.sorted env n m ch (rows s) ≡ₚ filter (in_channel m ch) l.
Proof using All. unfold SqliteRegistry.sorted. by rewrite order_by_perm, (held_rows _ _ Hs). Qed.

(** The newest of the channel, when one row is newer than all the others. *)
Lemma passes_get_latest a m ch (k : outcome ArtErr.Error ArtifactRecord -> Test ArtE B) :
  a ∈ filter (in_channel m ch) l ->
  (forall b, b ∈ filter (in_channel m ch) l -> b = a \/ (art_created_at b < art_created_at a)%Z) ->
  (forall s', holds s' l -> passes (k (Ok a)) later s') ->
  passes (Await (RegistryE (GetLatest m ch)) k) envs s.
Proof using All.
  intros Ha Hmax Hk. eapply passes_registry; [cbn; by rewrite (latest_calm m ch _ s (held_idle _ _ Hs) Hf)|].
  pose proof (sorted_head (envs 0) 0 m ch (rows s)) as Hh. cbv zeta in Hh.
  assert (a ∈ filter (in_channel m ch) (artifact_rows (rows s))) as Ha'
    by (by rewrite (held_rows _ _ Hs)).
  destruct (head (SqliteRegistry.sorted (envs 0) 0 m ch (rows s))) as [b|]; cbn;
    [|rewrite Hh in Ha'; by apply not_elem_of_nil in Ha'].
  destruct Hh as [Hb Hall]. rewrite Forall_forall in Hall. specialize (Hall a Ha').
  rewrite (held_rows _ _ Hs) in Hb.
  destruct (Hmax b Hb) as [->|Hlt]; [by apply Hk|]. unfold latest_first in Hall. lia.
Qed.

Lemma passes_list_artifacts m ch limit (k : outcome ArtErr.Error (list ArtifactRecord) -> Test ArtE B) :
  (0 <= limit)%Z ->
  (forall s' found, holds s' l -> found ≡ₚ filter (in_channel m ch) l ->
     passes (k (Ok (take (Z.to_nat limit) found))) later s') ->
  passes (Await (RegistryE (ListCall m ch limit)) k) envs s.
Proof using All.
  intros Hl Hk. eapply passes_registry; [cbn; by rewrite (list_calm m ch limit _ s (held_idle _ _ Hs) Hf Hl)|].
  apply Hk; [done|]. apply held_sorted.
Qed.
End rows.

(** ** They pass *)

Section pass.
Context `{SqlOrder} (rt : RusqliteError -> string) (envs : nat -> Env) (Hg : good_run envs).
(** Ids are not empty, and the second effect of a test comes at least 1.1
    seconds after the first. *)
Context (Hnamed : forall n, fresh_uuid (envs n) <> "").
Context (Hslept : (clock (envs 0) + 1100000000 <= clock (envs 1))%Z).

Abbreviation on m t := (passes (HandlerIn0 := art_handler (fun _ : Env => m : MockObjectStore)) t envs
  (SqliteRegistry.new ∅)).

Ltac other_versions := cbn; repeat constructor; intros [? ?]; cbn in *; discriminate.
Ltac registry_call :=
  match goal with
  | |- Testing.passes (Await (RegistryE ?c) _) _ _ =>
      match c with
      | Create _ =>
          first [ eapply passes_create_artifact;
                    [eassumption|no_fault_tac|fresh_ids|other_versions|]
                | eapply passes_create_conflict; [eassumption|no_fault_tac|left; done|] ]
      | Get _ =>
          first [ once (eapply passes_get_artifact; [eassumption|no_fault_tac|pick_row| |]; [reflexivity|])
                | eapply passes_get_artifact_none; [eassumption|no_fault_tac|apply not_elem_of_nil|] ]
      end; let s := fresh "s" in let Hs := fresh "Hs" in intros s Hs; cbn
  end.

Lemma registry_tests_pass m : Forall (fun t => on m t) RegistryTests.tests.
Proof using All.
  pose proof empty_registry_holds as Hs. unfold RegistryTests.tests. repeat constructor.
  all: cbv delta [RegistryTests.create_and_get RegistryTests.get_not_found RegistryTests.version_conflict
    RegistryTests.get_latest_returns_most_recent RegistryTests.list_filtered_by_model_and_channel].
  all: cbn; repeat first [registry_call|check|rewrite bool_decide_eq_false_2 by apply Hnamed; cbn]; try apply passes_done.
  - eapply passes_get_latest; [eassumption|no_fault_tac|..].
    + apply list_elem_of_filter. split; [|apply list_elem_of_here]. split; reflexivity.
    + intros b [[_ _] [->|[->|[]%not_elem_of_nil]%elem_of_cons]%elem_of_cons]%list_elem_of_filter; [by left|].
      right. cbn. unfold unix_timestamp. apply Z.div_lt_upper_bound; [done|].
      pose proof (Z.mod_pos_bound (clock (envs 1)) 1000000000).
      pose proof (Z.div_mod (clock (envs 1)) 1000000000). lia.
    + intros s2 Hs2. cbn. check. apply passes_done.
  - eapply passes_list_artifacts; [eassumption|no_fault_tac|done|]. intros s3 found Hs3 Hp.
    change (filter _ _) with
      [SqliteRegistry.record_of (envs 1) (RegistryTests.new_artifact "humanoid-v2" "2.0.0");
       SqliteRegistry.record_of (envs 0) (RegistryTests.new_artifact "humanoid-v2" "1.0.0")] in Hp.
    symmetry in Hp. by apply Permutation_length_2_inv in Hp as [-> | ->]; eexists.
Qed.

Lemma server_tests_pass :
  on None (ServerTests.publish_returns_artifact_meta rt) /\
  on None (ServerTests.publish_rejects_empty_sha256 rt) /\
  on ServerTests.storage (ServerTests.generate_upload_url_calls_storage rt).
Proof using All.
  pose proof empty_registry_holds as Hs. split; [|split]; [|by eexists..].
  cbv delta [ServerTests.publish_returns_artifact_meta]. unfold publish_artifact. rewrite bool_decide_eq_false_2 by done. cbn.
  registry_call. check. rewrite bool_decide_eq_false_2 by apply Hnamed. apply passes_done.
Qed.

(** The repository's tests of the registry and of the artifact server pass
    on an empty registry, whatever ids are drawn as long as they differ and are
    not empty, whatever the time, if the test that sleeps a second between two
    versions finds the clock a second later, and whatever order the engine
    gives to artifacts of the same second; the object store that two server
    tests get panics when it is called, so they do not call it. *)
Theorem artifact_unit_tests_pass :
  Forall (fun t => on None t) RegistryTests.tests /\
  on None (ServerTests.publish_returns_artifact_meta rt) /\
  on None (ServerTests.publish_rejects_empty_sha256 rt) /\
  on ServerTests.storage (ServerTests.generate_upload_url_calls_storage rt).
Proof using All. split; [apply registry_tests_pass|apply server_tests_pass]. Qed.
End pass.
