(* ===== verification/AgentTests.v ===== *)
(** * The unit tests of the agent's updates

    The test module of [src/robot-agent/src/ota.rs]: the texts of two errors.
    Its third test, [apply_update_missing_install_script_returns_error], never
    calls [apply_update]; what its name says is proved here. *)

From Stdlib Require Import Init.Byte.
From S2P Require Import Prelude Sqlite Async Testing DmsTests Grpc AgentBoot AgentOta LoopClaims AgentOtaClaims.

Module UpdateTests.
Section tests.
Context {F : Type -> Type} (status_text : Status -> string).

Definition checksum_mismatch_error_includes_both_hashes : Test F unit :=
  let msg := AgentErr.to_string status_text (AgentErr.Checksum "aabb" "ccdd") in
  _ ← assert (contains "aabb" msg);
  assert (contains "ccdd" msg).

Definition install_error_message_is_descriptive : Test F unit :=
  assert (contains "install.sh"
    (AgentErr.to_string status_text (AgentErr.Install "install.sh not found in artifact"))).
End tests.
End UpdateTests.

Lemma update_tests_pass {F : Type -> Type} status_text :
  UpdateTests.checksum_mismatch_error_includes_both_hashes (F := F) status_text = Done (Ok tt) /\
  UpdateTests.install_error_message_is_descriptive (F := F) status_text = Done (Ok tt).
Proof. done. Qed.

(** An archive that is fetched, verified and unpacked but holds no
    [install.sh]: the error says so, and nothing is run. *)
Theorem missing_install_script `{Sha256Lib} int_text url sha dir bytes envs :
  (forall n, tmp_dir (envs n) = inr dir /\ http (envs n) = inr tt /\ body (envs n) = inr bytes /\
     file_io (envs n) = inr tt /\ tar (envs n) = inr true /\ present (envs n) = false) ->
  sha = "" \/ sha256_hex bytes = sha ->
  Async.run (apply_update int_text url sha) envs [] =
    (Err (AgentErr.Install "install.sh not found in artifact"),
     [Fetched url; Archived (join dir "artifact.tar.gz") bytes;
      Extracted (join dir "artifact.tar.gz") (join dir "staging")]).
Proof.
  intros Hh Hsha. assert (bool_decide (sha <> "" /\ sha256_hex bytes <> sha) = false) as Hok
    by (apply bool_decide_eq_false_2; naive_solver).
  destruct (Hh 0) as (E0 & _), (Hh 1) as (_ & E1 & _), (Hh 2) as (_ & _ & E2 & _), (Hh 3) as (_ & _ & _ & E3 & _),
    (Hh 4) as (_ & _ & _ & E4 & _), (Hh 5) as (_ & _ & _ & _ & E5 & _), (Hh 6) as (_ & _ & _ & _ & _ & E6).
  unfold apply_update. cbn. rewrite E0. cbn. rewrite E1. cbn. rewrite E2. cbn. rewrite Hok. cbn.
  rewrite E3. cbn. rewrite E4. cbn. rewrite E5. cbn. by rewrite E6.
Qed.
