(* ===== verification/TelemetryTests.v ===== *)
(** * The unit tests of the telemetry parser

    The test module of [src/robot-agent/src/telemetry.rs].  The literals are
    the bits of the doubles of the source. *)

From Stdlib Require Import Init.Byte Floats.SpecFloat.
From S2P Require Import Prelude F64 Bytes Async Grpc AgentTelemetry TelemetryClaims Testing.

(** [f64::from_bits], of a finite number. *)
Definition f64_from_bits (z : Z) : f64 :=
  let s := Z.testbit z 63 in
  let e := Z.land (Z.shiftr z 52) 2047 in
  let m := Z.land z (2 ^ 52 - 1) in
  match (if (e =? 0)%Z then m else m + 2 ^ 52)%Z with
  | Zpos m => S754_finite s m (Z.max 1 e - 1075)
  | _ => S754_zero s
  end.

Lemma f64_from_bits_35 : f64_from_bits 0x4041800000000000 = f64_of_Z 35.
Proof. reflexivity. Qed.

(** [(a - b).abs() < 1e-9]. *)
Definition close (a b : Z) : bool :=
  SFltb (SFabs (f64_sub (f64_from_bits a) (f64_from_bits b))) (f64_from_bits 0x3e112e0be826d695).

(** [v[at..at + new.len()].copy_from_slice(new)]. *)
Definition copy_at (at_ : nat) (new v : list byte) : list byte :=
  take at_ v ++ new ++ drop (at_ + length new) v.

Section tests.
Context `{BuildProfile} {F : Type -> Type}.

Definition parsed (device_id : string) (payload : list byte) : Test F TelemetryFrame :=
  unwrap (pure_code (parse_frame device_id payload)).
Definition joint (frame : TelemetryFrame) (i : Z) : Test F JointStatus :=
  unwrap_some (get_at (tf_joints frame) i).

(** [0.1, 0.2, 0.3, 0.4, 0.5, 0.6] and [1.0, 2.0, 3.0, 4.0, 5.0, 6.0]. *)
Definition positions : list Z :=
  [0x3fb999999999999a; 0x3fc999999999999a; 0x3fd3333333333333;
   0x3fd999999999999a; 0x3fe0000000000000; 0x3fe3333333333333]%Z.
Definition torques : list Z :=
  [0x3ff0000000000000; 0x4000000000000000; 0x4008000000000000;
   0x4010000000000000; 0x4014000000000000; 0x4018000000000000]%Z.

Definition parse_frame_round_trip : Test F unit :=
  let payload := encode_frame 1700000000000000000 positions torques in
  frame ← parsed "dev-001" payload;
  _ ← assert_eq! (tf_device_id frame) "dev-001";
  _ ← assert_eq! (length (tf_joints frame)) 6;
  first ← joint frame 0;
  _ ← assert (close (js_position_rad first) 0x3fb999999999999a);
  _ ← assert (close (js_torque_nm first) 0x3ff0000000000000);
  last ← joint frame 5;
  assert (close (js_position_rad last) 0x3fe3333333333333).

Definition parse_frame_timestamp_correctly_split : Test F unit :=
  let payload := encode_frame 1700000001500000000 (replicate 6 0%Z) (replicate 6 0%Z) in
  frame ← parsed "dev" payload;
  recorded ← unwrap_some (tf_recorded_at frame);
  _ ← assert_eq! (seconds recorded) 1700000001%Z;
  assert_eq! (nanos recorded) 500000000%Z.

Definition is_none (r : outcome unit TelemetryFrame) : Test F unit :=
  Done (match r with Err _ => Ok tt | _ => Panic end).

Definition parse_frame_rejects_truncated_payload : Test F unit :=
  is_none (parse_frame "dev" (replicate 5 x00)).

(** Six joints claimed, data for three. *)
Definition parse_frame_rejects_mismatched_joint_count : Test F unit :=
  let payload := encode_frame 0 (replicate 3 0%Z) (replicate 3 0%Z) in
  is_none (parse_frame "dev" (copy_at 8 (to_be 4 6) payload)).

Definition joint_names_assigned_from_known_list : Test F unit :=
  let payload := encode_frame 0 (replicate 6 0%Z) (replicate 6 0%Z) in
  frame ← parsed "dev" payload;
  first ← joint frame 0;
  _ ← assert_eq! (js_name first) "panda_joint1";
  last ← joint frame 5;
  assert_eq! (js_name last) "panda_joint6".

Definition tests : list (Test F unit) :=
  [parse_frame_round_trip; parse_frame_timestamp_correctly_split;
   parse_frame_rejects_truncated_payload; parse_frame_rejects_mismatched_joint_count;
   joint_names_assigned_from_known_list].

(** The tests of the parser pass in a debug and in a release build. *)
Lemma parser_tests_pass : Forall (fun t => t = Done (Ok tt)) tests.
Proof using Type. destruct H; repeat constructor; vm_compute; reflexivity. Qed.
End tests.
