(* ===== verification/PkiTests.v ===== *)
(** * The unit tests of the PKI crate

    The test modules of [src/pki/src/csr.rs] and [src/pki/src/mtls.rs], with
    what rcgen and rustls make of keys and certificates as hypotheses, on the
    disk of [AgentWorld]. *)

From S2P Require Import Prelude Sqlite Async Pki AgentWorld Testing DmsTests.

(** ** [csr.rs] *)

(** The effects of [generate_csr], and the file mode that a test reads. *)
Inductive CsrTestE `{PkiLib} : Type -> Type :=
| HostE_ {X} (e : Csr.HostE X) : CsrTestE X
| Metadata (path : string) : CsrTestE (option Z).

#[export] Instance csr_test_handler `{PkiLib} {umask : Z} : HandlerIn AgentEnv CsrTestE (World (S := unit)) :=
  fun X env e w =>
    match e in CsrTestE X return X * World with
    | HostE_ e => host_effect umask env e w
    | Metadata path => (mode <$> disk w !! path, w)
    end.

Module CsrTests.
Section tests.
Context `{PkiLib}.

Definition generate (cn key_path : string) : Task CsrTestE PkiErr.Error string :=
  Csr.generate_csr (fun _ e => HostE_ e) cn key_path.

(** [key_path] is a file of a fresh temporary directory. *)
Definition generate_csr_writes_key_with_correct_mode (key_path : string) : Test CsrTestE unit :=
  csr_pem ← unwrap (generate "robot-agent" key_path);
  _ ← assert (negb (bool_decide (csr_pem = "")));
  metadata ← get Empty_set (Metadata key_path);
  mode ← unwrap_some metadata;
  assert_eq! (Z.land mode 511) 384%Z.

(** The CA of [make_ca], and the time of the signature. *)
Definition sign_csr_round_trip (key_path ca_cert_pem ca_key_pem : string) (now : Z) : Test CsrTestE unit :=
  csr_pem ← unwrap (generate "SN-DEMO-001" key_path);
  cert_pem ← unwrap (pure_code (Csr.sign_csr now csr_pem ca_cert_pem ca_key_pem 30));
  assert (contains "BEGIN CERTIFICATE" cert_pem).
End tests.
End CsrTests.

(** ** [mtls.rs] *)

Module MtlsTests.
Section tests.
Context `{RustlsLib} {F : Type -> Type}.

(** Certificates and keys are those that [make_ca] and [make_leaf] return. *)
Definition tls_configs_build_from_rcgen_certs
    (ca server_cert server_key client_cert client_key : string) : Test F unit :=
  _ ← unwrap (pure_code (Mtls.server_tls_config server_cert server_key ca));
  _ ← unwrap (pure_code (Mtls.client_tls_config client_cert client_key ca));
  mret tt.

Definition extract_serial_returns_cn (leaf_pem : string) : Test F unit :=
  der ← unwrap (pure_code (Mtls.certs_from_pem leaf_pem));
  serial ← unwrap (pure_code (Mtls.extract_serial der));
  assert_eq! serial "SN-ROBOT-42".

Definition verify_signed_by_accepts_correct_ca (ca leaf_pem : string) : Test F unit :=
  der ← unwrap (pure_code (Mtls.certs_from_pem leaf_pem));
  unwrap (pure_code (Mtls.verify_signed_by der ca)).

Definition verify_signed_by_rejects_wrong_ca (ca2 leaf_pem : string) : Test F unit :=
  der ← unwrap (pure_code (Mtls.certs_from_pem leaf_pem));
  assert (negb (is_ok (Mtls.verify_signed_by der ca2))).
End tests.
End MtlsTests.

(** ** They pass *)

Section pass.
Context `{RustlsLib} {F : Type -> Type}.

(** What the crates make of one PEM text: one certificate that parses, whose
    subject has one name. *)
Record one_cert (pem cn : string) (x : X509) : Prop := {
  one_der : exists der, pemfile_certs pem = [Ok der] /\ x509_from_der der = Ok x;
  one_name : common_names x = [Ok cn]
}.

(** A CA and a leaf that it signed. *)
Record ca_and_leaf (ca leaf cn : string) : Prop := {
  signed : exists x y, one_cert leaf cn x /\ (exists ca_cn, one_cert ca ca_cn y) /\
    verify_signature x (public_key y) = Ok tt
}.

#[local] Arguments Mtls.verify_signed_by : simpl never.

Lemma certs_of pem cn x : one_cert pem cn x ->
  exists der, Mtls.certs_from_pem pem = Ok [der] /\ x509_from_der der = Ok x.
Proof using Type.
  intros [(der & Hp & Hx) _]. exists der. unfold Mtls.certs_from_pem. by rewrite Hp.
Qed.

Lemma verify_signed_by_of leaf cn x ca ca_cn y :
  one_cert leaf cn x -> one_cert ca ca_cn y ->
  exists der, Mtls.certs_from_pem leaf = Ok [der] /\
    Mtls.verify_signed_by [der] ca = map_err PkiErr.CertVerification (verify_signature x (public_key y)).
Proof using Type.
  intros (der & Hl & Hx)%certs_of (ca_der & Hc & Hy)%certs_of. exists der. split; [done|].
  unfold Mtls.verify_signed_by. cbn. rewrite Hc. cbn. by rewrite Hy, Hx.
Qed.

Lemma extract_serial_passes ca leaf :
  ca_and_leaf ca leaf "SN-ROBOT-42" -> MtlsTests.extract_serial_returns_cn (F := F) leaf = Done (Ok tt).
Proof using Type.
  intros [(x & y & Hl & _ & _)]. destruct (certs_of _ _ _ Hl) as (der & Hd & Hx).
  unfold MtlsTests.extract_serial_returns_cn. rewrite Hd. cbn. unfold Mtls.extract_serial. cbn.
  rewrite Hx. cbn. by rewrite (one_name _ _ _ Hl).
Qed.

Lemma verify_accepts_passes ca leaf cn :
  ca_and_leaf ca leaf cn -> MtlsTests.verify_signed_by_accepts_correct_ca (F := F) ca leaf = Done (Ok tt).
Proof using Type.
  intros [(x & y & Hl & [ca_cn Hc] & Hv)]. destruct (verify_signed_by_of _ _ _ _ _ _ Hl Hc) as (der & Hd & E).
  unfold MtlsTests.verify_signed_by_accepts_correct_ca. rewrite Hd. cbn. by rewrite E, Hv.
Qed.

(** The signature does not verify with the key of the other CA. *)
Lemma verify_rejects_passes leaf cn x ca2 ca_cn y e :
  one_cert leaf cn x -> one_cert ca2 ca_cn y -> verify_signature x (public_key y) = Err e ->
  MtlsTests.verify_signed_by_rejects_wrong_ca (F := F) ca2 leaf = Done (Ok tt).
Proof using Type.
  intros Hl Hc Hv. destruct (verify_signed_by_of _ _ _ _ _ _ Hl Hc) as (der & Hd & E).
  unfold MtlsTests.verify_signed_by_rejects_wrong_ca. rewrite Hd. cbn. by rewrite E, Hv.
Qed.

(** rustls takes the keys, the CA as a root, and the certificates. *)
Lemma tls_configs_pass ca server_cert server_key client_cert client_key :
  ca_and_leaf ca server_cert "fleet-server" -> ca_and_leaf ca client_cert "robot-001" ->
  (forall k, k ∈ [server_key; client_key] -> exists key, pemfile_private_key k = Ok (Some key)) ->
  (forall store der, is_ok (root_add store der) = true) ->
  (forall roots, is_ok (client_verifier roots) = true) ->
  (forall v roots certs key, is_ok (server_config Mtls.TLS13 v certs key) = true /\
     is_ok (client_config Mtls.TLS13 roots certs key) = true) ->
  MtlsTests.tls_configs_build_from_rcgen_certs (F := F) ca server_cert server_key client_cert client_key =
    Done (Ok tt).
Proof using Type.
  intros [(x & y & Hs & [ca_cn Hc] & _)] [(x' & _ & Hl & _ & _)] Hk Hroot Hver Hcfg.
  destruct (certs_of _ _ _ Hs) as (d1 & E1 & _), (certs_of _ _ _ Hc) as (d2 & E2 & _),
    (certs_of _ _ _ Hl) as (d3 & E3 & _).
  destruct (Hk server_key) as [k1 K1]; [pick_row|]. destruct (Hk client_key) as [k2 K2]; [pick_row|].
  unfold MtlsTests.tls_configs_build_from_rcgen_certs, Mtls.server_tls_config, Mtls.client_tls_config,
    Mtls.root_store_from_pem, Mtls.private_key_from_pem.
  rewrite E1, E2, E3, K1, K2. cbn.
  pose proof (Hroot root_empty d2) as Hr. destruct (root_add root_empty d2) as [roots| |]; [|done..]. cbn.
  pose proof (Hver roots) as Hv. destruct (client_verifier roots) as [v| |]; [|done..]. cbn.
  destruct (Hcfg v roots [d1] k1) as [Hsc _], (Hcfg v roots [d3] k2) as [_ Hcc].
  destruct (server_config _ _ _ _); [|done..]. cbn. by destruct (client_config _ _ _ _).
Qed.
End pass.

Lemma owner_mode umask : Z.land umask 384 = 0%Z -> Z.land (Z.ldiff Csr.owner_only umask) 511 = 384%Z.
Proof.
  intros Hum. replace (Z.ldiff Csr.owner_only umask) with 384%Z; [done|].
  apply Z.bits_inj'. intros n _. rewrite Z.ldiff_spec.
  assert (Z.testbit (Z.land umask 384) n = false) as Hn by (rewrite Hum; apply Z.testbit_0_l).
  rewrite Z.land_spec in Hn. unfold Csr.owner_only. by destruct (Z.testbit umask n), (Z.testbit 384 n).
Qed.

#[local] Arguments Z.ldiff : simpl never.
#[local] Arguments Z.land : simpl never.
#[local] Opaque Csr.owner_only.

(** On a disk that takes writes: rcgen makes a key and a request for it. *)
Section csr_pass.
Context `{PkiLib} (umask : Z) (envs : nat -> AgentEnv) (w : World (S := unit)) (key_path : string).
Context (key : KeyPair) (request : Csr) (csr_pem : string).
Context (Hio : forall n, io_result (envs n) = Ok tt) (Hkey : forall n, new_key (envs n) = Ok key).
Context (Hnew : disk w !! key_path = None).
Context (Hreq : forall cn, serialize_request cn key = Ok request) (Hpem : csr_pem_of request = Ok csr_pem).

Abbreviation passes t := (passes (HandlerIn0 := csr_test_handler (umask := umask)) t envs w).

(** A umask that takes no right from the owner. *)
Lemma generate_csr_mode_passes :
  csr_pem <> "" -> Z.land umask 384 = 0%Z ->
  passes (CsrTests.generate_csr_writes_key_with_correct_mode key_path).
Proof using All.
  intros Hne Hum. unfold Testing.passes. cbn. rewrite Hkey. cbn. do 2 (rewrite !Hio; cbn). rewrite Hreq. cbn.
  rewrite Hpem. cbn. rewrite bool_decide_eq_false_2 by done. cbn.
  unfold write_at_start, open_truncate. rewrite lookup_alter_eq, lookup_insert_eq, Hnew. cbn.
  rewrite owner_mode by done. by eexists.
Qed.

(** [ca_cert_pem] and [ca_key_pem] are a CA that signs the request for thirty
    days to the certificate [cert]. *)
Lemma sign_csr_round_trip_passes ca_cert_pem ca_key_pem now ca_key params ca csr not_after cert :
  key_pair_from_pem ca_key_pem = Ok ca_key -> ca_params_from_pem ca_cert_pem = Ok params ->
  self_signed params ca_key = Ok ca -> csr_params_from_pem csr_pem = Ok csr ->
  date_add_days now 30 = Some not_after -> signed_by csr now not_after ca ca_key = Ok cert ->
  contains "BEGIN CERTIFICATE" (cert_pem cert) = true ->
  passes (CsrTests.sign_csr_round_trip key_path ca_cert_pem ca_key_pem now).
Proof using All.
  intros E1 E2 E3 E4 E5 E6 E7. unfold Testing.passes. cbn. rewrite Hkey. cbn. do 2 (rewrite !Hio; cbn).
  rewrite Hreq. cbn. rewrite Hpem. cbn. unfold Csr.sign_csr.
  rewrite E1, E2. cbn. rewrite E3. cbn. rewrite E4. cbn. rewrite E5. cbn. rewrite E6. cbn.
  rewrite E7. by eexists.
Qed.
End csr_pass.
