(* ===== verification/TestExamples.v ===== *)
(** * The repository's tests at a concrete store, over the toy PKI *)

From stdpp Require Import pretty.
From S2P Require Import Prelude Sqlite Async Pki DeviceStore DeviceStoreSpec DeviceStoreSqlite Grpc DmsEffects.
From S2P Require Import Enrollment ToyPki Testing StoreTests DmsTests GrpcTests.
From S2P Require Import OtaStore OtaDispatcher OtaServer OtaTests ArtifactStore ArtifactServer ArtifactClaims ArtifactTests.

Section examples.
#[local] Instance release : BuildProfile := false.
#[local] Existing Instance toy_pki.

(** A clock that stands still, and new ids. *)
Definition test_env (n : nat) : Env := toy_env 100 ("u" +:+ pretty n).

Lemma test_env_good : good_run test_env.
Proof.
  split; [by intros n x| |done]. intros n m E.
  change ("u" +:+ pretty n = "u" +:+ pretty m) in E. by apply (inj (String.app "u")), (inj pretty) in E.
Qed.

(** [SqliteDeviceStore::new(":memory:")]. *)
Definition empty_store : Mutex Tables := Sqlite_.new empty_tables.

Lemma empty_store_healthy : healthy empty_store.
Proof. split; reflexivity. Qed.

Lemma device_store_tests_pass_witness :
  Forall (fun t => passes t test_env empty_store) (Store.tests [true; false]).
Proof.
  apply device_store_tests_pass.
  - apply test_env_good.
  - intros n m _. reflexivity.
Defined.

Definition toy_leaf (serial : string) : list ToyCert := [toy_cert (serial +:+ "|device-ca")].

Example dms_unit_tests_example :
  mock_passes Enroll.mock_success
    (Enroll.bootstrap_enroll_success "CERTIFICATE" "key" "csr" "device-ca" "SN-ENROLL-001|device-ca") test_env /\
  Beats.heartbeat_touch_last_seen_called_per_message toy_status_text test_env = true.
Proof.
  pose proof (dms_unit_tests_pass toy_text toy_status_text test_env (fun _ => "device-ca")
    (fun s => s +:+ "|device-ca") toy_leaf "other-ca" "CERTIFICATE" "key" "csr") as H.
  split; apply H; try (intros n; reflexivity); split.
  all: try (intros x Hx; repeat (apply elem_of_cons in Hx as [->|Hx]; [try reflexivity; by eexists|]);
            by apply not_elem_of_nil in Hx).
  all: intros n; by eexists.
Defined.

#[local] Existing Instance stable_order.
#[local] Existing Instance queue_broadcast.

Example ota_unit_tests_example :
  Forall (fun t => passes t test_env (mkOta (JobStore.new ∅) ∅)) (JobTests.tests ++ DispatchTests.tests).
Proof. apply ota_unit_tests_pass, test_env_good. Qed.

(** The clock goes two seconds ahead at each effect. *)
Definition slow_env (n : nat) : Env := toy_env (2 * Z.of_nat n) ("u" +:+ pretty n).

Lemma slow_env_good : good_run slow_env.
Proof. destruct test_env_good as [Hf Hu Hp]. by split. Qed.

Example registry_tests_example :
  Forall (fun t => passes (HandlerIn0 := art_handler (fun _ : Env => None : MockObjectStore)) t slow_env
    (SqliteRegistry.new ∅)) RegistryTests.tests.
Proof. apply (artifact_unit_tests_pass toy_text slow_env slow_env_good); done. Qed.

Definition toy_csr (_ : string) (k : nat) : string := "CERTIFICATE" +:+ pretty k.

Lemma grpc_tests_pass_witness :
  Forall (fun t => passes t test_env empty_store)
    (Grpc_.tests toy_text toy_status_text "CERTIFICATE" "key" "device-ca"
       (fun s => [mkToyCert s "device-ca" "k"]) toy_csr [false; true; true]).
Proof.
  apply (grpc_tests_pass toy_text toy_status_text "CERTIFICATE" "key" "device-ca" _ toy_csr test_env
    (fun _ s k => toy_csr s k +:+ "|CERTIFICATE")).
  - split; try done.
    + intros s Hs. cbn. unfold Mtls.extract_serial. cbn. by rewrite decide_False.
    + intros n s k. unfold toy_csr. by destruct (pretty k) as [|].
  - apply test_env_good.
  - intros n m _. reflexivity.
  - apply empty_store_healthy.
  - reflexivity.
Defined.
End examples.
